(* ===== verification/_CoqProject ===== *)
-Q . S2P
Prelude.v
Bytes.v
GuestMem.v
Virtq.v
VirtqSpec.v
World.v
Fixtures.v
VirtioRegs.v
VirtioConsole.v
VirtioInput.v
VirtioBlock.v
DiskImage.v
VirtioBlockSpec.v
VirtioBlockThms.v
Hypervisor.v
VmContext.v
Psci.v
ExitHandler.v
VCpu.v
VmWitness.v
Channel.v
TransportInprocess.v
TransportUnix.v
IpcPeer.v
NetWire.v
NetStack.v
NetStackInv.v
NetStackThms.v
NetStackSafe.v
NetStackWit.v
NetStackIo.v
VirtioNet.v
VirtioNetThms.v
VirtioNetWit.v
GpuResource.v
VirtioGpu.v
VirtioGpuThms.v
VirtioGpuWit.v
Devices.v
Fdt.v
Boot.v
UnixSocket.v
TransportWin.v
BootThms.v
BootMachine.v
BootWit.v
Machine.v
Create.v
MachineWit.v
Logger.v
Cli.v
HvfBackend.v
HvfBackendThms.v
HvfBackendWit.v
Facade.v
VzBackend.v
VzBackendThms.v
VzBackendWit.v
FacadeWit.v
SerialPath.v
Session.v
SessionWit.v
ConsoleRx.v
NetRxThread.v
NetStackRun.v
NetStackAcct.v
Teardown.v
NetTcpTx.v
NetRxPath.v
GpuRing.v
NetDownload.v
