(* ===== verification/Prelude.v ===== *)
(** * libcompute-vm: verification library

    libcompute-vm runs a Linux guest on Apple hardware.  A program (the command
    line tool, src/cli) calls [Create] of the public interface; a backend builds
    a machine: guest RAM, vCPU threads, virtio-mmio devices, a device tree.  A
    vCPU runs under Hypervisor.framework until it traps; the exit handler then
    emulates the UART and the clock, answers firmware calls, or routes the
    access to a device.  A device serves the rings its driver publishes in guest
    RAM; the network device sits on a user-mode TCP/IP stack.  Serial ports are
    reached through a small IPC library.  This library models these parts as
    executable definitions and proves what they guarantee.  This file holds the
    shared vocabulary: the error monad, the tactics, and lemmas on lists, bits
    and machine integers.

    ** Parts, sources and files

    - Guest memory ([VMContext::gpa_to_hva], vm_context.hpp/.cpp): GuestMem.  A
      host pointer is an offset into the mapping; any access that leaves it is
      [Err HostOOB].  Bytes has the encodings, World the host effects a device
      can have (with fw_gic.cpp), Fixtures concrete guests for the witnesses.
    - Virtqueues and device registers (the rings and register macros every
      virtio_*.hpp declares): Virtq, VirtioRegs; VirtqSpec states what a
      well-placed ring is and what publishing a used element leaves alone.
    - virtio_block.cpp: VirtioBlock (the device), DiskImage (a disk),
      VirtioBlockSpec (the abstract service), VirtioBlockThms.
    - virtio_console.cpp: VirtioConsole, ConsoleRx.  virtio_input.cpp:
      VirtioInput.  virtio_gpu.cpp: GpuResource, VirtioGpu, VirtioGpuThms,
      GpuRing (its control queue), VirtioGpuWit.  virtio_net.cpp: VirtioNet,
      VirtioNetThms, VirtioNetWit, NetRxThread (its receive thread, mutex and
      condition variable), NetRxPath (host frames through that thread into guest
      buffers), NetDownload (a host peer's stream through the stack and that
      thread into guest memory), NetTcpTx (the device on the stack of
      network.cpp).
    - network.cpp: NetWire (frames and checksums), NetStack (the handlers, the
      connection table, the threads' atomic pieces), NetStackInv (its
      invariant), NetStackThms, NetStackSafe, NetStackIo (the I/O and listening
      threads), NetStackRun (all threads interleaved, the descriptors and the
      objects' owners), NetStackAcct (its accounts), NetStackWit.
    - Hypervisor.framework is the class [Hv] with its laws (Hypervisor).
      VmContext is the central state; Psci models fw_psci.cpp, ExitHandler
      exit_handler.cpp, VCpu the vCPU threads of vcpu.cpp and
      [VMContext::run_all] as a step relation.
    - Devices states, as the class [DeviceLaws], what a device promises the
      machine, and discharges it for every device; Machine proves the exit
      handler's theorems against that class.  Create models memory.cpp and the
      [create_*] functions and follows a machine through its life; Teardown
      models the host resources [Memory::init] takes and [~VMContext] returns.
    - fw_dtb.cpp and fw_loader.cpp: Fdt (the builder, and a reader of the format
      written on its own), Boot (the tree of the machine, the loader, the boot
      sequence), BootThms, BootMachine, BootWit.
    - hvf_backend.cpp: HvfBackend, HvfBackendThms, HvfBackendWit.  vm.cpp and
      backend.hpp: Facade, against the class of backends [BackendLaws];
      FacadeWit.  vz_backend.mm: VzBackend (the configuration it builds for
      Virtualization.framework, the pipes and channels of its serial ports, its
      wait for the framework), VzBackendThms, VzBackendWit.  Both backends
      satisfy [BackendLaws].
    - src/ipc: Channel (framing, sending and the read loop over any transport,
      the class [Transport] with [StreamLaws]), TransportInprocess,
      TransportUnix, UnixSocket, TransportWin (the transports), IpcPeer (server
      and client with their threads).
    - logger.hpp: Logger.  src/cli/main.cpp: Cli, and Session for what the
      command makes of its configuration (SessionWit).  SerialPath composes the
      UART, the pump thread, the channel and the command's terminal.

    Definitions keep the names of the source.  State is a record passed along;
    code that can fail returns [res]: [Err HostOOB] is an access outside guest
    RAM or a C++ array, [Err Thrown] an exception, [Err Deadlock] a thread that
    waits for itself or for ever, [Err OutOfFuel] an unfinished loop.  Integers
    are [Z] with the wrap-around of their C++ type written out ([u8], [u16],
    [u32], [u64]).  Concurrency is explicit: threads are step relations (VCpu,
    IpcPeer, NetRxThread, Create), or sequences of atomic pieces where the code
    holds a lock (NetStackRun, SerialPath).

    ** What the theorems show

    - Data paths, end to end through guest RAM: the disk serves exactly the
      published requests and reads back what was written (process_rq_refines,
      block_write_then_read); console, input, network and display move exactly
      the published data, in order, and write nowhere else
      (console_tx_delivers, console_rx_stream, input_events_fifo,
      net_tx_delivers, net_rx_stream, gpu_transfer_copies), and the display runs
      its commands in order (gpu_ring_runs); what they return to the guest is
      recorded in the used ring, element by element; the stack is a
      reliable in-order byte stream in both directions (tcp_stream_in_order,
      io_thread_stream), and what a host peer sends reaches guest memory under
      any interleaving (download_stream); frames reach the guest in order across
      the device's threads (net_rx_fifo); what the guest prints reaches the terminal
      (serial_output); messages survive framing over every transport
      (channel_delivers, inprocess_roundtrip, unix_transfers).
    - Invariants: the machine stays well formed from [Memory::init] on, under
      any interleaving of creation, guest exits and host events
      (machine_invariant, vm_exit_keeps, gpu_write_invariant); no honest frame
      faults (handle_frame_safe), and the stack's threads keep every connection
      owned and every descriptor accounted for (stack_accounts); a vCPU starts
      with what its CPU_ON said (cpu_on_handshake); the callbacks of a channel
      follow a protocol (callback_protocol, stop_silences); handles and descriptors are accounted
      for (facade_routes, destroy_undoes_create, vz_create_runs,
      vz_destroy_undoes), and a machine returns the memory it took
      (machine_released).
    - Progress: no wake-up is lost for a frame (net_rx_progress), published
      messages are delivered (messages_delivered).
    - Agreement of parts written separately: the range checks of the exit
      handler and the memory map (mmio_routes), the device tree and the
      machine (dtb_matches_machine, fdt_roundtrip, dtb_readable), the command
      line and the configuration (command_line_roundtrip), the configuration and
      the machine built from it (create_boots, create_registers, run_creates).
    - The limits, proved as such: inputs that hang, overrun or wedge the code
      (cyclic_chain_hangs, initrd_overrun, tcp_data_deadlocks, shutdown_hangs,
      create_failure_final, facade_collision, net_destructor, stale_exit_reached,
      dtor_leaves_threads, name_is_shared, early_stop_lost, vz_create_hangs).

    ** Fuel

    Loops over guest memory take fuel because the guest controls them.  One
    fuel bounds both the chains of a notification and the descriptors of a
    chain; the refinements assume only that it covers the published data, and
    cyclic_chain_hangs shows that no fuel covers a cycle.  The transports' loops
    take the byte count, [read_loop] the number of messages, [transfer_rows] the
    number of rows: each theorem states that this is enough.  Threads that run
    for ever are given the outcomes of their system calls, one per round.

    ** Not modelled

    - Virtualization.framework, Foundation and the main dispatch queue: the VZ
      backend gets what they answer from its environment.  Reference counts of
      Objective-C objects; the window and its events ([UI] of that backend).
    - The texts of log and usage messages; [vsnprintf], the JSON library, the
      kernel and Hypervisor.framework, which are parameters with laws.
    - Polling periods beyond the order of steps they allow; [sched_yield] and
      [usleep]; a failing [std::thread] constructor.
    - Use of a destroyed object by a detached thread: NetStackRun stops at
      [~Stack] and shows which threads are left (dtor_leaves_threads).
    - Bit-level layout of C++ objects other than those shared with the guest,
      the network or a peer.

    ** Next

    Signal handling of the command beyond its effect (re-entrancy of the locks
    it takes); the guest's transmissions and several connections at once in
    NetDownload. *)

From Stdlib Require Export ZArith Lia.
From stdpp Require Export base tactics option list numbers gmap.

#[export] Set Default Goal Selector "!".

Declare Scope vm_scope.
Delimit Scope vm_scope with vm.
Global Open Scope Z_scope.

(** ** Outcomes of fallible code *)

(** What stops an operation of the model: an access outside the mapping that
    backs guest memory (or outside a C++ array), a loop that did not end within
    the fuel it was given, a thread locking a [std::mutex] it already holds, or
    a C++ exception. *)
Inductive fault : Type :=
  | HostOOB
  | OutOfFuel
  | Deadlock
  | Thrown.

#[export] Instance fault_eq_dec : EqDecision fault.
Proof. solve_decision. Defined.

Inductive res (A : Type) : Type :=
  | Ok (a : A)
  | Err (e : fault).
Arguments Ok {A} a.
Arguments Err {A} e.

#[export] Instance res_ret : MRet res := @Ok.
#[export] Instance res_bind : MBind res := λ A B f m,
  match m with Ok a => f a | Err e => Err e end.
#[export] Instance res_fmap : FMap res := λ A B f m,
  match m with Ok a => Ok (f a) | Err e => Err e end.

Definition is_Ok {A} (m : res A) : Prop := ∃ a, m = Ok a.

(** The value of an optional pointer that the code dereferences unchecked. *)
Definition deref {A} (o : option A) : res A :=
  match o with Some a => Ok a | None => Err HostOOB end.

(** [guard_res b e]: the operation is defined only when [b] holds. *)
Definition guard_res (b : bool) (e : fault) : res unit :=
  if b then Ok tt else Err e.

Section res_lemmas.
Context {A B C : Type}.

Lemma bind_Ok (a : A) (f : A → res B) : Ok a ≫= f = f a.
Proof. reflexivity. Qed.

Lemma bind_Err (e : fault) (f : A → res B) : Err e ≫= f = Err e.
Proof. reflexivity. Qed.

Lemma bind_Ok_inv (m : res A) (f : A → res B) (b : B) :
  m ≫= f = Ok b → ∃ a, m = Ok a ∧ f a = Ok b.
Proof. destruct m; cbn; [eauto | discriminate]. Qed.

Lemma bind_assoc (m : res A) (f : A → res B) (g : B → res C) :
  (m ≫= f) ≫= g = m ≫= (λ x, f x ≫= g).
Proof. by destruct m. Qed.

Lemma guard_res_Ok b e : guard_res b e = Ok tt ↔ b = true.
Proof. by destruct b. Qed.
End res_lemmas.

(** Invert every [_ ≫= _ = Ok _] of the context. *)
Ltac inv_bind :=
  repeat match goal with
  | H : mbind ?f ?m = Ok ?b |- _ =>
      let a := fresh "v" in let E := fresh "Hm" in
      apply bind_Ok_inv in H as (a & E & H)
  | H : mret ?a = Ok ?b |- _ => unfold mret, res_ret in H
  | H : Ok ?a = Ok ?b |- _ => injection H as H; try subst
  | H : Err ?a = Ok ?b |- _ => discriminate H
  | H : (match ?p with (_, _) => _ end) = Ok _ |- _ => destruct p eqn:?
  end.

(** ** Machine words *)

Definition u8  (x : Z) : Z := x mod 0x100.
Definition u16 (x : Z) : Z := x mod 0x10000.
Definition u32 (x : Z) : Z := x mod 0x100000000.
Definition u64 (x : Z) : Z := x mod 0x10000000000000000.

(** Two's complement reading of a 64-bit pattern ([static_cast<int64_t>]). *)
Definition i64 (x : Z) : Z :=
  if u64 x <? 0x8000000000000000 then u64 x else u64 x - 0x10000000000000000.

(** [x] fits an unsigned word of [w] bits. *)
Definition fits (w x : Z) : Prop := 0 ≤ x < 2 ^ w.

Ltac words := unfold u8, u16, u32, u64, fits in *.

(** [lia] with the quotients and remainders by constants expanded. *)
Ltac zlia := words; Z.div_mod_to_equations; lia.

Section words.
Lemma u8_range x : 0 ≤ u8 x < 0x100.
Proof. zlia. Qed.
Lemma u16_range x : 0 ≤ u16 x < 0x10000.
Proof. zlia. Qed.
Lemma u32_range x : 0 ≤ u32 x < 0x100000000.
Proof. zlia. Qed.
Lemma u64_range x : 0 ≤ u64 x < 0x10000000000000000.
Proof. zlia. Qed.
Lemma u8_id x : 0 ≤ x < 0x100 → u8 x = x.
Proof. apply Z.mod_small. Qed.
Lemma u16_id x : 0 ≤ x < 0x10000 → u16 x = x.
Proof. apply Z.mod_small. Qed.
Lemma u32_id x : 0 ≤ x < 0x100000000 → u32 x = x.
Proof. apply Z.mod_small. Qed.
Lemma u64_id x : 0 ≤ x < 0x10000000000000000 → u64 x = x.
Proof. apply Z.mod_small. Qed.
Lemma i64_id x : 0 ≤ x < 0x8000000000000000 → i64 x = x.
Proof. intros ?. unfold i64. rewrite u64_id by lia. case_match; lia. Qed.

Lemma fits_land w a b : 0 ≤ w → fits w a → fits w (Z.land a b).
Proof.
  intros Hw [H0 H1]. assert (0 ≤ Z.land a b) by (apply Z.land_nonneg; by left).
  split; [done|]. apply Z.bounded_iff_bits_nonneg; [done..|].
  intros l Hl. rewrite Z.land_spec.
  by rewrite (proj1 (Z.bounded_iff_bits_nonneg w a Hw H0) H1 l Hl).
Qed.

Lemma fits_lor w a b : 0 ≤ w → fits w a → fits w b → fits w (Z.lor a b).
Proof.
  intros Hw [H0 H1] [H2 H3]. assert (0 ≤ Z.lor a b) by by apply Z.lor_nonneg.
  split; [done|]. apply Z.bounded_iff_bits_nonneg; [done..|].
  intros l Hl. rewrite Z.lor_spec.
  rewrite (proj1 (Z.bounded_iff_bits_nonneg w a Hw H0) H1 l Hl).
  by rewrite (proj1 (Z.bounded_iff_bits_nonneg w b Hw H2) H3 l Hl).
Qed.
End words.

(** Decide the comparisons between closed constants in the goal. *)
Ltac const_eqb :=
  repeat match goal with
  | |- context [?a =? ?b] =>
      let v := eval vm_compute in (a =? b) in
      match v with
      | true => change (a =? b) with true
      | false => change (a =? b) with false
      end
  end; cbn match.

(** Close a closed equation by evaluation; leave any other goal. *)
Ltac eval_eq :=
  lazymatch goal with
  | |- _ = _ => vm_compute; reflexivity
  | |- _ ≤ _ => vm_compute; discriminate
  | |- _ < _ => vm_compute; reflexivity
  | |- _ => idtac
  end.
