(* ===== verification/Bytes.v ===== *)
(** * Bytes: byte strings, little- and big-endian encodings

    The guest's rings, the block requests and the IPC frames are little-endian
    (the host is little-endian and the code overlays packed structs); the device
    tree and the network headers are big-endian.  A byte string is a [list Z]
    whose elements are below 256. *)

From S2P Require Import Prelude.

Abbreviation bytes := (list Z).

Definition is_byte (b : Z) : Prop := 0 ≤ b < 256.
Definition wf_bytes (bs : bytes) : Prop := Forall is_byte bs.

(** The executable test, for concrete byte strings. *)
Definition wf_bytesb (bs : bytes) : bool := forallb (λ b, (0 <=? b) && (b <? 256)) bs.

Lemma wf_bytesb_ok bs : wf_bytesb bs = true → wf_bytes bs.
Proof.
  unfold wf_bytesb, wf_bytes, is_byte. rewrite forallb_forall. intros H.
  apply Forall_forall. intros b Hb. specialize (H b). rewrite <- list_elem_of_In in H. 
  specialize (H Hb). lia.
Qed.

(** [n] bytes of [x], least significant first, and back. *)
Fixpoint le_enc (n : nat) (x : Z) : bytes :=
  match n with
  | O => []
  | S n => x mod 256 :: le_enc n (x / 256)
  end.

Fixpoint le_dec (bs : bytes) : Z :=
  match bs with
  | [] => 0
  | b :: bs => b + 256 * le_dec bs
  end.

Definition be_enc (n : nat) (x : Z) : bytes := reverse (le_enc n x).
Definition be_dec (bs : bytes) : Z := le_dec (reverse bs).

Section endian.
Lemma length_le_enc n x : length (le_enc n x) = n.
Proof. revert x. induction n; intros; cbn; auto. Qed.

Lemma length_be_enc n x : length (be_enc n x) = n.
Proof. unfold be_enc. by rewrite length_reverse, length_le_enc. Qed.

Lemma wf_le_enc n x : wf_bytes (le_enc n x).
Proof.
  unfold wf_bytes, is_byte. revert x.
  induction n; intros; cbn; constructor; [zlia | done].
Qed.

Lemma wf_be_enc n x : wf_bytes (be_enc n x).
Proof. apply Forall_reverse, wf_le_enc. Qed.

Lemma le_dec_enc n x : le_dec (le_enc n x) = x mod 256 ^ Z.of_nat n.
Proof.
  revert x. induction n as [|n IH]; intros x.
  - cbn. by rewrite Z.mod_1_r.
  - cbn [le_enc le_dec]. rewrite IH, Nat2Z.inj_succ, Z.pow_succ_r by lia.
    assert (0 < 256 ^ Z.of_nat n) by (apply Z.pow_pos_nonneg; lia).
    rewrite Z.rem_mul_r by lia. lia.
Qed.

Lemma be_dec_enc n x : be_dec (be_enc n x) = x mod 256 ^ Z.of_nat n.
Proof. unfold be_dec, be_enc. by rewrite reverse_involutive, le_dec_enc. Qed.

Lemma le_dec_range bs : wf_bytes bs → 0 ≤ le_dec bs < 256 ^ Z.of_nat (length bs).
Proof.
  unfold wf_bytes, is_byte. induction 1 as [|b bs Hb _ IH]; cbn [le_dec length].
  - cbn. lia.
  - rewrite Nat2Z.inj_succ, Z.pow_succ_r by lia. lia.
Qed.

Lemma le_enc_dec bs : wf_bytes bs → le_enc (length bs) (le_dec bs) = bs.
Proof.
  unfold wf_bytes, is_byte. induction 1 as [|b bs Hb _ IH]; [done|].
  cbn [length le_enc le_dec]. f_equal.
  - zlia.
  - replace ((b + 256 * le_dec bs) / 256) with (le_dec bs) by zlia. done.
Qed.

Lemma be_enc_dec bs : wf_bytes bs → be_enc (length bs) (be_dec bs) = bs.
Proof.
  intros H. unfold be_enc, be_dec. rewrite <- (length_reverse bs).
  rewrite le_enc_dec by (by apply Forall_reverse). apply reverse_involutive.
Qed.

Lemma le_enc_app n m x :
  le_enc (n + m) x = le_enc n x ++ le_enc m (x / 256 ^ Z.of_nat n).
Proof.
  revert x. induction n as [|n IH]; intros x.
  - cbn [Nat.add le_enc app]. by rewrite Z.div_1_r.
  - cbn [Nat.add le_enc app]. f_equal. rewrite IH.
    rewrite Nat2Z.inj_succ, Z.pow_succ_r by lia.
    rewrite Z.div_div; [done | lia | apply Z.pow_pos_nonneg; lia].
Qed.

Lemma le_dec_app xs ys :
  le_dec (xs ++ ys) = le_dec xs + 256 ^ Z.of_nat (length xs) * le_dec ys.
Proof.
  induction xs as [|x xs IH]; cbn [app le_dec length].
  - cbn. lia.
  - rewrite IH, Nat2Z.inj_succ, Z.pow_succ_r by lia. lia.
Qed.

Lemma le_dec_enc16 x : le_dec (le_enc 2 x) = u16 x.
Proof. apply le_dec_enc. Qed.
Lemma le_dec_enc32 x : le_dec (le_enc 4 x) = u32 x.
Proof. apply le_dec_enc. Qed.
Lemma le_dec_enc64 x : le_dec (le_enc 8 x) = u64 x.
Proof. apply le_dec_enc. Qed.
Lemma be_dec_enc16 x : be_dec (be_enc 2 x) = u16 x.
Proof. apply be_dec_enc. Qed.
Lemma be_dec_enc32 x : be_dec (be_enc 4 x) = u32 x.
Proof. apply be_dec_enc. Qed.

Lemma wf_bytes_app xs ys : wf_bytes (xs ++ ys) ↔ wf_bytes xs ∧ wf_bytes ys.
Proof. apply Forall_app. Qed.
Lemma wf_bytes_take n xs : wf_bytes xs → wf_bytes (take n xs).
Proof. apply Forall_take. Qed.
Lemma wf_bytes_drop n xs : wf_bytes xs → wf_bytes (drop n xs).
Proof. apply Forall_drop. Qed.
Lemma wf_bytes_replicate n b : is_byte b → wf_bytes (replicate n b).
Proof. apply Forall_replicate. Qed.
End endian.

Create HintDb vm.
#[export] Hint Resolve wf_le_enc wf_be_enc wf_bytes_take wf_bytes_drop : vm.
Create Rewrite HintDb len.
Create Rewrite HintDb words.
#[export] Hint Rewrite length_le_enc length_be_enc @length_app @length_take @length_drop
  @length_replicate @length_reverse : len.
#[export] Hint Rewrite le_dec_enc16 le_dec_enc32 le_dec_enc64 be_dec_enc16 be_dec_enc32 : words.

(** Decide a goal on list lengths. *)
Ltac len := repeat progress (autorewrite with len in *; cbn [length] in *); try lia.
