(* ===== verification/GuestMem.v ===== *)
(** * GuestMem: guest RAM and the GPA to HVA translation

    Models the RAM part of [VMContext] (src/src/hvf/vm_context.hpp and
    vm_context.cpp): the mapping created by [Memory::init], [gpa_to_hva], and
    the loads and stores the devices make through the host pointers it returns.
    A host pointer into the mapping is its offset from [ram_hva_]; an access
    that leaves the mapping is [Err HostOOB]. *)

From S2P Require Import Prelude Bytes.

Definition kGpaRamBase : Z := 0x40000000.
Definition kGpaDtbLoad : Z := 0x40000000.
Definition kGpaKernelLoad : Z := 0x40400000.
Definition kGpaInitrdLoad : Z := 0x48000000.

(** [ram_mapped] is [ram_hva_ != nullptr]; bytes never written read as the
    zeros of a fresh [ftruncate]d shared memory object. *)
Record Ram := mkRam {
  ram_mapped : bool;
  ram_gpa : Z;
  ram_size : Z;
  ram_data : gmap Z Z;
}.

(** The state after [Memory::init] called [set_ram]. *)
Definition set_ram (gpa size : Z) : Ram := mkRam true gpa size ∅.

Definition gpa_to_hva (m : Ram) (gpa : Z) : option Z :=
  if ram_mapped m && (ram_gpa m <=? gpa) && (gpa <? u64 (ram_gpa m + ram_size m))
  then Some (gpa - ram_gpa m) else None.

Definition peek (m : Ram) (p : Z) : Z := default 0 (ram_data m !! p).

Definition poke (m : Ram) (p b : Z) : Ram :=
  mkRam (ram_mapped m) (ram_gpa m) (ram_size m) (<[p := b]> (ram_data m)).

Fixpoint peeks (m : Ram) (p : Z) (n : nat) : bytes :=
  match n with O => [] | S n => peek m p :: peeks m (p + 1) n end.

Fixpoint pokes (m : Ram) (p : Z) (bs : bytes) : Ram :=
  match bs with [] => m | b :: bs => pokes (poke m p b) (p + 1) bs end.

(** [p, p + n) lies in the mapping. *)
Definition in_ram (m : Ram) (p : Z) (n : nat) : bool :=
  (0 <=? p) && (p + Z.of_nat n <=? ram_size m).

Definition load (m : Ram) (p : Z) (n : nat) : res bytes :=
  if in_ram m p n then Ok (peeks m p n) else Err HostOOB.

Definition store (m : Ram) (p : Z) (bs : bytes) : res Ram :=
  if in_ram m p (length bs) then Ok (pokes m p bs) else Err HostOOB.

Definition load16 (m : Ram) (p : Z) : res Z := le_dec <$> load m p 2.
Definition load32 (m : Ram) (p : Z) : res Z := le_dec <$> load m p 4.
Definition load64 (m : Ram) (p : Z) : res Z := le_dec <$> load m p 8.
Definition store8 (m : Ram) (p x : Z) : res Ram := store m p (le_enc 1 x).
Definition store16 (m : Ram) (p x : Z) : res Ram := store m p (le_enc 2 x).
Definition store32 (m : Ram) (p x : Z) : res Ram := store m p (le_enc 4 x).

(** The ranges [p, p + n) and [q, q + k) do not meet. *)
Definition disjoint (p n q k : Z) : Prop := p + n ≤ q ∨ q + k ≤ p.

(** Two memories of the same mapping that agree on [q, q + k). *)
Definition same_map (m m' : Ram) : Prop :=
  ram_mapped m' = ram_mapped m ∧ ram_gpa m' = ram_gpa m ∧ ram_size m' = ram_size m.
Definition agree (m m' : Ram) (q k : Z) : Prop :=
  ∀ x, q ≤ x < q + k → peek m' x = peek m x.

(** Every byte of RAM is a byte, and the mapping does not wrap. *)
Record wf_ram (m : Ram) : Prop := {
  wf_ram_bytes : ∀ p, is_byte (peek m p);
  wf_ram_gpa : 0 ≤ ram_gpa m;
  wf_ram_size : 0 ≤ ram_size m;
  wf_ram_end : ram_gpa m + ram_size m < 2 ^ 64;
}.

Section translation.
Lemma gpa_to_hva_Some m gpa p :
  wf_ram m → gpa_to_hva m gpa = Some p →
  0 ≤ p < ram_size m ∧ gpa = ram_gpa m + p ∧ ram_mapped m = true.
Proof.
  intros [_ Hg Hs He] H. unfold gpa_to_hva in H.
  rewrite u64_id in H by lia.
  destruct (ram_mapped m); [|done]. case_match; [|done].
  simplify_eq. lia.
Qed.

Lemma gpa_to_hva_in m gpa :
  wf_ram m → ram_mapped m = true → ram_gpa m ≤ gpa < ram_gpa m + ram_size m →
  gpa_to_hva m gpa = Some (gpa - ram_gpa m).
Proof.
  intros [_ Hg Hs He] Hm H. unfold gpa_to_hva. rewrite Hm, u64_id by lia.
  case_match; [done | lia].
Qed.

Lemma gpa_to_hva_same m m' gpa : same_map m m' → gpa_to_hva m' gpa = gpa_to_hva m gpa.
Proof. intros (H1 & H2 & H3). unfold gpa_to_hva. by rewrite H1, H2, H3. Qed.
End translation.

Section access.
Lemma peek_poke_eq m p b : peek (poke m p b) p = b.
Proof. unfold peek, poke. cbn. by rewrite lookup_insert_eq. Qed.

Lemma peek_poke_ne m p b q : p ≠ q → peek (poke m p b) q = peek m q.
Proof. intros H. unfold peek, poke. cbn. by rewrite lookup_insert_ne. Qed.

Lemma peek_pokes_out m p bs q :
  q < p ∨ p + Z.of_nat (length bs) ≤ q → peek (pokes m p bs) q = peek m q.
Proof.
  revert m p. induction bs as [|b bs IH]; intros m p H; [done|].
  cbn [pokes length] in *. rewrite IH by lia. apply peek_poke_ne. lia.
Qed.

Lemma peek_pokes_in m p bs i b :
  bs !! i = Some b → peek (pokes m p bs) (p + Z.of_nat i) = b.
Proof.
  revert m p i. induction bs as [|c bs IH]; intros m p i H; [done|].
  cbn [pokes]. destruct i as [|i]; cbn in H.
  - simplify_eq. rewrite peek_pokes_out by lia.
    rewrite Z.add_0_r. apply peek_poke_eq.
  - replace (p + Z.of_nat (S i)) with (p + 1 + Z.of_nat i) by lia. by apply IH.
Qed.

Lemma length_peeks m p n : length (peeks m p n) = n.
Proof. revert p. induction n; intros; cbn; auto. Qed.

Lemma lookup_peeks m p n i :
  (i < n)%nat → peeks m p n !! i = Some (peek m (p + Z.of_nat i)).
Proof.
  revert p i. induction n as [|n IH]; intros p i H; [lia|].
  destruct i as [|i]; cbn [peeks lookup list_lookup].
  - by rewrite Z.add_0_r.
  - replace (p + Z.of_nat (S i)) with (p + 1 + Z.of_nat i) by lia. apply IH. lia.
Qed.

Lemma peeks_pokes m p bs : peeks (pokes m p bs) p (length bs) = bs.
Proof.
  apply list_eq. intros i. destruct (bs !! i) as [b|] eqn:Hb.
  - rewrite lookup_peeks by (by eapply lookup_lt_Some).
    f_equal. by apply peek_pokes_in.
  - apply lookup_ge_None in Hb. apply lookup_ge_None. by rewrite length_peeks.
Qed.

Lemma peeks_agree m m' p n : agree m m' p (Z.of_nat n) → peeks m' p n = peeks m p n.
Proof.
  revert p. induction n as [|n IH]; intros p H; [done|]. cbn. f_equal.
  - apply H. lia.
  - apply IH. intros x Hx. apply H. lia.
Qed.

Lemma peeks_app m p n k : peeks m p (n + k) = peeks m p n ++ peeks m (p + Z.of_nat n) k.
Proof.
  revert p. induction n as [|n IH]; intros p; cbn [Nat.add peeks app].
  - by rewrite Z.add_0_r.
  - rewrite IH. by replace (p + Z.of_nat (S n)) with (p + 1 + Z.of_nat n) by lia.
Qed.

Lemma wf_peeks m p n : wf_ram m → wf_bytes (peeks m p n).
Proof.
  intros Hm. unfold wf_bytes. revert p.
  induction n; intros p; cbn; constructor; [apply Hm | done].
Qed.

Lemma same_map_pokes m p bs : same_map m (pokes m p bs).
Proof.
  revert m p. induction bs as [|b bs IH]; intros m p; [done|].
  cbn [pokes]. destruct (IH (poke m p b) (p + 1)) as (H1 & H2 & H3). done.
Qed.

Lemma agree_pokes m p bs q k :
  disjoint p (Z.of_nat (length bs)) q k → agree m (pokes m p bs) q k.
Proof. intros H x Hx. apply peek_pokes_out. unfold disjoint in H. lia. Qed.

Lemma wf_pokes m p bs : wf_ram m → wf_bytes bs → wf_ram (pokes m p bs).
Proof.
  intros Hm Hb. revert m p Hm. induction Hb as [|b bs Hb _ IH]; intros m p Hm; [done|].
  cbn [pokes]. apply IH. destruct Hm as [Hp Hg Hs He]. split; try done.
  intros q. destruct (decide (p = q)) as [->|Hne].
  - by rewrite peek_poke_eq.
  - by rewrite peek_poke_ne.
Qed.

Lemma in_ram_spec m p n : in_ram m p n = true ↔ 0 ≤ p ∧ p + Z.of_nat n ≤ ram_size m.
Proof. unfold in_ram. lia. Qed.

Lemma in_ram_same m m' p n : same_map m m' → in_ram m' p n = in_ram m p n.
Proof. intros (_ & _ & H). unfold in_ram. by rewrite H. Qed.

Lemma load_Ok m p n bs : load m p n = Ok bs ↔ in_ram m p n = true ∧ bs = peeks m p n.
Proof. unfold load. destruct (in_ram m p n); split; intros; destruct_and?; by simplify_eq. Qed.

Lemma store_Ok m p bs m' :
  store m p bs = Ok m' ↔ in_ram m p (length bs) = true ∧ m' = pokes m p bs.
Proof.
  unfold store. destruct (in_ram m p (length bs)); split; intros; destruct_and?; by simplify_eq.
Qed.

Lemma load_in m p n : in_ram m p n = true → load m p n = Ok (peeks m p n).
Proof. intros H. by apply load_Ok. Qed.

Lemma store_in m p bs : in_ram m p (length bs) = true → store m p bs = Ok (pokes m p bs).
Proof. intros H. by apply store_Ok. Qed.

Lemma load_agree m m' p n :
  same_map m m' → agree m m' p (Z.of_nat n) → load m' p n = load m p n.
Proof.
  intros Hs Ha. unfold load. rewrite (in_ram_same m m') by done.
  case_match; [|done]. by rewrite (peeks_agree m m').
Qed.

Lemma agree_sub m m' q k q' k' : agree m m' q k → q ≤ q' → q' + k' ≤ q + k → agree m m' q' k'.
Proof. intros H ?? x Hx. apply H. lia. Qed.

Lemma agree_refl m q k : agree m m q k.
Proof. by intros x _. Qed.

Lemma agree_trans m m' m'' q k : agree m m' q k → agree m' m'' q k → agree m m'' q k.
Proof. intros H H' x Hx. rewrite (H' x Hx). by apply H. Qed.
End access.

#[export] Instance same_map_preorder : PreOrder same_map.
Proof.
  split.
  - done.
  - intros m m' m'' (?&?&?) (?&?&?). repeat split; congruence.
Qed.

(** Memory only changes inside the mapping, and keeps holding bytes. *)
Definition ram_step (m m' : Ram) : Prop := same_map m m' ∧ (wf_ram m → wf_ram m').

#[export] Instance ram_step_preorder : PreOrder ram_step.
Proof. split; [by split|]. intros m m' m'' [] []. split; [by etrans | by auto]. Qed.

#[export] Hint Resolve same_map_pokes agree_pokes wf_pokes wf_peeks : vm.
#[export] Hint Rewrite length_peeks : len.

Lemma load_width_range (m : Ram) (p : Z) (n : nat) x :
  wf_ram m → le_dec <$> load m p n = Ok x → 0 ≤ x < 256 ^ Z.of_nat n.
Proof.
  intros Hm H. unfold load in H. case_match; [|done].
  injection H as <-. pose proof (le_dec_range (peeks m p n)) as Hr.
  rewrite length_peeks in Hr. by apply Hr, wf_peeks.
Qed.

Lemma load16_range m p x : wf_ram m → load16 m p = Ok x → 0 ≤ x < 0x10000.
Proof. intros Hm H. by apply load_width_range in H. Qed.
Lemma load32_range m p x : wf_ram m → load32 m p = Ok x → 0 ≤ x < 0x100000000.
Proof. intros Hm H. by apply load_width_range in H. Qed.
