(* ===== verification/Virtq.v ===== *)
(** * Virtq: split virtqueues in guest memory and the virtio-mmio queue registers

    Every virtio device of src/src/hvf declares the same ring structures
    ([VDesc], [VAvail], [VUsed], [Queue]) and the same LO/HI register macros;
    the definitions here follow src/src/hvf/virtio_block.hpp and
    virtio_block.cpp.  The devices read descriptor fields one at a time through
    the host pointer, so each field is its own load. *)

From S2P Require Import Prelude Bytes GuestMem.

(** ** Register offsets ([namespace Reg]) *)
Module Reg.
Definition Magic : Z := 0x000.
Definition Version : Z := 0x004.
Definition DeviceId : Z := 0x008.
Definition VendorId : Z := 0x00C.
Definition DeviceFeat : Z := 0x010.
Definition DeviceFeatSel : Z := 0x014.
Definition DriverFeat : Z := 0x020.
Definition DriverFeatSel : Z := 0x024.
Definition QueueSel : Z := 0x030.
Definition QueueNumMax : Z := 0x034.
Definition QueueNum : Z := 0x038.
Definition QueueReady : Z := 0x044.
Definition QueueNotify : Z := 0x050.
Definition IrqStatus : Z := 0x060.
Definition IrqAck : Z := 0x064.
Definition Status : Z := 0x070.
Definition QueueDescLo : Z := 0x080.
Definition QueueDescHi : Z := 0x084.
Definition QueueAvailLo : Z := 0x090.
Definition QueueAvailHi : Z := 0x094.
Definition QueueUsedLo : Z := 0x0A0.
Definition QueueUsedHi : Z := 0x0A4.
Definition ConfigGen : Z := 0x0FC.
Definition Config : Z := 0x100.
End Reg.

Definition kVirtioF_Version1 : Z := Z.shiftl 1 32.
Definition VRING_DESC_F_NEXT : Z := 1.
Definition VRING_DESC_F_WRITE : Z := 2.

(** ** [struct Queue] *)
Record Queue := mkQueue {
  num : Z;
  desc_gpa : Z;
  avail_gpa : Z;
  used_gpa : Z;
  last_avail : Z;
  ready : bool;
}.

(** [Queue{}] for a device whose [kQueueSize] is [n]. *)
Definition Queue0 (n : Z) : Queue := mkQueue n 0 0 0 0 false.

Definition set_num (q : Queue) (v : Z) : Queue :=
  mkQueue v (desc_gpa q) (avail_gpa q) (used_gpa q) (last_avail q) (ready q).
Definition set_desc_gpa (q : Queue) (v : Z) : Queue :=
  mkQueue (num q) v (avail_gpa q) (used_gpa q) (last_avail q) (ready q).
Definition set_avail_gpa (q : Queue) (v : Z) : Queue :=
  mkQueue (num q) (desc_gpa q) v (used_gpa q) (last_avail q) (ready q).
Definition set_used_gpa (q : Queue) (v : Z) : Queue :=
  mkQueue (num q) (desc_gpa q) (avail_gpa q) v (last_avail q) (ready q).
Definition set_last_avail (q : Queue) (v : Z) : Queue :=
  mkQueue (num q) (desc_gpa q) (avail_gpa q) (used_gpa q) v (ready q).
Definition set_ready (q : Queue) (v : bool) : Queue :=
  mkQueue (num q) (desc_gpa q) (avail_gpa q) (used_gpa q) (last_avail q) v.

(** The LO and HI macros: replace one half of a 64-bit field. *)
Definition LO (f v : Z) : Z := Z.lor (Z.land f 0xFFFFFFFF00000000) v.
Definition HI (f v : Z) : Z := Z.lor (Z.land f 0x00000000FFFFFFFF) (Z.shiftl v 32).

(** ** Descriptor table: [desc[i].addr], [.len], [.flags], [.next] *)
Definition desc_addr (m : Ram) (desc i : Z) : res Z := load64 m (desc + 16 * i).
Definition desc_len (m : Ram) (desc i : Z) : res Z := load32 m (desc + 16 * i + 8).
Definition desc_flags (m : Ram) (desc i : Z) : res Z := load16 m (desc + 16 * i + 12).
Definition desc_next (m : Ram) (desc i : Z) : res Z := load16 m (desc + 16 * i + 14).

(** [flags & bit] as a condition. *)
Definition has_flag (flags bit : Z) : bool := negb (Z.land flags bit =? 0).

(** ** Available and used rings *)
Definition avail_idx (m : Ram) (avail : Z) : res Z := load16 m (avail + 2).
Definition avail_ring (m : Ram) (avail i : Z) : res Z := load16 m (avail + 4 + 2 * i).
Definition used_idx (m : Ram) (used : Z) : res Z := load16 m (used + 2).

(** [used->ring[used->idx % kQueueSize] = {head, len}; ++used->idx]. *)
Definition push_used (kQueueSize : Z) (m : Ram) (used head len : Z) : res Ram :=
  idx ← used_idx m used;
  let ui := idx mod kQueueSize in
  m1 ← store32 m (used + 4 + 8 * ui) head;
  m2 ← store32 m1 (used + 4 + 8 * ui + 4) len;
  idx' ← used_idx m2 used;
  store16 m2 (used + 2) (u16 (idx' + 1)).

(** ** The three ring pointers of a queue, or [None] when the device returns
    early: not ready, a zero address, or an address outside RAM. *)
Definition ring_ptrs (m : Ram) (q : Queue) : option (Z * Z * Z) :=
  if negb (ready q) || (desc_gpa q =? 0) || (avail_gpa q =? 0) || (used_gpa q =? 0)
  then None else
  d ← gpa_to_hva m (desc_gpa q);
  a ← gpa_to_hva m (avail_gpa q);
  u ← gpa_to_hva m (used_gpa q);
  Some (d, a, u).

(** ** The drain loop [while (q.last_avail != avail->idx) body]

    The body returns [false] for a [break]. *)
Section Drain.
Context {St : Type} (last : St → Z) (idx : St → res Z) (body : St → res (bool * St)).

Fixpoint drain (fuel : nat) (s : St) : res St :=
  i ← idx s;
  if last s =? i then Ok s else
  match fuel with
  | O => Err OutOfFuel
  | S fuel =>
      '(go, s') ← body s;
      if (go : bool) then drain fuel s' else Ok s'
  end.

Lemma drain_done fuel s i : idx s = Ok i → last s = i → drain fuel s = Ok s.
Proof. intros Hi Hl. destruct fuel; cbn [drain]; by rewrite Hi, bind_Ok, Hl, Z.eqb_refl. Qed.

Lemma drain_step fuel s i :
  idx s = Ok i → last s ≠ i →
  drain (S fuel) s = ('(go, s') ← body s; if (go : bool) then drain fuel s' else Ok s').
Proof.
  intros Hi Hl. cbn [drain]. rewrite Hi, bind_Ok. by rewrite (proj2 (Z.eqb_neq _ _) Hl).
Qed.

(** [n] iterations of a body that keeps the available index and increments
    [last_avail] modulo 2^16 end the loop, with [n] the 16-bit distance. *)
Lemma drain_terminates (I : St → Prop) (i : Z) :
  0 ≤ i < 0x10000 →
  (∀ s, I s → idx s = Ok i ∧ 0 ≤ last s < 0x10000) →
  (∀ s, I s → last s ≠ i →
     ∃ s', body s = Ok (true, s') ∧ I s' ∧ last s' = u16 (last s + 1)) →
  ∀ fuel s, I s → u16 (i - last s) ≤ Z.of_nat fuel →
  ∃ s', drain fuel s = Ok s' ∧ I s' ∧ last s' = i.
Proof.
  intros Hi HI Hbody fuel. induction fuel as [|fuel IH]; intros s Hs Hf;
    destruct (HI s Hs) as [Hidx Hlast]; cbn [drain]; rewrite Hidx, bind_Ok;
    destruct (Z.eqb_spec (last s) i) as [He|Hne]; eauto.
  - exfalso. apply Hne. zlia.
  - destruct (Hbody s Hs Hne) as (s' & Hb & Hs' & Hl).
    rewrite Hb, bind_Ok. apply IH; [done|]. rewrite Hl. zlia.
Qed.

(** What the body preserves, the loop preserves. *)
Lemma drain_Ok_inv (P : St → Prop) :
  (∀ s go s', P s → body s = Ok (go, s') → P s') →
  ∀ fuel s s', P s → drain fuel s = Ok s' → P s'.
Proof.
  intros Hbody fuel. induction fuel as [|fuel IH]; intros s s' Hs H; cbn [drain] in H;
    inv_bind; (destruct (last s =? v); [by simplify_eq|]); inv_bind.
  destruct b; simplify_eq; eauto.
Qed.

(** A change of state the loop does not look at commutes with it. *)
Lemma drain_map (f : St → St) :
  (∀ s, last (f s) = last s) → (∀ s, idx (f s) = idx s) →
  (∀ s, body (f s) = (λ p, (p.1, f p.2)) <$> body s) →
  ∀ fuel s, drain fuel (f s) = f <$> drain fuel s.
Proof.
  intros Hl Hi Hb fuel. induction fuel as [|fuel IH]; intros s; cbn [drain];
    rewrite Hi, Hl; destruct (idx s) as [i|]; try done; rewrite !bind_Ok;
    destruct (last s =? i); try done.
  rewrite Hb. destruct (body s) as [[[] s']|]; try done.
  cbn [fmap res_fmap]. rewrite !bind_Ok. apply IH.
Qed.
End Drain.

(** ** The transmit walk [do ... while (true)] over a chain

    [visit addr len] is what the device does with one descriptor; it reads
    guest memory [m] and does not write it.  The fuel bounds the NEXT links. *)
Section Walk.
Context {St : Type} (m : Ram) (visit : Z → Z → St → res St).

Fixpoint walk_chain (fuel : nat) (d cur : Z) (s : St) : res St :=
  al ← desc_addr m d cur;
  l ← desc_len m d cur;
  s' ← visit al l s;
  f ← desc_flags m d cur;
  if negb (has_flag f VRING_DESC_F_NEXT) then Ok s' else
  match fuel with
  | O => Err OutOfFuel
  | S fuel => c ← desc_next m d cur; walk_chain fuel d c s'
  end.

(** A set of descriptors that all continue within the set is never left. *)
Lemma walk_chain_cyclic (C : Z → Prop) d :
  (∀ c, C c → ∃ al l f c', desc_addr m d c = Ok al ∧ desc_len m d c = Ok l ∧
     desc_flags m d c = Ok f ∧ has_flag f VRING_DESC_F_NEXT = true ∧
     desc_next m d c = Ok c' ∧ C c' ∧ ∀ s, is_Ok (visit al l s)) →
  ∀ fuel c s, C c → walk_chain fuel d c s = Err OutOfFuel.
Proof.
  intros HC fuel. induction fuel as [|fuel IH]; intros c s Hc;
    destruct (HC c Hc) as (al & l & f & c' & E1 & E2 & E3 & E4 & E5 & Hc' & Hv);
    destruct (Hv s) as [s' Es]; cbn [walk_chain];
    rewrite E1, bind_Ok, E2, bind_Ok, Es, bind_Ok, E3, bind_Ok, E4; cbn [negb]; [done|].
  rewrite E5, bind_Ok. by apply IH.
Qed.

(** What every visit preserves, the walk preserves. *)
Lemma walk_chain_inv (P : St → Prop) d :
  (∀ al l s s', P s → visit al l s = Ok s' → P s') →
  ∀ fuel c s s', P s → walk_chain fuel d c s = Ok s' → P s'.
Proof.
  intros Hv fuel. induction fuel as [|fuel IH]; intros c s s' Hs H; cbn [walk_chain] in H; inv_bind;
    (case_match; [simplify_eq; by eauto|]); [done|]. inv_bind. eauto.
Qed.
End Walk.

Section registers.
Lemma testbit_high w v n : 0 ≤ v < 2 ^ w → 0 ≤ w ≤ n → Z.testbit v n = false.
Proof.
  intros Hv Hn. rewrite <- (Z.mod_small v (2 ^ w)) by done.
  apply Z.mod_pow2_bits_high. lia.
Qed.

(** Bits placed above [k] and bits below [k] add up. *)
Lemma lor_shiftl_add a b k : 0 ≤ k → 0 ≤ b < 2 ^ k → Z.lor (Z.shiftl a k) b = a * 2 ^ k + b.
Proof.
  intros Hk Hb. rewrite <- Z.shiftl_mul_pow2 by done.
  assert (Z.land (Z.shiftl a k) b = 0) as Hl.
  { apply Z.bits_inj'. intros n Hn. rewrite Z.land_spec, Z.bits_0.
    destruct (decide (n < k)).
    - rewrite Z.shiftl_spec_low by done. done.
    - rewrite (testbit_high k b n) by lia. apply andb_false_r. }
  rewrite Z.add_nocarry_lxor by done. by rewrite Z.lxor_lor.
Qed.

Lemma LO_spec f v :
  0 ≤ f < 2 ^ 64 → 0 ≤ v < 2 ^ 32 → LO f v = f / 2 ^ 32 * 2 ^ 32 + v.
Proof.
  intros Hf Hv. unfold LO. rewrite <- lor_shiftl_add by lia. f_equal.
  apply Z.bits_inj'. intros n Hn. rewrite Z.land_spec.
  change 0xFFFFFFFF00000000 with (Z.shiftl (Z.ones 32) 32).
  rewrite <- Z.shiftr_div_pow2 by lia.
  destruct (decide (n < 32)).
  - rewrite !Z.shiftl_spec_low by done. apply andb_false_r.
  - rewrite !Z.shiftl_spec, Z.shiftr_spec by lia.
    replace (n - 32 + 32) with n by lia.
    destruct (decide (n < 64)).
    + rewrite Z.ones_spec_low by lia. apply andb_true_r.
    + rewrite (testbit_high 64 f n) by lia. done.
Qed.

Lemma HI_spec f v : 0 ≤ f → 0 ≤ v → HI f v = v * 2 ^ 32 + f mod 2 ^ 32.
Proof.
  intros Hf Hv. unfold HI. change 0x00000000FFFFFFFF with (Z.ones 32).
  rewrite Z.land_ones by lia. rewrite Z.lor_comm, lor_shiftl_add; [done | lia |].
  apply Z.mod_pos_bound. lia.
Qed.

(** Writing both halves replaces the whole field. *)
Lemma HI_LO f lo hi :
  0 ≤ f < 2 ^ 64 → 0 ≤ lo < 2 ^ 32 → 0 ≤ hi → HI (LO f lo) hi = hi * 2 ^ 32 + lo.
Proof.
  intros Hf Hlo Hhi. rewrite LO_spec by done.
  assert (0 ≤ f / 2 ^ 32) by (apply Z.div_pos; lia).
  rewrite HI_spec by lia. f_equal.
  rewrite Z.add_comm, Z.mod_add by lia. by apply Z.mod_small.
Qed.

Lemma LO_range f v : 0 ≤ f < 2 ^ 64 → 0 ≤ v < 2 ^ 32 → 0 ≤ LO f v < 2 ^ 64.
Proof. intros. rewrite LO_spec by done. zlia. Qed.

Lemma HI_range f v : 0 ≤ f < 2 ^ 64 → 0 ≤ v < 2 ^ 32 → 0 ≤ HI f v < 2 ^ 64.
Proof. intros. rewrite HI_spec by lia. zlia. Qed.
End registers.

(** ** Well-formed queues *)
Record wf_queue (kQueueSize : Z) (q : Queue) : Prop := {
  wf_num : 0 ≤ num q ≤ kQueueSize;
  wf_desc : 0 ≤ desc_gpa q < 2 ^ 64;
  wf_avail : 0 ≤ avail_gpa q < 2 ^ 64;
  wf_used : 0 ≤ used_gpa q < 2 ^ 64;
  wf_last : 0 ≤ last_avail q < 0x10000;
}.

Lemma wf_Queue0 n : 0 ≤ n → wf_queue n (Queue0 n).
Proof. by split. Qed.

(** ** Ring accesses under stores elsewhere *)
Section frame.
Context (m m' : Ram).
Context (Hs : same_map m m').

Lemma desc_addr_agree d i : agree m m' (d + 16 * i) 16 → desc_addr m' d i = desc_addr m d i.
Proof.
  intros H. unfold desc_addr, load64. erewrite load_agree; [done..|].
  eapply agree_sub; [done|lia..].
Qed.
Lemma desc_len_agree d i : agree m m' (d + 16 * i) 16 → desc_len m' d i = desc_len m d i.
Proof.
  intros H. unfold desc_len, load32. erewrite load_agree; [done..|].
  eapply agree_sub; [done|lia..].
Qed.
Lemma desc_flags_agree d i : agree m m' (d + 16 * i) 16 → desc_flags m' d i = desc_flags m d i.
Proof.
  intros H. unfold desc_flags, load16. erewrite load_agree; [done..|].
  eapply agree_sub; [done|lia..].
Qed.
Lemma desc_next_agree d i : agree m m' (d + 16 * i) 16 → desc_next m' d i = desc_next m d i.
Proof.
  intros H. unfold desc_next, load16. erewrite load_agree; [done..|].
  eapply agree_sub; [done|lia..].
Qed.
Lemma load16_agree p : agree m m' p 2 → load16 m' p = load16 m p.
Proof. intros H. unfold load16. by erewrite load_agree. Qed.
Lemma load32_agree p : agree m m' p 4 → load32 m' p = load32 m p.
Proof. intros H. unfold load32. by erewrite load_agree. Qed.
End frame.

(** Any successful store of encoded words keeps the mapping and its bytes. *)
Lemma store_enc_wf m p n x m' : store m p (le_enc n x) = Ok m' → same_map m m' ∧ (wf_ram m → wf_ram m').
Proof. intros [_ ->]%store_Ok. auto with vm. Qed.

Lemma push_used_wf K m u head len m' :
  push_used K m u head len = Ok m' → same_map m m' ∧ (wf_ram m → wf_ram m').
Proof.
  unfold push_used. intros H. inv_bind.
  repeat match goal with H : _ = Ok _ |- _ =>
    first [apply store_enc_wf in H as [? ?] | clear H] end.
  split; [by repeat (etrans; [done|]) | auto].
Qed.

(** ** Publishing a used element *)
Section push_used.
Context (K : Z) (HK : 0 < K ≤ 0x10000).

Local Lemma load_store_eq m p bs m' :
  store m p bs = Ok m' → load m' p (length bs) = Ok bs.
Proof.
  intros [Hin ->]%store_Ok. apply load_Ok. split.
  - rewrite (in_ram_same m) by apply same_map_pokes. done.
  - by rewrite peeks_pokes.
Qed.

(** The bytes of the used ring of a queue of size [K]. *)
Definition used_bytes : Z := 4 + 8 * K.

(** Pushing onto a used ring that lies in RAM succeeds, writes only inside
    the ring, stores the element in the slot of the old index and increments
    the index modulo 2^16. *)
Lemma push_used_spec m u head len :
  wf_ram m → in_ram m u (Z.to_nat used_bytes) = true →
  0 ≤ head < 0x100000000 → 0 ≤ len < 0x100000000 →
  ∃ i m', used_idx m u = Ok i ∧ push_used K m u head len = Ok m' ∧
    used_idx m' u = Ok (u16 (i + 1)) ∧
    load32 m' (u + 4 + 8 * (i mod K)) = Ok head ∧
    load32 m' (u + 4 + 8 * (i mod K) + 4) = Ok len ∧
    wf_ram m' ∧ same_map m m' ∧
    (∀ q k, disjoint u used_bytes q k → agree m m' q k).
Proof.
  intros Hm Hin Hh Hl. unfold used_bytes in *. apply in_ram_spec in Hin as [Hu Hue].
  assert (∃ i, used_idx m u = Ok i) as [i Hi].
  { unfold used_idx, load16, load. rewrite (proj2 (in_ram_spec m (u + 2) 2)) by lia.
    cbn. eauto. }
  pose proof (load16_range _ _ _ Hm Hi) as Hir.
  assert (0 ≤ i mod K < K) as Hs by (apply Z.mod_pos_bound; lia).
  set (s := u + 4 + 8 * (i mod K)) in *.
  assert (s + 8 ≤ ram_size m ∧ u + 4 ≤ s) as [Hs1 Hs2] by lia.
  set (m1 := pokes m s (le_enc 4 head)).
  assert (same_map m m1) as Hsm1 by apply same_map_pokes.
  set (m2 := pokes m1 (s + 4) (le_enc 4 len)).
  assert (same_map m m2) as Hsm2 by (etrans; [done | apply same_map_pokes]).
  set (m3 := pokes m2 (u + 2) (le_enc 2 (u16 (i + 1)))).
  assert (same_map m m3) as Hsm3 by (etrans; [done | apply same_map_pokes]).
  assert (ram_size m1 = ram_size m ∧ ram_size m2 = ram_size m) as [Hz1 Hz2]
    by (split; [apply Hsm1 | apply Hsm2]).
  assert (store32 m s head = Ok m1) as E1.
  { apply store_Ok. split; [|done]. apply in_ram_spec. len. }
  assert (store32 m1 (s + 4) len = Ok m2) as E2.
  { apply store_Ok. split; [|done]. apply in_ram_spec. len. }
  assert (store16 m2 (u + 2) (u16 (i + 1)) = Ok m3) as E3.
  { apply store_Ok. split; [|done]. apply in_ram_spec. len. }
  assert (used_idx m2 u = Ok i) as Hi2.
  { rewrite <- Hi. unfold used_idx. rewrite (load16_agree m); [done..|].
    eapply agree_trans; apply agree_pokes; unfold disjoint; len. }
  exists i, m3. fold s. split_and!; try done.
  - unfold push_used. rewrite Hi, bind_Ok. cbv zeta. fold s. rewrite E1, bind_Ok, E2, bind_Ok, Hi2.
    by rewrite bind_Ok.
  - unfold used_idx, load16.
    pose proof (load_store_eq _ _ _ _ E3) as L. rewrite length_le_enc in L. rewrite L.
    cbn [fmap res_fmap]. rewrite le_dec_enc16. f_equal. apply u16_id, u16_range.
  - rewrite (load32_agree m1).
    + unfold load32. pose proof (load_store_eq _ _ _ _ E1) as L.
      rewrite length_le_enc in L. rewrite L. cbn [fmap res_fmap].
      by rewrite le_dec_enc32, u32_id.
    + etrans; [apply same_map_pokes | apply same_map_pokes].
    + eapply agree_trans; apply agree_pokes; unfold disjoint; len.
  - rewrite (load32_agree m2).
    + unfold load32. pose proof (load_store_eq _ _ _ _ E2) as L.
      rewrite length_le_enc in L. rewrite L. cbn [fmap res_fmap].
      by rewrite le_dec_enc32, u32_id.
    + apply same_map_pokes.
    + apply agree_pokes. unfold disjoint. len.
  - unfold m3, m2, m1. auto 6 with vm.
  - intros q k Hd. unfold disjoint in Hd.
    eapply agree_trans; [eapply agree_trans|]; apply agree_pokes; unfold disjoint; len.
Qed.

(** Only the index and the slot it names are written. *)
Definition used_slot (u i : Z) : Z := u + 4 + 8 * (i mod K).

Lemma push_used_frame m u head len i m' q k :
  push_used K m u head len = Ok m' → used_idx m u = Ok i →
  disjoint (u + 2) 2 q k → disjoint (used_slot u i) 8 q k → agree m m' q k.
Proof.
  unfold push_used, used_slot. intros H Hi Hx Hs. rewrite Hi, bind_Ok in H. cbv zeta in H.
  apply bind_Ok_inv in H as (m1 & [_ ->]%store_Ok & H). apply bind_Ok_inv in H as (m2 & [_ ->]%store_Ok & H).
  apply bind_Ok_inv in H as (i' & _ & [_ ->]%store_Ok). unfold disjoint in *.
  eapply agree_trans; [eapply agree_trans|]; apply agree_pokes; unfold disjoint; len.
Qed.
End push_used.
