(* ===== verification/VirtqSpec.v ===== *)
(** * VirtqSpec: rings a device serves, and the memory it must not disturb

    The vocabulary the device refinements share: a protected set of addresses
    (descriptor table, available ring, request headers), memories that agree on
    it, well-placed rings, and what publishing a used element does to them.
    [K] is the device's [kQueueSize]. *)

From S2P Require Import Prelude Bytes GuestMem Virtq.

Section Protect.
Context (prot : Z → Prop).

(** [prot] contains, or avoids, the range [p, p + n). *)
Definition covers (p n : Z) : Prop := ∀ x, p ≤ x < p + n → prot x.
Definition spares (p n : Z) : Prop := ∀ x, p ≤ x < p + n → ¬ prot x.

(** [m'] is [m] with writes outside the protected memory. *)
Record stable (m m' : Ram) : Prop := {
  st_map : same_map m m';
  st_prot : ∀ x, prot x → peek m' x = peek m x;
  st_wf : wf_ram m → wf_ram m';
}.

#[export] Instance stable_preorder : PreOrder stable.
Proof.
  split.
  - by split.
  - intros m m' m'' [] []. split; [by etrans | | by auto].
    intros x Hx. by rewrite st_prot1, st_prot0.
Qed.

Lemma stable_agree m m' p n : stable m m' → covers p n → agree m m' p n.
Proof. intros Hs Hc x Hx. apply Hs, Hc, Hx. Qed.

Lemma stable_store m p bs m' :
  store m p bs = Ok m' → wf_bytes bs → spares p (Z.of_nat (length bs)) → stable m m'.
Proof.
  intros [Hin ->]%store_Ok Hw Hp. split; [auto with vm | | auto with vm].
  intros x Hx. apply peek_pokes_out.
  destruct (decide (x < p ∨ p + Z.of_nat (length bs) ≤ x)); [done|].
  exfalso. apply (Hp x); [lia|done].
Qed.

Section loads.
Context (m m' : Ram) (Hs : stable m m').

Lemma load16_stable p : covers p 2 → load16 m' p = load16 m p.
Proof. intros Hc. apply load16_agree; [apply Hs | by eapply stable_agree]. Qed.

Lemma load32_stable p : covers p 4 → load32 m' p = load32 m p.
Proof. intros Hc. apply load32_agree; [apply Hs | by eapply stable_agree]. Qed.

Lemma load64_stable p : covers p 8 → load64 m' p = load64 m p.
Proof.
  intros Hc. unfold load64. erewrite load_agree; [done | apply Hs |].
  by eapply stable_agree.
Qed.
End loads.

Section table.
Context (K d : Z) (Hd : covers d (16 * K)).

Lemma desc_stable m m' i :
  stable m m' → 0 ≤ i < K →
  desc_addr m' d i = desc_addr m d i ∧ desc_len m' d i = desc_len m d i ∧
  desc_flags m' d i = desc_flags m d i ∧ desc_next m' d i = desc_next m d i.
Proof.
  intros Hs Hi. assert (agree m m' (d + 16 * i) 16) as Ha.
  { apply stable_agree; [done|]. intros x Hx. apply Hd. lia. }
  destruct Hs. by rewrite (desc_addr_agree m), (desc_len_agree m),
    (desc_flags_agree m), (desc_next_agree m).
Qed.
End table.
End Protect.

Section Rings.
Context (K : Z) (prot : Z → Prop) (d a u : Z).

(** The bytes of the used ring, and the memory the device's data stores must
    spare: what is protected, and the used ring. *)
Definition in_used (x : Z) : Prop := u ≤ x < u + used_bytes K.
Definition prot_all (x : Z) : Prop := prot x ∨ in_used x.

(** The descriptor table at [d] and the available ring at [a] are protected;
    the used ring at [u] lies in RAM and is not. *)
Record rings (m : Ram) : Prop := {
  rg_table : covers prot d (16 * K);
  rg_avail : covers prot a (4 + 2 * K);
  rg_used : spares prot u (used_bytes K);
  rg_used_in : in_ram m u (Z.to_nat (used_bytes K)) = true;
  rg_wf : wf_ram m;
}.

Lemma spares_disjoint p n : 0 ≤ K → 0 < n → spares prot_all p n → disjoint u (used_bytes K) p n.
Proof.
  intros HK Hn Hs. unfold disjoint.
  destruct (decide (p + n ≤ u ∨ u + used_bytes K ≤ p)); [lia|]. exfalso.
  assert (0 < used_bytes K) by (unfold used_bytes; lia).
  apply (Hs (Z.max p u)); [lia|]. right. unfold in_used. lia.
Qed.

Lemma stable_weaken m m' : stable prot_all m m' → stable prot m m'.
Proof. intros [Hs Hp Hw]. split; [done | | done]. intros x Hx. apply Hp. by left. Qed.

Section stability.
Context (m m' : Ram) (Hs : stable prot m m') (Hr : rings m).

Lemma rings_stable : rings m'.
Proof.
  destruct Hr as [H1 H2 H3 H4 H5], Hs as [S1 _ S3].
  split; try done; [by rewrite (in_ram_same m) | by apply S3].
Qed.

Lemma avail_ring_stable i : 0 ≤ i < K → avail_ring m' a i = avail_ring m a i.
Proof.
  intros Hi. apply (load16_stable prot); [done|]. intros x Hx. apply (rg_avail _ Hr). lia.
Qed.

Lemma avail_idx_stable : 0 ≤ K → avail_idx m' a = avail_idx m a.
Proof.
  intros HK. apply (load16_stable prot); [done|]. intros x Hx. apply (rg_avail _ Hr). lia.
Qed.
End stability.

(** Publishing a used element when the rings are well placed and only
    unprotected memory outside the used ring has been written since [m]. *)
Lemma publish_spec m m1 i head len :
  0 < K ≤ 0x10000 → rings m → stable prot_all m m1 → used_idx m u = Ok i →
  0 ≤ head < 0x100000000 → fits 32 len →
  ∃ m', push_used K m1 u head len = Ok m' ∧ stable prot m m' ∧
    used_idx m' u = Ok (u16 (i + 1)) ∧
    load32 m' (u + 4 + 8 * (i mod K)) = Ok head ∧
    load32 m' (u + 4 + 8 * (i mod K) + 4) = Ok len ∧
    (∀ q k, disjoint u (used_bytes K) q k → agree m1 m' q k).
Proof.
  intros HK Hr S Hi Hh Hl.
  destruct (push_used_spec K HK m1 u head len)
    as (i' & m' & Hi' & Hp & Hn & He1 & He2 & Hwf & Hsm & Hag); try done.
  { apply S, Hr. }
  { rewrite (in_ram_same m) by apply S. apply Hr. }
  assert (i' = i) as ->.
  { unfold used_idx in *. rewrite (load16_agree m) in Hi'; [congruence | apply S |].
    intros y Hy. apply S. right. unfold in_used, used_bytes. lia. }
  exists m'. split_and!; try done. split; [etrans; [apply S | done] | | done].
  intros y Hy. transitivity (peek m1 y); [|apply S; by left].
  apply (Hag y 1); [|lia]. unfold disjoint.
  destruct (decide (in_used y)) as [Hu|Hu]; [by destruct (rg_used _ Hr y)|].
  unfold in_used in Hu. lia.
Qed.

Lemma publish_frame m m1 i head len m' q k :
  0 < K → stable prot_all m m1 → used_idx m u = Ok i → push_used K m1 u head len = Ok m' →
  disjoint (u + 2) 2 q k → disjoint (used_slot K u i) 8 q k → agree m1 m' q k.
Proof.
  intros HK S Hi Hp. apply (push_used_frame K m1 u head len); [done|]. rewrite <- Hi.
  apply load16_agree; [apply S|]. intros y Hy. apply S. right. unfold in_used, used_bytes. lia.
Qed.
End Rings.

(** ** The elements a device has returned

    [returned m i els]: from index [i] on, the used ring holds the heads and
    lengths [els]; [receipt len] is the element for a buffer.  [clear i n q k] is a range outside the index and the [n]
    slots from [i] on. *)
Section Returned.
Context (K u : Z) (HK : 0 < K) (HKd : (K | 0x10000)).

Definition used_elem (m : Ram) (i head len : Z) : Prop :=
  load32 m (used_slot K u i) = Ok head ∧ load32 m (used_slot K u i + 4) = Ok len.
Definition returned (m : Ram) (i : Z) (els : list (Z * Z)) : Prop :=
  ∀ k el, els !! k = Some el → used_elem m (i + Z.of_nat k) el.1 el.2.
Definition receipt (len : Z) (s : Z * Z) : Z * Z := (s.1, len).
Definition clear (i : Z) (n : nat) (q k : Z) : Prop :=
  disjoint (u + 2) 2 q k ∧ ∀ j, (j < n)%nat → disjoint (used_slot K u (i + Z.of_nat j)) 8 q k.

Lemma used_slot_u16 i : used_slot K u (u16 i) = used_slot K u i.
Proof. unfold used_slot, u16. by rewrite Z.mod_mod_divide. Qed.

Lemma used_slot_range i : u + 4 ≤ used_slot K u i ∧ used_slot K u i + 8 ≤ u + used_bytes K.
Proof. unfold used_slot, used_bytes. pose proof (Z.mod_pos_bound i K HK). lia. Qed.

Lemma used_slot_apart i j : 0 < j < K → disjoint (used_slot K u (i + j)) 8 (used_slot K u i) 8.
Proof.
  intros Hj. unfold disjoint, used_slot. assert ((i + j) mod K ≠ i mod K) as Hne; [|lia].
  intros Heq. assert (j mod K = 0) as H0.
  { replace j with (i + j - i) by lia. rewrite Zminus_mod, Heq, Z.sub_diag. apply Z.mod_0_l. lia. }
  rewrite Z.mod_small in H0; lia.
Qed.

Lemma clear_ring i n q k : disjoint u (used_bytes K) q k → clear i n q k.
Proof.
  intros Hd. split; [unfold disjoint, used_bytes in *; lia|]. intros j _.
  pose proof (used_slot_range (i + Z.of_nat j)). unfold disjoint in *. lia.
Qed.

Lemma clear_S i n q k :
  clear i (S n) q k → disjoint (used_slot K u i) 8 q k ∧ clear (u16 (i + 1)) n q k.
Proof.
  intros [H1 H2]. split; [specialize (H2 0%nat ltac:(lia)); by rewrite Z.add_0_r in H2|].
  split; [done|]. intros j Hj. specialize (H2 (S j) ltac:(lia)).
  rewrite <- used_slot_u16 in H2. rewrite <- used_slot_u16.
  replace (u16 (u16 (i + 1) + Z.of_nat j)) with (u16 (i + Z.of_nat (S j))) by zlia. done.
Qed.

Lemma clear_slot i n : Z.of_nat n < K → clear (u16 (i + 1)) n (used_slot K u i) 8.
Proof.
  intros Hn. split; [pose proof (used_slot_range i); unfold disjoint; lia|]. intros j Hj.
  rewrite <- used_slot_u16. replace (u16 (u16 (i + 1) + Z.of_nat j)) with (u16 (i + Z.of_nat (S j))) by zlia.
  rewrite used_slot_u16. apply used_slot_apart. lia.
Qed.

Lemma returned_cons m m' i head len els :
  same_map m m' → agree m m' (used_slot K u i) 8 → used_elem m i head len →
  returned m' (u16 (i + 1)) els → returned m' i ((head, len) :: els).
Proof.
  intros Hm Ha [E1 E2] Hr [|k] el Hel.
  - injection Hel as <-. rewrite Z.add_0_r. split; (rewrite (load32_agree m); [done..|]);
      (eapply agree_sub; [exact Ha|lia..]).
  - specialize (Hr k el Hel). unfold used_elem in *. rewrite <- used_slot_u16 in Hr. rewrite <- used_slot_u16.
    replace (u16 (i + Z.of_nat (S k))) with (u16 (u16 (i + 1) + Z.of_nat k)) by zlia. done.
Qed.
End Returned.

(** ** Draining a ring of well-placed jobs

    A job [j] is what one available element asks for: [head j] names its head
    descriptor, [good m j] says that it is laid out in memory [m], and [serve]
    is the device's account of it.  If one iteration of the device's loop body
    is [serve] on every good job, the whole loop is the fold of [serve] over
    the published jobs. *)
Section DrainRing.
Context {St J : Type} (K : Z) (prot : Z → Prop) (d a u idx : Z).
Context (ram : St → Ram) (last : St → Z) (body : St → res (bool * St)).
Context (head : J → Z) (good : Ram → J → Prop) (serve : J → St → res St).
Context (HK : 0 < K ≤ 0x10000).
Context (good_stable : ∀ m m' j,
  stable prot m m' → rings K prot d a u m → good m j → good m' j).

Fixpoint serve_jobs (js : list J) (s : St) : res St :=
  match js with [] => Ok s | j :: js => s' ← serve j s; serve_jobs js s' end.

(** The jobs [js] sit in the available ring from position [l]. *)
Inductive queued (m : Ram) : Z → list J → Prop :=
  | queued_nil l : queued m l []
  | queued_cons l j js :
      avail_ring m a (l mod K) = Ok (head j) → good m j →
      queued m (u16 (l + 1)) js → queued m l (j :: js).

Lemma queued_stable m m' l js :
  stable prot m m' → rings K prot d a u m → queued m l js → queued m' l js.
Proof.
  intros Hs Hr. induction 1 as [|l j js Ha Hg _ IH]; constructor; [| |done].
  - rewrite (avail_ring_stable K prot d a u m); [done..|]. apply Z.mod_pos_bound. lia.
  - by eapply good_stable.
Qed.

Context (serve_ok : ∀ s j i,
  rings K prot d a u (ram s) → good (ram s) j →
  avail_ring (ram s) a (last s mod K) = Ok (head j) → used_idx (ram s) u = Ok i →
  ∃ s', body s = Ok (true, s') ∧ serve j s = Ok s' ∧ stable prot (ram s) (ram s') ∧
    used_idx (ram s') u = Ok (u16 (i + 1)) ∧ last s' = u16 (last s + 1)).

Lemma queued_good m l js : queued m l js → Forall (good m) js.
Proof. induction 1; by constructor. Qed.

Lemma drain_ring js : ∀ fuel s i,
  rings K prot d a u (ram s) → queued (ram s) (last s) js →
  avail_idx (ram s) a = Ok idx → used_idx (ram s) u = Ok i → 0 ≤ i < 0x10000 →
  0 ≤ idx < 0x10000 → 0 ≤ last s < 0x10000 →
  Z.of_nat (length js) = u16 (idx - last s) → (length js ≤ fuel)%nat →
  ∃ s', serve_jobs js s = Ok s' ∧
    drain last (λ s, avail_idx (ram s) a) body fuel s = Ok s' ∧
    last s' = idx ∧ used_idx (ram s') u = Ok (u16 (i + Z.of_nat (length js))) ∧
    stable prot (ram s) (ram s').
Proof.
  induction js as [|j js IH]; intros fuel s i Hr Hq Hai Hui Hi Hidx Hl Hlen Hf.
  - assert (last s = idx) by (cbn in Hlen; zlia). exists s. split_and!; [done | | done | | done].
    + by apply (drain_done _ _ _ _ _ idx).
    + rewrite Hui. f_equal. cbn. zlia.
  - inversion Hq as [|? ? ? Hav Hg Hq']; subst.
    destruct (serve_ok s j i Hr Hg Hav Hui) as (s1 & B1 & E1 & S1 & U1 & L1).
    destruct fuel as [|fuel]; [cbn in Hf; lia|]. cbn [length] in Hlen, Hf.
    destruct (IH fuel s1 (u16 (i + 1))) as (s2 & E2 & D2 & L2 & U2 & S2);
      rewrite ?L1; try done; try apply u16_range; try zlia.
    + by eapply rings_stable.
    + by eapply queued_stable.
    + rewrite (avail_idx_stable K prot d a u (ram s)); [done..|lia].
    + exists s2. split_and!; [| | done | | by etrans].
      * cbn [serve_jobs]. by rewrite E1, bind_Ok.
      * rewrite (drain_step _ _ _ _ _ idx), B1; [done | done |].
        intros Heq. rewrite Heq in Hlen. zlia.
      * rewrite U2. f_equal. cbn [length]. zlia.
Qed.
End DrainRing.

(** ** Chains of buffers

    The buffers of the descriptors of a chain, the last one included, as the
    console and network transmit queues read them. *)
Inductive buffers (K : Z) (m : Ram) (d : Z) : Z → list (Z * Z) → Prop :=
  | buffers_last c f al l :
      0 ≤ c < K → desc_addr m d c = Ok al → desc_len m d c = Ok l →
      desc_flags m d c = Ok f → has_flag f VRING_DESC_F_NEXT = false →
      buffers K m d c [(al, l)]
  | buffers_next c f al l c' segs :
      0 ≤ c < K → desc_addr m d c = Ok al → desc_len m d c = Ok l →
      desc_flags m d c = Ok f → has_flag f VRING_DESC_F_NEXT = true →
      desc_next m d c = Ok c' → buffers K m d c' segs →
      buffers K m d c ((al, l) :: segs).

Section Buffers.
Context (K : Z) (prot : Z → Prop) (d : Z) (Hd : covers prot d (16 * K)).

Lemma buffers_stable m m' c segs :
  stable prot m m' → buffers K m d c segs → buffers K m' d c segs.
Proof.
  intros Hs. induction 1 as [c f al l Hc|c f al l c' segs Hc];
    destruct (desc_stable prot K d Hd m m' c Hs Hc) as (E1 & E2 & E3 & E4);
    [eapply buffers_last | eapply buffers_next]; rewrite ?E1, ?E2, ?E3, ?E4; done.
Qed.
End Buffers.

(** ** Published transmit buffer lists: head descriptor and buffers *)
Record TxJob := mkTxJob {
  tj_head : Z;
  tj_bufs : list (Z * Z);
}.

Section TxJobs.
Context (K : Z) (prot : Z → Prop) (d : Z).

(** A buffer that lies in RAM and that the device's stores do not disturb. *)
Definition buf_ok (m : Ram) (al : Z * Z) : Prop :=
  0 ≤ al.2 ∧ ∀ p, gpa_to_hva m al.1 = Some p →
    in_ram m p (Z.to_nat al.2) = true ∧ covers prot p al.2.

(** The chain is short enough for [fuel] NEXT links. *)
Definition tx_good (fuel : nat) (m : Ram) (j : TxJob) : Prop :=
  buffers K m d (tj_head j) (tj_bufs j) ∧ Forall (buf_ok m) (tj_bufs j) ∧
  (length (tj_bufs j) ≤ S fuel)%nat.

Lemma buf_ok_same m m' al : same_map m m' → buf_ok m al → buf_ok m' al.
Proof.
  intros Hs [H0 H]. split; [done|]. intros p Hp.
  rewrite (gpa_to_hva_same m) in Hp by done. rewrite (in_ram_same m) by done. auto.
Qed.

Lemma tx_good_stable a u fuel m m' j :
  stable prot m m' → rings K prot d a u m → tx_good fuel m j → tx_good fuel m' j.
Proof.
  intros Hs Hr (Hb & Hk & Hl). split_and!; [| |done].
  - eapply buffers_stable; [apply (rg_table _ _ _ _ _ _ Hr) | done..].
  - eapply Forall_impl; [exact Hk|]. intros al. apply buf_ok_same, Hs.
Qed.

Lemma buffers_head m c segs : buffers K m d c segs → 0 ≤ c < K.
Proof. by destruct 1. Qed.
End TxJobs.

(** The transmit walk over a chain visits its buffers in order. *)
Fixpoint visit_all {St} (visit : Z → Z → St → res St) (segs : list (Z * Z)) (s : St) : res St :=
  match segs with [] => Ok s | (al, l) :: segs => s' ← visit al l s; visit_all visit segs s' end.

Lemma walk_chain_buffers {St} K m d (visit : Z → Z → St → res St) c segs :
  buffers K m d c segs → ∀ f s, (length segs ≤ S f)%nat →
  walk_chain m visit f d c s = visit_all visit segs s.
Proof.
  induction 1 as [c fl al l Hc E1 E2 E3 E4|c fl al l c' segs Hc E1 E2 E3 E4 E5 Hb IH];
    intros f s Hf.
  - destruct f; cbn [walk_chain visit_all]; rewrite E1, bind_Ok, E2, bind_Ok;
      (destruct (visit al l s); [|done]); by rewrite !bind_Ok, E3, bind_Ok, E4.
  - destruct f as [|f]; [destruct Hb; cbn in Hf; lia|].
    cbn [walk_chain visit_all]. rewrite E1, bind_Ok, E2, bind_Ok.
    destruct (visit al l s); [|done]. rewrite !bind_Ok, E3, bind_Ok, E4. cbn [negb].
    rewrite E5, bind_Ok. apply IH. cbn in Hf. lia.
Qed.
