(* ===== verification/World.v ===== *)
(** * World: what a device can touch outside its own state

    Guest RAM and the log of host effects, oldest first: interrupt lines driven
    through [hv_gic_set_spi], [write(2)] calls on host file descriptors,
    [fsync], console bytes handed to the logger, and frames handed to the
    display callback.  Includes src/src/hvf/fw_gic.hpp and fw_gic.cpp. *)

From S2P Require Import Prelude Bytes GuestMem.

Inductive Event : Type :=
  | SetSpi (intid : Z) (level : bool)
  | FdWrite (fd : Z) (data : bytes)
  | Fsync (fd : Z)
  | LoggerWrite (data : bytes)
  | Frame (pixels : bytes) (width height stride : Z).

Record World := mkWorld {
  w_ram : Ram;
  w_log : list Event;
}.

Definition emit (w : World) (es : list Event) : World := mkWorld (w_ram w) (w_log w ++ es).
Definition with_ram (w : World) (m : Ram) : World := mkWorld m (w_log w).

(** ** fw_gic: interrupt numbering and [raise_spi] *)
Definition kGpaGicDist : Z := 0x08000000.
Definition kGpaGicDistSize : Z := 0x00010000.
Definition kGpaGicRedist : Z := 0x080A0000.
Definition kGpaGicRedistStride : Z := 0x00020000.
Definition kGicSpiBase : Z := 32.
Definition kSpiConsole : Z := 16.
Definition kSpiBlock : Z := 17.
Definition kSpiNet : Z := 19.
Definition kSpiGpu : Z := 20.
Definition kSpiKeyboard : Z := 21.
Definition kSpiTablet : Z := 22.

(** The two [hv_gic_set_spi] calls; their return codes are only logged. *)
Definition raise_spi (spi_number : Z) (w : World) : World :=
  let intid := u32 (kGicSpiBase + spi_number) in
  emit w [SetSpi intid true; SetSpi intid false].

Lemma w_ram_emit w es : w_ram (emit w es) = w_ram w.
Proof. reflexivity. Qed.

Lemma w_ram_raise_spi n w : w_ram (raise_spi n w) = w_ram w.
Proof. reflexivity. Qed.

#[export] Hint Rewrite w_ram_emit w_ram_raise_spi : words.

(** ** The register interface a virtio-mmio device offers the exit handler

    [read off len] may update the device (none of the devices here does);
    [write fuel off val len] returns the new device and world.  [fuel] bounds
    the descriptor and ring loops the write can start. *)
Class MmioDevice (D : Type) := {
  dev_read : D → Z → Z → res Z;
  dev_write : nat → D → World → Z → Z → Z → res (D * World);
}.
