(* ===== verification/Fixtures.v ===== *)
(** * Fixtures: concrete guest memories for the witnesses

    A small guest with 64 KiB of RAM at the usual base, and the writers that lay
    out descriptors and rings in it. *)

From S2P Require Import Prelude Bytes GuestMem Virtq VirtqSpec.

Definition fx_base : Z := kGpaRamBase.
Definition fx_ram : Ram := set_ram fx_base 0x10000.

(** Offsets of the descriptor table, the rings and the buffers. *)
Definition fx_d : Z := 0x0.
Definition fx_a : Z := 0x1000.
Definition fx_u : Z := 0x2000.
Definition fx_hdr : Z := 0x3000.
Definition fx_buf : Z := 0x4000.
Definition fx_st : Z := 0x5000.

Definition fx_desc (i addr len flags next : Z) (m : Ram) : Ram :=
  pokes m (fx_d + 16 * i)
    (le_enc 8 addr ++ le_enc 4 len ++ le_enc 2 flags ++ le_enc 2 next).
Definition fx_avail (idx : Z) (heads : list Z) (m : Ram) : Ram :=
  pokes m fx_a (le_enc 2 0 ++ le_enc 2 idx ++ mjoin (le_enc 2 <$> heads)).

Lemma wf_fx_ram : wf_ram fx_ram.
Proof. by split. Qed.

Lemma wf_le_app n x bs : wf_bytes bs → wf_bytes (le_enc n x ++ bs).
Proof. intros. apply wf_bytes_app. auto with vm. Qed.

Lemma wf_mjoin_le n (xs : list Z) : wf_bytes (mjoin (le_enc n <$> xs)).
Proof. induction xs as [|x xs IH]; cbn; [constructor | by apply wf_le_app]. Qed.

Lemma wf_fx_desc i addr len flags next m : wf_ram m → wf_ram (fx_desc i addr len flags next m).
Proof. intros. apply wf_pokes; [done|]. repeat apply wf_le_app. auto with vm. Qed.

Lemma wf_fx_avail idx heads m : wf_ram m → wf_ram (fx_avail idx heads m).
Proof. intros. apply wf_pokes; [done|]. repeat apply wf_le_app. apply wf_mjoin_le. Qed.

#[export] Hint Resolve wf_fx_ram wf_fx_desc wf_fx_avail : vm.

(** A ready queue of [K] entries over the fixture's rings. *)
Definition fx_queue (K : Z) : Queue :=
  mkQueue K (fx_base + fx_d) (fx_base + fx_a) (fx_base + fx_u) 0 true.

(** Protected memory: the descriptor table and the available ring; or these
    and every buffer. *)
Definition fx_ring_prot (x : Z) : Prop := fx_d ≤ x < fx_d + 0x1000 ∨ fx_a ≤ x < fx_a + 0x300.
Definition fx_tx_prot (x : Z) : Prop := fx_ring_prot x ∨ 0x3000 ≤ x.

Lemma fx_rings (m : Ram) (K : Z) (prot : Z → Prop) :
  same_map fx_ram m → wf_ram m → 0 ≤ K ≤ 256 →
  (∀ x, fx_ring_prot x → prot x) → (∀ x, fx_u ≤ x < fx_u + 0x1000 → ¬ prot x) →
  rings K prot fx_d fx_a fx_u m.
Proof.
  intros Hs Hm HK Hp Hn. split; [| | | |done].
  - intros x Hx. apply Hp. unfold fx_ring_prot, fx_d in *. lia.
  - intros x Hx. apply Hp. unfold fx_ring_prot, fx_a in *. lia.
  - intros x Hx. apply Hn. unfold used_bytes, fx_u in *. lia.
  - rewrite (in_ram_same fx_ram) by done. apply in_ram_spec. unfold used_bytes.
    cbn [fx_ram set_ram ram_size]. unfold fx_u. lia.
Qed.

Lemma fx_u_ring_prot x : fx_u ≤ x < fx_u + 0x1000 → ¬ fx_ring_prot x.
Proof. unfold fx_ring_prot, fx_u, fx_d, fx_a. lia. Qed.

Lemma fx_u_tx_prot x : fx_u ≤ x < fx_u + 0x1000 → ¬ fx_tx_prot x.
Proof. unfold fx_tx_prot, fx_ring_prot, fx_u, fx_d, fx_a. lia. Qed.

(** Evaluate a closed equation [H : x = r] between model values. *)
Ltac eval_in H :=
  match type of H with
  | ?x = ?r =>
      let v := eval vm_compute in x in
      let E := fresh in assert (x = v) as E by (vm_compute; reflexivity);
      rewrite E in H; clear E; injection H as <-
  end.
