(* ===== verification/VirtioRegs.v ===== *)
(** * VirtioRegs: the transport registers of the two-queue virtio devices

    The console, net, gpu and input devices (src/src/hvf/virtio_console.cpp,
    virtio_net.cpp, virtio_gpu.cpp, virtio_input.cpp) declare the same status,
    selector, interrupt and feature members and [Queue queues_[2]], and their
    [write] handlers share the cases modelled here by [regs_write]. *)

From S2P Require Import Prelude Bytes GuestMem Virtq.

(** [r_features] is [features_] (console, net) or [driver_features_] (gpu,
    input); [r_q0], [r_q1] are [queues_[0]], [queues_[1]]. *)
Record Regs := mkRegs {
  r_status : Z;
  r_queue_sel : Z;
  r_irq_status : Z;
  r_dev_feat_sel : Z;
  r_drv_feat_sel : Z;
  r_features : Z;
  r_q0 : Queue;
  r_q1 : Queue;
}.

Definition Regs0 (K features : Z) : Regs := mkRegs 0 0 0 0 0 features (Queue0 K) (Queue0 K).

Definition with_status (r : Regs) (v : Z) : Regs :=
  mkRegs v (r_queue_sel r) (r_irq_status r) (r_dev_feat_sel r) (r_drv_feat_sel r)
    (r_features r) (r_q0 r) (r_q1 r).
Definition with_queue_sel (r : Regs) (v : Z) : Regs :=
  mkRegs (r_status r) v (r_irq_status r) (r_dev_feat_sel r) (r_drv_feat_sel r)
    (r_features r) (r_q0 r) (r_q1 r).
Definition with_irq_status (r : Regs) (v : Z) : Regs :=
  mkRegs (r_status r) (r_queue_sel r) v (r_dev_feat_sel r) (r_drv_feat_sel r)
    (r_features r) (r_q0 r) (r_q1 r).
Definition with_dev_feat_sel (r : Regs) (v : Z) : Regs :=
  mkRegs (r_status r) (r_queue_sel r) (r_irq_status r) v (r_drv_feat_sel r)
    (r_features r) (r_q0 r) (r_q1 r).
Definition with_drv_feat_sel (r : Regs) (v : Z) : Regs :=
  mkRegs (r_status r) (r_queue_sel r) (r_irq_status r) (r_dev_feat_sel r) v
    (r_features r) (r_q0 r) (r_q1 r).
Definition with_features (r : Regs) (v : Z) : Regs :=
  mkRegs (r_status r) (r_queue_sel r) (r_irq_status r) (r_dev_feat_sel r) (r_drv_feat_sel r)
    v (r_q0 r) (r_q1 r).
Definition with_queues (r : Regs) (q0 q1 : Queue) : Regs :=
  mkRegs (r_status r) (r_queue_sel r) (r_irq_status r) (r_dev_feat_sel r) (r_drv_feat_sel r)
    (r_features r) q0 q1.

Definition set_irq (r : Regs) : Regs := with_irq_status r (Z.lor (r_irq_status r) 1).

(** [++q.last_avail] on [queues_[0]] and [queues_[1]]. *)
Definition bump0 (r : Regs) : Regs :=
  with_queues r (set_last_avail (r_q0 r) (u16 (last_avail (r_q0 r) + 1))) (r_q1 r).
Definition bump1 (r : Regs) : Regs :=
  with_queues r (r_q0 r) (set_last_avail (r_q1 r) (u16 (last_avail (r_q1 r) + 1))).

(** [queues_[queue_sel_]], when [queue_sel_ < 2]. *)
Definition selected (r : Regs) : option Queue :=
  if r_queue_sel r =? 0 then Some (r_q0 r)
  else if r_queue_sel r =? 1 then Some (r_q1 r) else None.

Definition on_selected (f : Queue → Queue) (r : Regs) : Regs :=
  if r_queue_sel r =? 0 then with_queues r (f (r_q0 r)) (r_q1 r)
  else if r_queue_sel r =? 1 then with_queues r (r_q0 r) (f (r_q1 r)) else r.

(** [static_cast<uint32_t>(features)] or its high half, by the selector. *)
Definition feature_word (sel f : Z) : Z :=
  if sel =? 0 then u32 f else if sel =? 1 then u32 (Z.shiftr f 32) else 0.

(** The registers of the selected queue. *)
Definition queue_reg (K off val : Z) : option (Queue → Queue) :=
  if off =? Reg.QueueNum then Some (λ q, set_num q (Z.min val K))
  else if off =? Reg.QueueReady then Some (λ q, set_ready q (negb (val =? 0)))
  else if off =? Reg.QueueDescLo then Some (λ q, set_desc_gpa q (LO (desc_gpa q) val))
  else if off =? Reg.QueueDescHi then Some (λ q, set_desc_gpa q (HI (desc_gpa q) val))
  else if off =? Reg.QueueAvailLo then Some (λ q, set_avail_gpa q (LO (avail_gpa q) val))
  else if off =? Reg.QueueAvailHi then Some (λ q, set_avail_gpa q (HI (avail_gpa q) val))
  else if off =? Reg.QueueUsedLo then Some (λ q, set_used_gpa q (LO (used_gpa q) val))
  else if off =? Reg.QueueUsedHi then Some (λ q, set_used_gpa q (HI (used_gpa q) val))
  else None.

(** The writes that touch nothing but these registers; [None] for the
    registers each device handles itself (QueueSel, QueueNotify, Status) and
    for every other offset. *)
Definition regs_write (K : Z) (r : Regs) (off val : Z) : option Regs :=
  if off =? Reg.DeviceFeatSel then Some (with_dev_feat_sel r val)
  else if off =? Reg.DriverFeatSel then Some (with_drv_feat_sel r val)
  else if off =? Reg.DriverFeat then
    Some (if r_drv_feat_sel r =? 0 then with_features r (LO (r_features r) val)
          else if r_drv_feat_sel r =? 1 then with_features r (HI (r_features r) val)
          else r)
  else if off =? Reg.IrqAck then
    Some (with_irq_status r (Z.land (r_irq_status r) (Z.lnot val)))
  else (λ f, on_selected f r) <$> queue_reg K off val.

(** [for (auto& queue : queues_) queue = Queue{}; irq_status_ = 0]. *)
Definition regs_reset (K : Z) (r : Regs) : Regs :=
  with_irq_status (with_queues r (Queue0 K) (Queue0 K)) 0.

(** ** Well-formed registers *)
Record wf_regs (K : Z) (r : Regs) : Prop := {
  wr_status : fits 32 (r_status r);
  wr_sel : fits 32 (r_queue_sel r);
  wr_irq : fits 32 (r_irq_status r);
  wr_devsel : fits 32 (r_dev_feat_sel r);
  wr_drvsel : fits 32 (r_drv_feat_sel r);
  wr_features : fits 64 (r_features r);
  wr_q0 : wf_queue K (r_q0 r);
  wr_q1 : wf_queue K (r_q1 r);
}.

Section wf.
Context (K : Z) (HK : 0 ≤ K).

Lemma wf_Regs0 f : fits 64 f → wf_regs K (Regs0 K f).
Proof. intros. split; try done; by apply wf_Queue0. Qed.

Lemma queue_reg_wf off val f q :
  fits 32 val → queue_reg K off val = Some f → wf_queue K q → wf_queue K (f q).
Proof.
  intros Hv Hf [? ? ? ? ?]. unfold queue_reg in Hf.
  repeat (case_match; [injection Hf as <-|]); try done; split; cbn; try done;
    try (by apply LO_range); try (by apply HI_range); unfold fits in *; lia.
Qed.

Lemma on_selected_wf f r :
  (∀ q, wf_queue K q → wf_queue K (f q)) → wf_regs K r → wf_regs K (on_selected f r).
Proof.
  intros Hf []. unfold on_selected. repeat case_match; split; cbn; auto.
Qed.

Lemma regs_write_wf r r' off val :
  wf_regs K r → fits 32 val → regs_write K r off val = Some r' → wf_regs K r'.
Proof.
  intros Hr Hv H. unfold regs_write in H.
  destruct (off =? Reg.DeviceFeatSel); [injection H as <-; by destruct Hr|].
  destruct (off =? Reg.DriverFeatSel); [injection H as <-; by destruct Hr|].
  destruct (off =? Reg.DriverFeat).
  { injection H as <-. destruct Hr.
    repeat case_match; split; cbn; try done; [by apply LO_range | by apply HI_range]. }
  destruct (off =? Reg.IrqAck).
  { injection H as <-. destruct Hr. split; cbn; try done. by apply (fits_land 32). }
  destruct (queue_reg K off val) as [f|] eqn:Hf; [|done]. injection H as <-.
  apply on_selected_wf; [|done]. intros q. by apply (queue_reg_wf off val).
Qed.

Lemma regs_reset_wf r : wf_regs K r → wf_regs K (regs_reset K r).
Proof. intros []. split; try done; by apply wf_Queue0. Qed.

Lemma bump0_wf r : wf_regs K r → wf_regs K (bump0 r).
Proof. intros [? ? ? ? ? ? [] ?]. split; try done. split; try done. apply u16_range. Qed.

Lemma bump1_wf r : wf_regs K r → wf_regs K (bump1 r).
Proof. intros [? ? ? ? ? ? ? []]. split; try done. split; try done. apply u16_range. Qed.

Lemma set_irq_wf r : wf_regs K r → wf_regs K (set_irq r).
Proof. intros []. split; try done. apply fits_lor; [done..|]. by unfold fits. Qed.

Lemma with_status_wf r v : wf_regs K r → fits 32 v → wf_regs K (with_status r v).
Proof. by intros []. Qed.

Lemma with_queue_sel_wf r v : wf_regs K r → fits 32 v → wf_regs K (with_queue_sel r v).
Proof. by intros []. Qed.

(** Programming one queue leaves the other alone. *)
Lemma regs_write_isolated r r' off val :
  regs_write K r off val = Some r' →
  (r_queue_sel r ≠ 0 → r_q0 r' = r_q0 r) ∧ (r_queue_sel r ≠ 1 → r_q1 r' = r_q1 r).
Proof.
  intros H. unfold regs_write in H.
  repeat (case_match; [injection H as <-; repeat case_match; done|]).
  destruct (queue_reg K off val) as [f|]; [|done]. injection H as <-.
  unfold on_selected. repeat case_match; split; cbn; try done; lia.
Qed.
End wf.

#[export] Hint Resolve wf_Regs0 regs_reset_wf bump0_wf bump1_wf set_irq_wf
  with_status_wf with_queue_sel_wf : vm.
