(* ===== verification/VirtioConsole.v ===== *)
(** * VirtioConsole: the virtio console device

    Models src/src/hvf/virtio_console.hpp and virtio_console.cpp.  Queue 1
    carries guest output to [tx_fd_]; queue 0 is fed one byte at a time from
    [rx_fd_] by the receive thread.  The host side of [rx_fd_] is the byte
    string still to be read from it; the receive thread's rounds and the
    destructor are in ConsoleRx. *)

From S2P Require Import Prelude Bytes GuestMem Virtq VirtqSpec World VirtioRegs Fixtures.

Definition kQueueSize : Z := 256.

Record Console := mkConsole {
  rx_fd : Z;
  tx_fd : Z;
  regs : Regs;
}.

(** The constructor, without the start of the receive thread. *)
Definition Console0 (rx tx : Z) : Console := mkConsole rx tx (Regs0 kQueueSize kVirtioF_Version1).

Definition set_regs (c : Console) (r : Regs) : Console := mkConsole (rx_fd c) (tx_fd c) r.

(** ** [process_tx] *)

(** One descriptor: [::write(tx_fd_, buf, len)] and [wrote += len]. *)
Definition tx_visit (fd : Z) (m : Ram) (al l : Z) (s : Z * list Event) : res (Z * list Event) :=
  let '(wrote, es) := s in
  match gpa_to_hva m al with
  | Some buf =>
      if l =? 0 then Ok s else
      es' ← (if 0 <=? fd then bs ← load m buf (Z.to_nat l); Ok (es ++ [FdWrite fd bs])
             else Ok es);
      Ok (u32 (wrote + l), es')
  | None => Ok s
  end.

Definition con_state : Type := Console * World.

Definition tx_last (s : con_state) : Z := last_avail (r_q1 (regs s.1)).
Definition con_ram (s : con_state) : Ram := w_ram s.2.

Definition tx_one (fuel : nat) (d a u : Z) (s : con_state) : res (bool * con_state) :=
  let '(c, w) := s in
  head ← avail_ring (w_ram w) a (tx_last s mod kQueueSize);
  '(wrote, es) ← walk_chain (w_ram w) (tx_visit (tx_fd c) (w_ram w)) fuel d head (0, []);
  m' ← push_used kQueueSize (w_ram w) u head wrote;
  Ok (true, (set_regs c (bump1 (regs c)), emit (with_ram w m') es)).

(** The interrupt is raised even when no buffer was pending. *)
Definition process_tx (fuel : nat) (c : Console) (w : World) : res (Console * World) :=
  match ring_ptrs (w_ram w) (r_q1 (regs c)) with
  | None => Ok (c, w)
  | Some (d, a, u) =>
      '(c', w') ← drain tx_last (λ s, avail_idx (con_ram s) a) (tx_one fuel d a u) fuel (c, w);
      Ok (set_regs c' (set_irq (regs c')), raise_spi kSpiConsole w')
  end.

(** ** [feed_rx]

    [inp] is what [::read(rx_fd_, &c, 1)] can still return, one byte per call;
    reading at its end returns no byte. *)
Definition feed_rx (c : Console) (w : World) (inp : bytes) : res (Console * World * bytes) :=
  if rx_fd c <? 0 then Ok (c, w, inp) else
  match ring_ptrs (w_ram w) (r_q0 (regs c)) with
  | None => Ok (c, w, inp)
  | Some (d, a, u) =>
      let m := w_ram w in
      let last := last_avail (r_q0 (regs c)) in
      idx ← avail_idx m a;
      if last =? idx then Ok (c, w, inp) else
      head ← avail_ring m a (last mod kQueueSize);
      addr ← desc_addr m d head;
      cap ← desc_len m d head;
      match gpa_to_hva m addr, inp with
      | Some buf, ch :: inp' =>
          if cap =? 0 then Ok (c, w, inp) else
          m1 ← store8 m buf ch;
          m2 ← push_used kQueueSize m1 u head 1;
          Ok (set_regs c (set_irq (bump0 (regs c))), raise_spi kSpiConsole (with_ram w m2), inp')
      | _, _ => Ok (c, w, inp)
      end
  end.

(** ** Registers *)
Definition read (c : Console) (off len : Z) : Z :=
  let r := regs c in
  if off =? Reg.Magic then 0x74726976
  else if off =? Reg.Version then 2
  else if off =? Reg.DeviceId then 3
  else if off =? Reg.VendorId then 0x554D4551
  else if off =? Reg.DeviceFeat then feature_word (r_dev_feat_sel r) (r_features r)
  else if off =? Reg.QueueNumMax then kQueueSize
  else if off =? Reg.QueueReady then
    match selected r with Some q => if ready q then 1 else 0 | None => 0 end
  else if off =? Reg.IrqStatus then r_irq_status r
  else if off =? Reg.Status then r_status r
  else if off =? Reg.ConfigGen then 0
  else 0.

Definition write (fuel : nat) (c : Console) (w : World) (off val len : Z)
  : res (Console * World) :=
  let r := regs c in
  if off =? Reg.QueueSel then Ok (set_regs c (with_queue_sel r val), w)
  else if off =? Reg.QueueNotify then (if val =? 1 then process_tx fuel c w else Ok (c, w))
  else if off =? Reg.Status then
    let r' := with_status r val in
    Ok (set_regs c (if val =? 0 then regs_reset kQueueSize r' else r'), w)
  else match regs_write kQueueSize r off val with
       | Some r' => Ok (set_regs c r', w)
       | None => Ok (c, w)
       end.

#[export] Instance Console_mmio : MmioDevice Console := {
  dev_read c off len := Ok (read c off len);
  dev_write := write;
}.

(** ** What the transmit queue promises *)

(** The [::write] calls the buffers [segs] of memory [m] call for, and the
    byte count reported for them. *)
Fixpoint seg_writes (fd : Z) (m : Ram) (segs : list (Z * Z)) : list Event :=
  match segs with
  | [] => []
  | (al, l) :: segs =>
      (match gpa_to_hva m al with
       | Some p => if (l =? 0) || (fd <? 0) then [] else [FdWrite fd (peeks m p (Z.to_nat l))]
       | None => []
       end) ++ seg_writes fd m segs
  end.

Fixpoint seg_count (m : Ram) (segs : list (Z * Z)) : Z :=
  match segs with
  | [] => 0
  | (al, l) :: segs =>
      (match gpa_to_hva m al with Some _ => l | None => 0 end) + seg_count m segs
  end.

Section Tx.
Context (prot : Z → Prop) (d a u : Z) (fuel : nat).

Local Abbreviation buf_ok := (buf_ok prot).
Local Abbreviation tx_good := (tx_good kQueueSize prot d fuel).

Definition serve_tx (j : TxJob) (s : con_state) : res con_state :=
  let '(c, w) := s in
  m' ← push_used kQueueSize (w_ram w) u (tj_head j) (u32 (seg_count (w_ram w) (tj_bufs j)));
  Ok (set_regs c (bump1 (regs c)),
      emit (with_ram w m') (seg_writes (tx_fd c) (w_ram w) (tj_bufs j))).

Lemma tx_visit_ok m fd al l wrote es :
  buf_ok m (al, l) → 0 ≤ wrote < 0x100000000 →
  tx_visit fd m al l (wrote, es) =
    Ok (u32 (wrote + seg_count m [(al, l)]), es ++ seg_writes fd m [(al, l)]).
Proof.
  intros [H0 H] Hw. unfold tx_visit. cbn [seg_writes seg_count]. cbn in H0, H.
  destruct (gpa_to_hva m al) as [p|] eqn:Hp; cycle 1.
  { by rewrite !app_nil_r, Z.add_0_r, u32_id. }
  destruct (H p eq_refl) as [Hin _]. destruct (Z.eqb_spec l 0) as [->|Hl]; cbn [orb].
  - by rewrite !app_nil_r, Z.add_0_r, u32_id.
  - rewrite Z.add_0_r. destruct (Z.leb_spec 0 fd), (Z.ltb_spec fd 0); try lia.
    + by rewrite load_in, !bind_Ok by done.
    + by rewrite !bind_Ok, !app_nil_r.
Qed.

(** The buffers are written in chain order. *)
Lemma visit_tx m fd segs : ∀ wrote es, Forall (buf_ok m) segs → 0 ≤ wrote < 0x100000000 →
  visit_all (tx_visit fd m) segs (wrote, es) =
    Ok (u32 (wrote + seg_count m segs), es ++ seg_writes fd m segs).
Proof.
  induction segs as [|[al l] segs IH]; intros wrote es Hk Hw; cbn [visit_all].
  - cbn [seg_count seg_writes]. by rewrite Z.add_0_r, u32_id, app_nil_r.
  - apply Forall_cons in Hk as [Hk1 Hk]. rewrite tx_visit_ok, bind_Ok, IH by (done || apply u32_range).
    cbn [seg_count seg_writes]. rewrite <- app_assoc, app_nil_r. do 2 f_equal. zlia.
Qed.

Lemma tx_one_ok s j i :
  rings kQueueSize prot d a u (con_ram s) → tx_good (con_ram s) j →
  avail_ring (con_ram s) a (tx_last s mod kQueueSize) = Ok (tj_head j) →
  used_idx (con_ram s) u = Ok i →
  ∃ s', tx_one fuel d a u s = Ok (true, s') ∧ serve_tx j s = Ok s' ∧
    stable prot (con_ram s) (con_ram s') ∧ used_idx (con_ram s') u = Ok (u16 (i + 1)) ∧
    tx_last s' = u16 (tx_last s + 1).
Proof.
  destruct s as [c w]. unfold con_ram. cbn [snd]. intros Hr (Hb & Hk & Hl) Hav Hi.
  assert (0 ≤ tj_head j < kQueueSize) as Hh by by inversion Hb.
  destruct (publish_spec kQueueSize prot d a u (w_ram w) (w_ram w) i (tj_head j)
    (u32 (seg_count (w_ram w) (tj_bufs j)))) as (m' & E & S & U & _); try done.
  { unfold kQueueSize in *. lia. }
  { apply u32_range. }
  exists (set_regs c (bump1 (regs c)),
      emit (with_ram w m') (seg_writes (tx_fd c) (w_ram w) (tj_bufs j))).
  split_and!; try done.
  - unfold tx_one. rewrite Hav, bind_Ok, (walk_chain_buffers kQueueSize _ _ _ _ (tj_bufs j)),
      visit_tx by done. by rewrite Z.add_0_l, bind_Ok, E.
  - unfold serve_tx. by rewrite E.
Qed.

(** The events of the fold, in terms of the memory before it. *)
Lemma seg_writes_stable fd m m' segs :
  stable prot m m' → Forall (buf_ok m) segs → seg_writes fd m' segs = seg_writes fd m segs.
Proof.
  intros Hs. induction 1 as [|[al l] segs [H0 H] _ IH]; [done|]. cbn [seg_writes].
  rewrite IH, (gpa_to_hva_same m) by apply Hs. cbn in H0, H.
  destruct (gpa_to_hva m al) as [p|] eqn:Hp; [|done]. destruct (H p eq_refl) as [_ Hc].
  rewrite (peeks_agree m m'); [done|]. rewrite Z2Nat.id by done. by eapply stable_agree.
Qed.

Definition job_writes (fd : Z) (m : Ram) (j : TxJob) : list Event :=
  seg_writes fd m (tj_bufs j).

Lemma serve_tx_stable j s s' :
  rings kQueueSize prot d a u (con_ram s) → tx_good (con_ram s) j →
  avail_ring (con_ram s) a (tx_last s mod kQueueSize) = Ok (tj_head j) →
  serve_tx j s = Ok s' → stable prot (con_ram s) (con_ram s').
Proof.
  intros Hr Hg Ha He. pose proof (rg_used_in _ _ _ _ _ _ Hr) as Hin.
  apply in_ram_spec in Hin. unfold used_bytes, kQueueSize in Hin.
  assert (∃ i, used_idx (con_ram s) u = Ok i) as [i Hi].
  { unfold used_idx, load16, load. rewrite (proj2 (in_ram_spec _ _ _)) by lia. by eexists. }
  destruct (tx_one_ok s j i Hr Hg Ha Hi) as (s1 & _ & E & S & _).
  rewrite He in E. by injection E as ->.
Qed.

Lemma serve_jobs_log js : ∀ s s',
  rings kQueueSize prot d a u (con_ram s) →
  queued kQueueSize a tj_head tx_good (con_ram s) (tx_last s) js →
  serve_jobs serve_tx js s = Ok s' →
  w_log s'.2 = w_log s.2 ++ flat_map (job_writes (tx_fd s.1) (con_ram s)) js ∧
  tx_fd s'.1 = tx_fd s.1 ∧ rx_fd s'.1 = rx_fd s.1 ∧ ∃ l,
    regs s'.1 = with_queues (regs s.1) (r_q0 (regs s.1)) (set_last_avail (r_q1 (regs s.1)) l).
Proof.
  induction js as [|j js IH]; intros s s' Hr Hq H; cbn [serve_jobs flat_map] in *.
  - injection H as <-. rewrite app_nil_r. split_and!; [done..|].
    exists (last_avail (r_q1 (regs s.1))). by destruct s as [[rx tx [? ? ? ? ? ? ? []]] w].
  - apply bind_Ok_inv in H as (s1 & E1 & H). inversion Hq as [|? ? ? Ha Hg Hq']; subst.
    pose proof (serve_tx_stable j s s1 Hr Hg Ha E1) as S.
    assert (tx_last s1 = u16 (tx_last s + 1) ∧ tx_fd s1.1 = tx_fd s.1 ∧ rx_fd s1.1 = rx_fd s.1 ∧
      w_log s1.2 = w_log s.2 ++ job_writes (tx_fd s.1) (con_ram s) j ∧
      regs s1.1 = bump1 (regs s.1)) as (L1 & T1 & X1 & W1 & R1).
    { destruct s as [c w]. unfold serve_tx in E1. inv_bind. done. }
    destruct (IH s1 s') as (W2 & T2 & X2 & l & R2); [by eapply rings_stable | | done |].
    { rewrite L1. eapply queued_stable; [| |done|done|done]; [done|]. apply tx_good_stable. }
    rewrite T1 in *. rewrite X1 in *. split_and!; [|done|done|].
    + rewrite W2, W1, <- app_assoc. do 2 f_equal.
      clear -Hq' S Hr. revert Hq'. generalize (u16 (tx_last s + 1)). intros l Hq.
      induction Hq as [|l j js _ (_ & Hb & _) _ IH]; [done|]. cbn [flat_map].
      rewrite IH. f_equal. by apply seg_writes_stable.
    + exists l. by rewrite R2, R1.
Qed.
End Tx.

(** ** Properties *)


(** No console input is lost or duplicated.  [feed_rx] either leaves the
    host's input, the device and guest memory untouched, or takes exactly one
    byte off the input, stores it at the start of the next available buffer,
    publishes that buffer with length 1 and raises the interrupt; it takes the
    byte only when the guest has a buffer for it. *)
Theorem console_rx_lossless (prot : Z → Prop) (d a u i : Z) (c c' : Console) (w w' : World)
    (inp inp' : bytes) :
  ring_ptrs (w_ram w) (r_q0 (regs c)) = Some (d, a, u) →
  rings kQueueSize prot d a u (w_ram w) → wf_bytes inp →
  used_idx (w_ram w) u = Ok i →
  (∀ head ad buf, avail_ring (w_ram w) a (last_avail (r_q0 (regs c)) mod kQueueSize) = Ok head →
     desc_addr (w_ram w) d head = Ok ad → gpa_to_hva (w_ram w) ad = Some buf →
     0 ≤ head < kQueueSize ∧ spares (prot_all kQueueSize prot u) buf 1) →
  feed_rx c w inp = Ok (c', w', inp') →
  (c' = c ∧ w' = w ∧ inp' = inp) ∨
  ∃ ch head ad buf,
    inp = ch :: inp' ∧
    avail_ring (w_ram w) a (last_avail (r_q0 (regs c)) mod kQueueSize) = Ok head ∧
    desc_addr (w_ram w) d head = Ok ad ∧ gpa_to_hva (w_ram w) ad = Some buf ∧
    load (w_ram w') buf 1 = Ok [ch] ∧
    load32 (w_ram w') (u + 4 + 8 * (i mod kQueueSize)) = Ok head ∧
    load32 (w_ram w') (u + 4 + 8 * (i mod kQueueSize) + 4) = Ok 1 ∧
    used_idx (w_ram w') u = Ok (u16 (i + 1)) ∧ stable prot (w_ram w) (w_ram w') ∧
    c' = set_regs c (set_irq (bump0 (regs c))) ∧
    w_log w' = w_log w ++ [SetSpi 48 true; SetSpi 48 false].
Proof.
  intros Hp Hr Hin Hu Hb H. unfold feed_rx in H. rewrite Hp in H.
  destruct (rx_fd c <? 0); [left; by simplify_eq|]. inv_bind.
  destruct (_ =? v) in H; [left; by simplify_eq|]. inv_bind.
  destruct (gpa_to_hva (w_ram w) v1) as [buf|] eqn:Hg; [|left; by simplify_eq].
  destruct inp as [|ch inp1]; [left; by simplify_eq|].
  destruct (v2 =? 0); [left; by simplify_eq|]. inv_bind.
  right. exists ch, v0, v1, buf. destruct (Hb v0 v1 buf) as [Hh Hsp]; [done..|].
  apply Forall_cons in Hin as [Hch _].
  assert (le_enc 1 ch = [ch]) as Hle by (cbn; f_equal; apply Z.mod_small, Hch).
  assert (stable (prot_all kQueueSize prot u) (w_ram w) v3) as S1.
  { eapply stable_store; [done | apply wf_le_enc |]. by rewrite Hle. }
  destruct (publish_spec kQueueSize prot d a u (w_ram w) v3 i v0 1)
    as (m' & E & S & U & L1 & L2 & A); try done.
  { unfold kQueueSize in *. lia. }
  rewrite Hm4 in E. injection E as <-.
  split_and!; try done.
  change (w_ram (raise_spi _ _)) with v4.
  unfold store8 in Hm3. rewrite Hle in Hm3. apply store_Ok in Hm3 as [Hi1 ->].
  rewrite (load_agree (pokes (w_ram w) buf [ch])).
  - rewrite load_in; [by rewrite (peeks_pokes _ _ [ch])|].
    by rewrite (in_ram_same (w_ram w)) by apply same_map_pokes.
  - etrans; [|apply S]. apply S1.
  - apply A. unfold disjoint. assert (¬ in_used kQueueSize u buf) as Hnu.
    { intros Hx. apply (Hsp buf); [lia | by right]. }
    unfold in_used in Hnu. lia.
Qed.

Section invariant.
Lemma tx_one_step fuel d a u s go s' :
  wf_regs kQueueSize (regs s.1) → tx_one fuel d a u s = Ok (go, s') →
  wf_regs kQueueSize (regs s'.1) ∧ ram_step (con_ram s) (con_ram s') ∧
  (rx_fd s'.1 = rx_fd s.1 ∧ tx_fd s'.1 = tx_fd s.1).
Proof.
  destruct s as [c w]. cbn [fst]. intros Hc H. unfold tx_one in H. inv_bind.
  split; [by apply bump1_wf|]. split; [by eapply push_used_wf | done].
Qed.

Lemma process_tx_step fuel c c' w w' :
  wf_regs kQueueSize (regs c) → process_tx fuel c w = Ok (c', w') →
  wf_regs kQueueSize (regs c') ∧ ram_step (w_ram w) (w_ram w') ∧
  (rx_fd c' = rx_fd c ∧ tx_fd c' = tx_fd c).
Proof.
  intros Hc H. unfold process_tx in H.
  destruct (ring_ptrs _ _) as [[[d a] u]|]; [|by simplify_eq].
  apply bind_Ok_inv in H as ([c1 w1] & D & H). injection H as <- <-.
  pose (P := λ s : con_state, wf_regs kQueueSize (regs s.1) ∧ ram_step (w_ram w) (con_ram s) ∧
    (rx_fd s.1 = rx_fd c ∧ tx_fd s.1 = tx_fd c)).
  assert (P (c1, w1)) as (H1 & H2 & H3).
  { refine (drain_Ok_inv _ _ _ P _ fuel (c, w) (c1, w1) _ D); [|done].
    intros s go s' (Hs & Hr & Hx & Ht) Hb.
    destruct (tx_one_step _ _ _ _ _ _ _ Hs Hb) as (? & ? & ? & ?).
    split_and!; [done | by etrans | congruence..]. }
  split; [by apply set_irq_wf | done].
Qed.
End invariant.

(** Every register write that returns, a transmit notification with all it
    does included, keeps the console's registers well formed, changes guest
    memory only inside the RAM mapping and leaves the descriptors alone. *)
Lemma console_write_invariant (fuel : nat) (c c' : Console) (w w' : World) (off val len : Z) :
  wf_regs kQueueSize (regs c) → fits 32 val →
  write fuel c w off val len = Ok (c', w') →
  wf_regs kQueueSize (regs c') ∧ ram_step (w_ram w) (w_ram w') ∧
  (rx_fd c' = rx_fd c ∧ tx_fd c' = tx_fd c).
Proof.
  intros Hc Hv H. unfold write in H.
  destruct (off =? Reg.QueueSel); [injection H as <- <-; split; [by apply with_queue_sel_wf | done]|].
  destruct (off =? Reg.QueueNotify).
  { destruct (val =? 1); [by eapply process_tx_step | by simplify_eq]. }
  destruct (off =? Reg.Status).
  { injection H as <- <-. split; [|done]. cbn.
    case_match; [apply regs_reset_wf; [done|]|]; by apply with_status_wf. }
  destruct (regs_write _ _ _ _) as [r'|] eqn:Hw; injection H as <- <-; [|done].
  split; [|done]. by eapply regs_write_wf.
Qed.

(** The offered features do not survive negotiation: [DriverFeat] writes
    the very word [DeviceFeat] reads, so after a driver acknowledges [lo] and
    [hi] the device offers exactly these, and a reset does not restore the
    original offer. *)
Theorem console_offer_overwritten (fuel : nat) (c : Console) (w : World) (lo hi : Z) :
  fits 64 (r_features (regs c)) → fits 32 lo → fits 32 hi →
  ∃ c', ('(c1, w) ← write fuel c w Reg.DriverFeatSel 0 4;
         '(c2, w) ← write fuel c1 w Reg.DriverFeat lo 4;
         '(c3, w) ← write fuel c2 w Reg.DriverFeatSel 1 4;
         '(c4, w) ← write fuel c3 w Reg.DriverFeat hi 4;
         '(c5, w) ← write fuel c4 w Reg.Status 0 4;
         write fuel c5 w Reg.DeviceFeatSel 0 4) = Ok (c', w) ∧
    read c' Reg.DeviceFeat 4 = lo ∧ r_features (regs c') = hi * 2 ^ 32 + lo.
Proof.
  intros Hf Hlo Hhi. eexists. split; [reflexivity|].
  assert (HI (LO (r_features (regs c)) lo) hi = hi * 2 ^ 32 + lo) as E.
  { apply HI_LO; unfold fits in *; lia. }
  split; [|exact E].
  transitivity (u32 (HI (LO (r_features (regs c)) lo) hi)); [reflexivity|].
  rewrite E. clear E. zlia.
Qed.

(** ** Witnesses *)
Section witnesses.
(** Two chained buffers, "abc" and "de", published on the transmit queue. *)
Definition cx_ram : Ram :=
  fx_avail 1 [0]
    (fx_desc 0 (fx_base + fx_buf) 3 1 1
       (fx_desc 1 (fx_base + fx_st) 2 0 0
          (pokes (pokes fx_ram fx_buf [97; 98; 99]) fx_st [100; 101]))).
Definition cx_world : World := mkWorld cx_ram [].
Definition cx_console : Console :=
  mkConsole 5 6 (mkRegs 15 1 0 0 0 kVirtioF_Version1 (fx_queue 256) (fx_queue 256)).
Definition cx_job : TxJob := mkTxJob 0 [(fx_base + fx_buf, 3); (fx_base + fx_st, 2)].

Lemma wf_cx_ram : wf_ram cx_ram.
Proof.
  unfold cx_ram. apply wf_fx_avail, wf_fx_desc, wf_fx_desc.
  apply wf_pokes; [apply wf_pokes; [apply wf_fx_ram|] |]; by apply wf_bytesb_ok.
Qed.

Lemma cx_rings prot :
  (∀ x, fx_ring_prot x → prot x) → (∀ x, fx_u ≤ x < fx_u + 0x1000 → ¬ prot x) →
  rings kQueueSize prot fx_d fx_a fx_u cx_ram.
Proof. intros. by apply fx_rings; [done | apply wf_cx_ram |..]. Qed.

Lemma wf_cx_regs : wf_regs kQueueSize (regs cx_console).
Proof. by repeat split. Qed.

Lemma cx_job_good : tx_good kQueueSize fx_tx_prot fx_d 4 cx_ram cx_job.
Proof.
  split_and!; [| |cbn; lia].
  - apply (buffers_next _ _ _ _ 1 _ _ 1); [done | by vm_compute.. |].
    apply (buffers_last _ _ _ _ 0); [done | by vm_compute..].
  - apply Forall_cons_2; [|apply Forall_singleton]; (split; [done|]);
      intros p Hp; cbn [fst snd] in *; eval_in Hp;
      (split; [by vm_compute|]); intros x Hx; right; lia.
Qed.


(** The same memory, the queue now receiving. *)
Definition cx_rx : Console * World * bytes := Eval vm_compute in
  match feed_rx cx_console cx_world [65; 66] with Ok s => s | Err _ => (cx_console, cx_world, []) end.

Lemma console_rx_lossless_witness :
  (cx_rx.1.1 = cx_console ∧ cx_rx.1.2 = cx_world ∧ cx_rx.2 = [65; 66]) ∨
  ∃ ch head ad buf, [65; 66] = ch :: cx_rx.2 ∧
    avail_ring cx_ram fx_a 0 = Ok head ∧
    desc_addr cx_ram fx_d head = Ok ad ∧ gpa_to_hva cx_ram ad = Some buf ∧
    load (w_ram cx_rx.1.2) buf 1 = Ok [ch] ∧
    load32 (w_ram cx_rx.1.2) (fx_u + 4) = Ok head ∧
    load32 (w_ram cx_rx.1.2) (fx_u + 8) = Ok 1 ∧
    used_idx (w_ram cx_rx.1.2) fx_u = Ok 1 ∧ stable fx_ring_prot cx_ram (w_ram cx_rx.1.2) ∧
    cx_rx.1.1 = set_regs cx_console (set_irq (bump0 (regs cx_console))) ∧
    w_log cx_rx.1.2 = [SetSpi 48 true; SetSpi 48 false].
Proof.
  refine (console_rx_lossless fx_ring_prot fx_d fx_a fx_u 0 cx_console cx_rx.1.1 cx_world
            cx_rx.1.2 [65; 66] cx_rx.2 _ _ _ _ _ _); try eval_eq.
  - apply cx_rings; [done | apply fx_u_ring_prot].
  - by apply wf_bytesb_ok.
  - intros head ad buf Ha Had Hg.
    eval_in Ha. eval_in Had. eval_in Hg. split; [done|].
    intros x Hx [H|H]; unfold fx_ring_prot, in_used, used_bytes, kQueueSize, fx_buf, fx_d, fx_a, fx_u in *; lia.
Defined.

Lemma console_write_invariant_witness :
  wf_regs kQueueSize (regs (set_regs cx_console (with_queue_sel (regs cx_console) 0))) ∧
  ram_step cx_ram cx_ram ∧ (5 = 5 ∧ 6 = 6).
Proof.
  apply (console_write_invariant 1 cx_console
    (set_regs cx_console (with_queue_sel (regs cx_console) 0)) cx_world cx_world Reg.QueueSel 0 4).
  - apply wf_cx_regs.
  - done.
  - reflexivity.
Defined.

Lemma console_offer_overwritten_witness :
  ∃ c', ('(c1, w) ← write 0 cx_console cx_world Reg.DriverFeatSel 0 4;
         '(c2, w) ← write 0 c1 w Reg.DriverFeat 7 4;
         '(c3, w) ← write 0 c2 w Reg.DriverFeatSel 1 4;
         '(c4, w) ← write 0 c3 w Reg.DriverFeat 0 4;
         '(c5, w) ← write 0 c4 w Reg.Status 0 4;
         write 0 c5 w Reg.DeviceFeatSel 0 4) = Ok (c', cx_world) ∧
    read c' Reg.DeviceFeat 4 = 7 ∧ r_features (regs c') = 0 * 2 ^ 32 + 7.
Proof. by apply (console_offer_overwritten 0 cx_console cx_world 7 0). Defined.
End witnesses.
