(* ===== verification/VirtioInput.v ===== *)
(** * VirtioInput: the keyboard and tablet devices

    Models src/src/hvf/virtio_input.hpp and virtio_input.cpp: the configuration
    multiplexer, event injection through queue 0, the status queue, and the
    registers.  [memcpy] between [config_] and the 4-byte value of a register
    access is [Err HostOOB] when it leaves that value. *)

From S2P Require Import Prelude Bytes GuestMem Virtq VirtqSpec World VirtioRegs Fixtures.

Definition kQueueSize : Z := 64.
Definition kVirtioIdInput : Z := 18.

Definition EV_SYN : Z := 0x00.
Definition EV_KEY : Z := 0x01.
Definition EV_ABS : Z := 0x03.
Definition SYN_REPORT : Z := 0x00.
Definition BTN_LEFT : Z := 0x110.
Definition BTN_RIGHT : Z := 0x111.
Definition BTN_MIDDLE : Z := 0x112.
Definition ABS_X : Z := 0x00.
Definition ABS_Y : Z := 0x01.
Definition VIRTIO_INPUT_CFG_ID_NAME : Z := 0x01.
Definition VIRTIO_INPUT_CFG_EV_BITS : Z := 0x11.
Definition VIRTIO_INPUT_CFG_ABS_INFO : Z := 0x12.

Inductive Type_ : Type := Keyboard | Tablet.

#[export] Instance Type_eq_dec : EqDecision Type_.
Proof. solve_decision. Defined.

(** [virtio_input_event]: 8 packed bytes. *)
Record InputEvent := mkInputEvent {
  ev_type : Z;
  ev_code : Z;
  ev_value : Z;
}.
Definition event_bytes (e : InputEvent) : bytes :=
  le_enc 2 (ev_type e) ++ le_enc 2 (ev_code e) ++ le_enc 4 (ev_value e).

(** [device_features_] is constant; [r_features] of [regs] is
    [driver_features_]. *)
Record Input := mkInput {
  type : Type_;
  abs_width : Z;
  abs_height : Z;
  spi_id : Z;
  device_features : Z;
  regs : Regs;
  pending_events : list InputEvent;
  config : bytes;
}.

Definition set_regs (d : Input) (r : Regs) : Input :=
  mkInput (type d) (abs_width d) (abs_height d) (spi_id d) (device_features d) r
    (pending_events d) (config d).
Definition set_pending (d : Input) (l : list InputEvent) : Input :=
  mkInput (type d) (abs_width d) (abs_height d) (spi_id d) (device_features d) (regs d) l
    (config d).
Definition set_config (d : Input) (c : bytes) : Input :=
  mkInput (type d) (abs_width d) (abs_height d) (spi_id d) (device_features d) (regs d)
    (pending_events d) c.

(** ** The configuration multiplexer *)

(** [memcpy(&config_[off], bs, n)]. *)
Definition write_at (c : bytes) (off : nat) (bs : bytes) : bytes :=
  take off c ++ bs ++ drop (off + length bs) c.
Definition byte_at (c : bytes) (off : nat) : Z := default 0 (c !! off).

Definition name_keyboard : bytes :=
  [118; 105; 114; 116; 105; 111; 45; 107; 101; 121; 98; 111; 97; 114; 100].
Definition name_tablet : bytes := [118; 105; 114; 116; 105; 111; 45; 116; 97; 98; 108; 101; 116].

(** [virtio_input_absinfo] with everything but [max] zero. *)
Definition absinfo (max : Z) : bytes := le_enc 4 0 ++ le_enc 4 max ++ replicate 12 0.

(** The bytes stored from [config_[8]] and the size stored in [config_[2]]. *)
Definition config_value (ty : Type_) (w h select subsel : Z) : option (bytes * Z) :=
  if select =? VIRTIO_INPUT_CFG_ID_NAME then
    let name := match ty with Keyboard => name_keyboard | Tablet => name_tablet end in
    Some (name, Z.of_nat (length name))
  else if select =? VIRTIO_INPUT_CFG_EV_BITS then
    if subsel =? EV_SYN then Some ([Z.shiftl 1 SYN_REPORT], 1)
    else if subsel =? EV_KEY then
      match ty with
      | Keyboard => Some (replicate 128 0xFF, 128)
      | Tablet =>
          let b (n : Z) := Z.shiftl 1 (n mod 8) in
          Some (replicate (Z.to_nat (BTN_LEFT / 8)) 0
                  ++ [Z.lor (Z.lor (b BTN_LEFT) (b BTN_RIGHT)) (b BTN_MIDDLE)],
                u8 (BTN_MIDDLE / 8 + 1))
      end
    else if (subsel =? EV_ABS) && bool_decide (ty = Tablet) then
      Some ([Z.lor (Z.shiftl 1 ABS_X) (Z.shiftl 1 ABS_Y)], 1)
    else None
  else if (select =? VIRTIO_INPUT_CFG_ABS_INFO) && bool_decide (ty = Tablet) then
    if subsel =? ABS_X then Some (absinfo w, 20)
    else if subsel =? ABS_Y then Some (absinfo h, 20)
    else None
  else None.

Definition update_config (d : Input) : Input :=
  let c := write_at (write_at (config d) 2 [0]) 8 (replicate 128 0) in
  match config_value (type d) (abs_width d) (abs_height d) (byte_at (config d) 0)
          (byte_at (config d) 1) with
  | Some (v, size) => set_config d (write_at (write_at c 8 v) 2 [size])
  | None => set_config d c
  end.

(** The constructor. *)
Definition Input0 (spi : Z) (ty : Type_) (w h : Z) : Input :=
  update_config (mkInput ty w h spi kVirtioF_Version1 (Regs0 kQueueSize 0) [] (replicate 256 0)).

(** ** Event injection *)

(** [push_back], then [pop_front] above [kQueueSize * 2] events. *)
Definition push_event_locked (ty code value : Z) (d : Input) : Input :=
  let l := pending_events d ++ [mkInputEvent ty code value] in
  set_pending d (if kQueueSize * 2 <? Z.of_nat (length l) then tail l else l).

Definition inp_state : Type := Input * World * bool.
Definition inp_ram (s : inp_state) : Ram := w_ram s.1.2.
Definition flush_last (s : inp_state) : Z := last_avail (r_q0 (regs s.1.1)).

(** [!pending_events_.empty() && q.last_avail != avail->idx] as the index the
    drain loop compares with. *)
Definition flush_idx (a : Z) (s : inp_state) : res Z :=
  match pending_events s.1.1 with [] => Ok (flush_last s) | _ => avail_idx (inp_ram s) a end.

(** One available buffer: an unusable one is skipped without a used element. *)
Definition flush_one (d a u : Z) (s : inp_state) : res (bool * inp_state) :=
  let '(dev, w, injected) := s in
  let m := w_ram w in
  head ← avail_ring m a (flush_last s mod kQueueSize);
  addr ← desc_addr m d head;
  let dev' := set_regs dev (bump0 (regs dev)) in
  let skip : res (bool * inp_state) := Ok (true, (dev', w, injected)) in
  match gpa_to_hva m addr with
  | None => skip
  | Some hva =>
      flags ← desc_flags m d head;
      if negb (has_flag flags VRING_DESC_F_WRITE) then skip else
      len ← desc_len m d head;
      if len <? 8 then skip else
      match pending_events dev with
      | [] => skip
      | ev :: rest =>
          m ← store m hva (event_bytes ev);
          m ← push_used kQueueSize m u head 8;
          Ok (true, (set_pending dev' rest, with_ram w m, true))
      end
  end.

Definition notify (s : inp_state) : Input * World :=
  let '(dev, w, raised) := s in
  if (raised : bool) then (set_regs dev (set_irq (regs dev)), raise_spi (spi_id dev) w)
  else (dev, w).

(** Unlike the other devices it tests the two ring addresses only. *)
Definition flush_events_locked (fuel : nat) (dev : Input) (w : World) : res (Input * World) :=
  let q := r_q0 (regs dev) in
  if negb (ready q) || (avail_gpa q =? 0) || (used_gpa q =? 0) then Ok (dev, w) else
  match gpa_to_hva (w_ram w) (avail_gpa q), gpa_to_hva (w_ram w) (used_gpa q),
        gpa_to_hva (w_ram w) (desc_gpa q) with
  | Some a, Some u, Some d =>
      notify <$> drain flush_last (flush_idx a) (flush_one d a u) fuel (dev, w, false)
  | _, _, _ => Ok (dev, w)
  end.

Definition send_key (fuel : nat) (code : Z) (pressed : bool) (dev : Input) (w : World)
  : res (Input * World) :=
  let dev := push_event_locked EV_KEY code (if pressed then 1 else 0) dev in
  let dev := push_event_locked EV_SYN SYN_REPORT 0 dev in
  flush_events_locked fuel dev w.

Definition send_pointer (fuel : nat) (x y : Z) (btn_left btn_right : bool) (dev : Input) (w : World)
  : res (Input * World) :=
  let dev := push_event_locked EV_ABS ABS_X x dev in
  let dev := push_event_locked EV_ABS ABS_Y y dev in
  let dev := push_event_locked EV_KEY BTN_LEFT (if btn_left then 1 else 0) dev in
  let dev := push_event_locked EV_KEY BTN_RIGHT (if btn_right then 1 else 0) dev in
  let dev := push_event_locked EV_SYN SYN_REPORT 0 dev in
  flush_events_locked fuel dev w.

(** ** The status queue: every buffer is returned with length 0 *)
Definition status_last (s : inp_state) : Z := last_avail (r_q1 (regs s.1.1)).

Definition status_one (a u : Z) (s : inp_state) : res (bool * inp_state) :=
  let '(dev, w, drained) := s in
  head ← avail_ring (w_ram w) a (status_last s mod kQueueSize);
  m ← push_used kQueueSize (w_ram w) u head 0;
  Ok (true, (set_regs dev (bump1 (regs dev)), with_ram w m, true)).

Definition process_statusq (fuel : nat) (dev : Input) (w : World) : res (Input * World) :=
  let q := r_q1 (regs dev) in
  if negb (ready q) || (avail_gpa q =? 0) || (used_gpa q =? 0) then Ok (dev, w) else
  match gpa_to_hva (w_ram w) (avail_gpa q), gpa_to_hva (w_ram w) (used_gpa q) with
  | Some a, Some u =>
      notify <$> drain status_last (λ s, avail_idx (inp_ram s) a) (status_one a u) fuel (dev, w, false)
  | _, _ => Ok (dev, w)
  end.

(** ** Registers *)
Definition read (d : Input) (off len : Z) : res Z :=
  let r := regs d in
  if (Reg.Config <=? off) && (off <? Reg.Config + 256) then
    let c_off := off - Reg.Config in
    let copy_len := Z.min len (256 - c_off) in
    if 4 <? copy_len then Err HostOOB
    else Ok (le_dec (take (Z.to_nat copy_len) (drop (Z.to_nat c_off) (config d))))
  else Ok (
  if off =? Reg.Magic then 0x74726976
  else if off =? Reg.Version then 2
  else if off =? Reg.DeviceId then kVirtioIdInput
  else if off =? Reg.VendorId then 0x554D4551
  else if off =? Reg.DeviceFeat then feature_word (r_dev_feat_sel r) (device_features d)
  else if off =? Reg.QueueNumMax then kQueueSize
  else if off =? Reg.QueueReady then
    match selected r with Some q => if ready q then 1 else 0 | None => 0 end
  else if off =? Reg.IrqStatus then r_irq_status r
  else if off =? Reg.Status then r_status r
  else 0).

Definition write (fuel : nat) (d : Input) (w : World) (off val len : Z) : res (Input * World) :=
  let r := regs d in
  if (Reg.Config <=? off) && (off <? Reg.Config + 256) then
    let c_off := off - Reg.Config in
    let copy_len := Z.min len (256 - c_off) in
    if 4 <? copy_len then Err HostOOB else
    let d' := set_config d (write_at (config d) (Z.to_nat c_off)
                (take (Z.to_nat copy_len) (le_enc 4 val))) in
    Ok (if (c_off =? 0) || (c_off =? 1) then update_config d' else d', w)
  else if off =? Reg.QueueSel then Ok (set_regs d (with_queue_sel r (Z.min val 1)), w)
  else if off =? Reg.QueueNotify then
    if val =? 0 then flush_events_locked fuel d w
    else if val =? 1 then process_statusq fuel d w
    else Ok (d, w)
  else if off =? Reg.Status then
    let r' := with_status r val in
    if val =? 0 then
      Ok (set_pending (set_regs d (with_features (regs_reset kQueueSize r') 0)) [], w)
    else Ok (set_regs d r', w)
  else match regs_write kQueueSize r off val with
       | Some r' => Ok (set_regs d r', w)
       | None => Ok (d, w)
       end.

#[export] Instance Input_mmio : MmioDevice Input := {
  dev_read := read;
  dev_write := write;
}.

(** ** Delivering events *)
Lemma input_queue_divides : (kQueueSize | 0x10000).
Proof. by exists 1024. Qed.

Section Flush.
Context (prot : Z → Prop) (d a u idx : Z).

(** An event buffer: its head descriptor and its place in RAM. *)
Definition slot_ok (m : Ram) (s : Z * Z) : Prop :=
  let '(head, p) := s in
  0 ≤ head < kQueueSize ∧
  (∃ ad, desc_addr m d head = Ok ad ∧ gpa_to_hva m ad = Some p) ∧
  (∃ f, desc_flags m d head = Ok f ∧ has_flag f VRING_DESC_F_WRITE = true) ∧
  (∃ l, desc_len m d head = Ok l ∧ 8 ≤ l) ∧
  in_ram m p 8 = true ∧ spares (prot_all kQueueSize prot u) p 8.

Fixpoint disjoint_slots (ss : list (Z * Z)) : Prop :=
  match ss with
  | [] => True
  | s :: ss => Forall (λ s', disjoint s'.2 8 s.2 8) ss ∧ disjoint_slots ss
  end.

Lemma slot_ok_stable m m' s :
  stable prot m m' → rings kQueueSize prot d a u m → slot_ok m s → slot_ok m' s.
Proof.
  destruct s as [head p]. intros Hs Hr (Hh & (ad & Ha & Hp) & Hf & Hl & Hin & Hsp).
  destruct (desc_stable prot kQueueSize d (rg_table _ _ _ _ _ _ Hr) m m' head Hs Hh)
    as (E1 & E2 & E3 & _).
  split; [done|]. rewrite E1, E2, E3. split_and!; try done.
  - exists ad. rewrite (gpa_to_hva_same m) by apply Hs. done.
  - by rewrite (in_ram_same m) by apply Hs.
Qed.

Lemma slot_ok_spares_ring m s q k :
  slot_ok m s → u ≤ q → q + k ≤ u + used_bytes kQueueSize → disjoint s.2 8 q k.
Proof.
  destruct s as [head p]. intros Hs H1 H2.
  assert (disjoint u (used_bytes kQueueSize) p 8) as Hd by (apply (spares_disjoint _ prot); [done..|apply Hs]).
  unfold disjoint in *. cbn [snd]. lia.
Qed.

Lemma wf_event_bytes e : wf_bytes (event_bytes e).
Proof. unfold event_bytes. apply wf_bytes_app. split; [|apply wf_bytes_app]; auto with vm. Qed.

Lemma length_event_bytes e : length (event_bytes e) = 8%nat.
Proof. unfold event_bytes. len. Qed.

(** One usable buffer takes the oldest event. *)
Lemma flush_one_ok dev w inj i head p ev rest :
  rings kQueueSize prot d a u (w_ram w) → slot_ok (w_ram w) (head, p) →
  avail_ring (w_ram w) a (last_avail (r_q0 (regs dev)) mod kQueueSize) = Ok head →
  used_idx (w_ram w) u = Ok i → pending_events dev = ev :: rest →
  ∃ m', flush_one d a u (dev, w, inj) =
      Ok (true, (set_pending (set_regs dev (bump0 (regs dev))) rest, with_ram w m', true)) ∧
    stable prot (w_ram w) m' ∧ used_idx m' u = Ok (u16 (i + 1)) ∧
    load m' p 8 = Ok (event_bytes ev) ∧ used_elem kQueueSize u m' i head 8 ∧
    (∀ q k, disjoint (u + 2) 2 q k → disjoint (used_slot kQueueSize u i) 8 q k → disjoint p 8 q k →
       agree (w_ram w) m' q k).
Proof.
  intros Hr (Hh & (ad & Ha & Hp) & (f & Hf & Hf') & (l & Hl & Hl') & Hin & Hsp) Hav Hi Hpe.
  unfold flush_one, flush_last. cbn [fst]. rewrite Hav, bind_Ok, Ha, bind_Ok, Hp, Hf, bind_Ok, Hf'.
  cbn [negb]. rewrite Hl, bind_Ok. destruct (Z.ltb_spec l 8); [lia|]. rewrite Hpe.
  assert (in_ram (w_ram w) p (length (event_bytes ev)) = true) as Hin'
    by by rewrite length_event_bytes.
  rewrite (store_in _ _ _ Hin'), bind_Ok. set (m1 := pokes (w_ram w) p (event_bytes ev)).
  assert (stable (prot_all kQueueSize prot u) (w_ram w) m1) as S1.
  { eapply stable_store; [by apply store_in | apply wf_event_bytes |].
    by rewrite length_event_bytes. }
  destruct (publish_spec kQueueSize prot d a u (w_ram w) m1 i head 8)
    as (m' & E & S & U & F1 & F2 & A); try done.
  { unfold kQueueSize in *. lia. }
  rewrite E, bind_Ok. exists m'. split_and!; try done.
  - rewrite (load_agree m1).
    + unfold m1. rewrite load_in by by rewrite (in_ram_same (w_ram w)) by apply same_map_pokes.
      rewrite <- (length_event_bytes ev). by rewrite peeks_pokes.
    + etrans; [|apply S]. apply S1.
    + apply A. by apply (spares_disjoint _ prot).
  - intros q k H1 H2 H3. eapply agree_trans; [apply agree_pokes; by rewrite length_event_bytes|].
    by eapply (publish_frame kQueueSize prot u (w_ram w)).
Qed.

Definition advance (dev : Input) (n : nat) : Input :=
  set_pending
    (set_regs dev (with_queues (regs dev)
       (set_last_avail (r_q0 (regs dev)) (u16 (last_avail (r_q0 (regs dev)) + Z.of_nat n)))
       (r_q1 (regs dev))))
    (drop n (pending_events dev)).

Lemma advance_0 dev : 0 ≤ last_avail (r_q0 (regs dev)) < 0x10000 → advance dev 0 = dev.
Proof.
  intros H. unfold advance. rewrite Z.add_0_r, u16_id, drop_0 by done.
  destruct dev as [? ? ? ? ? [? ? ? ? ? ? [] ?] ? ?]. done.
Qed.

Lemma advance_S dev n ev rest :
  pending_events dev = ev :: rest →
  advance (set_pending (set_regs dev (bump0 (regs dev))) rest) n = advance dev (S n).
Proof.
  intros Hp. unfold advance. cbn. rewrite Hp. cbn.
  assert (u16 (u16 (last_avail (r_q0 (regs dev)) + 1) + Z.of_nat n) =
          u16 (last_avail (r_q0 (regs dev)) + Z.of_nat (S n))) as -> by zlia.
  done.
Qed.

Lemma flush_drain ss : ∀ fuel dev w inj i,
  rings kQueueSize prot d a u (w_ram w) →
  queued kQueueSize a fst slot_ok (w_ram w) (last_avail (r_q0 (regs dev))) ss →
  disjoint_slots ss →
  avail_idx (w_ram w) a = Ok idx → used_idx (w_ram w) u = Ok i → 0 ≤ i < 0x10000 →
  0 ≤ idx < 0x10000 → 0 ≤ last_avail (r_q0 (regs dev)) < 0x10000 →
  Z.of_nat (length ss) = u16 (idx - last_avail (r_q0 (regs dev))) → (length ss ≤ fuel)%nat →
  let n := (length ss `min` length (pending_events dev))%nat in
  ∃ m', drain flush_last (flush_idx a) (flush_one d a u) fuel (dev, w, inj) =
      Ok (advance dev n, with_ram w m', inj || (0 <? n)%nat) ∧
    used_idx m' u = Ok (u16 (i + Z.of_nat n)) ∧ stable prot (w_ram w) m' ∧
    (∀ k s ev, ss !! k = Some s → pending_events dev !! k = Some ev →
       load m' s.2 8 = Ok (event_bytes ev)) ∧
    (Z.of_nat (length ss) ≤ kQueueSize → returned kQueueSize u m' i (receipt 8 <$> take n ss)) ∧
    (∀ q k, clear kQueueSize u i (length ss) q k → Forall (λ s, disjoint s.2 8 q k) ss →
       agree (w_ram w) m' q k).
Proof.
  assert (∀ dev w inj i fuel, 0 ≤ last_avail (r_q0 (regs dev)) < 0x10000 → 0 ≤ i < 0x10000 →
    used_idx (w_ram w) u = Ok i →
    flush_idx a (dev, w, inj) = Ok (last_avail (r_q0 (regs dev))) →
    ∃ m', drain flush_last (flush_idx a) (flush_one d a u) fuel (dev, w, inj) =
      Ok (advance dev 0, with_ram w m', inj || false) ∧
      used_idx m' u = Ok (u16 (i + 0)) ∧ m' = w_ram w) as Hdone.
  { intros dev w inj i fuel Hl Hi Hui Hfi. exists (w_ram w).
    rewrite (drain_done _ _ _ _ _ (last_avail (r_q0 (regs dev)))) by done.
    rewrite advance_0, orb_false_r, Z.add_0_r, u16_id by done. by destruct w. }
  induction ss as [|[head p] ss IH]; intros fuel dev w inj i Hr Hq Hds Hai Hui Hi Hidx Hl Hlen Hf n.
  - destruct (Hdone dev w inj i fuel) as (m' & E & U & ->); try done.
    { unfold flush_idx. cbn. case_match; [done|]. unfold inp_ram. cbn. rewrite Hai. f_equal.
      cbn in Hlen. zlia. }
    exists (w_ram w). by split_and!.
  - destruct (pending_events dev) as [|ev rest] eqn:Hp.
    { destruct (Hdone dev w inj i fuel) as (m' & E & U & ->); try done.
      { unfold flush_idx. cbn. by rewrite Hp. }
      exists (w_ram w). unfold n. cbn [length]. rewrite Nat.min_0_r. by split_and!. }
    inversion Hq as [|? ? ? Hav Hg Hq']; subst. destruct Hds as [Hd1 Hd2].
    destruct (flush_one_ok dev w inj i head p ev rest) as (m1 & B1 & S1 & U1 & L1 & F1 & A1); try done.
    destruct fuel as [|fuel]; [cbn in Hf; lia|]. cbn [length] in Hlen, Hf.
    set (dev1 := set_pending (set_regs dev (bump0 (regs dev))) rest) in *.
    destruct (IH fuel dev1 (with_ram w m1) true (u16 (i + 1))) as (m' & D & U & S & L & R & A);
      try done; try apply u16_range; try (cbn; zlia).
    { by eapply rings_stable. }
    { eapply queued_stable; [| |done|done|done]; [done|]. apply slot_ok_stable. }
    { cbn. rewrite (avail_idx_stable kQueueSize prot d a u (w_ram w)); done. }
    exists m'. rewrite (drain_step _ _ _ _ _ idx), B1, bind_Ok.
    2: { unfold flush_idx. cbn. by rewrite Hp. }
    2: { unfold flush_last. cbn. intros Heq. rewrite Heq in Hlen. zlia. }
    rewrite D. unfold n. cbn [length Nat.min dev1 pending_events set_pending].
    cbn [pending_events dev1 set_pending] in U, R. rewrite (advance_S dev _ ev rest Hp).
    split_and!.
    + cbn. by rewrite orb_true_r.
    + rewrite U. f_equal. zlia.
    + by etrans.
    + intros [|k] s ev' Hs Hev; cbn in Hs, Hev; [|by eapply L].
      simplify_eq. cbn [snd]. rewrite (load_agree m1); [done | apply S |].
      apply A; [|done]. apply clear_ring; [done|]. apply (spares_disjoint _ prot); [done..|apply Hg].
    + intros Hn. apply (returned_cons kQueueSize u input_queue_divides m1); [apply S| |done|apply R; lia].
      apply A; [apply clear_slot; [done|apply input_queue_divides|lia]|].
      pose proof (used_slot_range kQueueSize u eq_refl i). eapply Forall_impl; [by eapply queued_good|].
      intros s Hs. eapply slot_ok_spares_ring; [exact Hs|lia..].
    + intros q k Hq1 Hq2. apply Forall_cons in Hq2 as [Hq2 Hq3]. pose proof (proj1 Hq1) as Hq0.
      apply (clear_S kQueueSize u input_queue_divides) in Hq1 as [Hq1 Hq1'].
      eapply agree_trans; [by apply A1 | by apply A].
Qed.
End Flush.

(** ** The configuration bytes *)
Section config.
Lemma length_write_at c off bs :
  (off + length bs ≤ length c)%nat → length (write_at c off bs) = length c.
Proof. intros. unfold write_at. len. Qed.

Lemma length_write_256 c off bs :
  length c = 256%nat → (off + length bs ≤ 256)%nat → length (write_at c off bs) = 256%nat.
Proof. intros. rewrite length_write_at; lia. Qed.

Lemma byte_at_write_at c off bs k :
  (off + length bs ≤ length c)%nat →
  byte_at (write_at c off bs) k =
    if decide (off ≤ k < off + length bs)%nat then byte_at bs (k - off) else byte_at c k.
Proof.
  intros Hl. unfold byte_at, write_at. case_decide as Hk.
  - rewrite lookup_app_r by len. rewrite lookup_app_l by len. do 2 f_equal. len.
  - destruct (decide (k < off)%nat).
    + rewrite lookup_app_l by len. by rewrite lookup_take_lt by done.
    + rewrite lookup_app_r by len. rewrite lookup_app_r by len. rewrite lookup_drop.
      do 2 f_equal. len.
Qed.

Lemma length_config_value ty w h select subsel v size :
  config_value ty w h select subsel = Some (v, size) →
  (length v ≤ 128)%nat ∧ size = Z.of_nat (length v).
Proof.
  unfold config_value. intros H. repeat (case_match; [|]); simplify_eq; try done; cbn; split; try done;
    try lia; vm_compute; lia.
Qed.

Lemma length_update_config d : length (config d) = 256%nat → length (config (update_config d)) = 256%nat.
Proof.
  intros Hd. unfold update_config.
  destruct (config_value _ _ _ _ _) as [[v size]|] eqn:Hv; cbn [config set_config];
    repeat (apply length_write_256; [|rewrite ?length_replicate; cbn; try lia]); try done.
  apply length_config_value in Hv as [Hv _]. lia.
Qed.

(** What [update_config] stores, byte by byte. *)
Lemma byte_at_update_config d k :
  length (config d) = 256%nat →
  byte_at (config (update_config d)) k =
    let val := config_value (type d) (abs_width d) (abs_height d) (byte_at (config d) 0)
                 (byte_at (config d) 1) in
    if decide (k = 2)%nat then from_option snd 0 val
    else if decide (8 ≤ k < 136)%nat then byte_at (from_option fst [] val) (k - 8)
    else byte_at (config d) k.
Proof.
  intros Hd. unfold update_config. cbv zeta.
  set (c := write_at (write_at (config d) 2 [0]) 8 (replicate 128 0)).
  assert (length (write_at (config d) 2 [0]) = 256%nat) as Hc1
    by (rewrite length_write_at; [done | cbn; lia]).
  assert (length c = 256%nat) as Hc.
  { unfold c. rewrite length_write_at; [done | rewrite length_replicate, Hc1; lia]. }
  assert (∀ j, byte_at c j = if decide (8 ≤ j < 136)%nat then 0
    else if decide (j = 2)%nat then 0 else byte_at (config d) j) as Hcb.
  { intros j. unfold c. rewrite byte_at_write_at by (rewrite length_replicate, Hc1; lia).
    rewrite length_replicate. repeat case_decide; try lia.
    - unfold byte_at. rewrite lookup_replicate_2 by lia. done.
    - subst j. rewrite byte_at_write_at by (cbn; lia). done.
    - rewrite byte_at_write_at by (cbn; lia). case_decide; [|done]. cbn in *. lia. }
  destruct (config_value _ _ _ _ _) as [[v size]|] eqn:Hv; cbn [from_option fst snd config set_config].
  - apply length_config_value in Hv as [Hl _].
    rewrite byte_at_write_at by (rewrite length_write_at; cbn; lia).
    rewrite byte_at_write_at by lia. cbn [length]. rewrite Hcb.
    repeat case_decide; try lia; try done.
    + by replace (k - 2)%nat with 0%nat by lia.
    + unfold byte_at. by rewrite lookup_ge_None_2 by lia.
  - rewrite Hcb. repeat case_decide; try lia; try done.
Qed.

Lemma le_dec_one c k : (k < length c)%nat → le_dec (take 1 (drop k c)) = byte_at c k.
Proof.
  intros Hk. unfold byte_at. destruct (lookup_lt_is_Some_2 c k Hk) as [b Hb]. rewrite Hb.
  rewrite (drop_S _ _ _ Hb). cbn. rewrite take_0. cbn. lia.
Qed.

Lemma read_byte d k :
  length (config d) = 256%nat → (k < 256)%nat →
  read d (Reg.Config + Z.of_nat k) 1 = Ok (byte_at (config d) k).
Proof.
  intros Hd Hk. unfold read, Reg.Config.
  assert ((0x100 <=? 0x100 + Z.of_nat k) && (0x100 + Z.of_nat k <? 0x100 + 256) = true) as -> by lia.
  cbv zeta. replace (0x100 + Z.of_nat k - 0x100) with (Z.of_nat k) by lia.
  rewrite Z.min_l by lia. cbn [Z.ltb Z.compare]. rewrite Nat2Z.id.
  change (Z.to_nat 1) with 1%nat. f_equal. apply le_dec_one. lia.
Qed.
End config.

(** ** Invariant *)
Record wf_input (d : Input) : Prop := {
  wi_regs : wf_regs kQueueSize (regs d);
  wi_pending : Z.of_nat (length (pending_events d)) ≤ kQueueSize * 2;
  wi_config : length (config d) = 256%nat;
}.

Section invariant.
Lemma push_event_wf d ty code v : wf_input d → wf_input (push_event_locked ty code v d).
Proof.
  intros [Hr Hp Hc]. split; try done. cbn. unfold kQueueSize in *.
  case_match; [|lia]. destruct (pending_events d); cbn in *; len.
Qed.

Lemma update_config_wf d : wf_input d → wf_input (update_config d).
Proof.
  intros [Hr Hp Hc]. split; [| |by apply length_update_config];
    unfold update_config; destruct (config_value _ _ _ _ _) as [[v size]|]; done.
Qed.

(** [d'] is [d] after some buffers: same identity, well formed, no more events. *)
Definition inp_step (d d' : Input) : Prop :=
  wf_input d → wf_input d'.

Lemma flush_one_step d a u s go s' :
  flush_one d a u s = Ok (go, s') →
  inp_step s.1.1 s'.1.1 ∧ ram_step (inp_ram s) (inp_ram s').
Proof.
  destruct s as [[dev w] inj]. intros H. unfold flush_one in H. inv_bind.
  assert (inp_step dev (set_regs dev (bump0 (regs dev)))) as Hskip.
  { intros []. split; try done. by apply bump0_wf. }
  destruct (gpa_to_hva (w_ram w) v0) as [hva|]; [|by simplify_eq]. inv_bind.
  case_match; [by simplify_eq|]. inv_bind. case_match; [by simplify_eq|].
  destruct (pending_events dev) as [|ev rest] eqn:Hp; [by simplify_eq|]. inv_bind.
  unfold inp_ram. cbn [fst snd w_ram with_ram]. split.
  - intros Hw. destruct (Hskip Hw) as [W1 W2 W3]. split; try done.
    cbn in *. rewrite Hp in W2. cbn in W2. lia.
  - etrans; [|by eapply push_used_wf]. apply store_Ok in Hm3 as [_ ->].
    split; [apply same_map_pokes|]. intros Hw. apply wf_pokes; [done | apply wf_event_bytes].
Qed.

Lemma status_one_step a u s go s' :
  status_one a u s = Ok (go, s') →
  inp_step s.1.1 s'.1.1 ∧ ram_step (inp_ram s) (inp_ram s').
Proof.
  destruct s as [[dev w] dr]. intros H. unfold status_one in H. inv_bind. split.
  - intros []. split; try done. by apply bump1_wf.
  - by eapply push_used_wf.
Qed.

Lemma drain_notify_step last idx body fuel dev w d' w' :
  (∀ s go s', body s = Ok (go, s') → inp_step s.1.1 s'.1.1 ∧ ram_step (inp_ram s) (inp_ram s')) →
  wf_input dev → notify <$> drain last idx body fuel (dev, w, false) = Ok (d', w') →
  wf_input d' ∧ ram_step (w_ram w) (w_ram w').
Proof.
  intros Hbody Hd H. destruct (drain _ _ _ _ _) as [s|] eqn:D; [|done]. injection H as H.
  pose (P := λ s : inp_state, wf_input s.1.1 ∧ ram_step (w_ram w) (inp_ram s)).
  assert (P s) as [H1 H2].
  { refine (drain_Ok_inv _ _ _ P _ fuel (dev, w, false) s _ D); [|done].
    intros s1 go s2 [P1 P2] Hb. destruct (Hbody _ _ _ Hb) as [B1 B2].
    split; [by apply B1 | by etrans]. }
  destruct s as [[d1 w1] []]; injection H as <- <-; [|done].
  split; [|done]. destruct H1. split; try done. by apply set_irq_wf.
Qed.

Lemma flush_events_step fuel dev w d' w' :
  wf_input dev → flush_events_locked fuel dev w = Ok (d', w') →
  wf_input d' ∧ ram_step (w_ram w) (w_ram w').
Proof.
  intros Hd H. unfold flush_events_locked in H. case_match; [by simplify_eq|].
  repeat (destruct (gpa_to_hva _ _); [|by simplify_eq]).
  eapply drain_notify_step; [|done..]. apply flush_one_step.
Qed.

Lemma process_statusq_step fuel dev w d' w' :
  wf_input dev → process_statusq fuel dev w = Ok (d', w') →
  wf_input d' ∧ ram_step (w_ram w) (w_ram w').
Proof.
  intros Hd H. unfold process_statusq in H. case_match; [by simplify_eq|].
  repeat (destruct (gpa_to_hva _ _); [|by simplify_eq]).
  eapply drain_notify_step; [|done..]. apply status_one_step.
Qed.
End invariant.

(** ** Properties *)

(** C19. Input events reach the guest in the order they were injected.  When the
    guest has published the event buffers [ss], flushing fills the first ones
    with the oldest pending events, one event per buffer, and returns each
    through the used ring with length eight; it takes as many events as there are buffers, keeps
    the others pending in order, and interrupts the guest if and only if it
    delivered something. *)
Theorem input_events_fifo (prot : Z → Prop) (d a u idx i : Z) (ss : list (Z * Z)) (fuel : nat)
    (dev : Input) (w : World) :
  ready (r_q0 (regs dev)) = true → avail_gpa (r_q0 (regs dev)) ≠ 0 → used_gpa (r_q0 (regs dev)) ≠ 0 →
  gpa_to_hva (w_ram w) (desc_gpa (r_q0 (regs dev))) = Some d →
  gpa_to_hva (w_ram w) (avail_gpa (r_q0 (regs dev))) = Some a →
  gpa_to_hva (w_ram w) (used_gpa (r_q0 (regs dev))) = Some u →
  rings kQueueSize prot d a u (w_ram w) → wf_input dev →
  avail_idx (w_ram w) a = Ok idx → used_idx (w_ram w) u = Ok i →
  queued kQueueSize a fst (slot_ok prot d u) (w_ram w) (last_avail (r_q0 (regs dev))) ss →
  disjoint_slots ss →
  Z.of_nat (length ss) = u16 (idx - last_avail (r_q0 (regs dev))) → (length ss ≤ fuel)%nat →
  let n := (length ss `min` length (pending_events dev))%nat in
  ∃ m', flush_events_locked fuel dev w =
      Ok (if decide (n = 0%nat) then (dev, with_ram w m')
          else (set_regs (advance dev n) (set_irq (regs (advance dev n))),
                raise_spi (spi_id dev) (with_ram w m'))) ∧
    pending_events (advance dev n) = drop n (pending_events dev) ∧
    used_idx m' u = Ok (u16 (i + Z.of_nat n)) ∧
    (Z.of_nat (length ss) ≤ kQueueSize → returned kQueueSize u m' i (receipt 8 <$> take n ss)) ∧
    (∀ k s ev, ss !! k = Some s → pending_events dev !! k = Some ev →
       load m' s.2 8 = Ok (event_bytes ev)).
Proof.
  intros Hrd Ha0 Hu0 Hd Ha Hu Hr Hw Hai Hui Hq Hds Hlen Hf n.
  pose proof (load16_range _ _ _ (rg_wf _ _ _ _ _ _ Hr) Hai) as Hidx.
  pose proof (load16_range _ _ _ (rg_wf _ _ _ _ _ _ Hr) Hui) as Hi.
  pose proof (wf_last _ _ (wr_q0 _ _ (wi_regs _ Hw))) as Hl.
  destruct (flush_drain prot d a u idx ss fuel dev w false i) as (m' & D & U & _ & L & R & _); try done.
  fold n in D, U, R. exists m'. split_and!; try done.
  unfold flush_events_locked. rewrite Hrd, Hd, Ha, Hu.
  rewrite (proj2 (Z.eqb_neq _ _) Ha0), (proj2 (Z.eqb_neq _ _) Hu0). cbn [negb orb].
  rewrite D. cbn [fmap res_fmap notify orb]. case_decide as Hn.
  - rewrite Hn. cbn. by rewrite advance_0.
  - destruct (Nat.ltb_spec 0 n); [done | lia].
Qed.

(** The device keeps its invariant: every register write that returns, and
    every injected key or pointer event, leaves well-formed registers, 256
    configuration bytes and at most 128 pending events, and changes guest
    memory only inside the RAM mapping. *)
Lemma input_invariant (fuel : nat) (dev d' : Input) (w w' : World)
    (off val len code x y : Z) (p l r : bool) :
  wf_input dev → fits 32 val →
  write fuel dev w off val len = Ok (d', w') ∨ send_key fuel code p dev w = Ok (d', w') ∨
    send_pointer fuel x y l r dev w = Ok (d', w') →
  wf_input d' ∧ ram_step (w_ram w) (w_ram w').
Proof.
  intros Hd Hv [H|[H|H]].
  2: { eapply flush_events_step; [|exact H]. by do 2 apply push_event_wf. }
  2: { eapply flush_events_step; [|exact H]. by do 5 apply push_event_wf. }
  unfold write in H. cbv zeta in H. pose proof Hd as [Hr Hp Hc].
  destruct ((Reg.Config <=? off) && (off <? Reg.Config + 256)) eqn:Hcfg.
  { destruct (4 <? Z.min len (256 - (off - Reg.Config))) eqn:Hl4; [done|]. unfold Reg.Config in *.
    injection H as <- <-. split; [|done].
    assert (length (write_at (config dev) (Z.to_nat (off - 0x100))
      (take (Z.to_nat (Z.min len (256 - (off - 0x100)))) (le_enc 4 val))) = 256%nat) as Hlw.
    { rewrite length_write_at; [done|]. rewrite length_take, length_le_enc. lia. }
    case_match; [apply update_config_wf|]; by split. }
  destruct (off =? Reg.QueueSel).
  { injection H as <- <-. split; [|done]. split; try done. apply with_queue_sel_wf; [done|].
    unfold fits in *. lia. }
  destruct (off =? Reg.QueueNotify).
  { destruct (val =? 0); [by eapply flush_events_step|].
    destruct (val =? 1); [by eapply process_statusq_step | by simplify_eq]. }
  destruct (off =? Reg.Status).
  { destruct (val =? 0); injection H as <- <-; (split; [|done]).
    - assert (wf_regs kQueueSize (regs_reset kQueueSize (with_status (regs dev) val))) as [].
      { apply regs_reset_wf; [done|]. by apply with_status_wf. }
      split; [by split | done | done].
    - split; [|done..]. by apply with_status_wf. }
  destruct (regs_write _ _ _ _) as [r'|] eqn:Hw; injection H as <- <-; [|done].
  split; [|done]. split; try done. by eapply regs_write_wf.
Qed.

(** Selecting a configuration item makes it readable.  After the driver
    writes [select] and [subsel], the size byte and the 128 payload bytes read
    back as the item's value padded with zeros (nothing for an item the device
    does not have), and the selectors read back as written. *)
Theorem input_config_select (fuel : nat) (dev : Input) (w : World) (select subsel : Z) :
  length (config dev) = 256%nat → fits 8 select → fits 8 subsel →
  ∃ d', ('(d1, w) ← write fuel dev w Reg.Config select 1;
         write fuel d1 w (Reg.Config + 1) subsel 1) = Ok (d', w) ∧
    let val := config_value (type dev) (abs_width dev) (abs_height dev) select subsel in
    read d' Reg.Config 1 = Ok select ∧ read d' (Reg.Config + 1) 1 = Ok subsel ∧
    read d' (Reg.Config + 2) 1 = Ok (Z.of_nat (length (from_option fst [] val))) ∧
    ∀ k, (k < 128)%nat →
      read d' (Reg.Config + 8 + Z.of_nat k) 1 = Ok (byte_at (from_option fst [] val) k).
Proof.
  intros Hc Hs Hb.
  assert (∀ d k v, length (config d) = 256%nat → (k = 0 ∨ k = 1)%nat → fits 8 v →
    write fuel d w (Reg.Config + Z.of_nat k) v 1 =
      Ok (update_config (set_config d (write_at (config d) k [v])), w)) as Hw.
  { intros d k v Hd Hk Hv. unfold write, Reg.Config.
    assert (le_enc 4 v = v :: le_enc 3 (v / 256)) as ->.
    { cbn [le_enc]. f_equal. apply Z.mod_small, Hv. }
    destruct Hk as [-> | ->]; done. }
  change (write fuel dev w Reg.Config select 1)
    with (write fuel dev w (Reg.Config + Z.of_nat 0) select 1).
  rewrite (Hw dev 0%nat select) by auto. rewrite bind_Ok.
  set (d1 := update_config _).
  assert (length (config (set_config dev (write_at (config dev) 0 [select]))) = 256%nat) as Hl0.
  { cbn [config set_config]. rewrite length_write_at; [done | cbn; lia]. }
  assert (length (config d1) = 256%nat) as Hl1 by by apply length_update_config.
  change (Reg.Config + 1) with (Reg.Config + Z.of_nat 1).
  rewrite (Hw d1 1%nat subsel) by auto. eexists. split; [done|]. cbv zeta.
  set (d2 := set_config d1 (write_at (config d1) 1 [subsel])).
  assert (length (config d2) = 256%nat) as Hl2.
  { cbn [config set_config d2]. rewrite length_write_at; [done | cbn; lia]. }
  assert (length (config (update_config d2)) = 256%nat) as Hl by by apply length_update_config.
  assert (byte_at (config d2) 0 = select) as B0.
  { cbn [config set_config d2]. rewrite byte_at_write_at by (cbn; lia). cbn [decide].
    case_decide; [cbn in *; lia|]. unfold d1. rewrite byte_at_update_config by done.
    repeat case_decide; try lia. cbn [config set_config].
    rewrite byte_at_write_at by (cbn; lia). case_decide; [done | cbn in *; lia]. }
  assert (byte_at (config d2) 1 = subsel) as B1.
  { cbn [config set_config d2]. rewrite byte_at_write_at by (cbn; lia).
    case_decide; [done | cbn in *; lia]. }
  assert (type d2 = type dev ∧ abs_width d2 = abs_width dev ∧ abs_height d2 = abs_height dev)
    as (T1 & T2 & T3).
  { unfold d2, d1, update_config. repeat case_match; done. }
  assert (∀ k, (k < 256)%nat → read (update_config d2) (Reg.Config + Z.of_nat k) 1 =
    Ok (if decide (k = 2)%nat then from_option snd 0
          (config_value (type dev) (abs_width dev) (abs_height dev) select subsel)
        else if decide (8 ≤ k < 136)%nat then byte_at (from_option fst []
          (config_value (type dev) (abs_width dev) (abs_height dev) select subsel)) (k - 8)
        else byte_at (config d2) k)) as Hread.
  { intros k Hk. rewrite read_byte by done. rewrite byte_at_update_config by done.
    by rewrite B0, B1, T1, T2, T3. }
  split_and!.
  - change Reg.Config with (Reg.Config + Z.of_nat 0). rewrite (Hread 0%nat) by lia. by rewrite B0.
  - rewrite (Hread 1%nat) by lia. by rewrite B1.
  - change (Reg.Config + 2) with (Reg.Config + Z.of_nat 2). rewrite (Hread 2%nat) by lia. f_equal. cbn [decide].
    destruct (config_value _ _ _ _ _) as [[v size]|] eqn:Hv; [|done].
    by apply length_config_value in Hv as [_ ->].
  - intros k Hk. rewrite <- Z.add_assoc.
    replace (8 + Z.of_nat k) with (Z.of_nat (8 + k)) by lia. rewrite Hread by lia.
    repeat case_decide; try lia. do 2 f_equal. lia.
Qed.

(** An 8-byte access to the configuration space overruns the value it goes
    through: the handler copies 8 bytes into (or out of) a 4-byte variable, for
    every offset that leaves 8 bytes of configuration. *)
Theorem input_wide_access_overflows (fuel : nat) (dev : Input) (w : World) (off val : Z) :
  Reg.Config ≤ off ≤ Reg.Config + 248 →
  read dev off 8 = Err HostOOB ∧ write fuel dev w off val 8 = Err HostOOB.
Proof.
  intros Hoff. unfold read, write, Reg.Config in *.
  assert ((0x100 <=? off) && (off <? 0x100 + 256) = true) as -> by lia.
  rewrite Z.min_l by lia. done.
Qed.

(** ** Witnesses *)
Section witnesses.
(** A keyboard with a key press pending and one event buffer published. *)
Definition nx_ram : Ram := fx_avail 1 [0] (fx_desc 0 (fx_base + fx_buf) 8 2 0 fx_ram).
Definition nx_world : World := mkWorld nx_ram [].
Definition nx_keyboard : Input :=
  set_regs (push_event_locked EV_SYN SYN_REPORT 0
              (push_event_locked EV_KEY 30 1 (Input0 kSpiKeyboard Keyboard 0 0)))
    (mkRegs 15 0 0 0 0 0 (fx_queue 64) (Queue0 64)).

Lemma wf_nx_ram : wf_ram nx_ram.
Proof. apply wf_fx_avail, wf_fx_desc, wf_fx_ram. Qed.

Lemma nx_rings : rings kQueueSize fx_ring_prot fx_d fx_a fx_u nx_ram.
Proof. by apply fx_rings; [done | apply wf_nx_ram | | | apply fx_u_ring_prot]. Qed.

Lemma wf_nx_keyboard : wf_input nx_keyboard.
Proof. split; [by repeat split | by vm_compute | by vm_compute]. Qed.

Lemma nx_slot : slot_ok fx_ring_prot fx_d fx_u nx_ram (0, fx_buf).
Proof.
  split; [done|]. split; [by exists (fx_base + fx_buf); split; vm_compute|].
  split; [by exists 2; split; vm_compute|]. split; [by exists 8; split; [vm_compute|]|].
  split; [by vm_compute|].
  intros x Hx [H|H]; unfold fx_ring_prot, in_used, used_bytes, kQueueSize, fx_buf, fx_d, fx_a, fx_u in *;
    lia.
Qed.

Lemma input_events_fifo_witness :
  ∃ m', flush_events_locked 3 nx_keyboard nx_world =
      Ok (set_regs (advance nx_keyboard 1) (set_irq (regs (advance nx_keyboard 1))),
          raise_spi 21 (with_ram nx_world m')) ∧
    pending_events (advance nx_keyboard 1) = [mkInputEvent EV_SYN SYN_REPORT 0] ∧
    used_idx m' fx_u = Ok 1 ∧ (1 ≤ kQueueSize → returned kQueueSize fx_u m' 0 [(0, 8)]) ∧
    (∀ k s ev, [(0, fx_buf)] !! k = Some s → pending_events nx_keyboard !! k = Some ev →
       load m' s.2 8 = Ok (event_bytes ev)).
Proof.
  refine (input_events_fifo fx_ring_prot fx_d fx_a fx_u 1 0 [(0, fx_buf)] 3 nx_keyboard nx_world
            _ _ _ _ _ _ _ _ _ _ _ _ _ _); try eval_eq; try done.
  - apply nx_rings.
  - apply queued_cons; [by vm_compute | apply nx_slot | apply queued_nil].
  - cbn. lia.
Defined.

Lemma input_invariant_witness :
  wf_input (set_regs nx_keyboard (with_queue_sel (regs nx_keyboard) 1)) ∧ ram_step nx_ram nx_ram.
Proof.
  apply (input_invariant 0 nx_keyboard (set_regs nx_keyboard (with_queue_sel (regs nx_keyboard) 1))
           nx_world nx_world Reg.QueueSel 7 4 0 0 0 false false false).
  - apply wf_nx_keyboard.
  - done.
  - left. reflexivity.
Defined.

Lemma input_config_select_witness :
  ∃ d', ('(d1, w) ← write 0 (Input0 kSpiTablet Tablet 800 600) nx_world Reg.Config 0x11 1;
         write 0 d1 w (Reg.Config + 1) EV_KEY 1) = Ok (d', nx_world) ∧
    read d' Reg.Config 1 = Ok 0x11 ∧ read d' (Reg.Config + 1) 1 = Ok EV_KEY ∧
    read d' (Reg.Config + 2) 1 = Ok 35 ∧
    ∀ k, (k < 128)%nat → read d' (Reg.Config + 8 + Z.of_nat k) 1 =
      Ok (byte_at (replicate 34 0 ++ [7]) k).
Proof.
  apply (input_config_select 0 (Input0 kSpiTablet Tablet 800 600) nx_world 0x11 EV_KEY);
    [by vm_compute | done | done].
Defined.

Lemma input_wide_access_overflows_witness :
  read (Input0 kSpiKeyboard Keyboard 0 0) (Reg.Config + 8) 8 = Err HostOOB ∧
  write 0 (Input0 kSpiKeyboard Keyboard 0 0) nx_world (Reg.Config + 8) 1 8 = Err HostOOB.
Proof. by apply (input_wide_access_overflows 0 _ nx_world (Reg.Config + 8) 1). Defined.
End witnesses.
