(* ===== verification/VirtioBlock.v ===== *)
(** * VirtioBlock: the virtio-blk device

    Models src/src/hvf/virtio_block.hpp and virtio_block.cpp: the register file,
    feature negotiation, and [process_rq], which drains the available ring and
    serves IN, OUT, FLUSH and GET_ID requests against the disk image. *)

From S2P Require Import Prelude Bytes GuestMem Virtq World.

(** ** The disk image

    [pread(fd, buf, len, off)] and [pwrite(fd, bs, len, off)] on the opened
    file; [None] is a negative return.  A short read returns fewer bytes. *)
Class BlockFile (F : Type) := {
  pread : F → Z → Z → option bytes;
  pwrite : F → bytes → Z → option F;
}.

(** What POSIX promises of [pread]: at most [len] bytes. *)
Class BlockFileLaws (F : Type) `{BlockFile F} := {
  pread_length : ∀ f len off bs,
    0 ≤ len → pread f len off = Some bs → Z.of_nat (length bs) ≤ len ∧ wf_bytes bs;
}.

Definition kQueueSize : Z := 256.

Module BlkCfg.
Definition CapacityLo : Z := 0x00.
Definition CapacityHi : Z := 0x04.
Definition SizeMax : Z := 0x08.
Definition SegMax : Z := 0x0C.
Definition Geometry : Z := 0x10.
Definition BlkSize : Z := 0x14.
End BlkCfg.

Definition kBlkF_SizeMax : Z := Z.shiftl 1 1.
Definition kBlkF_SegMax : Z := Z.shiftl 1 2.
Definition kBlkF_BlkSize : Z := Z.shiftl 1 6.
Definition kBlkF_Flush : Z := Z.shiftl 1 9.

Definition kSizeMax : Z := 65536.
Definition kSegMax : Z := 254.
Definition kBlkSize : Z := 512.

Definition VIRTIO_BLK_T_IN : Z := 0.
Definition VIRTIO_BLK_T_OUT : Z := 1.
Definition VIRTIO_BLK_T_FLUSH : Z := 4.
Definition VIRTIO_BLK_T_GET_ID : Z := 8.
Definition VIRTIO_BLK_S_OK : Z := 0.
Definition VIRTIO_BLK_S_IOERR : Z := 1.
Definition VIRTIO_BLK_S_UNSUPP : Z := 2.

Section Block.
Context {F : Type} `{BlockFile F}.

(** The file behind [fd_] is [b_file]. *)
Record Block := mkBlock {
  fd : Z;
  b_file : F;
  capacity : Z;
  status : Z;
  irq_status : Z;
  dev_feat_sel : Z;
  drv_feat_sel : Z;
  features : Z;
  queue : Queue;
}.

(** [valid()]: the image file was opened. *)
Definition valid (b : Block) : bool := 0 <=? fd b.

(** The constructor: [open] returned [fd], and [fstat], when it succeeds,
    the size of the image. *)
Definition Block0 (fd : Z) (f : F) (st_size : option Z) : Block :=
  mkBlock fd f
    (match st_size with
     | Some sz => if 0 <=? fd then u64 sz / 512 else 0
     | None => 0
     end) 0 0 0 0
    (Z.lor (Z.lor (Z.lor (Z.lor kVirtioF_Version1 kBlkF_Flush) kBlkF_SegMax)
      kBlkF_SizeMax) kBlkF_BlkSize)
    (Queue0 kQueueSize).

Definition set_file (b : Block) (f : F) : Block :=
  mkBlock (fd b) f (capacity b) (status b) (irq_status b) (dev_feat_sel b)
    (drv_feat_sel b) (features b) (queue b).
Definition set_status (b : Block) (v : Z) : Block :=
  mkBlock (fd b) (b_file b) (capacity b) v (irq_status b) (dev_feat_sel b)
    (drv_feat_sel b) (features b) (queue b).
Definition set_irq_status (b : Block) (v : Z) : Block :=
  mkBlock (fd b) (b_file b) (capacity b) (status b) v (dev_feat_sel b)
    (drv_feat_sel b) (features b) (queue b).
Definition set_dev_feat_sel (b : Block) (v : Z) : Block :=
  mkBlock (fd b) (b_file b) (capacity b) (status b) (irq_status b) v
    (drv_feat_sel b) (features b) (queue b).
Definition set_drv_feat_sel (b : Block) (v : Z) : Block :=
  mkBlock (fd b) (b_file b) (capacity b) (status b) (irq_status b) (dev_feat_sel b)
    v (features b) (queue b).
Definition set_features (b : Block) (v : Z) : Block :=
  mkBlock (fd b) (b_file b) (capacity b) (status b) (irq_status b) (dev_feat_sel b)
    (drv_feat_sel b) v (queue b).
Definition set_queue (b : Block) (q : Queue) : Block :=
  mkBlock (fd b) (b_file b) (capacity b) (status b) (irq_status b) (dev_feat_sel b)
    (drv_feat_sel b) (features b) q.

(** ** Data descriptors *)

(** What the data walk of one request threads: the byte offset, the status
    to report, the byte count, RAM and the file. *)
Record Xfer := mkXfer {
  x_off : Z;
  x_status : Z;
  x_wrote : Z;
  x_ram : Ram;
  x_file : F;
}.

(** One data buffer at guest address [a] of [len] bytes.  On a negative
    [pread] the buffer keeps its bytes but still counts as written. *)
Definition transfer (ok : bool) (type a len : Z) (x : Xfer) : res Xfer :=
  match gpa_to_hva (x_ram x) a with
  | Some buf =>
      if len =? 0 then Ok x else
      let off' := u64 (x_off x + len) in
      if type =? VIRTIO_BLK_T_IN then
        match (if ok then pread (x_file x) len (i64 (x_off x)) else None) with
        | Some bs =>
            m ← store (x_ram x) buf bs;
            Ok (mkXfer off' (x_status x) (u32 (x_wrote x + len)) m (x_file x))
        | None =>
            Ok (mkXfer off' VIRTIO_BLK_S_IOERR (u32 (x_wrote x + len)) (x_ram x) (x_file x))
        end
      else if type =? VIRTIO_BLK_T_OUT then
        bs ← load (x_ram x) buf (Z.to_nat len);
        match (if ok then pwrite (x_file x) bs (i64 (x_off x)) else None) with
        | Some f => Ok (mkXfer off' (x_status x) (x_wrote x) (x_ram x) f)
        | None => Ok (mkXfer off' VIRTIO_BLK_S_IOERR (x_wrote x) (x_ram x) (x_file x))
        end
      else Ok (mkXfer off' VIRTIO_BLK_S_UNSUPP (x_wrote x) (x_ram x) (x_file x))
  | None => Ok x
  end.

(** [while (desc[cur].flags & NEXT) ...]: the walk over the data descriptors;
    it stops on the first descriptor without NEXT. *)
Fixpoint data_loop (fuel : nat) (ok : bool) (type d cur : Z) (x : Xfer) : res (Z * Xfer) :=
  flags ← desc_flags (x_ram x) d cur;
  if negb (has_flag flags VRING_DESC_F_NEXT) then Ok (cur, x) else
  match fuel with
  | O => Err OutOfFuel
  | S fuel =>
      a ← desc_addr (x_ram x) d cur;
      len ← desc_len (x_ram x) d cur;
      x' ← transfer ok type a len x;
      cur' ← desc_next (x_ram x') d cur;
      data_loop fuel ok type d cur' x'
  end.

(** [std::strncpy(buf, "vda", 20)]. *)
Definition id_string : bytes := [118; 100; 97] ++ replicate 17 0.

(** The GET_ID branch: the identity string, then past the data descriptor. *)
Definition get_id (d cur : Z) (x : Xfer) : res (Z * Xfer) :=
  a ← desc_addr (x_ram x) d cur;
  x' ← match gpa_to_hva (x_ram x) a with
       | Some buf =>
           len ← desc_len (x_ram x) d cur;
           if 20 <=? len then
             m ← store (x_ram x) buf id_string;
             len' ← desc_len m d cur;
             Ok (mkXfer (x_off x) (x_status x) (u32 (x_wrote x + len')) m (x_file x))
           else Ok x
       | None => Ok x
       end;
  flags ← desc_flags (x_ram x') d cur;
  if has_flag flags VRING_DESC_F_NEXT then
    cur' ← desc_next (x_ram x') d cur; Ok (cur', x')
  else Ok (cur, x').

(** The body of the request after its header: data, then the status byte. *)
Definition serve_data (fuel : nat) (b : Block) (d cur type sector : Z) (w : World)
  : res (Z * Xfer * list Event) :=
  let x := mkXfer (u64 (sector * 512)) VIRTIO_BLK_S_OK 0 (w_ram w) (b_file b) in
  '(cur', x') ←
    (if type =? VIRTIO_BLK_T_FLUSH then Ok (cur, x)
     else if type =? VIRTIO_BLK_T_GET_ID then get_id d cur x
     else data_loop fuel (valid b) type d cur x);
  Ok (cur', x', if type =? VIRTIO_BLK_T_FLUSH then [Fsync (fd b)] else []).

(** [*status_ptr = status; wrote += 1] through the last descriptor. *)
Definition put_status (d cur : Z) (x : Xfer) : res Xfer :=
  a ← desc_addr (x_ram x) d cur;
  match gpa_to_hva (x_ram x) a with
  | Some p =>
      m ← store8 (x_ram x) p (x_status x);
      Ok (mkXfer (x_off x) (x_status x) (u32 (x_wrote x + 1)) m (x_file x))
  | None => Ok x
  end.

(** The drain loop's state: the device, the world, and [raised]. *)
Definition rq_state : Type := Block * World * bool.

(** One iteration of [while (q.last_avail != avail->idx)]; [false] is the
    [break] on a malformed header. *)
Definition serve_one (fuel : nat) (d a u : Z) (s : rq_state) : res (bool * rq_state) :=
  let '(b, w, raised) := s in
  let m := w_ram w in
  let last := last_avail (queue b) in
  head ← avail_ring m a (last mod kQueueSize);
  addr ← desc_addr m d head;
  match gpa_to_hva m addr with
  | None => Ok (false, s)
  | Some req =>
      len ← desc_len m d head;
      if len <? 16 then Ok (false, s) else
      flags ← desc_flags m d head;
      if negb (has_flag flags VRING_DESC_F_NEXT) then Ok (false, s) else
      cur ← desc_next m d head;
      type ← load32 m req;
      sector ← load64 m (req + 8);
      '(cur', x, es) ← serve_data fuel b d cur type sector w;
      x' ← put_status d cur' x;
      m' ← push_used kQueueSize (x_ram x') u head (x_wrote x');
      let q' := set_last_avail (queue b) (u16 (last + 1)) in
      Ok (true, (set_queue (set_file b (x_file x')) q', emit (with_ram w m') es, true))
  end.

Definition rq_last (s : rq_state) : Z := last_avail (queue s.1.1).
Definition rq_idx (a : Z) (s : rq_state) : res Z := avail_idx (w_ram s.1.2) a.

(** [process_rq]; [fuel] bounds both the ring loop and each data walk. *)
Definition process_rq (fuel : nat) (b : Block) (w : World) : res (Block * World) :=
  match ring_ptrs (w_ram w) (queue b) with
  | None => Ok (b, w)
  | Some (d, a, u) =>
      '(b', w', raised) ← drain rq_last (rq_idx a) (serve_one fuel d a u) fuel (b, w, false);
      if (raised : bool)
      then Ok (set_irq_status b' (Z.lor (irq_status b') 1), raise_spi kSpiBlock w')
      else Ok (b', w')
  end.

(** ** Register file *)
Definition read (b : Block) (off len : Z) : Z :=
  if Reg.Config <=? off then
    let cfg := off - Reg.Config in
    if cfg =? BlkCfg.CapacityLo then u32 (capacity b)
    else if cfg =? BlkCfg.CapacityHi then u32 (Z.shiftr (capacity b) 32)
    else if cfg =? BlkCfg.SizeMax then kSizeMax
    else if cfg =? BlkCfg.SegMax then kSegMax
    else if cfg =? BlkCfg.Geometry then 0
    else if cfg =? BlkCfg.BlkSize then kBlkSize
    else 0
  else if off =? Reg.Magic then 0x74726976
  else if off =? Reg.Version then 2
  else if off =? Reg.DeviceId then 2
  else if off =? Reg.VendorId then 0x554D4551
  else if off =? Reg.DeviceFeat then
    if dev_feat_sel b =? 0 then u32 (features b)
    else if dev_feat_sel b =? 1 then u32 (Z.shiftr (features b) 32)
    else 0
  else if off =? Reg.QueueNumMax then kQueueSize
  else if off =? Reg.QueueReady then (if ready (queue b) then 1 else 0)
  else if off =? Reg.IrqStatus then irq_status b
  else if off =? Reg.Status then status b
  else if off =? Reg.ConfigGen then 0
  else 0.

Definition write (fuel : nat) (b : Block) (w : World) (off val len : Z)
  : res (Block * World) :=
  let q := queue b in
  let reg b' : res (Block * World) := Ok (b', w) in
  if off =? Reg.DeviceFeatSel then reg (set_dev_feat_sel b val)
  else if off =? Reg.DriverFeatSel then reg (set_drv_feat_sel b val)
  else if off =? Reg.DriverFeat then
    if drv_feat_sel b =? 0 then reg (set_features b (LO (features b) val))
    else if drv_feat_sel b =? 1 then reg (set_features b (HI (features b) val))
    else reg b
  else if off =? Reg.QueueSel then reg b
  else if off =? Reg.QueueNum then reg (set_queue b (set_num q (Z.min val kQueueSize)))
  else if off =? Reg.QueueReady then reg (set_queue b (set_ready q (negb (val =? 0))))
  else if off =? Reg.QueueNotify then (if val =? 0 then process_rq fuel b w else reg b)
  else if off =? Reg.IrqAck then reg (set_irq_status b (Z.land (irq_status b) (Z.lnot val)))
  else if off =? Reg.Status then
    let b' := set_status b val in
    if val =? 0 then reg (set_irq_status (set_queue b' (Queue0 kQueueSize)) 0) else reg b'
  else if off =? Reg.QueueDescLo then reg (set_queue b (set_desc_gpa q (LO (desc_gpa q) val)))
  else if off =? Reg.QueueDescHi then reg (set_queue b (set_desc_gpa q (HI (desc_gpa q) val)))
  else if off =? Reg.QueueAvailLo then reg (set_queue b (set_avail_gpa q (LO (avail_gpa q) val)))
  else if off =? Reg.QueueAvailHi then reg (set_queue b (set_avail_gpa q (HI (avail_gpa q) val)))
  else if off =? Reg.QueueUsedLo then reg (set_queue b (set_used_gpa q (LO (used_gpa q) val)))
  else if off =? Reg.QueueUsedHi then reg (set_queue b (set_used_gpa q (HI (used_gpa q) val)))
  else reg b.
End Block.
Arguments Block F : clear implicits.
Arguments Xfer F : clear implicits.

#[export] Instance Block_mmio {F} `{BlockFile F} : MmioDevice (Block F) := {
  dev_read b off len := Ok (read b off len);
  dev_write := write;
}.
