(* ===== verification/DiskImage.v ===== *)
(** * DiskImage: a raw disk image as a byte string

    The concrete [BlockFile] the block device's data theorems and witnesses use:
    [pread] and [pwrite] of POSIX on a regular file with unlimited space.  A
    write past the end extends the file with zeros. *)

From S2P Require Import Prelude Bytes GuestMem Virtq World VirtioBlock.

Definition img_write (f : bytes) (off : nat) (bs : bytes) : bytes :=
  match bs with
  | [] => f
  | _ => take off (f ++ replicate (off - length f) 0) ++ bs ++ drop (off + length bs) f
  end.

Definition img_read (f : bytes) (off len : nat) : bytes := take len (drop off f).

#[export] Instance image_file : BlockFile bytes := {
  pread f len off :=
    if off <? 0 then None else Some (map u8 (img_read f (Z.to_nat off) (Z.to_nat len)));
  pwrite f bs off :=
    if off <? 0 then None else Some (img_write f (Z.to_nat off) bs);
}.

#[export] Instance image_file_laws : BlockFileLaws bytes.
Proof.
  split. intros f len off bs Hl Hr. cbn in Hr.
  destruct (off <? 0); [done|]. injection Hr as <-. split.
  - rewrite length_map. unfold img_read. rewrite length_take. lia.
  - apply Forall_fmap. apply Forall_true. intros x. apply u8_range.
Qed.

Section image.
Lemma length_img_write f off bs :
  bs ≠ [] → length (img_write f off bs) = Nat.max (length f) (off + length bs).
Proof. intros Hb. unfold img_write. destruct bs; [done|]. len. Qed.

Lemma lookup_img_write f off bs i :
  bs ≠ [] →
  img_write f off bs !! i =
    if decide (i < off)%nat then Some (default 0 (f !! i))
    else if decide (i < off + length bs)%nat then bs !! (i - off)%nat
    else f !! i.
Proof.
  intros Hb. unfold img_write. destruct bs as [|b0 bs]; [done|]. set (bs' := b0 :: bs).
  assert (length (take off (f ++ replicate (off - length f) 0)) = off) as Ht by len.
  destruct (decide (i < off)%nat) as [Hi|Hi].
  - rewrite lookup_app_l by lia. rewrite lookup_take_lt by done.
    destruct (decide (i < length f)%nat).
    + rewrite lookup_app_l by done.
      destruct (lookup_lt_is_Some_2 f i) as [y Hy]; [done|]. by rewrite Hy.
    + rewrite lookup_app_r, lookup_replicate_2 by lia.
      by rewrite (lookup_ge_None_2 f) by lia.
  - rewrite lookup_app_r, Ht by lia.
    destruct (decide (i < off + length bs')%nat).
    + by rewrite lookup_app_l by lia.
    + rewrite lookup_app_r, lookup_drop by lia. f_equal. lia.
Qed.

(** Two adjacent writes are one write of the concatenation. *)
Lemma img_write_app f off xs ys :
  img_write (img_write f off xs) (off + length xs) ys = img_write f off (xs ++ ys).
Proof.
  destruct (decide (xs = [])) as [->|Hx].
  { cbn [img_write length app]. by rewrite Nat.add_0_r. }
  destruct (decide (ys = [])) as [->|Hy].
  { by rewrite app_nil_r. }
  assert (xs ++ ys ≠ []) as Hxy by (destruct xs; done).
  apply list_eq. intros i.
  rewrite !lookup_img_write, length_app by done.
  repeat case_decide; try lia; try done.
  - rewrite lookup_app_l by lia.
    destruct (lookup_lt_is_Some_2 xs (i - off)) as [y Hy']; [lia|]. by rewrite Hy'.
  - rewrite lookup_app_r by lia. f_equal. lia.
Qed.

(** Reading back the range just written. *)
Lemma img_read_write f off bs : img_read (img_write f off bs) off (length bs) = bs.
Proof.
  destruct (decide (bs = [])) as [->|Hb]; [done|].
  apply list_eq. intros i. unfold img_read.
  destruct (decide (i < length bs)%nat).
  - rewrite lookup_take_lt, lookup_drop, lookup_img_write by done.
    repeat case_decide; try lia. f_equal. lia.
  - rewrite lookup_take_ge by lia. symmetry. apply lookup_ge_None. lia.
Qed.

Lemma img_read_app f off n k :
  img_read f off (n + k) = img_read f off n ++ img_read f (off + n) k.
Proof.
  unfold img_read. rewrite <- take_take_drop. f_equal. by rewrite drop_drop.
Qed.

Lemma length_img_read f off n : (n = 0 ∨ off + n ≤ length f)%nat → length (img_read f off n) = n.
Proof. intros Hf. unfold img_read. len. Qed.

Lemma map_u8_id bs : wf_bytes bs → map u8 bs = bs.
Proof.
  unfold wf_bytes, is_byte. induction 1 as [|b bs Hb _ IH]; [done|].
  cbn. by rewrite u8_id, IH by lia.
Qed.

Lemma wf_img_read f off n : wf_bytes f → wf_bytes (img_read f off n).
Proof. intros. unfold img_read. auto with vm. Qed.

Lemma wf_img_write f off bs : wf_bytes f → wf_bytes bs → wf_bytes (img_write f off bs).
Proof.
  intros Hf Hb. unfold img_write. destruct bs; [done|].
  apply wf_bytes_app. split.
  - apply wf_bytes_take, wf_bytes_app. split; [done|]. apply wf_bytes_replicate. done.
  - apply wf_bytes_app. split; [done|]. by apply wf_bytes_drop.
Qed.
End image.
