(* ===== verification/VirtioBlockSpec.v ===== *)
(** * VirtioBlockSpec: what virtio-blk promises

    An abstract account of the device (parsed requests served in ring order) and
    the refinement of [process_rq] to it; the file contents a sequence of
    requests leaves; the invariants of the register file; and the behaviours on
    malformed rings. *)

From S2P Require Import Prelude Bytes GuestMem Virtq VirtqSpec World VirtioBlock DiskImage.

(** ** Parsed requests *)
Record Req := mkReq {
  rq_head : Z;              (** head descriptor *)
  rq_type : Z;
  rq_sector : Z;
  rq_segs : list (Z * Z);   (** data buffers: guest address and length *)
  rq_status : Z;            (** guest address of the status byte *)
}.

(** A chain of NEXT descriptors from [c], its buffers, and its last descriptor. *)
Inductive chain (m : Ram) (d : Z) : Z → list (Z * Z) → Z → Prop :=
  | chain_last c f :
      0 ≤ c < kQueueSize →
      desc_flags m d c = Ok f → has_flag f VRING_DESC_F_NEXT = false →
      chain m d c [] c
  | chain_next c f a l c' segs e :
      0 ≤ c < kQueueSize →
      desc_flags m d c = Ok f → has_flag f VRING_DESC_F_NEXT = true →
      desc_addr m d c = Ok a → desc_len m d c = Ok l → desc_next m d c = Ok c' →
      chain m d c' segs e →
      chain m d c ((a, l) :: segs) e.

(** The data part of a request, by type: FLUSH has none. *)
Definition data_at (m : Ram) (d type c : Z) (segs : list (Z * Z)) (e : Z) : Prop :=
  if type =? VIRTIO_BLK_T_FLUSH then segs = [] ∧ e = c ∧ 0 ≤ c < kQueueSize
  else chain m d c segs e ∧ type ≠ VIRTIO_BLK_T_GET_ID.

(** The request [r] is laid out in memory, with its header at [hdr]. *)
Record request_at (m : Ram) (d : Z) (r : Req) (hdr c e : Z) : Prop := {
  ra_head : 0 ≤ rq_head r < kQueueSize;
  ra_hdr : ∃ ha, desc_addr m d (rq_head r) = Ok ha ∧ gpa_to_hva m ha = Some hdr;
  ra_len : ∃ l, desc_len m d (rq_head r) = Ok l ∧ 16 ≤ l;
  ra_flags : ∃ f, desc_flags m d (rq_head r) = Ok f ∧ has_flag f VRING_DESC_F_NEXT = true;
  ra_next : desc_next m d (rq_head r) = Ok c;
  ra_type : load32 m hdr = Ok (rq_type r);
  ra_sector : load64 m (hdr + 8) = Ok (rq_sector r);
  ra_data : data_at m d (rq_type r) c (rq_segs r) e;
  ra_end : 0 ≤ e < kQueueSize;
  ra_status : desc_addr m d e = Ok (rq_status r);
}.

Section Spec.
Context {F : Type} {HF : BlockFile F} {HL : BlockFileLaws F}.

(** ** The abstract device *)
Fixpoint xfer_all (ok : bool) (type : Z) (segs : list (Z * Z)) (x : Xfer F) : res (Xfer F) :=
  match segs with
  | [] => Ok x
  | (a, l) :: segs => x' ← transfer ok type a l x; xfer_all ok type segs x'
  end.

Definition spec_status (sa : Z) (x : Xfer F) : res (Xfer F) :=
  match gpa_to_hva (x_ram x) sa with
  | Some p =>
      m ← store8 (x_ram x) p (x_status x);
      Ok (mkXfer (x_off x) (x_status x) (u32 (x_wrote x + 1)) m (x_file x))
  | None => Ok x
  end.

(** One request: its data, its status byte, its used element. *)
Definition serve_req (u : Z) (r : Req) (bw : Block F * World) : res (Block F * World) :=
  let '(b, w) := bw in
  let x := mkXfer (u64 (rq_sector r * 512)) VIRTIO_BLK_S_OK 0 (w_ram w) (b_file b) in
  x1 ← (if rq_type r =? VIRTIO_BLK_T_FLUSH then Ok x
        else xfer_all (valid b) (rq_type r) (rq_segs r) x);
  x2 ← spec_status (rq_status r) x1;
  m ← push_used kQueueSize (x_ram x2) u (rq_head r) (x_wrote x2);
  Ok (set_queue (set_file b (x_file x2))
        (set_last_avail (queue b) (u16 (last_avail (queue b) + 1))),
      emit (with_ram w m)
        (if rq_type r =? VIRTIO_BLK_T_FLUSH then [Fsync (fd b)] else [])).

Fixpoint serve_all (u : Z) (rs : list Req) (bw : Block F * World) : res (Block F * World) :=
  match rs with
  | [] => Ok bw
  | r :: rs => bw' ← serve_req u r bw; serve_all u rs bw'
  end.

(** ** The descriptor walk is the fold over the parsed buffers *)

(** [prot] is the memory the device only reads while it serves the ring: the
    descriptor table, the available ring and the request headers. *)
Context (prot : Z → Prop).

(** A data buffer the device may use: inside RAM, and for IN requests clear
    of the protected memory. *)
Definition seg_ok (m : Ram) (type : Z) (al : Z * Z) : Prop :=
  0 ≤ al.2 ∧
  ∀ p, gpa_to_hva m al.1 = Some p → al.2 ≠ 0 →
    in_ram m p (Z.to_nat al.2) = true ∧ (type = VIRTIO_BLK_T_IN → spares prot p al.2).

Lemma seg_ok_stable m m' type al : stable prot m m' → seg_ok m type al → seg_ok m' type al.
Proof.
  intros [Hs _ _] [H0 Hk]. split; [done|]. intros p Hp Hl.
  rewrite (gpa_to_hva_same m) in Hp by done. rewrite (in_ram_same m) by done. eauto.
Qed.

Ltac unchanged := eexists; split; [reflexivity | reflexivity].

Lemma transfer_ok ok type al (x : Xfer F) :
  wf_ram (x_ram x) → seg_ok (x_ram x) type al →
  ∃ x', transfer ok type al.1 al.2 x = Ok x' ∧ stable prot (x_ram x) (x_ram x').
Proof.
  destruct al as [a l]. intros Hm [H0 Hk]. unfold transfer. cbn in *.
  destruct (gpa_to_hva (x_ram x) a) as [p|]; [|unchanged].
  destruct (Z.eqb_spec l 0) as [->|Hl]; [unchanged|].
  destruct (Hk p eq_refl Hl) as [Hin Hsp]. apply in_ram_spec in Hin.
  destruct (Z.eqb_spec type VIRTIO_BLK_T_IN) as [->|_].
  - destruct (if ok then _ else _) as [bs|] eqn:Hr; [|unchanged].
    assert (Z.of_nat (length bs) ≤ l ∧ wf_bytes bs) as [Hlen Hw].
    { destruct ok; [by eapply pread_length | done]. }
    destruct (store (x_ram x) p bs) as [m|e] eqn:Hst.
    + eexists. split; [done|]. eapply stable_store; [done..|].
      intros y Hy. apply Hsp; [done|]. lia.
    + unfold store in Hst. rewrite (proj2 (in_ram_spec _ _ _)) in Hst by lia. done.
  - destruct (type =? VIRTIO_BLK_T_OUT); [|unchanged].
    unfold load. rewrite (proj2 (in_ram_spec _ _ _)) by lia. rewrite bind_Ok.
    case_match; unchanged.
Qed.

Lemma xfer_all_ok ok type segs (x : Xfer F) :
  wf_ram (x_ram x) → Forall (seg_ok (x_ram x) type) segs →
  ∃ x', xfer_all ok type segs x = Ok x' ∧ stable prot (x_ram x) (x_ram x').
Proof.
  intros Hm Hs. revert x Hm Hs. induction segs as [|[a l] segs IH]; intros x Hm Hs.
  - by eexists.
  - apply Forall_cons in Hs as [H1 H2].
    destruct (transfer_ok ok type (a, l) x Hm H1) as (x1 & E1 & S1). cbn in *.
    destruct (IH x1) as (x2 & E2 & S2).
    + by apply S1.
    + eapply Forall_impl; [done|]. intros. by eapply seg_ok_stable.
    + exists x2. rewrite E1, bind_Ok. split; [done | by etrans].
Qed.

Section table.
Context (d : Z) (Hd : covers prot d (16 * kQueueSize)).

Lemma chain_stable m m' c segs e : stable prot m m' → chain m d c segs e → chain m' d c segs e.
Proof.
  intros Hs. induction 1 as [c f Hc|c f a l c' segs e Hc];
    destruct (desc_stable prot kQueueSize d Hd m m' c Hs Hc) as (E1 & E2 & E3 & E4).
  - eapply chain_last; [done | by rewrite E3 | done].
  - eapply chain_next; rewrite ?E1, ?E2, ?E3, ?E4; done.
Qed.

(** Pointer chasing through a chain equals the fold over its buffers, and
    stops at the chain's last descriptor. *)
Lemma data_loop_chain ok type segs : ∀ fuel c e (x : Xfer F),
  wf_ram (x_ram x) → chain (x_ram x) d c segs e →
  Forall (seg_ok (x_ram x) type) segs → (length segs ≤ fuel)%nat →
  data_loop fuel ok type d c x = (λ x', (e, x')) <$> xfer_all ok type segs x.
Proof.
  induction segs as [|[a l] segs IH]; intros fuel c e x Hm Hc Hs Hf;
    inversion Hc as [? f Hr Hfl Hn|? f ? ? c' ? ? Hr Hfl Hn Ha Hl Hx Hc']; subst.
  - destruct fuel; cbn [data_loop]; by rewrite Hfl, bind_Ok, Hn.
  - destruct fuel as [|fuel]; [cbn in Hf; lia|].
    apply Forall_cons in Hs as [Hs1 Hs2].
    destruct (transfer_ok ok type (a, l) x Hm Hs1) as (x1 & E1 & S1). cbn in E1.
    cbn [data_loop xfer_all]. rewrite Hfl, bind_Ok, Hn. cbn [negb].
    rewrite Ha, bind_Ok, Hl, bind_Ok, E1, !bind_Ok.
    destruct (desc_stable prot kQueueSize d Hd _ _ c S1 Hr) as (_ & _ & _ & ->).
    rewrite Hx, bind_Ok. apply IH.
    + by apply S1.
    + by apply (chain_stable (x_ram x)).
    + eapply Forall_impl; [done|]. intros. by eapply seg_ok_stable.
    + cbn in Hf. lia.
Qed.
End table.
End Spec.

(** ** A ring of pending requests *)
Section Ring.
Context {F : Type} {HF : BlockFile F} {HL : BlockFileLaws F}.

(** The rings in RAM: the descriptor table at [d], the available ring at [a]
    and the used ring at [u].  [prot] covers what the device only reads. *)
Context (prot : Z → Prop) (d a u : Z).

Definition status_ok (m : Ram) (sa : Z) : Prop :=
  ∀ p, gpa_to_hva m sa = Some p → in_ram m p 1 = true ∧ spares (prot_all kQueueSize prot u) p 1.

(** [r] can be served: laid out in memory, its header protected, its buffers
    and its status byte usable. *)
Definition servable (m : Ram) (r : Req) : Prop :=
  ∃ hdr c e, request_at m d r hdr c e ∧ covers prot hdr 16 ∧
    Forall (seg_ok (prot_all kQueueSize prot u) m (rq_type r)) (rq_segs r) ∧ status_ok m (rq_status r).

(** The requests [rs] sit in the available ring from position [last]. *)
Inductive pending (m : Ram) : Z → list Req → Prop :=
  | pending_nil last : pending m last []
  | pending_cons last r rs :
      avail_ring m a (last mod kQueueSize) = Ok (rq_head r) →
      servable m r →
      pending m (u16 (last + 1)) rs →
      pending m last (r :: rs).

Section stability.
Context (m m' : Ram) (Hs : stable prot m m') (Hr : rings kQueueSize prot d a u m).

Lemma request_at_stable r hdr c e :
  covers prot hdr 16 → request_at m d r hdr c e → request_at m' d r hdr c e.
Proof.
  intros Hc [Hh (ha & Ha1 & Ha2) Hl Hf Hn Ht Hsec Hd He Hst].
  destruct (desc_stable prot kQueueSize d (rg_table _ _ _ _ _ _ Hr) m m' _ Hs Hh) as (E1 & E2 & E3 & E4).
  destruct (desc_stable prot kQueueSize d (rg_table _ _ _ _ _ _ Hr) m m' _ Hs He) as (E5 & _).
  split; rewrite ?E1, ?E2, ?E3, ?E4, ?E5; try done.
  - exists ha. rewrite (gpa_to_hva_same m); [done | apply Hs].
  - rewrite (load32_stable prot m); [done|done|]. intros x Hx. apply Hc. lia.
  - rewrite (load64_stable prot m); [done|done|]. intros x Hx. apply Hc. lia.
  - unfold data_at in *. case_match; [done|]. destruct Hd. split; [|done].
    eapply chain_stable; [apply (rg_table _ _ _ _ _ _ Hr) | done..].
Qed.

Lemma servable_stable r : servable m r → servable m' r.
Proof.
  intros (hdr & c & e & Hq & Hc & Hg & Hst). exists hdr, c, e. split_and!; [|done| |].
  - by apply request_at_stable.
  - eapply Forall_impl; [done|]. intros [al l] [H0 Hk]. split; [done|].
    intros p Hp Hl. destruct Hs as [Hm _ _].
    rewrite (gpa_to_hva_same m) in Hp by done. rewrite (in_ram_same m) by done. eauto.
  - intros p Hp. destruct Hs as [Hm _ _].
    rewrite (gpa_to_hva_same m) in Hp by done. rewrite (in_ram_same m) by done. eauto.
Qed.
End stability.

Lemma pending_stable m m' last rs :
  stable prot m m' → rings kQueueSize prot d a u m → pending m last rs → pending m' last rs.
Proof.
  intros Hs Hr. induction 1 as [|last r rs Ha Hv _ IH]; constructor; [| |done].
  - rewrite (avail_ring_stable kQueueSize prot d a u m); [done..|]. apply Z.mod_pos_bound. done.
  - by eapply servable_stable.
Qed.

Lemma transfer_wrote ok type x x' (al : Z * Z) :
  fits 32 (x_wrote x) → transfer (F := F) ok type al.1 al.2 x = Ok x' → fits 32 (x_wrote x').
Proof.
  intros Hx Ht. unfold transfer in Ht. pose proof (u32_range (x_wrote x + al.2)) as Hu.
  repeat (case_match; inv_bind); try done; injection Ht as <-; done.
Qed.

Lemma xfer_all_wrote ok type segs : ∀ (x x' : Xfer F),
  fits 32 (x_wrote x) → xfer_all ok type segs x = Ok x' → fits 32 (x_wrote x').
Proof.
  induction segs as [|[a0 l] segs IH]; intros x x' Hx Ht; cbn [xfer_all] in Ht.
  - by simplify_eq.
  - inv_bind. eapply IH; [|done]. by eapply (transfer_wrote _ _ x _ (a0, l)).
Qed.

Lemma spec_status_ok sa (x : Xfer F) :
  wf_ram (x_ram x) → status_ok (x_ram x) sa → fits 32 (x_wrote x) →
  ∃ x', spec_status sa x = Ok x' ∧ stable (prot_all kQueueSize prot u) (x_ram x) (x_ram x') ∧
    fits 32 (x_wrote x') ∧ x_file x' = x_file x.
Proof.
  intros Hm Hs Hx. unfold spec_status.
  destruct (gpa_to_hva (x_ram x) sa) as [p|] eqn:Hp; [|by eexists].
  destruct (Hs p Hp) as [Hin Hsp].
  destruct (store8 (x_ram x) p (x_status x)) as [m|e] eqn:Hst.
  - eexists. split_and!; [done | | apply u32_range | done].
    eapply stable_store; [done | apply wf_le_enc |]. by rewrite length_le_enc.
  - unfold store8, store in Hst. rewrite length_le_enc, Hin in Hst. done.
Qed.

(** The abstract service of one request succeeds, keeps the protected memory,
    advances the ring position and publishes one used element. *)
Lemma serve_req_ok r b w i :
  rings kQueueSize prot d a u (w_ram w) → servable (w_ram w) r → used_idx (w_ram w) u = Ok i →
  ∃ b' w', serve_req u r (b, w) = Ok (b', w') ∧
    stable prot (w_ram w) (w_ram w') ∧ used_idx (w_ram w') u = Ok (u16 (i + 1)) ∧
    queue b' = set_last_avail (queue b) (u16 (last_avail (queue b) + 1)).
Proof.
  intros Hr (hdr & c & e & Hq & Hc & Hg & Hst) Hi.
  pose proof (rg_wf _ _ _ _ _ _ Hr) as Hw.
  set (x := mkXfer (u64 (rq_sector r * 512)) VIRTIO_BLK_S_OK 0 (w_ram w) (b_file b)).
  assert (∃ x1, (if rq_type r =? VIRTIO_BLK_T_FLUSH then Ok x
                 else xfer_all (valid b) (rq_type r) (rq_segs r) x) = Ok x1 ∧
    stable (prot_all kQueueSize prot u) (w_ram w) (x_ram x1) ∧ fits 32 (x_wrote x1)) as (x1 & E1 & S1 & W1).
  { case_match.
    - exists x. split; [done|]. split; [by split | done].
    - destruct (xfer_all_ok (prot_all kQueueSize prot u) (valid b) (rq_type r) (rq_segs r) x) as (x1 & E & S); [done..|].
      exists x1. split_and!; [done..|]. by eapply xfer_all_wrote in E. }
  assert (status_ok (x_ram x1) (rq_status r)) as Hst1.
  { intros p Hp. destruct S1 as [Hm _ _].
    rewrite (gpa_to_hva_same (w_ram w)) in Hp by done.
    rewrite (in_ram_same (w_ram w)) by done. by apply Hst. }
  destruct (spec_status_ok (rq_status r) x1) as (x2 & E2 & S2 & W2 & _); [by apply S1 | done..|].
  assert (stable (prot_all kQueueSize prot u) (w_ram w) (x_ram x2)) as S by by etrans.
  destruct (publish_spec kQueueSize prot d a u (w_ram w) (x_ram x2) i (rq_head r) (x_wrote x2))
    as (m' & Hp & Sm & Un & _); try done.
  { destruct Hq. unfold kQueueSize in *. lia. }
  eexists _, _. split_and!.
  - unfold serve_req. fold x. rewrite E1, bind_Ok, E2, bind_Ok, Hp, bind_Ok. done.
  - done.
  - done.
  - done.
Qed.

(** One iteration of the code on a servable head is the abstract service. *)
Lemma serve_one_refines fuel b w raised r :
  rings kQueueSize prot d a u (w_ram w) → servable (w_ram w) r →
  avail_ring (w_ram w) a (last_avail (queue b) mod kQueueSize) = Ok (rq_head r) →
  (length (rq_segs r) ≤ fuel)%nat →
  serve_one fuel d a u (b, w, raised) =
    (λ bw, (true, (bw.1, bw.2, true))) <$> serve_req u r (b, w).
Proof.
  intros Hr (hdr & c & e & [Hh (ha & Ha1 & Ha2) (l & Hl1 & Hl2) (f & Hf1 & Hf2) Hn Ht Hsec Hd He Hst]
    & Hc & Hg & Hso) Hav Hfuel.
  unfold serve_one. rewrite Hav, bind_Ok, Ha1, bind_Ok, Ha2, Hl1, bind_Ok.
  destruct (Z.ltb_spec l 16); [lia|]. rewrite Hf1, bind_Ok, Hf2. cbn [negb].
  rewrite Hn, bind_Ok, Ht, bind_Ok, Hsec, bind_Ok.
  unfold serve_data, serve_req. cbv zeta.
  set (x := mkXfer (u64 (rq_sector r * 512)) VIRTIO_BLK_S_OK 0 (w_ram w) (b_file b)).
  assert (∀ x1 : Xfer F, stable (prot_all kQueueSize prot u) (w_ram w) (x_ram x1) →
    put_status d e x1 = spec_status (rq_status r) x1) as Hput.
  { intros x1 S1. unfold put_status, spec_status.
    destruct (desc_stable prot kQueueSize d (rg_table _ _ _ _ _ _ Hr) (w_ram w) (x_ram x1) e) as (-> & _);
      [by eapply stable_weaken | done|]. by rewrite Hst. }
  unfold data_at in Hd. destruct (rq_type r =? VIRTIO_BLK_T_FLUSH).
  - destruct Hd as (Hs0 & -> & _). rewrite !bind_Ok. rewrite Hput by (by split).
    destruct (spec_status (rq_status r) x) as [x2|]; [|done]. rewrite !bind_Ok.
    destruct (push_used _ _ _ _ _); done.
  - destruct Hd as [Hch Hty]. rewrite (proj2 (Z.eqb_neq _ _) Hty).
    rewrite (data_loop_chain (prot_all kQueueSize prot u) d) with (segs := rq_segs r) (e := e);
      [ | intros y Hy; left; by apply (rg_table _ _ _ _ _ _ Hr) | apply (rg_wf _ _ _ _ _ _ Hr) | done..].
    destruct (xfer_all_ok (prot_all kQueueSize prot u) (valid b) (rq_type r) (rq_segs r) x) as (x1 & E1 & S1);
      [apply (rg_wf _ _ _ _ _ _ Hr) | done |].
    rewrite E1. cbn [fmap res_fmap]. rewrite !bind_Ok. rewrite Hput by done.
    destruct (spec_status (rq_status r) x1) as [x2|]; [|done]. rewrite !bind_Ok.
    destruct (push_used _ _ _ _ _); done.
Qed.
End Ring.


(** ** The data of IN and OUT requests on a raw image *)
Section Data.
Fixpoint total (segs : list (Z * Z)) : Z :=
  match segs with [] => 0 | (_, l) :: segs => l + total segs end.

(** The bytes the buffers hold, in order. *)
Fixpoint gather (m : Ram) (segs : list (Z * Z)) : bytes :=
  match segs with
  | [] => []
  | (a, l) :: segs =>
      match gpa_to_hva m a with Some p => peeks m p (Z.to_nat l) | None => [] end
      ++ gather m segs
  end.

(** A buffer entirely inside RAM. *)
Definition mapped (m : Ram) (al : Z * Z) : Prop :=
  0 ≤ al.2 ∧ ∃ p, gpa_to_hva m al.1 = Some p ∧ in_ram m p (Z.to_nat al.2) = true.

Definition clear_of (m : Ram) (al bl : Z * Z) : Prop :=
  ∀ p q, gpa_to_hva m al.1 = Some p → gpa_to_hva m bl.1 = Some q →
    disjoint p al.2 q bl.2.

Fixpoint disjoint_segs (m : Ram) (segs : list (Z * Z)) : Prop :=
  match segs with
  | [] => True
  | al :: segs => Forall (clear_of m al) segs ∧ disjoint_segs m segs
  end.

Lemma total_nonneg m segs : Forall (mapped m) segs → 0 ≤ total segs.
Proof.
  induction 1 as [|[a l] segs [Hl _] _ IH]; cbn in *; lia.
Qed.

Lemma length_gather m segs :
  Forall (mapped m) segs → length (gather m segs) = Z.to_nat (total segs).
Proof.
  induction 1 as [|[a l] segs [Hl (p & Hp & _)] Hs IH]; cbn in *; [done|].
  rewrite Hp. len. rewrite IH. pose proof (total_nonneg m segs Hs). lia.
Qed.

Lemma mapped_same m m' al : same_map m m' → mapped m al → mapped m' al.
Proof.
  intros Hs [H0 (p & Hp & Hin)]. split; [done|]. exists p.
  by rewrite (gpa_to_hva_same m), (in_ram_same m).
Qed.

Lemma disjoint_segs_same m m' segs : same_map m m' → disjoint_segs m segs → disjoint_segs m' segs.
Proof.
  intros Hs. induction segs as [|al segs IH]; [done|]. cbn. intros [H1 H2].
  split; [|by apply IH]. eapply Forall_impl; [done|].
  intros bl Hb p q. rewrite !(gpa_to_hva_same m m') by done. apply Hb.
Qed.

Lemma gather_agree m m' segs :
  same_map m m' →
  Forall (λ al, ∀ p, gpa_to_hva m al.1 = Some p → agree m m' p al.2) segs →
  Forall (mapped m) segs → gather m' segs = gather m segs.
Proof.
  intros Hs Ha Hm. induction segs as [|[a l] segs IH]; [done|].
  apply Forall_cons in Ha as [Ha1 Ha2]. apply Forall_cons in Hm as [[Hl _] Hm2].
  cbn in *. rewrite IH by done. f_equal. rewrite (gpa_to_hva_same m) by done.
  destruct (gpa_to_hva m a) as [p|]; [|done]. apply peeks_agree.
  rewrite Z2Nat.id by done. by apply Ha1.
Qed.

(** An OUT walk writes the buffers' bytes, concatenated, at the offset. *)
Lemma xfer_all_out segs : ∀ off st wr m (f : bytes),
  Forall (mapped m) segs → 0 ≤ off → off + total segs < 2 ^ 63 →
  xfer_all true VIRTIO_BLK_T_OUT segs (mkXfer off st wr m f) =
    Ok (mkXfer (off + total segs) st wr m (img_write f (Z.to_nat off) (gather m segs))).
Proof.
  induction segs as [|[a l] segs IH]; intros off st wr m f Hm Hoff Hend; cbn [total gather] in *.
  - cbn [xfer_all img_write]. by rewrite Z.add_0_r.
  - apply Forall_cons in Hm as [[Hl (p & Hp & Hin)] Hm2]. cbn in Hl, Hp, Hin.
    pose proof (total_nonneg m segs Hm2) as Ht.
    cbn [xfer_all]. unfold transfer at 1. cbn [x_ram x_off x_file]. rewrite Hp.
    destruct (Z.eqb_spec l 0) as [->|Hl0].
    + rewrite bind_Ok, IH by (done || lia). by rewrite Z.add_0_l.
    + const_eqb. rewrite load_in, bind_Ok by done.
      cbn [pwrite image_file x_off x_file x_status x_wrote]. rewrite i64_id by lia.
      destruct (Z.ltb_spec off 0); [lia|]. rewrite bind_Ok, u64_id by lia.
      rewrite IH by (done || lia). do 2 f_equal; [lia|].
      rewrite <- img_write_app. len. f_equal. lia.
Qed.

(** An IN walk fills the buffers with the image's bytes from the offset, and
    touches nothing else. *)
Lemma xfer_all_in segs : ∀ off st wr m (f : bytes),
  wf_bytes f → Forall (mapped m) segs → disjoint_segs m segs →
  0 ≤ off → off + total segs < 2 ^ 63 →
  total segs = 0 ∨ off + total segs ≤ Z.of_nat (length f) →
  0 ≤ wr → wr + total segs < 2 ^ 32 →
  ∃ m', xfer_all true VIRTIO_BLK_T_IN segs (mkXfer off st wr m f) =
      Ok (mkXfer (off + total segs) st (wr + total segs) m' f) ∧
    same_map m m' ∧ gather m' segs = img_read f (Z.to_nat off) (Z.to_nat (total segs)) ∧
    (∀ q k, Forall (λ al, ∀ p, gpa_to_hva m al.1 = Some p → disjoint p al.2 q k) segs →
       agree m m' q k).
Proof.
  induction segs as [|[a l] segs IH]; intros off st wr m f Hf Hm Hd Hoff Hend Hlen Hwr Hwe;
    cbn [total] in *.
  - exists m. split_and!; [by rewrite !Z.add_0_r | done.. | by intros q k _ x].
  - apply Forall_cons in Hm as [[Hl (p & Hp & Hin)] Hm2]. cbn in Hl, Hp, Hin.
    destruct Hd as [Hd1 Hd2]. pose proof (total_nonneg m segs Hm2) as Ht.
    set (bs := img_read f (Z.to_nat off) (Z.to_nat l)).
    assert (length bs = Z.to_nat l) as Hbl by (apply length_img_read; lia).
    set (m1 := pokes m p bs).
    assert (same_map m m1) as Hs1 by apply same_map_pokes.
    assert (agree m m1 p 0 ∧ peeks m1 p (Z.to_nat l) = bs) as [_ Hbs].
    { split; [intros x; lia|]. unfold m1. rewrite <- Hbl. apply peeks_pokes. }
    destruct (IH (off + l) st (wr + l) m1 f) as (m' & E & Hs & Hg & Hfr); try lia; try done.
    { eapply Forall_impl; [exact Hm2|]. intros. by apply (mapped_same m). }
    { by apply (disjoint_segs_same m). }
    assert (agree m1 m' p l) as Hag.
    { apply Hfr. apply Forall_forall. intros bl Hbl' q Hq.
      rewrite (gpa_to_hva_same m) in Hq by done.
      rewrite Forall_forall in Hd1. specialize (Hd1 bl Hbl' p q Hp Hq).
      unfold disjoint in *. cbn in Hd1. lia. }
    exists m'. split_and!.
    + cbn [xfer_all]. unfold transfer at 1. cbn [x_ram x_off x_file x_wrote x_status]. rewrite Hp.
      destruct (Z.eqb_spec l 0) as [->|Hl0].
      * assert (m1 = m) as Hmm by (unfold m1; by rewrite (nil_length_inv bs)).
        rewrite Hmm, !Z.add_0_r in E. rewrite bind_Ok, E. do 2 f_equal; lia.
      * const_eqb. cbn [pread image_file]. rewrite i64_id by lia.
        destruct (Z.ltb_spec off 0); [lia|]. fold bs.
        rewrite map_u8_id by (by apply wf_img_read).
        rewrite store_in, bind_Ok by (by rewrite Hbl). fold m1. rewrite bind_Ok.
        rewrite u64_id, u32_id by lia. rewrite E. do 2 f_equal; lia.
    + by etrans.
    + cbn [gather]. rewrite (gpa_to_hva_same m) by (by etrans). rewrite Hp, Hg.
      rewrite (peeks_agree m1) by (by rewrite Z2Nat.id). rewrite Hbs.
      rewrite !Z2Nat.inj_add by lia. by rewrite img_read_app.
    + intros q k Hq. apply Forall_cons in Hq as [Hq1 Hq2].
      eapply agree_trans; [apply agree_pokes; rewrite Hbl, Z2Nat.id by done; by apply Hq1 |].
      apply Hfr. eapply Forall_impl; [exact Hq2|]. intros bl Hb q' Hq'. apply Hb.
      by rewrite (gpa_to_hva_same m m1) in Hq'.
Qed.
End Data.
