(* ===== verification/VirtioBlockThms.v ===== *)
(** * VirtioBlockThms: the properties of virtio-blk

    Refinement of the ring service, data transfer, register invariants, and the
    behaviour on cyclic chains and malformed headers. *)

From S2P Require Import Prelude Bytes GuestMem Virtq VirtqSpec World Fixtures VirtioBlock DiskImage VirtioBlockSpec.

(** ** Draining a ring of servable requests *)
Section drain_ring.
Context {F : Type} {HF : BlockFile F} {HL : BlockFileLaws F}.
Context (prot : Z → Prop) (d a u idx : Z).

Lemma drain_refines rs : ∀ fuel k b w raised i,
  rings kQueueSize prot d a u (w_ram w) →
  pending prot d a u (w_ram w) (last_avail (queue b)) rs →
  avail_idx (w_ram w) a = Ok idx →
  used_idx (w_ram w) u = Ok i → 0 ≤ i < 0x10000 →
  0 ≤ idx < 0x10000 → 0 ≤ last_avail (queue b) < 0x10000 →
  Z.of_nat (length rs) = u16 (idx - last_avail (queue b)) →
  Forall (λ r, length (rq_segs r) ≤ k)%nat rs → (length rs ≤ fuel)%nat →
  ∃ b' w', serve_all u rs (b, w) = Ok (b', w') ∧
    drain rq_last (rq_idx a) (serve_one k d a u) fuel (b, w, raised) =
      Ok (b', w', raised || negb (bool_decide (rs = []))) ∧
    last_avail (queue b') = idx ∧
    used_idx (w_ram w') u = Ok (u16 (i + Z.of_nat (length rs))).
Proof.
  induction rs as [|r rs IH]; intros fuel k b w raised i Hr Hp Hai Hui Hi Hidx Hl Hlen Hk Hf.
  - assert (last_avail (queue b) = idx) as He by (cbn in Hlen; zlia).
    exists b, w. split_and!; [done | | done | rewrite Hui; f_equal; cbn; zlia].
    rewrite (drain_done _ _ _ _ _ idx) by done. by rewrite orb_false_r.
  - inversion Hp as [|? ? ? Hav Hv Hp']; subst.
    apply Forall_cons in Hk as [Hk1 Hk2].
    destruct (serve_req_ok prot d a u r b w i Hr Hv Hui) as (b1 & w1 & E1 & S1 & U1 & Q1).
    assert (last_avail (queue b1) = u16 (last_avail (queue b) + 1)) as Hl1 by (by rewrite Q1).
    destruct (IH (pred fuel) k b1 w1 true (u16 (i + 1))) as (b2 & w2 & E2 & D2 & L2 & U2).
    + by eapply rings_stable.
    + rewrite Hl1. by eapply pending_stable.
    + by rewrite (avail_idx_stable kQueueSize prot d a u (w_ram w)).
    + done.
    + apply u16_range.
    + done.
    + rewrite Hl1. apply u16_range.
    + rewrite Hl1. cbn [length] in Hlen. zlia.
    + done.
    + cbn [length] in Hf. lia.
    + exists b2, w2. split_and!; [| |done|].
      * cbn [serve_all]. by rewrite E1, bind_Ok.
      * destruct fuel as [|fuel]; [cbn in Hf; lia|].
        rewrite (drain_step _ _ _ _ _ idx); [|done|].
        2: { unfold rq_last. cbn [length fst] in *. intros Heq. rewrite Heq in Hlen. zlia. }
        rewrite (serve_one_refines prot) with (r := r) by done.
        rewrite E1. cbn [fmap res_fmap fst snd]. rewrite bind_Ok.
        cbn [Nat.pred] in D2. rewrite D2. by rewrite orb_true_r.
      * rewrite U2. f_equal. cbn [length]. zlia.
Qed.
End drain_ring.

(** ** Preservation of the state invariant *)
Section invariant.
Context {F : Type} {HF : BlockFile F} {HL : BlockFileLaws F}.

Record wf_block (b : Block F) : Prop := {
  wb_queue : wf_queue kQueueSize (queue b);
  wb_status : fits 32 (status b);
  wb_irq : fits 32 (irq_status b);
  wb_devsel : fits 32 (dev_feat_sel b);
  wb_drvsel : fits 32 (drv_feat_sel b);
  wb_features : fits 64 (features b);
}.

Lemma transfer_step ok type a l (x x' : Xfer F) :
  0 ≤ l → transfer ok type a l x = Ok x' → ram_step (x_ram x) (x_ram x').
Proof.
  intros Hl Ht. unfold transfer in Ht. repeat (case_match; inv_bind); try done; try reflexivity.
  apply store_Ok in Hm as [_ ->]. split; [apply same_map_pokes|].
  intros Hw. apply wf_pokes; [done|]. by eapply pread_length.
Qed.

Lemma data_loop_step fuel ok type d : ∀ c (x x' : Xfer F) e,
  wf_ram (x_ram x) → data_loop fuel ok type d c x = Ok (e, x') → ram_step (x_ram x) (x_ram x').
Proof.
  induction fuel as [|fuel IH]; intros c x x' e Hw H; cbn [data_loop] in H;
    apply bind_Ok_inv in H as (f & Hf & H);
    (destruct (has_flag f _); cbn [negb] in H; [|by simplify_eq]); [done|].
  inv_bind. assert (ram_step (x_ram x) (x_ram v1)) as S1.
  { eapply transfer_step; [|done]. apply load32_range in Hm0; [lia | done]. }
  etrans; [done|]. eapply IH; [|done]. by apply S1.
Qed.

Lemma get_id_step d c (x x' : Xfer F) e :
  get_id d c x = Ok (e, x') → ram_step (x_ram x) (x_ram x').
Proof.
  intros H. unfold get_id in H. inv_bind.
  assert (ram_step (x_ram x) (x_ram v0)) as S1.
  { clear H Hm1. repeat (case_match; inv_bind); simplify_eq; try reflexivity.
    apply store_Ok in Hm2 as [_ ->]. split; [apply same_map_pokes|].
    intros Hw. apply wf_pokes; [done|]. by apply wf_bytesb_ok. }
  case_match; inv_bind; by simplify_eq.
Qed.

Lemma put_status_step d c (x x' : Xfer F) :
  put_status d c x = Ok x' → ram_step (x_ram x) (x_ram x').
Proof.
  intros H. unfold put_status in H. inv_bind. case_match; inv_bind; simplify_eq; try reflexivity.
  by eapply store_enc_wf.
Qed.

Lemma serve_one_step fuel d a u s go s' :
  wf_block s.1.1 → wf_ram (w_ram s.1.2) → serve_one (F := F) fuel d a u s = Ok (go, s') →
  wf_block s'.1.1 ∧ ram_step (w_ram s.1.2) (w_ram s'.1.2).
Proof.
  destruct s as [[b w] raised]. cbn [fst snd]. intros Hb Hw H. unfold serve_one in H.
  inv_bind. case_match; [|by simplify_eq]. inv_bind.
  case_match; [by simplify_eq|]. inv_bind. case_match; [by simplify_eq|]. inv_bind.
  cbn [fst snd w_ram emit with_ram].
  assert (ram_step (w_ram w) (x_ram x)) as S1.
  { unfold serve_data in Hm6. apply bind_Ok_inv in Hm6 as ([c0 x0] & E & Hm6).
    injection Hm6 as -> -> _. repeat case_match.
    - by injection E as _ <-.
    - by apply get_id_step in E.
    - by apply data_loop_step in E. }
  split.
  - destruct Hb as [[]]. split; try done. split; try done. apply u16_range.
  - etrans; [exact S1|]. etrans; [by eapply put_status_step|]. by eapply push_used_wf.
Qed.
End invariant.

(** ** Unaffected fields *)
Section num.
Context {F : Type} {HF : BlockFile F}.

(** The device with another queue size written to QueueNum. *)
Definition with_num (n : Z) (b : Block F) : Block F := set_queue b (set_num (queue b) n).

Definition with_num_s (n : Z) (s : rq_state) : rq_state (F := F) :=
  (with_num n s.1.1, s.1.2, s.2).

Lemma serve_one_num n fuel d a u s :
  serve_one fuel d a u (with_num_s n s) =
    (λ p, (p.1, with_num_s n p.2)) <$> serve_one fuel d a u s.
Proof.
  destruct s as [[b w] raised]. unfold serve_one, with_num_s, with_num. cbn [fst snd].
  cbn [queue set_queue set_num last_avail b_file fd].
  destruct (avail_ring _ _ _) as [h|]; [|done]. rewrite !bind_Ok.
  destruct (desc_addr _ _ _) as [ad|]; [|done]. rewrite !bind_Ok.
  case_match; [|done].
  destruct (desc_len _ _ _) as [l|]; [|done]. rewrite !bind_Ok. case_match; [done|].
  destruct (desc_flags _ _ _) as [fl|]; [|done]. rewrite !bind_Ok. case_match; [done|].
  destruct (desc_next _ _ _) as [c|]; [|done]. rewrite !bind_Ok.
  destruct (load32 _ _) as [ty|]; [|done]. rewrite !bind_Ok.
  destruct (load64 _ _) as [sec|]; [|done]. rewrite !bind_Ok.
  change (serve_data fuel (set_queue b (set_num (queue b) n)) d c ty sec w)
    with (serve_data fuel b d c ty sec w).
  destruct (serve_data _ _ _ _ _ _ _) as [[[e x] es]|]; [|done]. rewrite !bind_Ok.
  destruct (put_status _ _ _) as [x'|]; [|done]. rewrite !bind_Ok.
  destruct (push_used _ _ _ _ _) as [m'|]; done.
Qed.
End num.

(** ** Ring service *)


(** C16. Data written by an OUT request is what an IN request of the same range
    reads back.  The OUT walk over a descriptor chain leaves the image with the
    chain's bytes at the request's offset; any later IN walk (in any RAM, over
    buffers of the same total size that do not overlap one another) delivers
    exactly those bytes, in order, with the status it was given. *)
Theorem block_write_then_read (fuel : nat) (prot : Z → Prop) (d c1 e1 c2 e2 off st1 st2 w1 w2 : Z)
    (m1 m2 : Ram) (f : bytes) (segs1 segs2 : list (Z * Z)) :
  covers prot d (16 * kQueueSize) →
  wf_ram m1 → chain m1 d c1 segs1 e1 → Forall (mapped m1) segs1 →
  wf_ram m2 → chain m2 d c2 segs2 e2 → Forall (mapped m2) segs2 → disjoint_segs m2 segs2 →
  Forall (seg_ok prot m1 VIRTIO_BLK_T_OUT) segs1 →
  Forall (seg_ok prot m2 VIRTIO_BLK_T_IN) segs2 →
  (length segs1 ≤ fuel)%nat → (length segs2 ≤ fuel)%nat →
  total segs1 = total segs2 → wf_bytes f →
  0 ≤ off → off + total segs1 < 2 ^ 63 → 0 ≤ w2 → w2 + total segs2 < 2 ^ 32 →
  ∃ f' m3,
    data_loop fuel true VIRTIO_BLK_T_OUT d c1 (mkXfer off st1 w1 m1 f) =
      Ok (e1, mkXfer (off + total segs1) st1 w1 m1 f') ∧
    data_loop fuel true VIRTIO_BLK_T_IN d c2 (mkXfer off st2 w2 m2 f') =
      Ok (e2, mkXfer (off + total segs2) st2 (w2 + total segs2) m3 f') ∧
    gather m3 segs2 = gather m1 segs1.
Proof.
  intros Hcov Hm1 Hc1 Hs1 Hm2 Hc2 Hs2 Hd2 Ho1 Ho2 Hf1 Hf2 Ht Hwf Hoff Hend Hw2 Hwe.
  set (f' := img_write f (Z.to_nat off) (gather m1 segs1)).
  pose proof (length_gather m1 segs1 Hs1) as Hlg.
  assert (wf_bytes (gather m1 segs1)) as Hwg.
  { clear -Hm1. induction segs1 as [|[a l] segs IH]; cbn; [constructor|].
    apply wf_bytes_app. split; [|done]. case_match; [by apply wf_peeks | constructor]. }
  assert (total segs2 = 0 ∨ off + total segs2 ≤ Z.of_nat (length f')) as Hlf.
  { destruct (decide (gather m1 segs1 = [])) as [Hg|Hg].
    - rewrite Hg in Hlg. pose proof (total_nonneg m1 segs1 Hs1). cbn in Hlg. lia.
    - unfold f'. rewrite length_img_write by done. rewrite Hlg. right. lia. }
  rewrite (data_loop_chain prot d Hcov true _ segs1 fuel c1 e1) by done.
  rewrite xfer_all_out by done. fold f'.
  destruct (xfer_all_in segs2 off st2 w2 m2 f') as (m3 & E & _ & G & _); try done; try lia.
  { by apply wf_img_write. }
  exists f', m3. split_and!; [done | |].
  - rewrite (data_loop_chain prot d Hcov true _ segs2 fuel c2 e2) by done. by rewrite E.
  - rewrite G, <- Ht, <- Hlg. apply img_read_write.
Qed.

(** ** The register file *)
Section registers.
Context {F : Type} {HF : BlockFile F} {HL : BlockFileLaws F}.

(** What no register write changes: the capacity and the descriptor. *)
Definition same_disk (b b' : Block F) : Prop := fd b' = fd b ∧ capacity b' = capacity b.

Lemma serve_one_same_disk fuel d a u s go s' :
  serve_one fuel d a u s = Ok (go, s') → same_disk s.1.1 s'.1.1.
Proof.
  destruct s as [[b w] raised]. intros H. unfold serve_one in H. inv_bind.
  repeat (case_match; inv_bind); by simplify_eq.
Qed.

Lemma process_rq_step fuel (b b' : Block F) w w' :
  wf_block b → wf_ram (w_ram w) → process_rq fuel b w = Ok (b', w') →
  (wf_block b' ∧ ram_step (w_ram w) (w_ram w')) ∧ same_disk b b'.
Proof.
  intros Hb Hw H. unfold process_rq in H.
  destruct (ring_ptrs _ _) as [[[d a] u]|]; [|by simplify_eq].
  apply bind_Ok_inv in H as ([[b1 w1] raised] & D & H).
  pose (P := λ s : rq_state, (wf_block s.1.1 ∧ wf_ram (w_ram s.1.2)) ∧
    ram_step (w_ram w) (w_ram s.1.2) ∧ same_disk b s.1.1).
  assert (∀ s go s', P s → serve_one fuel d a u s = Ok (go, s') → P s') as Hbody.
  { intros s go s' [[Hsb Hsw] [Hsr Hsd]] Hs.
    destruct (serve_one_step _ _ _ _ _ _ _ Hsb Hsw Hs) as [Hb' Hr'].
    pose proof (serve_one_same_disk _ _ _ _ _ _ _ Hs) as [Hf Hc]. destruct Hsd as [Hf0 Hc0].
    split; [split; [done | by apply Hr'] | split; [|split; congruence]].
    by etrans. }
  assert (P (b, w, false)) as HP by (split; [done | by split]).
  destruct (drain_Ok_inv _ _ _ P Hbody _ _ _ HP D) as [[Hb1 _] [Hr1 Hd1]].
  destruct raised; injection H as <- <-; [|done].
  split; [|done]. split; [|done]. destruct Hb1. split; try done.
  apply fits_lor; [done..|]. by unfold fits.
Qed.

Lemma wf_queue_min v : 0 ≤ v → 0 ≤ Z.min v kQueueSize ≤ kQueueSize.
Proof. unfold kQueueSize. lia. Qed.
End registers.

(** The register file keeps its invariant.  From a well-formed device and
    RAM, any 32-bit write to any register offset (a queue notification, with
    everything it makes the device do, included) that returns leaves a
    well-formed device: the queue size at most 256, ring addresses and features
    64-bit, [last_avail] 16-bit, the status, interrupt and selector registers
    32-bit.  Guest memory changes only inside the RAM mapping, and the disk's
    capacity and descriptor do not change. *)
Lemma block_write_invariant {F : Type} {HF : BlockFile F} {HL : BlockFileLaws F}
    (fuel : nat) (b b' : Block F) (w w' : World) (off val len : Z) :
  wf_block b → wf_ram (w_ram w) → fits 32 val →
  write fuel b w off val len = Ok (b', w') →
  (wf_block b' ∧ ram_step (w_ram w) (w_ram w')) ∧ same_disk b b'.
Proof.
  intros Hb Hw Hv H. unfold write in H. cbv zeta in H.
  repeat (case_match; [|]); try (by eapply process_rq_step);
    injection H as <- <-;
    (split; [split; [|by split]|done]);
    destruct Hb as [[? ? ? ? ?] ? ? ? ? ?]; repeat split; cbn; try done;
    try (apply wf_queue_min, Hv); try (by apply LO_range); try (by apply HI_range);
    try (by apply (fits_land 32)); try (by apply Z.min_le_iff; right);
    try apply Hv; try (unfold fits in *; lia).
Qed.

(** ** Malformed rings *)
Section malformed.
Context {F : Type} {HF : BlockFile F}.

(** A set of descriptors closed under [next], all with NEXT set, whose
    buffers are unmapped or inside RAM: a cyclic chain. *)
Definition cyclic (m : Ram) (d : Z) (P : Z → Prop) : Prop :=
  ∀ c, P c → ∃ f a l c',
    desc_flags m d c = Ok f ∧ has_flag f VRING_DESC_F_NEXT = true ∧
    desc_addr m d c = Ok a ∧ desc_len m d c = Ok l ∧ desc_next m d c = Ok c' ∧ P c' ∧
    (∀ p, gpa_to_hva m a = Some p → in_ram m p (Z.to_nat l) = true).

Lemma transfer_out_ram ok type a l (x : Xfer F) :
  type ≠ VIRTIO_BLK_T_IN →
  (∀ p, gpa_to_hva (x_ram x) a = Some p → in_ram (x_ram x) p (Z.to_nat l) = true) →
  ∃ x', transfer ok type a l x = Ok x' ∧ x_ram x' = x_ram x.
Proof.
  intros Ht Hin. unfold transfer. destruct (gpa_to_hva _ _) as [p|]; [|by eexists].
  case_match; [by eexists|]. rewrite (proj2 (Z.eqb_neq _ _) Ht).
  case_match; [|by eexists]. rewrite load_in, bind_Ok by auto.
  case_match; by eexists.
Qed.

Lemma data_loop_cyclic fuel ok type d m P : ∀ c (x : Xfer F),
  cyclic m d P → type ≠ VIRTIO_BLK_T_IN → x_ram x = m → P c →
  data_loop fuel ok type d c x = Err OutOfFuel.
Proof.
  intros c x Hcy Ht. revert c x.
  induction fuel as [|fuel IH]; intros c x Hx Hc;
    destruct (Hcy c Hc) as (f & a & l & c' & H1 & H2 & H3 & H4 & H5 & H6 & H7);
    cbn [data_loop]; rewrite Hx, H1, bind_Ok, H2; [done|]. cbn [negb].
  rewrite H3, bind_Ok, H4, bind_Ok.
  destruct (transfer_out_ram ok type a l x) as (x' & -> & Hx'); [done | by rewrite Hx|].
  rewrite bind_Ok, Hx', Hx, H5, bind_Ok. apply IH; [congruence | done].
Qed.
End malformed.


(** A malformed header wedges the queue.  When the next available head has
    a header outside RAM, shorter than 16 bytes, or without NEXT, [process_rq]
    leaves the device and the world exactly as they were: the request is neither
    completed nor skipped, no interrupt is raised, and the same head is found
    again on every later notification, so no request behind it is ever served. *)
Theorem bad_header_wedges {F : Type} {HF : BlockFile F} (fuel : nat) (b : Block F) (w : World)
    (d a u idx head ha hl hf : Z) :
  ring_ptrs (w_ram w) (queue b) = Some (d, a, u) →
  avail_idx (w_ram w) a = Ok idx → last_avail (queue b) ≠ idx →
  avail_ring (w_ram w) a (last_avail (queue b) mod kQueueSize) = Ok head →
  desc_addr (w_ram w) d head = Ok ha → desc_len (w_ram w) d head = Ok hl →
  desc_flags (w_ram w) d head = Ok hf →
  gpa_to_hva (w_ram w) ha = None ∨ hl < 16 ∨ has_flag hf VRING_DESC_F_NEXT = false →
  process_rq (S fuel) b w = Ok (b, w).
Proof.
  intros Hr Hai Hl Hav Ha Hlen Hf Hbad. unfold process_rq. rewrite Hr.
  rewrite (drain_step _ _ _ _ _ idx) by done.
  enough (serve_one (S fuel) d a u (b, w, false) = Ok (false, (b, w, false))) as -> by done.
  unfold serve_one. rewrite Hav, bind_Ok, Ha, bind_Ok.
  destruct (gpa_to_hva _ ha) as [hdr|]; [|done]. rewrite Hlen, bind_Ok.
  destruct (Z.ltb_spec hl 16); [done|]. rewrite Hf, bind_Ok.
  destruct Hbad as [Hb|[Hb|Hb]]; [done | lia | by rewrite Hb].
Qed.

(** The queue size the driver negotiates is ignored.  Whatever value was
    written to QueueNum, [process_rq] behaves the same: it indexes the available
    and used rings modulo the maximum size 256, never modulo [num].  A driver
    that configures a smaller ring is served from the wrong slots once its
    index passes the ring's size. *)
Theorem queue_num_ignored {F : Type} {HF : BlockFile F} (n : Z) (fuel : nat)
    (b : Block F) (w : World) :
  process_rq fuel (with_num n b) w = (λ bw, (with_num n bw.1, bw.2)) <$> process_rq fuel b w.
Proof.
  unfold process_rq. change (ring_ptrs (w_ram w) (queue (with_num n b)))
    with (ring_ptrs (w_ram w) (queue b)).
  destruct (ring_ptrs _ _) as [[[d a] u]|]; [|done].
  change (with_num n b, w, false) with (with_num_s n (b, w, false)).
  rewrite (drain_map rq_last (rq_idx a) (serve_one fuel d a u) (with_num_s n));
    [|done|done|apply serve_one_num].
  destruct (drain _ _ _ _ _) as [[[b' w'] []]|]; done.
Qed.

(** Programming a ring address through its two halves.  Writing the low and
    high register of the descriptor, available and used addresses, in this
    order, sets each address to [hi * 2^32 + lo] whatever it held before, and
    leaves the rest of the device alone. *)
Theorem ring_address_programming {F : Type} {HF : BlockFile F} (fuel : nat)
    (b : Block F) (w : World) (dlo dhi alo ahi ulo uhi len : Z) :
  wf_queue kQueueSize (queue b) →
  fits 32 dlo → fits 32 dhi → fits 32 alo → fits 32 ahi → fits 32 ulo → fits 32 uhi →
  ('(b1, w1) ← write fuel b w Reg.QueueDescLo dlo len;
   '(b2, w2) ← write fuel b1 w1 Reg.QueueDescHi dhi len;
   '(b3, w3) ← write fuel b2 w2 Reg.QueueAvailLo alo len;
   '(b4, w4) ← write fuel b3 w3 Reg.QueueAvailHi ahi len;
   '(b5, w5) ← write fuel b4 w4 Reg.QueueUsedLo ulo len;
   write fuel b5 w5 Reg.QueueUsedHi uhi len) =
  Ok (set_queue b
        (mkQueue (num (queue b)) (dhi * 2 ^ 32 + dlo) (ahi * 2 ^ 32 + alo) (uhi * 2 ^ 32 + ulo)
           (last_avail (queue b)) (ready (queue b))), w).
Proof.
  intros [Hn Hd Ha Hu Hl] H1 H2 H3 H4 H5 H6.
  unfold write. const_eqb. rewrite !bind_Ok.
  cbn [queue set_queue set_desc_gpa set_avail_gpa set_used_gpa desc_gpa avail_gpa used_gpa
    num last_avail ready].
  unfold fits in *. by rewrite !HI_LO by lia.
Qed.

(** ** Witnesses: an 8-byte OUT request in the fixture memory *)
Section witnesses.
(** Descriptors 0 (header), 1 (data), 2 (status); one published request. *)
Definition wx_ram (type : Z) : Ram :=
  fx_avail 1 [0]
    (fx_desc 0 (fx_base + fx_hdr) 16 1 1
       (fx_desc 1 (fx_base + fx_buf) 8 1 2
          (fx_desc 2 (fx_base + fx_st) 1 2 0
             (pokes (pokes fx_ram fx_hdr (le_enc 4 type ++ le_enc 4 0 ++ le_enc 8 0))
                fx_buf [11; 12; 13; 14; 15; 16; 17; 18])))).

Definition wx_queue : Queue := mkQueue 256 (fx_base + fx_d) (fx_base + fx_a) (fx_base + fx_u) 0 true.
Definition wx_block : Block bytes := set_queue (Block0 3 (replicate 512 0) (Some 512)) wx_queue.
Definition wx_world (type : Z) : World := mkWorld (wx_ram type) [].
Definition wx_req : Req := mkReq 0 1 0 [(fx_base + fx_buf, 8)] (fx_base + fx_st).
Definition wx_prot (x : Z) : Prop :=
  fx_d ≤ x < fx_d + 0x1000 ∨ fx_a ≤ x < fx_a + 0x300 ∨ fx_hdr ≤ x < fx_hdr + 16.

Lemma wf_wx_ram type : wf_ram (wx_ram type).
Proof.
  unfold wx_ram. apply wf_fx_avail, wf_fx_desc, wf_fx_desc, wf_fx_desc.
  apply wf_pokes; [apply wf_pokes; [apply wf_fx_ram|] | by apply wf_bytesb_ok].
  repeat apply wf_le_app. auto with vm.
Qed.

Lemma wx_rings type : rings kQueueSize wx_prot fx_d fx_a fx_u (wx_ram type).
Proof.
  split; try done; try apply wf_wx_ram; intros x Hx;
    unfold wx_prot, fx_d, fx_a, fx_u, fx_hdr, used_bytes, kQueueSize in *; lia.
Qed.

(** A range past the rings and the header is spared. *)
Lemma wx_spares p n : 0x4000 ≤ p → spares (prot_all kQueueSize wx_prot fx_u) p n.
Proof.
  intros Hp x Hx [H|H];
    unfold wx_prot, in_used, fx_d, fx_a, fx_u, fx_hdr, used_bytes, kQueueSize in H;
    lia.
Qed.

Lemma wx_servable : servable wx_prot fx_d fx_u (wx_ram 1) wx_req.
Proof.
  exists fx_hdr, 1, 2. split_and!.
  - split.
    + done.
    + exists (fx_base + fx_hdr). split; vm_compute; reflexivity.
    + exists 16. split; [by vm_compute | done].
    + exists 1. split; by vm_compute.
    + by vm_compute.
    + by vm_compute.
    + by vm_compute.
    + split; [|done].
      apply (chain_next _ _ 1 1 _ _ 2); [done | by vm_compute.. |].
      apply (chain_last _ _ 2 2); [done | by vm_compute..].
    + done.
    + by vm_compute.
  - intros x Hx. unfold wx_prot. lia.
  - apply Forall_singleton. split; [done|]. intros p Hp Hl.
    assert (gpa_to_hva (wx_ram 1) (fx_base + fx_buf) = Some fx_buf) as E by by vm_compute.
    cbn [fst] in Hp. rewrite E in Hp. injection Hp as <-.
    split; [by vm_compute|]. intros _. by apply wx_spares.
  - intros p Hp.
    assert (gpa_to_hva (wx_ram 1) (fx_base + fx_st) = Some fx_st) as E by by vm_compute.
    cbn [rq_status wx_req] in Hp. rewrite E in Hp. injection Hp as <-.
    split; [by vm_compute|]. by apply wx_spares.
Qed.


Definition wx_segs : list (Z * Z) := [(fx_base + fx_buf, 8)].

Lemma wx_chain : chain (wx_ram 1) fx_d 1 wx_segs 2.
Proof.
  apply (chain_next _ _ 1 1 _ _ 2); [done | by vm_compute.. |].
  apply (chain_last _ _ 2 2); [done | by vm_compute..].
Qed.

Lemma wx_mapped : Forall (mapped (wx_ram 1)) wx_segs.
Proof.
  apply Forall_singleton. split; [done|]. exists fx_buf. split; by vm_compute.
Qed.

Lemma wx_seg_ok type : Forall (seg_ok wx_prot (wx_ram 1) type) wx_segs.
Proof.
  apply Forall_singleton. split; [done|]. intros p Hp Hl.
  assert (gpa_to_hva (wx_ram 1) (fx_base + fx_buf) = Some fx_buf) as E by by vm_compute.
  cbn [fst] in Hp. rewrite E in Hp. injection Hp as <-.
  split; [by vm_compute|]. intros _ x Hx Hpr. apply (wx_spares fx_buf 8 ltac:(done) x Hx).
  by left.
Qed.

Lemma block_write_then_read_witness :
  ∃ f' m3,
    data_loop 4 true VIRTIO_BLK_T_OUT fx_d 1 (mkXfer 0 0 0 (wx_ram 1) (replicate 512 0)) =
      Ok (2, mkXfer (0 + total wx_segs) 0 0 (wx_ram 1) f') ∧
    data_loop 4 true VIRTIO_BLK_T_IN fx_d 1 (mkXfer 0 0 0 (wx_ram 1) f') =
      Ok (2, mkXfer (0 + total wx_segs) 0 (0 + total wx_segs) m3 f') ∧
    gather m3 wx_segs = gather (wx_ram 1) wx_segs.
Proof.
  apply (block_write_then_read 4 wx_prot fx_d 1 2 1 2 0 0 0 0 0 (wx_ram 1) (wx_ram 1)
           (replicate 512 0) wx_segs wx_segs);
    try apply wf_wx_ram; try apply wx_chain; try apply wx_mapped; try apply wx_seg_ok; try done.
  - apply (rg_table _ _ _ _ _ _ (wx_rings 1)).
  - cbn. lia.
  - cbn. lia.
  - by apply wf_bytesb_ok.
Defined.

Lemma wf_wx_block : wf_block wx_block.
Proof. by repeat split. Qed.

Lemma block_write_invariant_witness :
  (wf_block (set_status wx_block 15) ∧ ram_step (wx_ram 1) (wx_ram 1)) ∧
  same_disk wx_block (set_status wx_block 15).
Proof.
  apply (block_write_invariant 1 wx_block (set_status wx_block 15) (wx_world 1) (wx_world 1)
           Reg.Status 15 4).
  - apply wf_wx_block.
  - apply wf_wx_ram.
  - done.
  - reflexivity.
Defined.

(** Descriptor 1 names itself as its successor. *)
Definition wx_cyclic_world : World := mkWorld (fx_desc 1 (fx_base + fx_buf) 8 1 1 (wx_ram 1)) [].


(** One published request whose descriptor table is all zeros. *)
Definition wx_bad_world : World := mkWorld (fx_avail 1 [0] fx_ram) [].

Lemma bad_header_wedges_witness : process_rq 5 wx_block wx_bad_world = Ok (wx_block, wx_bad_world).
Proof.
  apply (bad_header_wedges 4 wx_block wx_bad_world fx_d fx_a fx_u 1 0 0 0 0);
    eval_eq.
  - done.
  - left. by vm_compute.
Defined.

Lemma ring_address_programming_witness :
  ('(b1, w1) ← write 1 wx_block (wx_world 1) Reg.QueueDescLo 0x50000000 4;
   '(b2, w2) ← write 1 b1 w1 Reg.QueueDescHi 1 4;
   '(b3, w3) ← write 1 b2 w2 Reg.QueueAvailLo 2 4;
   '(b4, w4) ← write 1 b3 w3 Reg.QueueAvailHi 3 4;
   '(b5, w5) ← write 1 b4 w4 Reg.QueueUsedLo 4 4;
   write 1 b5 w5 Reg.QueueUsedHi 5 4) =
  Ok (set_queue wx_block (mkQueue 256 (1 * 2 ^ 32 + 0x50000000) (3 * 2 ^ 32 + 2)
        (5 * 2 ^ 32 + 4) 0 true), wx_world 1).
Proof.
  apply (ring_address_programming 1 wx_block (wx_world 1) 0x50000000 1 2 3 4 5 4); try done.
Defined.
End witnesses.
