(* ===== verification/Hypervisor.v ===== *)
(** * Hypervisor: the register file Hypervisor.framework keeps for a vCPU

    The hypervisor is not part of the repository: the vCPU behind an
    [hv_vcpu_t] handle is a type with the accessors the code calls, and their
    documented behaviour is a law class.  [RegFile] is an instance, used by the
    witnesses. *)

From S2P Require Import Prelude.

(** [hv_get v r] is the value [hv_vcpu_get_reg] stores; [hv_vcpu_set_reg] and
    [hv_vcpu_set_sys_reg] return [None] when they do not return [HV_SUCCESS];
    [hv_vtimer_mask] is [hv_vcpu_set_vtimer_mask]. *)
Class Hv (V : Type) := {
  hv_get : V → Z → Z;
  hv_set_reg : V → Z → Z → option V;
  hv_set_sys_reg : V → Z → Z → option V;
  hv_vtimer_mask : V → bool → V;
  HV_REG_X0 : Z;
  HV_REG_PC : Z;
  HV_REG_CPSR : Z;
  HV_SYS_REG_SCTLR_EL1 : Z;
  HV_SYS_REG_CPACR_EL1 : Z;
  HV_SYS_REG_MPIDR_EL1 : Z;
}.

(** A call whose return code the code ignores. *)
Definition hv_set {V} `{Hv V} (v : V) (r x : Z) : V := default v (hv_set_reg v r x).

(** Setting a register that holds 64-bit words succeeds and sets it alone; the
    general registers X0..X30, PC and CPSR are different registers. *)
Class HvLaws (V : Type) `{Hv V} := {
  hv_get_range : ∀ (v : V) r, fits 64 (hv_get v r);
  hv_set_ok : ∀ (v : V) r x, is_Some (hv_set_reg v r x);
  hv_sys_ok : ∀ (v : V) r x, is_Some (hv_set_sys_reg v r x);
  hv_get_set_eq : ∀ (v v' : V) r x,
    fits 64 x → hv_set_reg v r x = Some v' → hv_get v' r = x;
  hv_get_set_ne : ∀ (v v' : V) r r' x,
    r ≠ r' → hv_set_reg v r x = Some v' → hv_get v' r' = hv_get v r';
  hv_get_sys : ∀ (v v' : V) r r' x, hv_set_sys_reg v r x = Some v' → hv_get v' r' = hv_get v r';
  hv_get_mask : ∀ (v : V) b r, hv_get (hv_vtimer_mask v b) r = hv_get v r;
  hv_pc_not_x : ∀ n, 0 ≤ n < 31 → HV_REG_PC ≠ HV_REG_X0 + n;
  hv_cpsr_not_x : ∀ n, 0 ≤ n < 31 → HV_REG_CPSR ≠ HV_REG_X0 + n;
  hv_cpsr_not_pc : HV_REG_CPSR ≠ HV_REG_PC;
}.

Section regs.
Context {V : Type} {HV : Hv V} {HL : HvLaws V}.

Lemma hv_set_eq (v : V) r x : fits 64 x → hv_get (hv_set v r x) r = x.
Proof.
  intros Hx. unfold hv_set. destruct (hv_set_ok v r x) as [v' E]. rewrite E.
  by eapply hv_get_set_eq.
Qed.

Lemma hv_set_ne (v : V) r r' x : r ≠ r' → hv_get (hv_set v r x) r' = hv_get v r'.
Proof.
  intros Hr. unfold hv_set. destruct (hv_set_ok v r x) as [v' E]. rewrite E.
  by eapply hv_get_set_ne.
Qed.
End regs.

(** ** A concrete register file

    The numbering of [hv_reg_t] in Hypervisor.framework: X0..X30, then PC,
    FPCR, FPSR, CPSR. *)
Record RegFile := mkRegFile {
  rf_regs : gmap Z Z;
  rf_sys : gmap Z Z;
  rf_masked : bool;
}.

#[export] Instance RegFile_hv : Hv RegFile := {
  hv_get v r := u64 (default 0 (rf_regs v !! r));
  hv_set_reg v r x := Some (mkRegFile (<[r := x]> (rf_regs v)) (rf_sys v) (rf_masked v));
  hv_set_sys_reg v r x := Some (mkRegFile (rf_regs v) (<[r := x]> (rf_sys v)) (rf_masked v));
  hv_vtimer_mask v b := mkRegFile (rf_regs v) (rf_sys v) b;
  HV_REG_X0 := 0;
  HV_REG_PC := 31;
  HV_REG_CPSR := 34;
  HV_SYS_REG_SCTLR_EL1 := 0xc080;
  HV_SYS_REG_CPACR_EL1 := 0xc082;
  HV_SYS_REG_MPIDR_EL1 := 0xc005;
}.

#[export] Instance RegFile_laws : HvLaws RegFile.
Proof.
  split; cbn; try lia; try (intros; by eexists).
  - intros. apply u64_range.
  - intros v v' r x Hx [= <-]. cbn. rewrite lookup_insert_eq. by apply u64_id.
  - intros v v' r r' x Hr [= <-]. cbn. by rewrite lookup_insert_ne.
  - by intros v v' r r' x [= <-].
Qed.
