(* ===== verification/VmContext.v ===== *)
(** * VmContext: the central guest state

    Models [VMContext] (src/src/hvf/vm_context.hpp and vm_context.cpp): the
    running flag, the vCPUs' boot mailboxes, the PL011 soft state, the
    devices, and the world they act on.  The types of the devices are
    parameters; the exit handler reaches them through [MmioDevice]. *)

From S2P Require Import Prelude Bytes GuestMem World.

(** ** Guest physical address map *)
Definition kGpaUart0 : Z := 0x09000000.
Definition kGpaUart0Size : Z := 0x00001000.
Definition kGpaRtcBase : Z := 0x09010000.
Definition kGpaRtcSize : Z := 0x00001000.
Definition kGpaVirtioBase : Z := 0x0A000000.
Definition kGpaVirtioStride : Z := 0x00000200.
Definition kGpaVirtioConsole : Z := kGpaVirtioBase + 0 * kGpaVirtioStride.
Definition kGpaVirtioBlock : Z := kGpaVirtioBase + 1 * kGpaVirtioStride.
Definition kGpaVirtioNet : Z := kGpaVirtioBase + 2 * kGpaVirtioStride.
Definition kGpaVirtioGpu : Z := kGpaVirtioBase + 3 * kGpaVirtioStride.
Definition kGpaVirtioKeyboard : Z := kGpaVirtioBase + 4 * kGpaVirtioStride.
Definition kGpaVirtioTablet : Z := kGpaVirtioBase + 5 * kGpaVirtioStride.
Definition kVcpuMax : Z := 8.
Definition kPstateEl1h : Z := 0x3C5.

(** ** PL011 soft state *)
Record Pl011State := mkPl011 {
  cr : Z;
  lcr : Z;
  imsc : Z;
  pl_tx_fd : Z;
}.
Definition Pl011State0 : Pl011State := mkPl011 0x300 0 0 (-1).

(** ** The part of a [VCpu] other threads write: the CPU_ON handshake *)
Record Mailbox := mkMailbox {
  boot_pc : Z;
  boot_x0 : Z;
  boot_pending : bool;
}.
Definition Mailbox0 : Mailbox := mkMailbox 0 0 false.

Section Ctx.
Context {Con Blk Net Gpu Inp : Type}.

Record Ctx := mkCtx {
  running : bool;
  vcpu_count : Z;
  vcpus : list Mailbox;
  pl011 : Pl011State;
  world : World;
  console : option Con;
  block : option Blk;
  net : option Net;
  gpu : option Gpu;
  keyboard : option Inp;
  tablet : option Inp;
}.

(** The constructor, and [init_vcpus]: one vCPU per index. *)
Definition Ctx0 (n : Z) (w : World) : Ctx :=
  mkCtx false n [] Pl011State0 w None None None None None None.
Definition init_vcpus (c : Ctx) : Ctx :=
  mkCtx (running c) (vcpu_count c) (vcpus c ++ replicate (Z.to_nat (vcpu_count c)) Mailbox0)
    (pl011 c) (world c) (console c) (block c) (net c) (gpu c) (keyboard c) (tablet c).

Definition set_running (c : Ctx) (b : bool) : Ctx :=
  mkCtx b (vcpu_count c) (vcpus c) (pl011 c) (world c) (console c) (block c) (net c) (gpu c)
    (keyboard c) (tablet c).
Definition set_vcpus (c : Ctx) (l : list Mailbox) : Ctx :=
  mkCtx (running c) (vcpu_count c) l (pl011 c) (world c) (console c) (block c) (net c) (gpu c)
    (keyboard c) (tablet c).
Definition set_pl011 (c : Ctx) (p : Pl011State) : Ctx :=
  mkCtx (running c) (vcpu_count c) (vcpus c) p (world c) (console c) (block c) (net c) (gpu c)
    (keyboard c) (tablet c).
Definition set_world (c : Ctx) (w : World) : Ctx :=
  mkCtx (running c) (vcpu_count c) (vcpus c) (pl011 c) w (console c) (block c) (net c) (gpu c)
    (keyboard c) (tablet c).
Definition set_console (c : Ctx) (d : option Con) : Ctx :=
  mkCtx (running c) (vcpu_count c) (vcpus c) (pl011 c) (world c) d (block c) (net c) (gpu c)
    (keyboard c) (tablet c).
Definition set_block (c : Ctx) (d : option Blk) : Ctx :=
  mkCtx (running c) (vcpu_count c) (vcpus c) (pl011 c) (world c) (console c) d (net c) (gpu c)
    (keyboard c) (tablet c).
Definition set_net (c : Ctx) (d : option Net) : Ctx :=
  mkCtx (running c) (vcpu_count c) (vcpus c) (pl011 c) (world c) (console c) (block c) d (gpu c)
    (keyboard c) (tablet c).
Definition set_gpu (c : Ctx) (d : option Gpu) : Ctx :=
  mkCtx (running c) (vcpu_count c) (vcpus c) (pl011 c) (world c) (console c) (block c) (net c) d
    (keyboard c) (tablet c).
Definition set_keyboard (c : Ctx) (d : option Inp) : Ctx :=
  mkCtx (running c) (vcpu_count c) (vcpus c) (pl011 c) (world c) (console c) (block c) (net c)
    (gpu c) d (tablet c).
Definition set_tablet (c : Ctx) (d : option Inp) : Ctx :=
  mkCtx (running c) (vcpu_count c) (vcpus c) (pl011 c) (world c) (console c) (block c) (net c)
    (gpu c) (keyboard c) d.

(** [stop()]. *)
Definition stop (c : Ctx) : Ctx := set_running c false.

(** [vcpu(i)]: [vcpus_.at(i)] throws out of range. *)
Definition vcpu (c : Ctx) (i : Z) : res Mailbox :=
  match vcpus c !! Z.to_nat i with Some m => Ok m | None => Err Thrown end.
Definition set_vcpu (c : Ctx) (i : Z) (m : Mailbox) : Ctx :=
  set_vcpus c (<[Z.to_nat i := m]> (vcpus c)).

(** Every index below [vcpu_count] has its vCPU, as [init_vcpus] leaves it. *)
Definition wf_ctx (c : Ctx) : Prop :=
  0 ≤ vcpu_count c ∧ vcpu_count c ≤ Z.of_nat (length (vcpus c)).

Lemma wf_init_vcpus n w : 0 ≤ n → wf_ctx (init_vcpus (Ctx0 n w)).
Proof. intros. split; [done|]. cbn. len. Qed.

Lemma vcpu_Ok c i : wf_ctx c → 0 ≤ i < vcpu_count c → is_Ok (vcpu c i).
Proof.
  intros [_ Hc] Hi. unfold vcpu.
  destruct (lookup_lt_is_Some_2 (vcpus c) (Z.to_nat i)) as [m ->]; [lia | by eexists].
Qed.
End Ctx.
Arguments Ctx : clear implicits.
