(* ===== verification/Psci.v ===== *)
(** * Psci: the firmware calls of a guest CPU

    Models src/src/hvf/fw_psci.hpp and fw_psci.cpp: [psci_dispatch], called by
    the exit handler for HVC and SMC.  It returns whether the vCPU thread goes
    on. *)

From S2P Require Import Prelude Bytes GuestMem World Hypervisor VmContext.

Definition kPsciVersion : Z := 0x84000000.
Definition kPsciCpuSuspend : Z := 0xC4000001.
Definition kPsciCpuOff : Z := 0x84000002.
Definition kPsciCpuOn : Z := 0xC4000003.
Definition kPsciMigrateInfo : Z := 0x84000006.
Definition kPsciSystemOff : Z := 0x84000008.
Definition kPsciSystemReset : Z := 0x84000009.
Definition kPsciFeatures : Z := 0x8400000A.

Definition kPsciRetSuccess : Z := 0.
Definition kPsciRetNotSupported : Z := u64 (-1).
Definition kPsciRetInvalidParams : Z := u64 (-2).

Section Psci.
Context {V : Type} {HV : Hv V}.
Context {Con Blk Net Gpu Inp : Type}.
Abbreviation Ctx := (Ctx Con Blk Net Gpu Inp).

Definition xreg_id (n : Z) : Z := HV_REG_X0 + n.

Definition get_xreg (v : V) (n : Z) : Z := if n =? 31 then 0 else hv_get v (xreg_id n).

Definition set_xreg (v : V) (n val : Z) : V := if n =? 31 then v else hv_set v (xreg_id n) val.

(** The function identifiers [PSCI_FEATURES] answers for. *)
Definition psci_known (queried : Z) : bool :=
  (queried =? kPsciVersion) || (queried =? kPsciCpuOn) || (queried =? kPsciCpuOff) ||
  (queried =? kPsciCpuSuspend) || (queried =? kPsciSystemOff) ||
  (queried =? kPsciSystemReset) || (queried =? kPsciMigrateInfo) || (queried =? kPsciFeatures).

Definition psci_dispatch (v : V) (ctx : Ctx) : res (bool * V * Ctx) :=
  let fn := u32 (get_xreg v 0) in
  if fn =? kPsciVersion then Ok (true, set_xreg v 0 0x00010000, ctx)
  else if fn =? kPsciCpuOn then
    let target := u32 (Z.land (get_xreg v 1) 0xFF) in
    let entry := get_xreg v 2 in
    let ctx_id := get_xreg v 3 in
    if vcpu_count ctx <=? target then Ok (true, set_xreg v 0 kPsciRetInvalidParams, ctx)
    else
      _ ← vcpu ctx target;
      Ok (true, set_xreg v 0 kPsciRetSuccess, set_vcpu ctx target (mkMailbox entry ctx_id true))
  else if fn =? kPsciCpuOff then Ok (false, v, ctx)
  else if (fn =? kPsciSystemOff) || (fn =? kPsciSystemReset) then Ok (false, v, stop ctx)
  else if fn =? kPsciMigrateInfo then Ok (true, set_xreg v 0 2, ctx)
  else if fn =? kPsciCpuSuspend then Ok (true, set_xreg v 0 kPsciRetSuccess, ctx)
  else if fn =? kPsciFeatures then
    let queried := u32 (get_xreg v 1) in
    Ok (true, set_xreg v 0 (if psci_known queried then kPsciRetSuccess else kPsciRetNotSupported),
        ctx)
  else Ok (true, set_xreg v 0 kPsciRetNotSupported, ctx).
End Psci.

Section props.
Context {V : Type} {HV : Hv V} {HL : HvLaws V}.
Context {Con Blk Net Gpu Inp : Type}.

Lemma get_set_xreg (v : V) x : fits 64 x → get_xreg (set_xreg v 0 x) 0 = x.
Proof. intros Hx. unfold get_xreg, set_xreg. cbn. by apply hv_set_eq. Qed.

Lemma set_xreg_other (v : V) x r : r ≠ HV_REG_X0 → hv_get (set_xreg v 0 x) r = hv_get v r.
Proof. intros Hr. unfold set_xreg, xreg_id. cbn. apply hv_set_ne. lia. Qed.

Lemma fits_minus n : -2 ^ 64 < n → fits 64 (u64 n).
Proof. intros _. apply u64_range. Qed.
End props.

(** ** Properties *)

(** CPU_ON hands the entry point and context to the target's mailbox and to
    no other vCPU.  For a target below the vCPU count the call reports SUCCESS
    in X0, leaves [(X2, X3)] pending for that vCPU, and touches neither the
    other vCPUs nor the rest of the guest state; any other target is answered
    INVALID_PARAMETERS and nothing changes.  The lookup never throws. *)
Theorem psci_cpu_on {V : Type} {HV : Hv V} {HL : HvLaws V} {Con Blk Net Gpu Inp : Type}
    (v : V) (c : Ctx Con Blk Net Gpu Inp) :
  wf_ctx c → u32 (get_xreg v 0) = kPsciCpuOn →
  let target := Z.land (get_xreg v 1) 0xFF in
  ∃ v' c', psci_dispatch v c = Ok (true, v', c') ∧ wf_ctx c' ∧
    (∀ r, r ≠ HV_REG_X0 → hv_get v' r = hv_get v r) ∧
    if vcpu_count c <=? target
    then c' = c ∧ get_xreg v' 0 = kPsciRetInvalidParams
    else get_xreg v' 0 = kPsciRetSuccess ∧
      vcpu c' target = Ok (mkMailbox (get_xreg v 2) (get_xreg v 3) true) ∧
      (∀ i, 0 ≤ i → i ≠ target → vcpu c' i = vcpu c i) ∧
      set_vcpus c' (vcpus c) = c.
Proof.
  intros Hc Hfn target. unfold psci_dispatch. rewrite Hfn. const_eqb.
  assert (0 ≤ target < 256) as Ht.
  { unfold target. change 0xFF with (Z.ones 8). rewrite Z.land_ones by lia.
    apply Z.mod_pos_bound. lia. }
  assert (u32 (Z.land (get_xreg v 1) 0xFF) = target) as -> by (apply u32_id; lia).
  destruct (Z.leb_spec (vcpu_count c) target) as [Hle|Hlt].
  - do 2 eexists. split; [done|]. split; [done|].
    split; [intros; by apply set_xreg_other|]. split; [done|].
    by apply get_set_xreg, fits_minus.
  - destruct (vcpu_Ok c target Hc) as [mb Hmb]; [lia|]. rewrite Hmb, bind_Ok.
    do 2 eexists. split; [done|]. unfold vcpu in *.
    destruct (vcpus c !! Z.to_nat target) as [mb'|] eqn:Hl; [|done].
    apply lookup_lt_Some in Hl as Hlen. split_and!.
    + destruct Hc. split; [done|]. cbn. by rewrite length_insert.
    + intros. by apply set_xreg_other.
    + apply get_set_xreg. done.
    + cbn. by rewrite list_lookup_insert_eq.
    + intros i Hi Hne. cbn. rewrite list_lookup_insert_ne; [done|]. lia.
    + by destruct c.
Qed.

(** PSCI_FEATURES tells the truth: it answers SUCCESS exactly for the
    function identifiers the dispatcher implements, that is, for those whose
    call is not answered by the NOT_SUPPORTED default, which changes X0 only. *)
Theorem psci_features_sound {V : Type} {HV : Hv V} {HL : HvLaws V} {Con Blk Net Gpu Inp : Type}
    (v w : V) (c : Ctx Con Blk Net Gpu Inp) :
  u32 (get_xreg v 0) = kPsciFeatures → u32 (get_xreg v 1) = u32 (get_xreg w 0) →
  ∃ v', psci_dispatch v c = Ok (true, v', c) ∧
    (get_xreg v' 0 = kPsciRetNotSupported ∧
       psci_dispatch w c = Ok (true, set_xreg w 0 kPsciRetNotSupported, c) ∧
       psci_known (u32 (get_xreg w 0)) = false ∨
     get_xreg v' 0 = kPsciRetSuccess ∧ psci_known (u32 (get_xreg w 0)) = true).
Proof.
  intros Hfn Hq. unfold psci_dispatch at 1. rewrite Hfn. const_eqb. rewrite Hq.
  eexists. split; [done|].
  destruct (psci_known (u32 (get_xreg w 0))) eqn:Hk.
  - right. split; [|done]. by apply get_set_xreg.
  - left. split; [by apply get_set_xreg, fits_minus|]. split; [|done].
    unfold psci_known in Hk. unfold psci_dispatch. cbv zeta.
    repeat match goal with |- context [?a =? ?b] =>
      destruct (a =? b) eqn:?; cbn [orb] in *; [rewrite ?orb_true_r in Hk; discriminate Hk|] end.
    done.
Qed.
