(* ===== verification/ExitHandler.v ===== *)
(** * ExitHandler: what a vCPU does when the guest traps

    Models src/src/hvf/exit_handler.cpp: the dispatch on the exit reason and
    exception class, the PL011 UART, the PL031 clock, the routing of MMIO to
    the virtio devices, and the GIC fallback.  The devices are reached through
    [MmioDevice]; log messages are not modelled. *)

From S2P Require Import Prelude Bytes GuestMem World Hypervisor VmContext Psci.

Definition kEcWfiWfe : Z := 0x01.
Definition kEcMsrMrs : Z := 0x18.
Definition kEcHvcA64 : Z := 0x16.
Definition kEcSmcA64 : Z := 0x17.
Definition kEcIabtLower : Z := 0x20.
Definition kEcDabtLower : Z := 0x24.
Definition kPl011Dr : Z := 0x000.
Definition kPl011Fr : Z := 0x018.
Definition kPl011Lcr : Z := 0x02C.
Definition kPl011Cr : Z := 0x030.
Definition kPl011Imsc : Z := 0x038.
Definition kPl011Mis : Z := 0x040.
Definition kPl011Icr : Z := 0x044.
Definition kGicPidr2Offset : Z := 0xFFE8.
Definition kGicPidr2GICv3 : Z := 0x3B.

Inductive Reason : Type :=
  | HV_EXIT_REASON_CANCELED
  | HV_EXIT_REASON_EXCEPTION
  | HV_EXIT_REASON_VTIMER_ACTIVATED
  | HV_EXIT_REASON_OTHER (code : Z).

(** [hv_vcpu_exit_t], with the value [::time(nullptr)] has at this exit. *)
Record Exit := mkExit {
  reason : Reason;
  syndrome : Z;
  physical_address : Z;
  now : Z;
}.

(** The fields of the syndrome of a data abort. *)
Definition esr_wnr (esr : Z) : bool := Z.testbit esr 6.
Definition esr_srt (esr : Z) : Z := Z.land (Z.shiftr esr 16) 0x1F.
Definition esr_sas (esr : Z) : Z := Z.land (Z.shiftr esr 22) 0x3.
Definition esr_len (esr : Z) : Z := Z.shiftl 1 (esr_sas esr).
Definition esr_ec (esr : Z) : Z := Z.land (Z.shiftr esr 26) 0x3F.

(** [ipa >= base && ipa < base + size]. *)
Definition within (ipa base size : Z) : bool := (base <=? ipa) && (ipa <? base + size).

(** ** PL011 and PL031 registers *)
Definition pl011_read (p : Pl011State) (off : Z) : Z :=
  if off =? kPl011Dr then 0
  else if off =? kPl011Fr then 0x90
  else if off =? kPl011Cr then cr p
  else if off =? kPl011Lcr then lcr p
  else if off =? kPl011Imsc then imsc p
  else if off =? kPl011Mis then 0
  else if off =? 0xFE0 then 0x11
  else if off =? 0xFE4 then 0x10
  else if off =? 0xFE8 then 0x14
  else if off =? 0xFEC then 0x00
  else if off =? 0xFF0 then 0x0D
  else if off =? 0xFF4 then 0xF0
  else if off =? 0xFF8 then 0x05
  else if off =? 0xFFC then 0xB1
  else 0.

(** The character goes to the serial pipe when it is wired up, else to the
    logger. *)
Definition pl011_write (p : Pl011State) (w : World) (off v : Z) : Pl011State * World :=
  if off =? kPl011Dr then
    let c := [Z.land v 0xFF] in
    (p, emit w [if 0 <=? pl_tx_fd p then FdWrite (pl_tx_fd p) c else LoggerWrite c])
  else if off =? kPl011Cr then (mkPl011 (u32 v) (lcr p) (imsc p) (pl_tx_fd p), w)
  else if off =? kPl011Lcr then (mkPl011 (cr p) (u32 v) (imsc p) (pl_tx_fd p), w)
  else if off =? kPl011Imsc then (mkPl011 (cr p) (lcr p) (u32 v) (pl_tx_fd p), w)
  else (p, w).

Definition rtc_read (now off : Z) : Z :=
  if off =? 0x000 then u32 now
  else if off =? 0xFE0 then 0x31
  else if off =? 0xFE4 then 0x10
  else if off =? 0xFE8 then 0x04
  else if off =? 0xFEC then 0x00
  else if off =? 0xFF0 then 0x0D
  else if off =? 0xFF4 then 0xF0
  else if off =? 0xFF8 then 0x05
  else if off =? 0xFFC then 0xB1
  else 0.

Definition kGpaGicRedistSize : Z := kVcpuMax * kGpaGicRedistStride.

Definition gic_read (ipa : Z) : Z :=
  if within ipa kGpaGicRedist kGpaGicRedistSize then
    if Z.land (u32 (ipa - kGpaGicRedist)) 0xFFFF =? kGicPidr2Offset then kGicPidr2GICv3 else 0
  else 0.

Section Handler.
Context {V : Type} {HV : Hv V}.
Context {Con Blk Net Gpu Inp : Type}.
Context {HCon : MmioDevice Con} {HBlk : MmioDevice Blk} {HNet : MmioDevice Net}
  {HGpu : MmioDevice Gpu} {HInp : MmioDevice Inp}.
Abbreviation Ctx := (Ctx Con Blk Net Gpu Inp).

Definition advance_pc (v : V) : V := hv_set v HV_REG_PC (u64 (hv_get v HV_REG_PC + 4)).

(** Reads reach the register through [xreg_id] without a test for 31. *)
Definition put_reg (v : V) (srt x : Z) : V := hv_set v (xreg_id srt) x.

Definition handle_msr_mrs (v : V) (esr : Z) : V :=
  let iss := Z.land (u32 esr) 0x1FFFFFF in
  let is_read := Z.testbit iss 4 in
  let rt := Z.land iss 0xF in
  advance_pc (if is_read && (rt <? 31) then put_reg v rt 0 else v).

(** One virtio-mmio slot: the access reaches the device if there is one. *)
Definition slot {D : Type} {HD : MmioDevice D} (fuel : nat) (dev : option D) (w : World)
    (v : V) (base esr ipa : Z) : res (option D * World * V) :=
  let off := u32 (ipa - base) in
  let len := esr_len esr in
  let srt := esr_srt esr in
  match dev with
  | Some d =>
      if esr_wnr esr then
        '(d', w') ← dev_write fuel d w off (u32 (get_xreg v srt)) len;
        Ok (Some d', w', v)
      else x ← dev_read d off len; Ok (dev, w, put_reg v srt x)
  | None => Ok (dev, w, if esr_wnr esr then v else put_reg v srt 0)
  end.

(** The body of [handle_mmio] before its final [advance_pc]. *)
Definition mmio_access (fuel : nat) (v : V) (c : Ctx) (ex : Exit) : res (V * Ctx) :=
  let ipa := physical_address ex in
  let esr := syndrome ex in
  let srt := esr_srt esr in
  if within ipa kGpaUart0 kGpaUart0Size then
    let off := u32 (ipa - kGpaUart0) in
    if esr_wnr esr then
      let '(p, w) := pl011_write (pl011 c) (world c) off (get_xreg v srt) in
      Ok (v, set_world (set_pl011 c p) w)
    else Ok (put_reg v srt (pl011_read (pl011 c) off), c)
  else if within ipa kGpaRtcBase kGpaRtcSize then
    Ok (if esr_wnr esr then v else put_reg v srt (rtc_read (now ex) (u32 (ipa - kGpaRtcBase))), c)
  else if within ipa kGpaVirtioConsole kGpaVirtioStride then
    '(d, w, v') ← slot fuel (console c) (world c) v kGpaVirtioConsole esr ipa;
    Ok (v', set_world (set_console c d) w)
  else if within ipa kGpaVirtioBlock kGpaVirtioStride then
    '(d, w, v') ← slot fuel (block c) (world c) v kGpaVirtioBlock esr ipa;
    Ok (v', set_world (set_block c d) w)
  else if within ipa kGpaVirtioNet kGpaVirtioStride then
    '(d, w, v') ← slot fuel (net c) (world c) v kGpaVirtioNet esr ipa;
    Ok (v', set_world (set_net c d) w)
  else if within ipa kGpaVirtioGpu kGpaVirtioStride then
    '(d, w, v') ← slot fuel (gpu c) (world c) v kGpaVirtioGpu esr ipa;
    Ok (v', set_world (set_gpu c d) w)
  else if within ipa kGpaVirtioKeyboard kGpaVirtioStride then
    '(d, w, v') ← slot fuel (keyboard c) (world c) v kGpaVirtioKeyboard esr ipa;
    Ok (v', set_world (set_keyboard c d) w)
  else if within ipa kGpaVirtioTablet kGpaVirtioStride then
    '(d, w, v') ← slot fuel (tablet c) (world c) v kGpaVirtioTablet esr ipa;
    Ok (v', set_world (set_tablet c d) w)
  else if within ipa kGpaGicDist kGpaGicDistSize || within ipa kGpaGicRedist kGpaGicRedistSize then
    Ok (if esr_wnr esr then v else put_reg v srt (gic_read ipa), c)
  else Ok (v, c).

Definition handle_mmio (fuel : nat) (v : V) (c : Ctx) (ex : Exit) : res (bool * V * Ctx) :=
  '(v', c') ← mmio_access fuel v c ex;
  Ok (true, advance_pc v', c').

(** [ExitHandler::handle]; the result tells whether the vCPU keeps running. *)
Definition handle (fuel : nat) (v : V) (c : Ctx) (ex : Exit) : res (bool * V * Ctx) :=
  match reason ex with
  | HV_EXIT_REASON_CANCELED => Ok (true, v, c)
  | HV_EXIT_REASON_VTIMER_ACTIVATED => Ok (true, hv_vtimer_mask v false, c)
  | HV_EXIT_REASON_EXCEPTION =>
      let ec := esr_ec (syndrome ex) in
      if ec =? kEcWfiWfe then Ok (true, advance_pc v, c)
      else if ec =? kEcMsrMrs then Ok (true, handle_msr_mrs v (syndrome ex), c)
      else if (ec =? kEcHvcA64) || (ec =? kEcSmcA64) then psci_dispatch v c
      else if (ec =? kEcIabtLower) || (ec =? kEcDabtLower) then handle_mmio fuel v c ex
      else Ok (true, advance_pc v, c)
  | HV_EXIT_REASON_OTHER _ => Ok (false, v, c)
  end.

End Handler.

(** ** The memory map as a table *)
Inductive Target : Type :=
  | TUart | TRtc | TConsole | TBlock | TNet | TGpu | TKeyboard | TTablet | TGicDist | TGicRedist.

Definition memory_map : list (Target * Z * Z) :=
  [(TUart, kGpaUart0, kGpaUart0Size); (TRtc, kGpaRtcBase, kGpaRtcSize);
   (TConsole, kGpaVirtioConsole, kGpaVirtioStride); (TBlock, kGpaVirtioBlock, kGpaVirtioStride);
   (TNet, kGpaVirtioNet, kGpaVirtioStride); (TGpu, kGpaVirtioGpu, kGpaVirtioStride);
   (TKeyboard, kGpaVirtioKeyboard, kGpaVirtioStride);
   (TTablet, kGpaVirtioTablet, kGpaVirtioStride);
   (TGicDist, kGpaGicDist, kGpaGicDistSize); (TGicRedist, kGpaGicRedist, kGpaGicRedistSize)].

Section Spec.
Context {V : Type} {HV : Hv V}.
Context {Con Blk Net Gpu Inp : Type}.
Context {HCon : MmioDevice Con} {HBlk : MmioDevice Blk} {HNet : MmioDevice Net}
  {HGpu : MmioDevice Gpu} {HInp : MmioDevice Inp}.

(** What an access at offset [off] of one target does, on its own. *)
Definition target_access (t : Target) (fuel : nat) (v : V) (c : Ctx Con Blk Net Gpu Inp)
    (esr now base off : Z) : res (V * Ctx Con Blk Net Gpu Inp) :=
  let srt := esr_srt esr in
  let rd x := if esr_wnr esr then v else put_reg v srt x in
  match t with
  | TUart =>
      if esr_wnr esr then
        let '(p, w) := pl011_write (pl011 c) (world c) off (get_xreg v srt) in
        Ok (v, set_world (set_pl011 c p) w)
      else Ok (put_reg v srt (pl011_read (pl011 c) off), c)
  | TRtc => Ok (rd (rtc_read now off), c)
  | TConsole => '(d, w, v') ← slot fuel (console c) (world c) v base esr (base + off);
                Ok (v', set_world (set_console c d) w)
  | TBlock => '(d, w, v') ← slot fuel (block c) (world c) v base esr (base + off);
              Ok (v', set_world (set_block c d) w)
  | TNet => '(d, w, v') ← slot fuel (net c) (world c) v base esr (base + off);
            Ok (v', set_world (set_net c d) w)
  | TGpu => '(d, w, v') ← slot fuel (gpu c) (world c) v base esr (base + off);
            Ok (v', set_world (set_gpu c d) w)
  | TKeyboard => '(d, w, v') ← slot fuel (keyboard c) (world c) v base esr (base + off);
                 Ok (v', set_world (set_keyboard c d) w)
  | TTablet => '(d, w, v') ← slot fuel (tablet c) (world c) v base esr (base + off);
               Ok (v', set_world (set_tablet c d) w)
  | TGicDist => Ok (rd 0, c)
  | TGicRedist =>
      Ok (rd (if Z.land off 0xFFFF =? kGicPidr2Offset then kGicPidr2GICv3 else 0), c)
  end.

Lemma slot_regs {D : Type} {HD : MmioDevice D} fuel (dev : option D) w (v : V) base esr ipa d' w' v' :
  slot fuel dev w v base esr ipa = Ok (d', w', v') →
  v' = v ∨ (esr_wnr esr = false ∧ ∃ x, v' = put_reg v (esr_srt esr) x).
Proof.
  unfold slot. destruct dev as [d|]; destruct (esr_wnr esr) eqn:Hw; intros H; inv_bind; eauto.
Qed.

(** An access changes at most the register a read targets. *)
Lemma mmio_access_regs fuel (v v' : V) (c c' : Ctx Con Blk Net Gpu Inp) ex :
  mmio_access fuel v c ex = Ok (v', c') →
  v' = v ∨ (esr_wnr (syndrome ex) = false ∧ ∃ x, v' = put_reg v (esr_srt (syndrome ex)) x).
Proof.
  unfold mmio_access. intros H. cbv zeta in H.
  repeat (case_match; [|]); inv_bind; simplify_eq; eauto;
    match goal with E : slot _ _ _ _ _ _ _ = _ |- _ => exact (slot_regs _ _ _ _ _ _ _ _ _ _ E) end.
Qed.
End Spec.

(** Only [stop] changes the running flag. *)
Section running.
Context {V : Type} {HV : Hv V}.
Context {Con Blk Net Gpu Inp : Type}.
Context {HCon : MmioDevice Con} {HBlk : MmioDevice Blk} {HNet : MmioDevice Net}
  {HGpu : MmioDevice Gpu} {HInp : MmioDevice Inp}.

Lemma mmio_access_running fuel (v v' : V) (c c' : Ctx Con Blk Net Gpu Inp) ex :
  mmio_access fuel v c ex = Ok (v', c') → running c' = running c.
Proof.
  unfold mmio_access. intros H. cbv zeta in H.
  repeat (case_match; [|]); inv_bind; by simplify_eq.
Qed.

Lemma psci_dispatch_stops (v v' : V) (c c' : Ctx Con Blk Net Gpu Inp) go :
  psci_dispatch v c = Ok (go, v', c') →
  let fn := u32 (get_xreg v 0) in
  (go = false ↔ fn = kPsciCpuOff ∨ fn = kPsciSystemOff ∨ fn = kPsciSystemReset) ∧
  running c' = (if (fn =? kPsciSystemOff) || (fn =? kPsciSystemReset) then false
                else running c).
Proof.
  intros H fn. unfold psci_dispatch in H. fold fn in H. cbv zeta in H.
  assert (∀ P : Prop, ¬ P → (true = false ↔ P)) as Hf by (intros P HP; split; done).
  destruct (Z.eqb_spec fn kPsciVersion) as [E|_]; [|
  destruct (Z.eqb_spec fn kPsciCpuOn) as [E|_]; [|
  destruct (Z.eqb_spec fn kPsciCpuOff) as [E|Hn0]; [|
  destruct (Z.eqb_spec fn kPsciSystemOff) as [E|Hn1]; [|
  destruct (Z.eqb_spec fn kPsciSystemReset) as [E|Hn2]; [|]]]]];
    cbn [orb] in H;
    repeat match type of H with (if ?b then _ else _) = _ => destruct b end; inv_bind;
    rewrite ?E; (split; [|done]); first [by split; auto
      | apply Hf; intros [?|[?|?]]; first [done | congruence]].
Qed.
End running.

(** The exit is a firmware call. *)
Definition psci_exit (ex : Exit) : bool :=
  match reason ex with
  | HV_EXIT_REASON_EXCEPTION =>
      (esr_ec (syndrome ex) =? kEcHvcA64) || (esr_ec (syndrome ex) =? kEcSmcA64)
  | _ => false
  end.

Section hv_lemmas.
Context {V : Type} {HV : Hv V} {HL : HvLaws V}.

Lemma advance_pc_pc (v : V) : hv_get (advance_pc v) HV_REG_PC = u64 (hv_get v HV_REG_PC + 4).
Proof. apply hv_set_eq, u64_range. Qed.

Lemma advance_pc_ne (v : V) r : r ≠ HV_REG_PC → hv_get (advance_pc v) r = hv_get v r.
Proof. intros. by apply hv_set_ne. Qed.

Lemma put_reg_pc (v : V) n x :
  0 ≤ n < 31 → hv_get (put_reg v n x) HV_REG_PC = hv_get v HV_REG_PC.
Proof. intros Hn. apply hv_set_ne. intros Heq. by apply (hv_pc_not_x n). Qed.

Lemma esr_srt_range esr : 0 ≤ esr_srt esr < 32.
Proof.
  unfold esr_srt. change 0x1F with (Z.ones 5). rewrite Z.land_ones by lia.
  apply Z.mod_pos_bound. lia.
Qed.
End hv_lemmas.

(** Evaluate the constants of the memory map. *)
Ltac unfold_map :=
  cbv [kGpaUart0 kGpaUart0Size kGpaRtcBase kGpaRtcSize kGpaVirtioConsole kGpaVirtioBlock
    kGpaVirtioNet kGpaVirtioGpu kGpaVirtioKeyboard kGpaVirtioTablet kGpaVirtioBase
    kGpaVirtioStride kGpaGicDist kGpaGicDistSize kGpaGicRedist kGpaGicRedistSize kVcpuMax
    kGpaGicRedistStride] in *.

(** ** Properties *)

(** The guest resumes after the trapped access with its registers intact.
    Whatever the address, an MMIO exit that returns lets the vCPU go on at the
    next instruction, provided a read does not target register 31; a write
    changes no register but PC, a read none but PC and its target. *)
Theorem mmio_resumes {V : Type} {HV : Hv V} {HL : HvLaws V} {Con Blk Net Gpu Inp : Type}
    {HCon : MmioDevice Con} {HBlk : MmioDevice Blk} {HNet : MmioDevice Net}
    {HGpu : MmioDevice Gpu} {HInp : MmioDevice Inp}
    (fuel : nat) (v v' : V) (c c' : Ctx Con Blk Net Gpu Inp) (ex : Exit) (go : bool) :
  handle_mmio fuel v c ex = Ok (go, v', c') →
  esr_wnr (syndrome ex) = true ∨ esr_srt (syndrome ex) ≠ 31 →
  go = true ∧ hv_get v' HV_REG_PC = u64 (hv_get v HV_REG_PC + 4) ∧
  ∀ r, r ≠ HV_REG_PC → esr_wnr (syndrome ex) = true ∨ r ≠ xreg_id (esr_srt (syndrome ex)) →
    hv_get v' r = hv_get v r.
Proof.
  intros H Hs. unfold handle_mmio in H. inv_bind.
  pose proof (esr_srt_range (syndrome ex)) as Hr.
  split; [done|]. rewrite advance_pc_pc.
  destruct (mmio_access_regs _ _ _ _ _ _ Hm) as [->|[Hw [x ->]]].
  - split; [done|]. intros r Hne _. by apply advance_pc_ne.
  - destruct Hs as [Hs|Hs]; [congruence|]. rewrite put_reg_pc by lia.
    split; [done|]. intros r Hne [Hw'|Hx]; [congruence|].
    rewrite advance_pc_ne by done. apply hv_set_ne. done.
Qed.

(** C15. Each address range of the memory map reaches its own target.  For any
    range of the table and any address in it, the handler does what that target
    alone does at the offset from the range's base: no range is shadowed by the
    cases tested before it, and all other devices are left alone. *)
Theorem mmio_routes {V : Type} {HV : Hv V} {Con Blk Net Gpu Inp : Type}
    {HCon : MmioDevice Con} {HBlk : MmioDevice Blk} {HNet : MmioDevice Net}
    {HGpu : MmioDevice Gpu} {HInp : MmioDevice Inp}
    (fuel : nat) (v : V) (c : Ctx Con Blk Net Gpu Inp) (ex : Exit) (t : Target) (base size off : Z) :
  (t, base, size) ∈ memory_map → 0 ≤ off < size → physical_address ex = base + off →
  handle_mmio fuel v c ex =
    ('(v', c') ← target_access t fuel v c (syndrome ex) (now ex) base off;
     Ok (true, advance_pc v', c')).
Proof.
  intros Hin Hoff Hp. unfold handle_mmio. f_equal. unfold mmio_access. rewrite Hp.
  assert (∀ b s, within (base + off) b s = bool_decide (b ≤ base + off < b + s)) as Hwi.
  { intros. unfold within. case_bool_decide; lia. }
  rewrite !Hwi. unfold gic_read. rewrite !Hwi. clear Hwi Hp.
  unfold memory_map in Hin. rewrite !elem_of_cons in Hin.
  destruct_or?; try (by apply not_elem_of_nil in Hin); injection Hin as -> -> ->;
    unfold_map; repeat match goal with |- context [bool_decide ?P] =>
      first [rewrite (bool_decide_eq_false_2 P) by lia | rewrite (bool_decide_eq_true_2 P) by lia]
      end;
    cbn [target_access orb]; rewrite ?Z.add_simpl_l, ?u32_id by lia; try done.
Qed.

(** What stops a vCPU and what stops the VM.  [handle] ends the vCPU thread
    exactly for an exit reason it does not know and for the PSCI calls CPU_OFF,
    SYSTEM_OFF and SYSTEM_RESET, and clears the VM's running flag exactly for
    the last two; a RESET powers off like an OFF. *)
Theorem handle_stops {V : Type} {HV : Hv V} {Con Blk Net Gpu Inp : Type}
    {HCon : MmioDevice Con} {HBlk : MmioDevice Blk} {HNet : MmioDevice Net}
    {HGpu : MmioDevice Gpu} {HInp : MmioDevice Inp}
    (fuel : nat) (v v' : V) (c c' : Ctx Con Blk Net Gpu Inp) (ex : Exit) (go : bool) :
  handle fuel v c ex = Ok (go, v', c') →
  let fn := u32 (get_xreg v 0) in
  (go = false ↔ (∃ code, reason ex = HV_EXIT_REASON_OTHER code) ∨
     (psci_exit ex = true ∧
      (fn = kPsciCpuOff ∨ fn = kPsciSystemOff ∨ fn = kPsciSystemReset))) ∧
  running c' =
    (if psci_exit ex && ((fn =? kPsciSystemOff) || (fn =? kPsciSystemReset)) then false
     else running c).
Proof.
  intros H fn. unfold handle in H. unfold psci_exit.
  assert (∀ r, reason ex = r → (∀ code, r ≠ HV_EXIT_REASON_OTHER code) → go = true →
    (go = false ↔ (∃ code, r = HV_EXIT_REASON_OTHER code) ∨ (false = true ∧
      (fn = kPsciCpuOff ∨ fn = kPsciSystemOff ∨ fn = kPsciSystemReset)))) as Hgo.
  { intros r _ Hr ->. split; [done|]. intros [[code Hc]|[? _]]; [by apply Hr in Hc | done]. }
  destruct (reason ex) as [| | |code] eqn:Hre.
  - injection H as <- _ <-. split; [by apply Hgo | done].
  - destruct ((_ =? kEcHvcA64) || _) eqn:Hps.
    + assert (psci_dispatch v c = Ok (go, v', c')) as Hd.
      { apply orb_true_iff in Hps as [He|He]; apply Z.eqb_eq in He; rewrite He in H; exact H. }
      apply psci_dispatch_stops in Hd as [-> ->]. fold fn. split; [|done].
      split; [by right|]. by intros [[? ?]|[_ ?]].
    + assert (go = true ∧ running c' = running c) as [-> ->].
      { destruct (_ =? kEcWfiWfe); [by injection H as <- _ <-|].
        destruct (_ =? kEcMsrMrs); [by injection H as <- _ <-|].
        destruct (_ || (_ =? kEcDabtLower)); [|by injection H as <- _ <-].
        unfold handle_mmio in H. inv_bind. split; [done|]. by eapply mmio_access_running. }
      split; [by apply Hgo | done].
  - injection H as <- _ <-. split; [by apply Hgo | done].
  - injection H as <- _ <-. split; [|done]. split; [|done]. intros _. left. by exists code.
Qed.

(** A read into the zero register moves the program counter.  Register
    number 31 names PC in the numbering of Hypervisor.framework, and reads do not
    test for it: the guest resumes at the loaded value plus 4 instead of at the
    next instruction. *)
Theorem mmio_read_xzr_jumps {V : Type} {HV : Hv V} {HL : HvLaws V} {Con Blk Net Gpu Inp : Type}
    {HCon : MmioDevice Con} {HBlk : MmioDevice Blk} {HNet : MmioDevice Net}
    {HGpu : MmioDevice Gpu} {HInp : MmioDevice Inp}
    (fuel : nat) (v : V) (c : Ctx Con Blk Net Gpu Inp) (ex : Exit)
    (pc_is_31 : HV_REG_PC = HV_REG_X0 + 31) :
  esr_wnr (syndrome ex) = false → esr_srt (syndrome ex) = 31 →
  physical_address ex = kGpaUart0 + kPl011Fr →
  ∃ v', handle_mmio fuel v c ex = Ok (true, v', c) ∧ hv_get v' HV_REG_PC = 0x94.
Proof.
  intros Hw Hs Hp. unfold handle_mmio, mmio_access. rewrite Hp, Hw, Hs.
  change (within (kGpaUart0 + kPl011Fr) kGpaUart0 kGpaUart0Size) with true. cbn match.
  change (pl011_read (pl011 c) (u32 (kGpaUart0 + kPl011Fr - kGpaUart0))) with 0x90.
  rewrite bind_Ok. eexists. split; [done|]. rewrite advance_pc_pc.
  unfold put_reg, xreg_id. rewrite <- pc_is_31, hv_set_eq; done.
Qed.

(** A trapped MRS does not reach its target register.  The architecture
    puts the target in bits 5 to 9 of the syndrome; the handler looks at the low
    five bits only, so two traps that differ in the target register have the
    same effect, and a read of a register with bit 4 clear in the syndrome
    changes no general register at all. *)
Theorem mrs_target_ignored {V : Type} {HV : Hv V} {HL : HvLaws V} (v : V) (esr esr' : Z) :
  Z.land esr 0x1F = Z.land esr' 0x1F →
  handle_msr_mrs v esr = handle_msr_mrs v esr' ∧
  (Z.testbit esr 4 = false →
   ∀ n, 0 ≤ n < 31 → hv_get (handle_msr_mrs v esr) (HV_REG_X0 + n) = hv_get v (HV_REG_X0 + n)).
Proof.
  intros He.
  assert (∀ e b, 0 ≤ b < 5 →
    Z.testbit (Z.land (u32 e) 0x1FFFFFF) b = Z.testbit (Z.land e 0x1F) b) as Hb.
  { intros e b Hb. unfold u32. change 0x100000000 with (2 ^ 32).
    change 0x1FFFFFF with (Z.ones 25). change 0x1F with (Z.ones 5).
    rewrite !Z.land_spec, !Z.ones_spec_low, Z.mod_pow2_bits_low by lia. done. }
  assert (∀ e, Z.testbit (Z.land (u32 e) 0x1FFFFFF) 4 = Z.testbit e 4) as Hb4.
  { intros e. rewrite Hb, Z.land_spec by lia. apply andb_true_r. }
  split.
  - unfold handle_msr_mrs. rewrite !Hb, He by lia. do 2 f_equal.
    assert (Z.land (Z.land (u32 esr) 0x1FFFFFF) 0xF =
            Z.land (Z.land (u32 esr') 0x1FFFFFF) 0xF) as ->; [|done].
    apply Z.bits_inj'. intros b Hb0. rewrite !(Z.land_spec _ 0xF).
    change 0xF with (Z.ones 4). destruct (decide (b < 4)).
    + rewrite !Hb, He by lia. done.
    + rewrite Z.ones_spec_high by lia. by rewrite !andb_false_r.
  - intros H4 n Hn. unfold handle_msr_mrs. rewrite Hb4, H4. cbn [andb].
    apply advance_pc_ne. intros Heq. by apply (hv_pc_not_x n).
Qed.
