(* ===== verification/VCpu.v ===== *)
(** * VCpu: vCPU threads, the CPU_ON handshake and the run loop

    Models src/src/hvf/vcpu.cpp ([setup_regs], [thread_func]) and
    [VMContext::run_all] of vm_context.cpp as a step relation.  Each atomic
    access to [running_], [boot_pc], [boot_x0] and [boot_pending] is a step of
    its own, so that every interleaving of the threads is a run; the release
    store and acquire load of [boot_pending] make these sequentially consistent
    runs faithful.  What a guest does between two exits is left open: a running
    vCPU may start any CPU_ON, stop, or switch the VM off, as [handle] allows. *)

From S2P Require Import Prelude Bytes GuestMem World Hypervisor VmContext Psci.

(** ** [setup_regs] *)
Section Setup.
Context {V : Type} {HV : Hv V}.

Definition setup_regs (v : V) (index pc x0 : Z) : option V :=
  v ← hv_set_reg v HV_REG_PC pc;
  v ← hv_set_reg v (HV_REG_X0 + 0) x0;
  v ← hv_set_reg v (HV_REG_X0 + 1) 0;
  v ← hv_set_reg v (HV_REG_X0 + 2) 0;
  v ← hv_set_reg v (HV_REG_X0 + 3) 0;
  v ← hv_set_reg v HV_REG_CPSR kPstateEl1h;
  v ← hv_set_sys_reg v HV_SYS_REG_SCTLR_EL1 0x00C50078;
  v ← hv_set_sys_reg v HV_SYS_REG_CPACR_EL1 0x00300000;
  hv_set_sys_reg v HV_SYS_REG_MPIDR_EL1 (Z.lor 0x80000000 index).
End Setup.

(** ** Threads *)

(** What a running vCPU is doing: in its loop or in the guest, or between the
    three stores of a CPU_ON for target [t]. *)
Inductive Act : Type :=
  | AGuest
  | AStorePc (t : nat) (entry ctx_id : Z)
  | AStoreX0 (t : nat) (entry ctx_id : Z)
  | AStorePending (t : nat) (entry ctx_id : Z).

(** The program counter of [thread_func]; a running vCPU remembers the entry
    point and argument it was set up with. *)
Inductive Phase : Type :=
  | PIdle
  | PCreate
  | PSpin
  | PLoadPc
  | PLoadX0 (pc : Z)
  | PClear (pc x0 : Z)
  | PSetup (pc x0 : Z)
  | PRun (pc x0 : Z) (act : Act)
  | PExited.

(** The state the threads share; [on_log] records the CPU_ON calls made. *)
Record Shared := mkShared {
  sh_running : bool;
  boxes : list Mailbox;
  on_log : list (nat * Z * Z);
}.

Definition set_sh_running (s : Shared) (b : bool) : Shared := mkShared b (boxes s) (on_log s).
Definition set_boxes (s : Shared) (l : list Mailbox) : Shared :=
  mkShared (sh_running s) l (on_log s).

Section Threads.
Context (kernel_entry dtb_gpa : Z).

(** One step of the thread of vCPU [i]. *)
Inductive tstep (i : nat) : Shared → Phase → Shared → Phase → Prop :=
  | t_create_fail s : tstep i s PCreate (set_sh_running s false) PExited
  | t_create_primary s : i = 0%nat → tstep i s PCreate s (PSetup kernel_entry dtb_gpa)
  | t_create_secondary s : i ≠ 0%nat → tstep i s PCreate s PSpin
  | t_spin_wait s b :
      boxes s !! i = Some b → boot_pending b = false → tstep i s PSpin s PSpin
  | t_spin_done s b :
      boxes s !! i = Some b → boot_pending b = true → tstep i s PSpin s PLoadPc
  | t_load_pc s b : boxes s !! i = Some b → tstep i s PLoadPc s (PLoadX0 (boot_pc b))
  | t_load_x0 s b pc : boxes s !! i = Some b → tstep i s (PLoadX0 pc) s (PClear pc (boot_x0 b))
  | t_clear s b pc x0 :
      boxes s !! i = Some b →
      tstep i s (PClear pc x0)
        (set_boxes s (<[i := mkMailbox (boot_pc b) (boot_x0 b) false]> (boxes s))) (PSetup pc x0)
  | t_setup_ok s pc x0 : tstep i s (PSetup pc x0) s (PRun pc x0 AGuest)
  | t_setup_fail s pc x0 : tstep i s (PSetup pc x0) (set_sh_running s false) PExited
  | t_run_stopped s pc x0 :
      sh_running s = false → tstep i s (PRun pc x0 AGuest) s PExited
  | t_run_error s pc x0 : tstep i s (PRun pc x0 AGuest) s PExited
  | t_cpu_off s pc x0 : tstep i s (PRun pc x0 AGuest) s PExited
  | t_system_off s pc x0 : tstep i s (PRun pc x0 AGuest) (set_sh_running s false) PExited
  | t_cpu_on s pc x0 t e c :
      (t < length (boxes s))%nat →
      tstep i s (PRun pc x0 AGuest)
        (mkShared (sh_running s) (boxes s) ((t, e, c) :: on_log s)) (PRun pc x0 (AStorePc t e c))
  | t_store_pc s pc x0 t e c b :
      boxes s !! t = Some b →
      tstep i s (PRun pc x0 (AStorePc t e c))
        (set_boxes s (<[t := mkMailbox e (boot_x0 b) (boot_pending b)]> (boxes s)))
        (PRun pc x0 (AStoreX0 t e c))
  | t_store_x0 s pc x0 t e c b :
      boxes s !! t = Some b →
      tstep i s (PRun pc x0 (AStoreX0 t e c))
        (set_boxes s (<[t := mkMailbox (boot_pc b) c (boot_pending b)]> (boxes s)))
        (PRun pc x0 (AStorePending t e c))
  | t_store_pending s pc x0 t e c b :
      boxes s !! t = Some b →
      tstep i s (PRun pc x0 (AStorePending t e c))
        (set_boxes s (<[t := mkMailbox (boot_pc b) (boot_x0 b) true]> (boxes s)))
        (PRun pc x0 AGuest).

(** ** [run_all] *)
Inductive MainPhase : Type :=
  | MStart
  | MSpawn (k : nat)
  | MPoll
  | MJoin (k : nat)
  | MDone.

Record Sys := mkSys {
  sys_shared : Shared;
  threads : list Phase;
  main : MainPhase;
}.

(** [init_vcpus] made [n] vCPUs; the run thread is at the start of [run_all]. *)
Definition Sys0 (n : nat) : Sys :=
  mkSys (mkShared false (replicate n Mailbox0) []) (replicate n PIdle) MStart.

Inductive step : Sys → Sys → Prop :=
  | s_start s ts : step (mkSys s ts MStart) (mkSys (set_sh_running s true) ts (MSpawn 0))
  | s_spawn s ts k :
      ts !! k = Some PIdle →
      step (mkSys s ts (MSpawn k)) (mkSys s (<[k := PCreate]> ts) (MSpawn (S k)))
  | s_spawned s ts : step (mkSys s ts (MSpawn (length ts))) (mkSys s ts MPoll)
  | s_poll s ts : sh_running s = false → step (mkSys s ts MPoll) (mkSys s ts (MJoin 0))
  | s_join s ts k :
      ts !! k = Some PExited → step (mkSys s ts (MJoin k)) (mkSys s ts (MJoin (S k)))
  | s_joined s ts :
      step (mkSys s ts (MJoin (length ts))) (mkSys (set_sh_running s false) ts MDone)
  | s_thread s ts mn i p s' p' :
      ts !! i = Some p → tstep i s p s' p' →
      step (mkSys s ts mn) (mkSys s' (<[i := p']> ts) mn)
  | s_stop s ts mn : step (mkSys s ts mn) (mkSys (set_sh_running s false) ts mn).

Definition reachable (n : nat) (s : Sys) : Prop := rtc step (Sys0 n) s.
End Threads.

(** ** The handshake *)
Section handshake.
Context (kernel_entry dtb_gpa : Z).

(** Every target is asked for one entry point and context only. *)
Definition uniq (log : list (nat * Z * Z)) : Prop :=
  ∀ t e c e' c', (t, e, c) ∈ log → (t, e', c') ∈ log → e = e' ∧ c = c'.

(** What a thread holds was asked for: the values it has loaded from its
    mailbox, and those it is storing in another's. *)
Definition good_act (s : Shared) (a : Act) : Prop :=
  match a with
  | AGuest => True
  | AStorePc t e c => (t, e, c) ∈ on_log s
  | AStoreX0 t e c =>
      (t, e, c) ∈ on_log s ∧ ∃ b, boxes s !! t = Some b ∧ boot_pc b = e
  | AStorePending t e c =>
      (t, e, c) ∈ on_log s ∧ ∃ b, boxes s !! t = Some b ∧ boot_pc b = e ∧ boot_x0 b = c
  end.

(** The primary starts at the kernel, a secondary where a CPU_ON says. *)
Definition started (s : Shared) (i : nat) (pc x0 : Z) : Prop :=
  if decide (i = 0%nat) then pc = kernel_entry ∧ x0 = dtb_gpa else (i, pc, x0) ∈ on_log s.

Definition good (s : Shared) (i : nat) (p : Phase) : Prop :=
  match p with
  | PIdle | PCreate | PExited => True
  | PSpin => i ≠ 0%nat
  | PLoadPc => i ≠ 0%nat ∧ ∃ b, boxes s !! i = Some b ∧ (i, boot_pc b, boot_x0 b) ∈ on_log s
  | PLoadX0 pc => i ≠ 0%nat ∧ ∃ b, boxes s !! i = Some b ∧ (i, pc, boot_x0 b) ∈ on_log s
  | PClear pc x0 | PSetup pc x0 => started s i pc x0
  | PRun pc x0 a => started s i pc x0 ∧ good_act s a
  end.

Definition good_boxes (s : Shared) : Prop :=
  ∀ t b, boxes s !! t = Some b → boot_pending b = true → (t, boot_pc b, boot_x0 b) ∈ on_log s.

(** What the other threads may do to the shared state meanwhile. *)
Definition evolves (s s' : Shared) : Prop :=
  on_log s ⊆ on_log s' ∧
  ∀ t b, boxes s !! t = Some b → ∃ b', boxes s' !! t = Some b' ∧
    (boot_pc b' = boot_pc b ∨ ∃ c, (t, boot_pc b', c) ∈ on_log s') ∧
    (boot_x0 b' = boot_x0 b ∨ ∃ e, (t, e, boot_x0 b') ∈ on_log s').

(** Once a target's values are asked for, a mailbox that holds them keeps them. *)
Lemma evolves_box s s' t e c b :
  evolves s s' → uniq (on_log s') → (t, e, c) ∈ on_log s → boxes s !! t = Some b →
  ∃ b', boxes s' !! t = Some b' ∧ (boot_pc b = e → boot_pc b' = e) ∧
    (boot_x0 b = c → boot_x0 b' = c).
Proof.
  intros [Hl Hb] Hu Hin Hlk. destruct (Hb t b Hlk) as (b' & E & Hp & Hx).
  exists b'. split; [done|]. apply Hl in Hin. split; intros <-.
  - destruct Hp as [?|[c' Hc]]; [done|]. by destruct (Hu _ _ _ _ _ Hc Hin).
  - destruct Hx as [?|[e' He]]; [done|]. by destruct (Hu _ _ _ _ _ He Hin).
Qed.

Lemma good_evolves s s' i p : evolves s s' → uniq (on_log s') → good s i p → good s' i p.
Proof.
  intros He Hu. assert (∀ x, x ∈ on_log s → x ∈ on_log s') as Hl by apply (proj1 He).
  destruct p as [| | | |pc|pc x0|pc x0|pc x0 a|]; cbn [good]; try done.
  - intros (H0 & b & Hb & Hin). destruct (evolves_box _ _ _ _ _ _ He Hu Hin Hb) as (b' & E & H1 & H2).
    split; [done|]. exists b'. rewrite H1, H2 by done. auto.
  - intros (H0 & b & Hb & Hin). destruct (evolves_box _ _ _ _ _ _ He Hu Hin Hb) as (b' & E & _ & H2).
    split; [done|]. exists b'. rewrite H2 by done. auto.
  - unfold started. case_decide; auto.
  - unfold started. case_decide; auto.
  - intros [Hin Ha]. split; [unfold started in *; case_decide; auto|]. destruct a as [|t e c|t e c|t e c]; cbn [good_act] in *; auto.
    + destruct Ha as (Hin' & b & Hb & Hp).
      destruct (evolves_box _ _ _ _ _ _ He Hu Hin' Hb) as (b' & E & H1 & _).
      split; [auto|]. exists b'. auto.
    + destruct Ha as (Hin' & b & Hb & Hp & Hx).
      destruct (evolves_box _ _ _ _ _ _ He Hu Hin' Hb) as (b' & E & H1 & H2).
      split; [auto|]. exists b'. auto.
Qed.

Lemma evolves_refl s : evolves s s.
Proof. split; [done|]. intros t b Hb. exists b. auto. Qed.

Lemma evolves_running s b : evolves s (set_sh_running s b).
Proof. split; [done|]. intros t b0 Hb. exists b0. auto. Qed.

(** A store to one mailbox evolves the state when it keeps or asks for what
    it leaves there. *)
Lemma evolves_store s t b b' :
  boxes s !! t = Some b →
  (boot_pc b' = boot_pc b ∨ ∃ c, (t, boot_pc b', c) ∈ on_log s) →
  (boot_x0 b' = boot_x0 b ∨ ∃ e, (t, e, boot_x0 b') ∈ on_log s) →
  evolves s (set_boxes s (<[t := b']> (boxes s))).
Proof.
  intros Hb Hp Hx. split; [done|]. intros t' b0 Hb0. cbn.
  destruct (decide (t = t')) as [<-|Hne].
  - exists b'. rewrite list_lookup_insert_eq by (by eapply lookup_lt_Some). simplify_eq. auto.
  - exists b0. rewrite list_lookup_insert_ne by done. auto.
Qed.

(** The pending mailboxes hold what was asked for, after a store. *)
Lemma good_boxes_store s t b b' :
  good_boxes s → boxes s !! t = Some b →
  (boot_pending b' = true → (t, boot_pc b', boot_x0 b') ∈ on_log s) →
  good_boxes (set_boxes s (<[t := b']> (boxes s))).
Proof.
  intros Hg Hb Hb' t' b0. cbn. intros Hlk Hp.
  destruct (decide (t = t')) as [<-|Hne].
  - rewrite list_lookup_insert_eq in Hlk by (by eapply lookup_lt_Some). simplify_eq. auto.
  - rewrite list_lookup_insert_ne in Hlk by done. auto.
Qed.

Lemma tstep_good i s p s' p' :
  tstep kernel_entry dtb_gpa i s p s' p' → uniq (on_log s') → good s i p → good_boxes s →
  evolves s s' ∧ good s' i p' ∧ good_boxes s'.
Proof.
  intros Hst Hu Hg Hgb.
  destruct Hst as [s|s Hi|s Hi|s b Hb Hp|s b Hb Hp|s b Hb|s b pc Hb|s b pc x0 Hb|s pc x0|s pc x0
    |s pc x0 Hr|s pc x0|s pc x0|s pc x0|s pc x0 t e c Ht|s pc x0 t e c b Hb|s pc x0 t e c b Hb
    |s pc x0 t e c b Hb]; cbn [good good_act] in Hg;
    try (split_and!; [first [apply evolves_refl | apply evolves_running] | by cbn | done]).
  - split_and!; [apply evolves_refl | by cbn; unfold started; rewrite Hi | done].
  - split_and!; [apply evolves_refl | | done]. split; [done|]. exists b. auto.
  - destruct Hg as (Hi & b' & Hb' & Hin). rewrite Hb in Hb'. injection Hb' as <-.
    split_and!; [apply evolves_refl | | done]. split; [done|]. exists b. auto.
  - destruct Hg as (Hi & b' & Hb' & Hin). rewrite Hb in Hb'. injection Hb' as <-.
    split_and!; [apply evolves_refl | | done]. cbn. unfold started. by case_decide.
  - split_and!; [by eapply evolves_store; [done | left | left] | exact Hg |].
    by eapply good_boxes_store.
  - destruct Hg as [Hin _]. split_and!.
    + split; [cbn; set_solver|]. intros t' b Hb. exists b. auto.
    + split; [unfold started in *; case_decide; [done | cbn; set_solver] | cbn; set_solver].
    + intros t' b Hb Hp. cbn. apply elem_of_cons. right. auto.
  - destruct Hg as [Hin Ht]. split_and!.
    + eapply evolves_store; cbn; eauto.
    + split; [done|]. split; [done|]. cbn.
      eexists. by rewrite list_lookup_insert_eq by (by eapply lookup_lt_Some).
    + eapply good_boxes_store; [done..|]. cbn. intros Hp.
      pose proof (Hgb t b Hb Hp) as Hin'. by destruct (Hu _ _ _ _ _ Ht Hin') as [-> ->].
  - destruct Hg as (Hin & Ht & b' & Hb' & Hpc).
    rewrite Hb in Hb'. injection Hb' as <-. split_and!.
    + eapply evolves_store; cbn; eauto.
    + split; [done|]. split; [done|]. cbn.
      eexists. by rewrite list_lookup_insert_eq by (by eapply lookup_lt_Some).
    + eapply good_boxes_store; [done..|]. cbn. intros Hp.
      pose proof (Hgb t b Hb Hp) as Hin'. by destruct (Hu _ _ _ _ _ Ht Hin') as [_ ->].
  - destruct Hg as (Hin & Ht & b' & Hb' & Hpc & Hx).
    rewrite Hb in Hb'. injection Hb' as <-. split_and!.
    + eapply evolves_store; cbn; eauto.
    + done.
    + eapply good_boxes_store; [done..|]. cbn. by rewrite Hpc, Hx.
Qed.

Definition good_sys (s : Sys) : Prop :=
  good_boxes (sys_shared s) ∧ ∀ i p, threads s !! i = Some p → good (sys_shared s) i p.

Lemma step_log s s' :
  step kernel_entry dtb_gpa s s' → on_log (sys_shared s) ⊆ on_log (sys_shared s').
Proof.
  destruct 1 as [| | | | | |s ts mn i p s' p' Hi Hst|]; try done. cbn.
  destruct Hst; cbn; set_solver.
Qed.

Lemma step_good s s' :
  step kernel_entry dtb_gpa s s' → uniq (on_log (sys_shared s')) → good_sys s → good_sys s'.
Proof.
  intros Hst Hu [Hb Ht]. destruct Hst as [s ts|s ts k Hk| | | | |s ts mn i p s' p' Hi Hst|]; try done;
    cbn [sys_shared threads] in *.
  - split; [done|]. cbn. intros i p Hi.
    apply list_lookup_insert_Some in Hi as [(_ & <- & _)|[_ Hi]]; [done | auto].
  - destruct (tstep_good _ _ _ _ _ Hst Hu (Ht i p Hi) Hb) as (He & Hg & Hb').
    split; [done|]. cbn. intros j q Hj.
    apply list_lookup_insert_Some in Hj as [(<- & <- & _)|[_ Hj]]; [done|].
    eapply good_evolves; eauto.
Qed.

Lemma uniq_sub l l' : l ⊆ l' → uniq l' → uniq l.
Proof. intros Hs Hu t e c e' c' H1 H2. eapply Hu; by apply Hs. Qed.

Lemma reachable_good n s :
  reachable kernel_entry dtb_gpa n s → uniq (on_log (sys_shared s)) → good_sys s.
Proof.
  unfold reachable. intros Hr.
  refine (rtc_ind_r (λ s, uniq (on_log (sys_shared s)) → good_sys s) (Sys0 n) _ _ _ Hr).
  - intros _. split.
    + intros t b Hb Hp. cbn in Hb. apply lookup_replicate in Hb as [-> _]. done.
    + intros i p Hi. cbn in Hi. by apply lookup_replicate in Hi as [-> _].
  - intros y z _ Hst IH Hu. eapply step_good; [done..|]. apply IH.
    eapply uniq_sub; [by eapply step_log | done].
Qed.
End handshake.

(** ** Shutting down *)
Section shutdown.
Context (kernel_entry dtb_gpa : Z).

(** [stop] before the run thread has started leaves no trace: [run_all] then
    sets the flag and the machine runs. *)
Lemma early_stop_lost (n : nat) (s : Sys) :
  (∃ sh, s = mkSys (set_sh_running sh false) (threads (Sys0 n)) MStart ∧ sh = sys_shared (Sys0 n)) →
  s = Sys0 n ∧ ∃ s', step kernel_entry dtb_gpa s s' ∧ sh_running (sys_shared s') = true ∧ main s' = MSpawn 0.
Proof.
  intros (sh & -> & ->). split; [done|]. eexists. split; [apply s_start|done].
Qed.

(** No thread can act any more: each has exited, or spins on an empty mailbox. *)
Definition halted (s : Sys) : Prop :=
  ∀ i p, threads s !! i = Some p → p = PExited ∨
    (p = PSpin ∧ ∃ b, boxes (sys_shared s) !! i = Some b ∧ boot_pending b = false).

(** The main thread has not joined the vCPU [i] yet. *)
Definition before_join (i : nat) (m : MainPhase) : Prop :=
  match m with MStart | MSpawn _ | MPoll => True | MJoin k => (k ≤ i)%nat | MDone => False end.

Lemma step_halted i s s' :
  step kernel_entry dtb_gpa s s' → halted s → threads s !! i = Some PSpin →
  before_join i (main s) →
  halted s' ∧ threads s' !! i = Some PSpin ∧ before_join i (main s').
Proof.
  intros Hst Hh Hi Hm. destruct Hst as [s ts|s ts k Hk|s ts|s ts Hr|s ts k Hk|s ts|s ts mn j p s' p' Hj Hst|];
    cbn [threads main before_join] in *; try done.
  - by destruct (Hh k PIdle Hk) as [?|[? _]].
  - split_and!; [done..|lia].
  - split_and!; [done..|]. destruct (decide (k = i)) as [->|]; [simplify_eq | lia].
  - apply lookup_lt_Some in Hi. lia.
  - destruct (Hh j p Hj) as [->|[-> (b & Hb & Hp)]]; [by inversion Hst|].
    cbn in Hb. inversion Hst; subst; [|congruence].
    rewrite list_insert_id by done. done.
Qed.
End shutdown.

Section setup.
Context {V : Type} {HV : Hv V} {HL : HvLaws V}.

(** Writing registers keeps what an earlier write put into another one. *)
Definition holds (v : V) (r x : Z) : Prop := hv_get v r = x.

Lemma holds_eq (v v' : V) r x : fits 64 x → hv_set_reg v r x = Some v' → holds v' r x.
Proof. apply hv_get_set_eq. Qed.

Lemma holds_ne (v v' : V) r x r' x' :
  hv_set_reg v r' x' = Some v' → r ≠ r' → holds v r x → holds v' r x.
Proof. intros H Hr Hx. unfold holds. by erewrite hv_get_set_ne. Qed.

Lemma holds_sys (v v' : V) r x r' x' :
  hv_set_sys_reg v r' x' = Some v' → holds v r x → holds v' r x.
Proof. intros H Hx. unfold holds. by erewrite hv_get_sys. Qed.
End setup.

(** Carry [holds] through the remaining writes of [setup_regs]. *)
Ltac carry :=
  repeat match goal with
  | E : hv_set_sys_reg _ _ _ = Some ?v |- holds ?v _ _ => apply (holds_sys _ _ _ _ _ _ E)
  | E : hv_set_reg _ ?r ?x = Some ?v |- holds ?v ?r _ => apply (holds_eq _ _ _ _) with (2 := E)
  | E : hv_set_reg _ _ _ = Some ?v |- holds ?v _ _ => apply (holds_ne _ _ _ _ _ _ E)
  end.

(** ** Properties *)


(** C28. Shutting down hangs on a vCPU that was never started.  Once every
    other thread has exited and vCPU [i] still waits for its first CPU_ON, no
    continuation of the run lets [run_all] return: its join on [i] waits for a
    thread that does not look at the running flag. *)
Theorem shutdown_hangs (kernel_entry dtb_gpa : Z) (i : nat) (s s' : Sys) :
  halted s → threads s !! i = Some PSpin → before_join i (main s) →
  rtc (step kernel_entry dtb_gpa) s s' → main s' ≠ MDone.
Proof.
  intros Hh Hi Hm Hr. assert (before_join i (main s')) as Hb; [|by intros E; rewrite E in Hb].
  induction Hr as [s|s1 s2 s3 Hst _ IH]; [done|].
  destruct (step_halted _ _ _ _ _ Hst Hh Hi Hm) as (? & ? & ?). auto.
Qed.

(** A vCPU enters its code in the state the boot protocol asks for: when
    [setup_regs] succeeds, PC is the entry point, X0 the argument, X1 to X3 are
    zero and CPSR selects EL1h with interrupts masked. *)
Theorem setup_regs_state {V : Type} {HV : Hv V} {HL : HvLaws V} (v v' : V) (index pc x0 : Z) :
  fits 64 pc → fits 64 x0 → setup_regs v index pc x0 = Some v' →
  hv_get v' HV_REG_PC = pc ∧ get_xreg v' 0 = x0 ∧
  (∀ n, 1 ≤ n ≤ 3 → get_xreg v' n = 0) ∧ hv_get v' HV_REG_CPSR = kPstateEl1h.
Proof.
  intros Hpc Hx0 H. unfold setup_regs in H.
  repeat (apply bind_Some in H as (? & ? & H)).
  assert (∀ n m, 0 ≤ n < 31 → HV_REG_PC ≠ HV_REG_X0 + n ∧ HV_REG_CPSR ≠ HV_REG_X0 + n ∧
    (n ≠ m → HV_REG_X0 + n ≠ HV_REG_X0 + m)) as Hne.
  { intros n m Hn. split_and!; [by apply hv_pc_not_x | by apply hv_cpsr_not_x | lia]. }
  pose proof hv_cpsr_not_pc as Hcp.
  assert (∀ n, 0 ≤ n < 31 → get_xreg v' n = hv_get v' (HV_REG_X0 + n)) as Hx.
  { intros n Hn. unfold get_xreg. destruct (Z.eqb_spec n 31); [lia | done]. }
  assert (∀ n, 0 ≤ n < 31 → HV_REG_X0 + n ≠ HV_REG_CPSR) as Hcx.
  { intros n Hn. by apply not_eq_sym, Hne. }
  split_and!.
  - change (holds v' HV_REG_PC pc). carry; try done; try (by apply not_eq_sym); by apply Hne.
  - rewrite Hx by lia. change (holds v' (HV_REG_X0 + 0) x0). carry; try done; try lia. by apply Hcx.
  - intros n Hn. rewrite Hx by lia. change (holds v' (HV_REG_X0 + n) 0).
    assert (n = 1 ∨ n = 2 ∨ n = 3) as [->|[->| ->]] by lia; carry; try done; try lia; by apply Hcx.
  - change (holds v' HV_REG_CPSR kPstateEl1h). by carry.
Qed.
