(* ===== verification/VmWitness.v ===== *)
(** * VmWitness: a small machine for the witnesses of Psci, ExitHandler, VCpu

    Two vCPUs, a console and a disk, on the register numbering of
    Hypervisor.framework; the slots of the other devices are empty. *)

From S2P Require Import Prelude Bytes GuestMem World Hypervisor VmContext Psci ExitHandler VCpu VirtioBlock DiskImage VirtioConsole Fixtures.

#[local] Instance Empty_mmio : MmioDevice Empty_set := {
  dev_read d _ _ := match d with end;
  dev_write _ d _ _ _ _ := match d with end;
}.

Definition vx_ctx : VmContext.Ctx Console (Block bytes) Empty_set Empty_set Empty_set :=
  mkCtx true 2 [Mailbox0; Mailbox0] Pl011State0 (mkWorld fx_ram [])
    (Some (Console0 3 4)) (Some (Block0 5 [] None)) None None None None.

(** Registers X0.. set to [xs], PC to [pc]. *)
Definition vx_cpu (pc : Z) (xs : list Z) : RegFile :=
  mkRegFile (<[31 := pc]> (list_to_map (zip (Z.of_nat <$> seq 0 (length xs)) xs))) ∅ false.

(** A data abort: direction, target register, address. *)
Definition vx_abort (wnr : bool) (srt ipa : Z) : Exit :=
  mkExit HV_EXIT_REASON_EXCEPTION
    (Z.shiftl kEcDabtLower 26 + Z.shiftl 2 22 + Z.shiftl srt 16 + (if wnr then 64 else 0)) ipa 0.

Lemma vx_wf : wf_ctx vx_ctx.
Proof. by split. Qed.

Lemma psci_cpu_on_witness :
  ∃ v' c', psci_dispatch (vx_cpu 0x1000 [kPsciCpuOn; 1; 0x40400000; 7]) vx_ctx = Ok (true, v', c') ∧
    get_xreg v' 0 = 0 ∧ vcpu c' 1 = Ok (mkMailbox 0x40400000 7 true) ∧ vcpu c' 0 = Ok Mailbox0.
Proof.
  destruct (psci_cpu_on (vx_cpu 0x1000 [kPsciCpuOn; 1; 0x40400000; 7]) vx_ctx vx_wf)
    as (v' & c' & E & _ & _ & H); [by vm_compute|].
  exists v', c'. split; [exact E|]. destruct H as (H0 & H1 & H2 & _).
  split; [exact H0|]. split; [exact H1|]. by rewrite H2.
Defined.

Lemma psci_features_sound_witness :
  ∃ v', psci_dispatch (vx_cpu 0 [kPsciFeatures; kPsciCpuOn]) vx_ctx = Ok (true, v', vx_ctx) ∧
    (get_xreg v' 0 = kPsciRetNotSupported ∧
       psci_dispatch (vx_cpu 0 [kPsciCpuOn]) vx_ctx =
         Ok (true, set_xreg (vx_cpu 0 [kPsciCpuOn]) 0 kPsciRetNotSupported, vx_ctx) ∧
       psci_known (u32 (get_xreg (vx_cpu 0 [kPsciCpuOn]) 0)) = false ∨
     get_xreg v' 0 = kPsciRetSuccess ∧ psci_known (u32 (get_xreg (vx_cpu 0 [kPsciCpuOn]) 0)) = true).
Proof.
  apply (psci_features_sound (vx_cpu 0 [kPsciFeatures; kPsciCpuOn]) (vx_cpu 0 [kPsciCpuOn]) vx_ctx);
    by vm_compute.
Defined.

(** A read of the console's magic register into X2. *)
Definition vx_read : res (bool * RegFile * VmContext.Ctx Console (Block bytes) Empty_set Empty_set Empty_set) :=
  handle_mmio 1 (vx_cpu 0x1000 []) vx_ctx (vx_abort false 2 kGpaVirtioConsole).
Definition vx_after : RegFile :=
  Eval vm_compute in match vx_read with Ok (_, v, _) => v | Err _ => vx_cpu 0 [] end.

Lemma mmio_resumes_witness :
  true = true ∧ hv_get vx_after HV_REG_PC = 0x1004 ∧
  ∀ r, r ≠ HV_REG_PC → false = true ∨ r ≠ xreg_id 2 → hv_get vx_after r = hv_get (vx_cpu 0x1000 []) r.
Proof.
  refine (mmio_resumes 1 (vx_cpu 0x1000 []) vx_after vx_ctx vx_ctx
            (vx_abort false 2 kGpaVirtioConsole) true _ _).
  - vm_compute. reflexivity.
  - right. by vm_compute.
Defined.

Lemma mmio_routes_witness :
  handle_mmio 1 (vx_cpu 0x1000 []) vx_ctx (vx_abort false 2 (kGpaVirtioBlock + 8)) =
    ('(v', c') ← target_access TBlock 1 (vx_cpu 0x1000 []) vx_ctx
       (syndrome (vx_abort false 2 (kGpaVirtioBlock + 8))) 0 kGpaVirtioBlock 8;
     Ok (true, advance_pc v', c')).
Proof.
  apply (mmio_routes 1 (vx_cpu 0x1000 []) vx_ctx (vx_abort false 2 (kGpaVirtioBlock + 8))
           TBlock kGpaVirtioBlock kGpaVirtioStride 8).
  - unfold memory_map. set_solver.
  - done.
  - done.
Defined.

(** SYSTEM_OFF through HVC. *)
Definition vx_hvc : Exit := mkExit HV_EXIT_REASON_EXCEPTION (Z.shiftl kEcHvcA64 26) 0 0.

Lemma handle_stops_witness :
  handle 1 (vx_cpu 0 [kPsciSystemOff]) vx_ctx vx_hvc =
    Ok (false, vx_cpu 0 [kPsciSystemOff], stop vx_ctx) ∧
  (u32 (get_xreg (vx_cpu 0 [kPsciSystemOff]) 0) = kPsciCpuOff ∨
   u32 (get_xreg (vx_cpu 0 [kPsciSystemOff]) 0) = kPsciSystemOff ∨
   u32 (get_xreg (vx_cpu 0 [kPsciSystemOff]) 0) = kPsciSystemReset).
Proof.
  assert (handle 1 (vx_cpu 0 [kPsciSystemOff]) vx_ctx vx_hvc =
    Ok (false, vx_cpu 0 [kPsciSystemOff], stop vx_ctx)) as E by by vm_compute.
  split; [exact E|].
  destruct (handle_stops 1 (vx_cpu 0 [kPsciSystemOff]) (vx_cpu 0 [kPsciSystemOff]) vx_ctx
    (stop vx_ctx) vx_hvc false E) as [[H _] _].
  destruct (H eq_refl) as [[code Hc]|[_ Hf]]; [discriminate Hc | exact Hf].
Defined.

Lemma mmio_read_xzr_jumps_witness :
  ∃ v', handle_mmio 1 (vx_cpu 0x1000 []) vx_ctx (vx_abort false 31 (kGpaUart0 + kPl011Fr)) =
      Ok (true, v', vx_ctx) ∧ hv_get v' HV_REG_PC = 0x94.
Proof.
  apply (mmio_read_xzr_jumps 1 (vx_cpu 0x1000 []) vx_ctx (vx_abort false 31 (kGpaUart0 + kPl011Fr)));
    by vm_compute.
Defined.

(** [mrs x5, ...] with CRm = 0: the syndromes for X5 and X6 are handled alike. *)
Lemma mrs_target_ignored_witness :
  handle_msr_mrs (vx_cpu 0 [1; 2; 3]) (5 * 32 + 1) = handle_msr_mrs (vx_cpu 0 [1; 2; 3]) (6 * 32 + 1) ∧
  (Z.testbit (5 * 32 + 1) 4 = false →
   ∀ n, 0 ≤ n < 31 → hv_get (handle_msr_mrs (vx_cpu 0 [1; 2; 3]) (5 * 32 + 1)) (HV_REG_X0 + n) =
     hv_get (vx_cpu 0 [1; 2; 3]) (HV_REG_X0 + n)).
Proof. by apply (mrs_target_ignored (vx_cpu 0 [1; 2; 3]) (5 * 32 + 1) (6 * 32 + 1)). Defined.

(** ** Runs of the thread system *)

(** Both vCPUs spawned, the primary running at the kernel. *)
Definition vx_boxes : list Mailbox := [Mailbox0; Mailbox0].
Definition vx_sys (sh : Shared) (p0 p1 : Phase) (m : MainPhase) : Sys := mkSys sh [p0; p1] m.

Lemma vx_thread ke dt sh p0 p1 m (i : nat) p s' p' :
  [p0; p1] !! i = Some p → tstep ke dt i sh p s' p' →
  step ke dt (vx_sys sh p0 p1 m) (mkSys s' (<[i := p']> [p0; p1]) m).
Proof. intros. by eapply s_thread. Qed.

Lemma vx_spinning :
  reachable 0x40400000 0x40000000 2
    (vx_sys (mkShared true vx_boxes []) (PRun 0x40400000 0x40000000 AGuest) PSpin MPoll).
Proof.
  unfold reachable, Sys0. cbn [replicate]. eapply rtc_l; [apply s_start|]. cbn.
  eapply rtc_l; [apply (s_spawn _ _ _ _ 0); done|]. cbn.
  eapply rtc_l; [apply (s_spawn _ _ _ _ 1); done|]. cbn.
  eapply rtc_l; [apply (s_spawned _ _ _ [PCreate; PCreate])|].
  eapply rtc_l; [apply (s_thread _ _ _ _ _ 0 PCreate); [done | by apply t_create_primary]|]. cbn.
  eapply rtc_l; [apply (s_thread _ _ _ _ _ 0 (PSetup 0x40400000 0x40000000)); [done | apply t_setup_ok]|].
  cbn. eapply rtc_l; [apply (s_thread _ _ _ _ _ 1 PCreate); [done | by apply t_create_secondary]|].
  apply rtc_refl.
Qed.

(** CPU_ON of vCPU 1 at 0x1000 with context 7, up to its first instruction. *)
Lemma vx_started :
  reachable 0x40400000 0x40000000 2
    (vx_sys (mkShared true [Mailbox0; mkMailbox 0x1000 7 false] [(1%nat, 0x1000, 7)])
       (PRun 0x40400000 0x40000000 AGuest) (PRun 0x1000 7 AGuest) MPoll).
Proof.
  unfold reachable. etrans; [apply vx_spinning|]. unfold vx_sys.
  eapply rtc_l; [apply (s_thread _ _ _ _ _ 0 (PRun 0x40400000 0x40000000 AGuest)); [done|];
    by apply (t_cpu_on _ _ _ _ _ _ 1 0x1000 7); cbn; lia|]. cbn.
  eapply rtc_l; [by eapply (s_thread _ _ _ _ _ 0); [|eapply t_store_pc]|]. cbn.
  eapply rtc_l; [by eapply (s_thread _ _ _ _ _ 0); [|eapply t_store_x0]|]. cbn.
  eapply rtc_l; [by eapply (s_thread _ _ _ _ _ 0); [|eapply t_store_pending]|]. cbn.
  eapply rtc_l; [by eapply (s_thread _ _ _ _ _ 1); [|eapply t_spin_done]|]. cbn.
  eapply rtc_l; [by eapply (s_thread _ _ _ _ _ 1); [|eapply t_load_pc]|]. cbn.
  eapply rtc_l; [by eapply (s_thread _ _ _ _ _ 1); [|eapply t_load_x0]|]. cbn.
  eapply rtc_l; [by eapply (s_thread _ _ _ _ _ 1); [|eapply t_clear]|]. cbn.
  eapply rtc_l; [by eapply (s_thread _ _ _ _ _ 1); [|eapply t_setup_ok]|]. cbn.
  apply rtc_refl.
Qed.


(** The guest booted on one CPU and switched off: the join never ends. *)
Definition vx_off : Sys := vx_sys (mkShared false vx_boxes []) PExited PSpin MPoll.

Lemma vx_off_reachable : reachable 0x40400000 0x40000000 2 vx_off.
Proof.
  unfold reachable. etrans; [apply vx_spinning|]. unfold vx_sys.
  eapply rtc_l; [by eapply (s_thread _ _ _ _ _ 0); [|eapply t_system_off]|].
  apply rtc_refl.
Qed.

Lemma shutdown_hangs_witness :
  reachable 0x40400000 0x40000000 2 vx_off ∧
  ∀ s', rtc (step 0x40400000 0x40000000) vx_off s' → main s' ≠ MDone.
Proof.
  split; [exact vx_off_reachable|]. intros s' Hr.
  refine (shutdown_hangs 0x40400000 0x40000000 1 vx_off s' _ _ _ Hr).
  - intros [|[|i]] p [= <-]; [by left|].
    right. split; [done|]. by eexists.
  - reflexivity.
  - exact I.
Defined.

Definition vx_ready : RegFile :=
  Eval vm_compute in default (vx_cpu 0 []) (setup_regs (vx_cpu 0 []) 0 0x40400000 0x40000000).

Lemma setup_regs_state_witness :
  hv_get vx_ready HV_REG_PC = 0x40400000 ∧ get_xreg vx_ready 0 = 0x40000000 ∧
  (∀ n, 1 ≤ n ≤ 3 → get_xreg vx_ready n = 0) ∧ hv_get vx_ready HV_REG_CPSR = kPstateEl1h.
Proof.
  apply (setup_regs_state (vx_cpu 0 []) vx_ready 0 0x40400000 0x40000000); [done..|by vm_compute].
Defined.
