(* ===== verification/Channel.v ===== *)
(** * Channel: framed messages over a byte-stream transport

    Models src/ipc/src/framing.hpp, transport.hpp, channel.hpp and channel.cpp.
    A transport is an interface: the state [S] it shares with the rest of the
    process (pipes, the kernel) and its own state [T].  The channel's read loop
    is a function of what has arrived; it yields the callbacks it makes, in
    order, and stops where [read] would block. *)

From S2P Require Import Prelude Bytes.

(** ** [Transport] *)

(** What [read] does with a non-empty buffer: fill it, return 0, or wait. *)
Inductive Rd : Type :=
  | RdBytes (bs : bytes)
  | RdZero
  | RdBlock.

Class Transport (S T : Type) := {
  tr_write : S → T → bytes → S * T;
  tr_read : S → T → nat → Rd * S * T;
  tr_close : S → T → S * T;
  tr_is_connected : T → bool;
}.

(** What the channel relies on when it receives: the bytes that have arrived
    are delivered in order, [n] at a time, and nothing else is; a read that
    finds too few of them waits as long as the connection is [tr_live]. *)
Class StreamLaws (S T : Type) `{Transport S T} := {
  tr_avail : S → T → bytes;
  tr_live : S → T → Prop;
  tr_read_enough : ∀ s t n,
    tr_is_connected t = true → (0 < n ≤ length (tr_avail s t))%nat →
    ∃ s' t', tr_read s t n = (RdBytes (take n (tr_avail s t)), s', t') ∧
      tr_is_connected t' = true ∧ tr_avail s' t' = drop n (tr_avail s t) ∧
      (tr_live s t → tr_live s' t');
  tr_read_short : ∀ s t n,
    (length (tr_avail s t) < n)%nat →
    ∃ r s' t', tr_read s t n = (r, s', t') ∧ (r = RdZero ∨ r = RdBlock) ∧
      (tr_live s t → r = RdBlock ∧ tr_is_connected t' = tr_is_connected t);
}.

(** ** Frames *)
Definition kMagic : Z := 0x41524349.
Definition kVersion : Z := 1.
Definition kMaxPayloadSize : Z := 64 * 1024 * 1024.
Definition kHeaderSize : nat := 12.

(** [FrameHeader], as the bytes of the packed struct. *)
Record FrameHeader := mkFrameHeader {
  magic : Z;
  version : Z;
  type : Z;
  reserved : Z;
  payload_len : Z;
}.

Definition header_bytes (h : FrameHeader) : bytes :=
  le_enc 4 (magic h) ++ le_enc 1 (version h) ++ le_enc 1 (type h) ++ le_enc 2 (reserved h)
    ++ le_enc 4 (payload_len h).

Definition header_of (bs : bytes) : FrameHeader :=
  mkFrameHeader (le_dec (take 4 bs)) (le_dec (take 1 (drop 4 bs))) (le_dec (take 1 (drop 5 bs)))
    (le_dec (take 2 (drop 6 bs))) (le_dec (take 4 (drop 8 bs))).

(** ** Messages, errors and callbacks *)
Inductive ErrorCode : Type :=
  | ConnectionRefused | ConnectionLost | BadFrame | PayloadTooLarge | SendFailed | ListenFailed.

Definition JSON : Z := 0.
Definition Binary : Z := 1.

Record Message := mkMessage {
  msg_type : Z;
  payload : bytes;
}.

Inductive Callback : Type :=
  | OnConnect
  | OnMessage (m : Message)
  | OnError (code : ErrorCode)
  | OnDisconnect.

Section Channel.
Context {S T : Type} {HT : Transport S T}.

(** ** [send_raw] and [send] *)
Definition frame_header (ty : Z) (p : bytes) : FrameHeader :=
  mkFrameHeader kMagic kVersion ty 0 (u32 (Z.of_nat (length p))).

Definition send_raw (s : S) (t : T) (ty : Z) (p : bytes) : S * T :=
  let '(s, t) := tr_write s t (header_bytes (frame_header ty p)) in
  match p with [] => (s, t) | _ => tr_write s t p end.

Definition send_binary (s : S) (t : T) (data : bytes) : S * T := send_raw s t Binary data.

(** [body.dump()] is the JSON library's. *)
Definition send_json {J : Type} (dump : J → bytes) (s : S) (t : T) (body : J) : S * T :=
  send_raw s t JSON (dump body).

(** A sequence of messages sent by one thread. *)
Fixpoint send_all (s : S) (t : T) (ms : list Message) : S * T :=
  match ms with
  | [] => (s, t)
  | m :: ms => let '(s, t) := send_raw s t (msg_type m) (payload m) in send_all s t ms
  end.

(** ** [read_loop] *)

(** The callbacks made, whether the loop waits in [read], and the state. *)
Definition LoopResult : Type := list Callback * bool * S * T.

Definition callback (c : Callback) (r : LoopResult) : LoopResult :=
  let '(cs, b, s, t) := r in (c :: cs, b, s, t).

(** What one round of the loop comes to: a message, a wait, or the end with the
    callbacks made on the way. *)
Inductive Iter : Type :=
  | ItNext (m : Message)
  | ItWait
  | ItEnd (cs : list Callback).

Definition read_iter (s : S) (t : T) : Iter * S * T :=
  let '(r, s, t) := tr_read s t kHeaderSize in
  match r with
  | RdBlock => (ItWait, s, t)
  | RdZero => (ItEnd [OnDisconnect], s, t)
  | RdBytes bs =>
      let hdr := header_of bs in
      if negb (magic hdr =? kMagic) || negb (version hdr =? kVersion) then
        (ItEnd [OnError BadFrame; OnDisconnect], s, t)
      else if kMaxPayloadSize <? payload_len hdr then
        (ItEnd [OnError PayloadTooLarge; OnDisconnect], s, t)
      else if payload_len hdr =? 0 then (ItNext (mkMessage (type hdr) []), s, t)
      else
        let '(r, s, t) := tr_read s t (Z.to_nat (payload_len hdr)) in
        match r with
        | RdBlock => (ItWait, s, t)
        | RdZero => (ItEnd [OnDisconnect], s, t)
        | RdBytes p => (ItNext (mkMessage (type hdr) p), s, t)
        end
  end.

(** The loop's test and one round. *)
Definition read_step (s : S) (t : T) : Iter * S * T :=
  if tr_is_connected t then read_iter s t else (ItEnd [OnDisconnect], s, t).

Fixpoint read_loop (fuel : nat) (s : S) (t : T) : res LoopResult :=
  match read_step s t with
  | (ItWait, s, t) => Ok ([], true, s, t)
  | (ItEnd cs, s, t) => Ok (cs, false, s, t)
  | (ItNext m, s, t) =>
      match fuel with
      | O => Err OutOfFuel
      | Datatypes.S fuel => callback (OnMessage m) <$> read_loop fuel s t
      end
  end.
End Channel.

(** ** The bytes of a message on the wire *)
Definition frame (m : Message) : bytes :=
  header_bytes (frame_header (msg_type m) (payload m)) ++ payload m.

(** A message the protocol carries: an 8-bit type and a payload within the cap. *)
Definition wf_message (m : Message) : Prop :=
  fits 8 (msg_type m) ∧ Z.of_nat (length (payload m)) ≤ kMaxPayloadSize.

Section frames.
Lemma length_header_bytes h : length (header_bytes h) = kHeaderSize.
Proof. unfold header_bytes, kHeaderSize. len. Qed.

(** Encoding and decoding a header. *)
Lemma header_of_bytes h :
  fits 32 (magic h) → fits 8 (version h) → fits 8 (type h) → fits 16 (reserved h) →
  fits 32 (payload_len h) → header_of (header_bytes h) = h.
Proof.
  intros H1 H2 H3 H4 H5. destruct h as [m v ty r l]. unfold header_of, header_bytes.
  cbn [magic version type reserved payload_len] in *. unfold fits in *.
  f_equal; cbn [le_enc app take drop]; cbn [le_dec]; zlia.
Qed.

Lemma frame_header_of m :
  wf_message m → header_of (header_bytes (frame_header (msg_type m) (payload m))) =
    mkFrameHeader kMagic kVersion (msg_type m) 0 (Z.of_nat (length (payload m))).
Proof.
  intros [Ht Hl]. unfold kMaxPayloadSize in Hl.
  rewrite header_of_bytes; cbn; try done; [|apply u32_range].
  unfold frame_header. rewrite u32_id by lia. done.
Qed.
End frames.

Section Delivery.
Context {S T : Type} {HT : Transport S T} {HL : StreamLaws S T}.

(** Reading a whole prefix of what has arrived. *)
Lemma tr_read_app s t p rest :
  tr_is_connected t = true → tr_avail s t = p ++ rest → p ≠ [] →
  ∃ s' t', tr_read s t (length p) = (RdBytes p, s', t') ∧
    tr_is_connected t' = true ∧ tr_avail s' t' = rest ∧ (tr_live s t → tr_live s' t').
Proof.
  intros Hc Ha Hp. destruct (tr_read_enough s t (length p) Hc) as (s' & t' & E & Hc' & Ha' & Hl').
  { rewrite Ha. len. destruct p; [done | cbn; lia]. }
  exists s', t'. rewrite E, Ha', Ha, take_app_length, drop_app_length. done.
Qed.

(** One whole frame is one message. *)
Lemma read_step_frame s t m rest :
  wf_message m → tr_is_connected t = true → tr_avail s t = frame m ++ rest →
  ∃ s' t', read_step s t = (ItNext m, s', t') ∧ tr_is_connected t' = true ∧ tr_avail s' t' = rest ∧
    (tr_live s t → tr_live s' t').
Proof.
  intros Hm Hc Ha. unfold frame in Ha. rewrite <- app_assoc in Ha.
  destruct (tr_read_app _ _ _ _ Hc Ha) as (s1 & t1 & E1 & Hc1 & Ha1 & Hl1).
  { intros E. by apply (f_equal length) in E. }
  rewrite length_header_bytes in E1. unfold read_step, read_iter. rewrite Hc, E1.
  rewrite frame_header_of by done. cbn [magic version type payload_len].
  change (negb (kMagic =? kMagic) || negb (kVersion =? kVersion)) with false. cbn match.
  destruct Hm as [_ Hl].
  destruct (Z.ltb_spec kMaxPayloadSize (Z.of_nat (length (payload m)))); [lia|].
  destruct m as [ty [|b p]]; cbn [payload msg_type] in *.
  - exists s1, t1. done.
  - destruct (tr_read_app _ _ _ _ Hc1 Ha1) as (s2 & t2 & E2 & Hc2 & Ha2 & Hl2); [done|].
    destruct (Z.eqb_spec (Z.of_nat (length (b :: p))) 0) as [E|_]; [cbn in E; lia|].
    rewrite Nat2Z.id, E2. exists s2, t2. split_and!; auto.
Qed.

(** Less than a header leaves the loop waiting, or ends it. *)
Lemma read_loop_short fuel s t :
  tr_is_connected t = true → (length (tr_avail s t) < kHeaderSize)%nat →
  ∃ cs b s' t', read_loop fuel s t = Ok (cs, b, s', t') ∧
    (cs = [] ∧ b = true ∨ cs = [OnDisconnect] ∧ b = false) ∧
    (tr_live s t → cs = [] ∧ b = true ∧ tr_is_connected t' = true).
Proof.
  intros Hc Hs. destruct (tr_read_short s t kHeaderSize Hs) as (r & s' & t' & E & Hr & Hl).
  rewrite Hc in Hl. destruct fuel; cbn [read_loop]; unfold read_step, read_iter; rewrite Hc, E;
    destruct Hr as [-> | ->]; do 4 eexists; (split; [done|]); (split; [by auto|]);
    intros Hlive; by destruct (Hl Hlive).
Qed.

Lemma read_loop_frames ms rest : ∀ s t,
  Forall wf_message ms → (length rest < kHeaderSize)%nat →
  tr_is_connected t = true → tr_avail s t = mjoin (frame <$> ms) ++ rest →
  ∃ tl b s' t', read_loop (length ms) s t = Ok ((OnMessage <$> ms) ++ tl, b, s', t') ∧
    (tl = [] ∧ b = true ∨ tl = [OnDisconnect] ∧ b = false) ∧
    (tr_live s t → tl = [] ∧ b = true ∧ tr_is_connected t' = true).
Proof.
  intros s t Hms Hrest. revert s t. induction Hms as [|m ms Hm _ IH]; intros s t Hc Ha.
  - destruct (read_loop_short 0 s t Hc) as (cs & b & s' & t' & E & H); [by rewrite Ha|].
    exists cs, b, s', t'. done.
  - cbn [fmap list_fmap mjoin list_join length] in Ha |- *. rewrite <- app_assoc in Ha.
    destruct (read_step_frame s t m _ Hm Hc Ha) as (s1 & t1 & E & Hc1 & Ha1 & Hl1).
    destruct (IH s1 t1 Hc1 Ha1) as (tl & b & s' & t' & E' & H & Hl).
    exists tl, b, s', t'. cbn [read_loop]. rewrite E. fold (@fmap list _ _ _ frame ms). rewrite E'. auto.
Qed.

(** C6. Whatever sequence of messages was sent, the receiver gets exactly these
    messages, in order and unmodified, and no error: over any transport that
    delivers its bytes in order, however it cuts them, the read loop turns the
    concatenated frames back into the messages, then waits for the rest of an
    incomplete frame (or, if the connection is gone, reports the disconnect). *)
Theorem channel_delivers (ms : list Message) (rest : bytes) (s : S) (t : T) :
  Forall wf_message ms → (length rest < kHeaderSize)%nat →
  tr_is_connected t = true → tr_avail s t = mjoin (frame <$> ms) ++ rest →
  ∃ tl b s' t', read_loop (length ms) s t = Ok ((OnMessage <$> ms) ++ tl, b, s', t') ∧
    (tl = [] ∧ b = true ∨ tl = [OnDisconnect] ∧ b = false).
Proof.
  intros Hms Hrest Hc Ha.
  destruct (read_loop_frames ms rest s t Hms Hrest Hc Ha) as (tl & b & s' & t' & E & H & _). eauto 8.
Qed.

(** C30. A frame over the cap, or with a foreign header, ends the channel.  The
    receiver reports the matching error, then the disconnect, and reads nothing
    more; the payload that follows is never looked at. *)
Theorem channel_rejects (h : FrameHeader) (rest : bytes) (fuel : nat) (s : S) (t : T) :
  fits 32 (magic h) → fits 8 (version h) → fits 8 (type h) → fits 16 (reserved h) →
  fits 32 (payload_len h) →
  magic h ≠ kMagic ∨ version h ≠ kVersion ∨ kMaxPayloadSize < payload_len h →
  tr_is_connected t = true → tr_avail s t = header_bytes h ++ rest →
  ∃ s' t', tr_avail s' t' = rest ∧
    read_loop fuel s t =
      Ok ([OnError (if decide (magic h = kMagic ∧ version h = kVersion)
                    then PayloadTooLarge else BadFrame); OnDisconnect], false, s', t').
Proof.
  intros H1 H2 H3 H4 H5 Hbad Hc Ha.
  destruct (tr_read_app _ _ _ _ Hc Ha) as (s1 & t1 & E1 & _ & Ha1 & _).
  { intros E. by apply (f_equal length) in E. }
  rewrite length_header_bytes in E1. exists s1, t1. split; [done|].
  assert (∀ x, read_step s t = (ItEnd x, s1, t1) → read_loop fuel s t = Ok (x, false, s1, t1)) as Hx
    by (intros x E; destruct fuel; cbn [read_loop]; by rewrite E).
  apply Hx. unfold read_step, read_iter. rewrite Hc, E1, header_of_bytes by done.
  case_decide as Hd.
  - destruct Hd as [Hd1 Hd2]. rewrite Hd1, Hd2. cbn. destruct (Z.ltb_spec kMaxPayloadSize (payload_len h)); [done|].
    exfalso. destruct_or! Hbad; [done | done | lia].
  - destruct (Z.eqb_spec (magic h) kMagic), (Z.eqb_spec (version h) kVersion); cbn; try done.
    by destruct Hd.
Qed.
End Delivery.
