(* ===== verification/TransportInprocess.v ===== *)
(** * TransportInprocess: the in-process transport and its registry

    Models src/ipc/src/transport_inprocess.hpp and transport_inprocess.cpp.  The
    pipes are shared objects: they live in a heap, and the registry and the two
    ends of a channel hold their identities. *)

From stdpp Require Import strings.
From S2P Require Import Prelude Bytes Channel.

(** ** Pipes *)
Record Pipe := mkPipe {
  queue : list bytes;
  closed : bool;
}.
Definition Pipe0 : Pipe := mkPipe [] false.

Abbreviation Heap := (gmap nat Pipe).
Definition pipe (h : Heap) (i : nat) : Pipe := default Pipe0 (h !! i).

(** ** [InProcessTransport] *)
Record End := mkEnd {
  rx : nat;
  tx : nat;
  connected : bool;
  current : bytes;
  current_pos : nat;
}.
Definition End0 (rx tx : nat) : End := mkEnd rx tx true [] 0.
Definition set_connected (e : End) (b : bool) : End :=
  mkEnd (rx e) (tx e) b (current e) (current_pos e).
Definition set_current (e : End) (c : bytes) (pos : nat) : End :=
  mkEnd (rx e) (tx e) (connected e) c pos.

Definition write (h : Heap) (e : End) (data : bytes) : Heap * End :=
  if negb (connected e) then (h, e) else
  let p := pipe h (tx e) in
  if closed p then (h, set_connected e false)
  else (<[tx e := mkPipe (queue p ++ [data]) false]> h, e).

(** The loop of [read]: [out] is what it has copied so far.  Where it waits on
    an empty open pipe the result is [RdBlock]. *)
Fixpoint read_loop_ (fuel : nat) (p : Pipe) (e : End) (n : nat) (out : bytes)
  : res (Rd * Pipe * End) :=
  if (n <=? length out)%nat then Ok (RdBytes out, p, e) else
  match fuel with
  | O => Err OutOfFuel
  | S fuel =>
      if (current_pos e <? length (current e))%nat then
        let k := ((length (current e) - current_pos e) `min` (n - length out))%nat in
        read_loop_ fuel p (set_current e (current e) (current_pos e + k)) n
          (out ++ take k (drop (current_pos e) (current e)))
      else match queue p with
           | [] => if closed p then Ok (RdZero, p, set_connected e false) else Ok (RdBlock, p, e)
           | msg :: q => read_loop_ fuel (mkPipe q (closed p)) (set_current e msg 0) n out
           end
  end.

(** Each queued message costs at most two iterations, so this fuel is enough
    ([read_loop_avail] below). *)
Definition read_fuel (p : Pipe) : nat := 2 * length (queue p) + 2.

Definition read (h : Heap) (e : End) (n : nat) : Rd * Heap * End :=
  let p := pipe h (rx e) in
  match read_loop_ (read_fuel p) p e n [] with
  | Ok (r, p', e') => (r, <[rx e := p']> h, e')
  | Err _ => (RdBlock, h, e)
  end.

(** [close] marks the pipe this end reads from. *)
Definition close (h : Heap) (e : End) : Heap * End :=
  if negb (connected e) then (h, e)
  else (<[rx e := mkPipe (queue (pipe h (rx e))) true]> h, set_connected e false).

#[export] Instance End_transport : Transport Heap End := {
  tr_write := write;
  tr_read := read;
  tr_close := close;
  tr_is_connected := connected;
}.

(** ** The registry *)
Record Registry := mkRegistry {
  heap : Heap;
  next : nat;
  (** server to client, client to server *)
  entries : gmap string (nat * nat);
}.

Definition register_inprocess (r : Registry) (id : string) : Registry :=
  mkRegistry (<[next r := Pipe0]> (<[S (next r) := Pipe0]> (heap r))) (S (S (next r)))
    (<[id := (next r, S (next r))]> (entries r)).

Definition unregister_inprocess (r : Registry) (id : string) : Registry :=
  mkRegistry (heap r) (next r) (delete id (entries r)).

Definition is_inprocess (r : Registry) (id : string) : bool := bool_decide (is_Some (entries r !! id)).

Definition inprocess_listen (r : Registry) (id : string) : res End :=
  match entries r !! id with Some (s2c, c2s) => Ok (End0 c2s s2c) | None => Err Thrown end.

Definition inprocess_connect (r : Registry) (id : string) : res End :=
  match entries r !! id with Some (s2c, c2s) => Ok (End0 s2c c2s) | None => Err Thrown end.

(** ** Reassembly *)
Definition pipe_avail (p : Pipe) (e : End) : bytes :=
  drop (current_pos e) (current e) ++ mjoin (queue p).

Section read.
(** The loop returns the next [n] bytes if they have arrived, and otherwise
    waits or reports the end; it never runs out of fuel. *)
Lemma read_loop_avail n : ∀ fuel p e out,
  (length out ≤ n)%nat →
  ((length out < n)%nat →
   2 * length (queue p) + (if current_pos e <? length (current e) then 2 else 1) ≤ fuel)%nat →
  let k := (n - length out)%nat in
  ∃ r p' e', read_loop_ fuel p e n out = Ok (r, p', e') ∧ closed p' = closed p ∧
    if (k <=? length (pipe_avail p e))%nat
    then r = RdBytes (out ++ take k (pipe_avail p e)) ∧ connected e' = connected e ∧
      pipe_avail p' e' = drop k (pipe_avail p e)
    else r = (if closed p then RdZero else RdBlock) ∧ (closed p = false → connected e' = connected e).
Proof.
  induction fuel as [|fuel IH]; intros p e out Hout Hf; cbn [read_loop_];
    (destruct (Nat.leb_spec n (length out)) as [Hn|Hn];
      [assert (n - length out = 0)%nat as -> by lia;
       exists (RdBytes out), p, e; by rewrite take_0, drop_0, app_nil_r | specialize (Hf Hn)]).
  { case_match; lia. }
  destruct (Nat.ltb_spec (current_pos e) (length (current e))) as [Hp|Hp].
  - set (j := ((length (current e) - current_pos e) `min` (n - length out))%nat).
    set (e1 := set_current e (current e) (current_pos e + j)).
    set (out1 := out ++ take j (drop (current_pos e) (current e))).
    assert (length out1 = length out + j)%nat as Hl1 by (unfold out1, j; len).
    assert (pipe_avail p e = take j (drop (current_pos e) (current e)) ++ pipe_avail p e1) as Hav.
    { unfold pipe_avail. cbn [e1 set_current current current_pos]. rewrite <- drop_drop, app_assoc.
      by rewrite take_drop. }
    assert (length (take j (drop (current_pos e) (current e))) = j) as Hlj by (unfold j; len).
    destruct (IH p e1 out1) as (r & p' & e' & E & Hc & H); [unfold j in *; lia | |].
    { cbn [e1 set_current current current_pos].
      intros Hlt. destruct (Nat.ltb_spec (current_pos e + j) (length (current e))); [|lia].
      unfold j in *. lia. }
    exists r, p', e'. split; [done|]. split; [done|].
    rewrite Hav, length_app, Hlj. rewrite Hl1 in H.
    destruct (Nat.leb_spec (n - (length out + j)) (length (pipe_avail p e1))),
      (Nat.leb_spec (n - length out) (j + length (pipe_avail p e1))); try (unfold j in *; lia);
      [|done].
    destruct H as (-> & H2 & ->). split_and!; [| done |].
    + f_equal. unfold out1. rewrite <- app_assoc. f_equal. rewrite take_app, Hlj.
      rewrite (take_ge (take j _)) by (rewrite Hlj; unfold j; lia).
      do 2 f_equal. lia.
    + rewrite drop_app, Hlj. rewrite (drop_ge (take j _)) by (rewrite Hlj; unfold j; lia).
      cbn. f_equal. lia.
  - assert (drop (current_pos e) (current e) = []) as Hd by by apply drop_ge.
    unfold pipe_avail. rewrite Hd. cbn [app].
    destruct (queue p) as [|msg q] eqn:Hq; cbn [mjoin list_join length] in *.
    + rewrite (proj2 (Nat.leb_gt (n - length out) 0)) by lia.
      destruct (closed p) eqn:Hcl; do 3 eexists; (split; [done|]); (split; [done|]); done.
    + destruct (IH (mkPipe q (closed p)) (set_current e msg 0) out) as (r & p' & e' & E & Hc & H);
        [lia | cbn; case_match; lia |].
      exists r, p', e'. split; [done|]. split; [done|].
      unfold pipe_avail in H. cbn in H. rewrite drop_0 in H. exact H.
Qed.
End read.

Definition avail (h : Heap) (e : End) : bytes := pipe_avail (pipe h (rx e)) e.

Section stream.
Lemma pipe_insert h i p : pipe (<[i := p]> h) i = p.
Proof. unfold pipe. by rewrite lookup_insert_eq. Qed.

Lemma pipe_insert_ne h i j p : i ≠ j → pipe (<[i := p]> h) j = pipe h j.
Proof. intros. unfold pipe. by rewrite lookup_insert_ne. Qed.

(** The loop leaves the identities of the end alone. *)
Lemma read_loop_rx n : ∀ fuel p e out r p' e',
  read_loop_ fuel p e n out = Ok (r, p', e') → rx e' = rx e ∧ tx e' = tx e.
Proof.
  induction fuel as [|fuel IH]; intros p e out r p' e' H; cbn [read_loop_] in H;
    (destruct (n <=? length out)%nat; [by simplify_eq|]); [done|].
  case_match; [by apply IH in H|]. destruct (queue p) as [|msg q]; [|by apply IH in H].
  destruct (closed p); by simplify_eq.
Qed.

Lemma read_spec h e n :
  ∃ r h' e', read h e n = (r, h', e') ∧ closed (pipe h' (rx e)) = closed (pipe h (rx e)) ∧
    rx e' = rx e ∧
    if (n <=? length (avail h e))%nat
    then r = RdBytes (take n (avail h e)) ∧ connected e' = connected e ∧
      avail h' e' = drop n (avail h e)
    else r = (if closed (pipe h (rx e)) then RdZero else RdBlock) ∧
      (closed (pipe h (rx e)) = false → connected e' = connected e).
Proof.
  destruct (read_loop_avail n (read_fuel (pipe h (rx e))) (pipe h (rx e)) e [])
    as (r & p' & e' & E & Hc & H); [cbn; lia | unfold read_fuel; case_match; lia |].
  destruct (read_loop_rx _ _ _ _ _ _ _ _ E) as [Hrx _].
  exists r, (<[rx e := p']> h), e'. unfold read. rewrite E, pipe_insert.
  cbn [length] in H. rewrite Nat.sub_0_r in H. split_and!; try done.
  unfold avail. rewrite Hrx, pipe_insert. exact H.
Qed.
End stream.

#[export] Instance End_stream : StreamLaws Heap End.
Proof.
  refine {| tr_avail := avail; tr_live := λ h e, closed (pipe h (rx e)) = false |}.
  - intros h e n Hc Hn. destruct (read_spec h e n) as (r & h' & e' & E & Hcl & Hrx & H).
    rewrite (proj2 (Nat.leb_le _ _)) in H by lia. destruct H as (-> & H1 & H2).
    exists h', e'. split; [exact E|]. cbn in *. rewrite H1, Hrx, Hcl. done.
  - intros h e n Hn. destruct (read_spec h e n) as (r & h' & e' & E & _ & _ & H).
    rewrite (proj2 (Nat.leb_gt _ _)) in H by lia. destruct H as [-> Hc].
    exists (if closed (pipe h (rx e)) then RdZero else RdBlock), h', e'. split; [exact E|].
    split; [case_match; auto|]. intros Ho. rewrite Ho. auto.
Defined.

Section sending.
Lemma mjoin_snoc (q : list bytes) (x : bytes) : mjoin (q ++ [x]) = mjoin q ++ x.
Proof. induction q as [|y q IH]; cbn; [by rewrite app_nil_r|].
  rewrite <- app_assoc. f_equal. exact IH.
Qed.

Lemma write_open h e data :
  connected e = true → closed (pipe h (tx e)) = false →
  write h e data = (<[tx e := mkPipe (queue (pipe h (tx e)) ++ [data]) false]> h, e).
Proof. intros Hc Hp. unfold write. by rewrite Hc, Hp. Qed.

(** Sending appends the frames to the pipe this end writes to. *)
Lemma send_all_avail ms : ∀ h e e' : _,
  connected e = true → closed (pipe h (tx e)) = false → rx e' = tx e →
  ∃ h', send_all (S := Heap) h e ms = (h', e) ∧ closed (pipe h' (tx e)) = false ∧
    (∀ i, i ≠ tx e → pipe h' i = pipe h i) ∧
    avail h' e' = avail h e' ++ mjoin (frame <$> ms).
Proof.
  induction ms as [|m ms IH]; intros h e e' Hc Hp He; cbn [send_all].
  - exists h. split_and!; try done. cbn. by rewrite app_nil_r.
  - assert (∃ h1, send_raw (S := Heap) h e (msg_type m) (payload m) = (h1, e) ∧
      closed (pipe h1 (tx e)) = false ∧ (∀ i, i ≠ tx e → pipe h1 i = pipe h i) ∧
      avail h1 e' = avail h e' ++ frame m) as (h1 & E1 & C1 & O1 & A1).
    { unfold send_raw. cbn [tr_write End_transport]. rewrite write_open by done.
      set (h1 := <[tx e := _]> h).
      assert (pipe h1 (tx e) = mkPipe (queue (pipe h (tx e)) ++
        [header_bytes (frame_header (msg_type m) (payload m))]) false) as P1 by apply pipe_insert.
      unfold frame. destruct (payload m) as [|b p] eqn:Hpm.
      - exists h1. split_and!; [done | by rewrite P1 | |].
        + intros i Hi. apply pipe_insert_ne. done.
        + unfold avail, pipe_avail. rewrite He, P1. cbn [queue].
          by rewrite mjoin_snoc, app_nil_r, app_assoc.
      - rewrite write_open by (done || by rewrite P1). eexists. split; [done|].
        rewrite pipe_insert. split_and!; [done | |].
        + intros i Hi. rewrite pipe_insert_ne by done. by apply pipe_insert_ne.
        + unfold avail, pipe_avail. rewrite He, pipe_insert, P1. cbn [queue].
          by rewrite !mjoin_snoc, !app_assoc. }
    rewrite E1. destruct (IH h1 e e' Hc C1 He) as (h2 & E2 & C2 & O2 & A2).
    exists h2. split_and!; [done | done | |].
    + intros i Hi. by rewrite O2, O1.
    + rewrite A2, A1, <- app_assoc. done.
Qed.

(** The client of a freshly registered channel fills the pipe its server reads. *)
Lemma fresh_sent r ms :
  let h := <[next r := Pipe0]> (<[S (next r) := Pipe0]> (heap r)) in
  let cli := End0 (next r) (S (next r)) in
  let srv := End0 (S (next r)) (next r) in
  ∃ h1, send_all (S := Heap) h cli ms = (h1, cli) ∧ closed (pipe h1 (rx srv)) = false ∧
    avail h1 srv = mjoin (frame <$> ms).
Proof.
  intros h cli srv. assert (pipe h (S (next r)) = Pipe0) as Hp.
  { unfold h. rewrite pipe_insert_ne by lia. apply pipe_insert. }
  destruct (send_all_avail ms h cli srv) as (h1 & E & Hcl & _ & Ha);
    [done | by cbn; rewrite Hp | done |].
  exists h1. split_and!; [done..|]. rewrite Ha. unfold avail, pipe_avail. cbn. by rewrite Hp.
Qed.
End sending.

(** ** Properties *)

(** C29. Messages sent through an in-process channel arrive.  On a freshly
    registered channel, whatever the client sends is delivered to the server's
    callbacks, exactly and in order, however the transport splits frames over
    its queue and the reads; the server then waits for more. *)
Theorem inprocess_roundtrip (r : Registry) (id : string) (ms : list Message) :
  Forall wf_message ms →
  ∃ srv cli, inprocess_listen (register_inprocess r id) id = Ok srv ∧
    inprocess_connect (register_inprocess r id) id = Ok cli ∧
    let '(h, _) := send_all (heap (register_inprocess r id)) cli ms in
    ∃ h' srv', read_loop (length ms) h srv = Ok (OnMessage <$> ms, true, h', srv').
Proof.
  intros Hms. unfold inprocess_listen, inprocess_connect. cbn. rewrite lookup_insert_eq.
  do 2 eexists. split; [done|]. split; [done|].
  destruct (fresh_sent r ms) as (h1 & E & Hcl & Ha). rewrite E.
  set (srv := End0 (S (next r)) (next r)) in *.
  destruct (read_loop_frames ms [] h1 srv) as (tl & b & h' & srv' & E' & _ & H); [done | unfold kHeaderSize; cbn; lia | done | |].
  { rewrite app_nil_r. exact Ha. }
  destruct (H Hcl) as (-> & -> & _).
  rewrite app_nil_r in E'. eauto.
Qed.

(** Closing one end does not end the other.  [close] marks only the pipe
    the closing end reads from, so the peer, which reads from the other one,
    receives what was sent before, and then waits for good: its read loop makes
    no disconnect callback and it still reports itself connected. *)
Theorem inprocess_close_unseen (r : Registry) (id : string) (ms : list Message) :
  Forall wf_message ms →
  ∃ srv cli, inprocess_listen (register_inprocess r id) id = Ok srv ∧
    inprocess_connect (register_inprocess r id) id = Ok cli ∧
    let '(h, cli) := send_all (heap (register_inprocess r id)) cli ms in
    let '(h, cli) := close h cli in
    ∃ h' srv', read_loop (length ms) h srv = Ok (OnMessage <$> ms, true, h', srv') ∧
      connected cli = false ∧ connected srv' = true.
Proof.
  intros Hms. unfold inprocess_listen, inprocess_connect. cbn. rewrite lookup_insert_eq.
  do 2 eexists. split; [done|]. split; [done|].
  set (cli := End0 (next r) (S (next r))). set (srv := End0 (S (next r)) (next r)).
  set (h := <[next r := Pipe0]> (<[S (next r) := Pipe0]> (heap r))).
  destruct (fresh_sent r ms) as (h1 & E & Hcl & Ha). fold cli h srv in E, Hcl, Ha. rewrite E.
  unfold close. cbn [cli connected End0 negb rx].
  set (h2 := <[next r := _]> h1).
  assert (pipe h2 (S (next r)) = pipe h1 (S (next r))) as Hp2 by (apply pipe_insert_ne; lia).
  destruct (read_loop_frames ms [] h2 srv) as (tl & b & h' & srv' & E' & _ & H); [done | unfold kHeaderSize; cbn; lia | done | |].
  { rewrite app_nil_r. change (avail h2 srv = mjoin (frame <$> ms)). rewrite <- Ha.
    unfold avail. cbn [srv rx End0]. by rewrite Hp2. }
  destruct H as (-> & -> & Hc); [cbn; by rewrite Hp2|].
  rewrite app_nil_r in E'. eauto 6.
Qed.

(** ** Witnesses *)
Definition ix_registry : Registry := mkRegistry ∅ 0 ∅.
Definition ix_messages : list Message := [mkMessage Binary [1; 2; 3]; mkMessage JSON [34; 34]].

Lemma ix_wf : Forall wf_message ix_messages.
Proof. repeat constructor; cbn; done. Qed.

Lemma inprocess_roundtrip_witness :
  ∃ srv cli, inprocess_listen (register_inprocess ix_registry "app") "app" = Ok srv ∧
    inprocess_connect (register_inprocess ix_registry "app") "app" = Ok cli ∧
    let '(h, _) := send_all (heap (register_inprocess ix_registry "app")) cli ix_messages in
    ∃ h' srv', read_loop 2 h srv = Ok (OnMessage <$> ix_messages, true, h', srv').
Proof. exact (inprocess_roundtrip ix_registry "app" ix_messages ix_wf). Defined.

Lemma inprocess_close_unseen_witness :
  ∃ srv cli, inprocess_listen (register_inprocess ix_registry "app") "app" = Ok srv ∧
    inprocess_connect (register_inprocess ix_registry "app") "app" = Ok cli ∧
    let '(h, cli) := send_all (heap (register_inprocess ix_registry "app")) cli ix_messages in
    let '(h, cli) := close h cli in
    ∃ h' srv', read_loop 2 h srv = Ok (OnMessage <$> ix_messages, true, h', srv') ∧
      connected cli = false ∧ connected srv' = true.
Proof. exact (inprocess_close_unseen ix_registry "app" ix_messages ix_wf). Defined.
