(* ===== verification/TransportUnix.v ===== *)
(** * TransportUnix: the Unix-socket transport

    Models [UnixTransport] of src/ipc/src/transport_unix.hpp and
    transport_unix.cpp: the read and write loops over [::read] and [::write],
    and [close].  The kernel is an interface; making sockets is in
    UnixSocket. *)

From S2P Require Import Prelude Bytes Channel.

(** ** Stream sockets of the kernel

    [SrFail] is a return value of 0 or below; [SrBlock] that the call waits. *)
Inductive Sr : Type :=
  | SrBytes (bs : bytes)
  | SrFail
  | SrBlock.

Class Kernel (K : Type) := {
  sys_read : K → Z → nat → Sr * K;
  sys_write : K → Z → bytes → option nat * K;
  sys_close : K → Z → K;
}.

(** [::read] returns between 1 and [n] of the bytes that have arrived, and
    none only if there are none; [::write] takes a non-empty prefix or fails. *)
Class KernelLaws (K : Type) `{Kernel K} := {
  incoming : K → Z → bytes;
  outgoing : K → Z → bytes;
  alive : K → Z → Prop;
  sys_read_some : ∀ k fd n,
    (0 < n)%nat → incoming k fd ≠ [] →
    ∃ bs k', sys_read k fd n = (SrBytes bs, k') ∧ (0 < length bs ≤ n)%nat ∧
      incoming k fd = bs ++ incoming k' fd ∧ (alive k fd → alive k' fd);
  sys_read_none : ∀ k fd n,
    (0 < n)%nat → incoming k fd = [] →
    ∃ r k', sys_read k fd n = (r, k') ∧ (r = SrFail ∨ r = SrBlock) ∧ (alive k fd → r = SrBlock);
  sys_write_spec : ∀ k fd data,
    data ≠ [] →
    ∃ r k', sys_write k fd data = (r, k') ∧
      match r with
      | Some n => (0 < n ≤ length data)%nat ∧ outgoing k' fd = outgoing k fd ++ take n data
      | None => outgoing k' fd = outgoing k fd
      end;
}.

(** ** [UnixTransport] *)
Record UnixTransport := mkUnix {
  fd : Z;
  connected : bool;
}.

Definition disconnect (t : UnixTransport) : UnixTransport := mkUnix (fd t) false.

Section Unix.
Context {K : Type} {HK : Kernel K}.

(** The loops make progress with every call, so one iteration per byte is
    enough fuel. *)
Fixpoint write_loop (fuel : nat) (k : K) (t : UnixTransport) (data : bytes)
  : res (K * UnixTransport) :=
  match data with
  | [] => Ok (k, t)
  | _ =>
      match fuel with
      | O => Err OutOfFuel
      | S fuel =>
          match sys_write k (fd t) data with
          | (Some n, k) => if (n =? 0)%nat then Ok (k, disconnect t)
                           else write_loop fuel k t (drop n data)
          | (None, k) => Ok (k, disconnect t)
          end
      end
  end.

Definition write (k : K) (t : UnixTransport) (data : bytes) : K * UnixTransport :=
  match write_loop (length data) k t data with Ok r => r | Err _ => (k, t) end.

Fixpoint read_loop_ (fuel : nat) (k : K) (t : UnixTransport) (n : nat) (out : bytes)
  : res (Rd * K * UnixTransport) :=
  if (n <=? length out)%nat then Ok (RdBytes out, k, t) else
  match fuel with
  | O => Err OutOfFuel
  | S fuel =>
      match sys_read k (fd t) (n - length out) with
      | (SrBytes bs, k) => read_loop_ fuel k t n (out ++ bs)
      | (SrFail, k) => Ok (RdZero, k, disconnect t)
      | (SrBlock, k) => Ok (RdBlock, k, t)
      end
  end.

Definition read (k : K) (t : UnixTransport) (n : nat) : Rd * K * UnixTransport :=
  match read_loop_ n k t n [] with Ok r => r | Err _ => (RdBlock, k, t) end.

(** [connected_.exchange(false)] guards the [::close]. *)
Definition close (k : K) (t : UnixTransport) : K * UnixTransport :=
  if connected t then (sys_close k (fd t), disconnect t) else (k, t).

#[export] Instance Unix_transport : Transport K UnixTransport := {
  tr_write := write;
  tr_read := read;
  tr_close := close;
  tr_is_connected := connected;
}.

Section laws.
Context {HL : KernelLaws K}.

Lemma read_loop_spec n : ∀ fuel k t out,
  (length out ≤ n)%nat → (n - length out ≤ fuel)%nat →
  let j := (n - length out)%nat in
  ∃ r k' t', read_loop_ fuel k t n out = Ok (r, k', t') ∧ fd t' = fd t ∧
    if (j <=? length (incoming k (fd t)))%nat
    then r = RdBytes (out ++ take j (incoming k (fd t))) ∧ t' = t ∧
      incoming k' (fd t) = drop j (incoming k (fd t)) ∧ (alive k (fd t) → alive k' (fd t))
    else (r = RdZero ∧ t' = disconnect t ∨ r = RdBlock ∧ t' = t) ∧
      (alive k (fd t) → r = RdBlock).
Proof.
  induction fuel as [|fuel IH]; intros k t out Hout Hf; cbn [read_loop_];
    (destruct (Nat.leb_spec n (length out)) as [Hn|Hn];
      [assert (n - length out = 0)%nat as -> by lia;
       exists (RdBytes out), k, t; by rewrite take_0, drop_0, app_nil_r|]); [lia|].
  destruct (decide (incoming k (fd t) = [])) as [He|Hne].
  - destruct (sys_read_none k (fd t) (n - length out)) as (r & k' & E & Hr & Ha); [lia | done|].
    rewrite E, He. cbn [length]. rewrite (proj2 (Nat.leb_gt (n - length out) 0)) by lia.
    destruct Hr as [-> | ->]; do 3 eexists; (split; [done|]); (split; [done|]);
      (split; [by auto|]); [|done]. intros H. by specialize (Ha H).
  - destruct (sys_read_some k (fd t) (n - length out)) as (bs & k' & E & Hbs & Hin & Ha); [lia | done|].
    rewrite E. destruct (IH k' t (out ++ bs)) as (r & k2 & t2 & E2 & Hfd & H); [len | len |].
    exists r, k2, t2. split; [done|]. split; [done|].
    rewrite Hin, length_app. rewrite length_app, Nat.sub_add_distr in H.
    set (j := (n - length out)%nat) in *.
    destruct (Nat.leb_spec (j - length bs) (length (incoming k' (fd t)))),
      (Nat.leb_spec j (length bs + length (incoming k' (fd t)))); try lia.
    + destruct H as (-> & -> & Hi & Ha'). split_and!; [|done| |auto].
      * rewrite <- app_assoc. do 2 f_equal. rewrite take_app.
        by rewrite (take_ge bs) by lia.
      * rewrite Hi, drop_app. by rewrite (drop_ge bs) by lia.
    + destruct H as [Ha1 Ha2]. auto.
Qed.

Lemma unix_read_spec k t n :
  ∃ r k' t', read k t n = (r, k', t') ∧ fd t' = fd t ∧
    if (n <=? length (incoming k (fd t)))%nat
    then r = RdBytes (take n (incoming k (fd t))) ∧ t' = t ∧
      incoming k' (fd t) = drop n (incoming k (fd t)) ∧ (alive k (fd t) → alive k' (fd t))
    else (r = RdZero ∧ t' = disconnect t ∨ r = RdBlock ∧ t' = t) ∧
      (alive k (fd t) → r = RdBlock).
Proof.
  destruct (read_loop_spec n n k t []) as (r & k' & t' & E & H); [cbn; lia..|].
  unfold read. rewrite E. cbn [length] in H. rewrite Nat.sub_0_r in H. exists r, k', t'. done.
Qed.

#[export] Instance Unix_stream : StreamLaws K UnixTransport.
Proof.
  refine {| tr_avail := λ k t, incoming k (fd t); tr_live := λ k t, alive k (fd t) |}.
  - intros k t n Hc Hn. destruct (unix_read_spec k t n) as (r & k' & t' & E & Hfd & H).
    rewrite (proj2 (Nat.leb_le _ _)) in H by lia. destruct H as (-> & -> & Hi & Ha).
    exists k', t. done.
  - intros k t n Hn. destruct (unix_read_spec k t n) as (r & k' & t' & E & Hfd & H).
    rewrite (proj2 (Nat.leb_gt _ _)) in H by lia. destruct H as [Hr Ha].
    exists r, k', t'. split; [exact E|]. destruct Hr as [[-> ->]|[-> ->]]; [|auto].
    split; [by left|]. intros Hl. by specialize (Ha Hl).
Defined.

Lemma write_loop_spec : ∀ fuel k t data,
  (length data ≤ fuel)%nat →
  ∃ k' t' m, write_loop fuel k t data = Ok (k', t') ∧ fd t' = fd t ∧ (m ≤ length data)%nat ∧
    outgoing k' (fd t) = outgoing k (fd t) ++ take m data ∧
    (m = length data ∧ t' = t ∨ t' = disconnect t).
Proof.
  induction fuel as [|fuel IH]; intros k t data Hf; destruct data as [|b data]; cbn [write_loop].
  1,3: exists k, t, 0%nat; rewrite app_nil_r; (split_and!; [done|done|done|done|by left]).
  { cbn in Hf. lia. }
  destruct (sys_write_spec k (fd t) (b :: data)) as (r & k1 & E & H); [done|]. rewrite E.
  destruct r as [n|].
  - destruct H as [Hn Ho]. destruct (Nat.eqb_spec n 0); [lia|].
    destruct (IH k1 t (drop n (b :: data))) as (k' & t' & m & E' & Hfd & Hm & Ho' & Ht); [len|].
    exists k', t', (n + m)%nat. split; [done|]. split; [done|].
    rewrite length_drop in *. split; [lia|]. split.
    + rewrite Ho', Ho, <- app_assoc. f_equal.
      rewrite <- (take_drop n (b :: data)) at 3. rewrite take_app.
      rewrite (take_ge (take n _)) by len. do 2 f_equal. len.
    + destruct Ht as [[-> ->]|]; [left; split; [lia|done] | by right].
  - exists k1, (disconnect t), 0%nat. rewrite app_nil_r. split_and!; try done; [cbn; lia | by right].
Qed.
End laws.
End Unix.

(** ** Properties *)

(** The transport transfers whole buffers.  [read] fills the buffer with the
    next bytes of the stream, however the kernel cuts them, or returns 0 and
    marks the transport disconnected, or waits; [write] hands the kernel all
    the data in order and keeps the connection, or a prefix of it and marks the
    transport disconnected.  Both loops end. *)
Theorem unix_transfers {K : Type} {HK : Kernel K} {HL : KernelLaws K}
    (k : K) (t : UnixTransport) (n : nat) (data : bytes) :
  (∃ r k' t', read_loop_ n k t n [] = Ok (r, k', t') ∧ read k t n = (r, k', t') ∧
     (r = RdBytes (take n (incoming k (fd t))) ∧ (n ≤ length (incoming k (fd t)))%nat ∧ t' = t ∧
        incoming k' (fd t) = drop n (incoming k (fd t)) ∨
      r = RdZero ∧ t' = disconnect t ∧ (length (incoming k (fd t)) < n)%nat ∨
      r = RdBlock ∧ t' = t ∧ (length (incoming k (fd t)) < n)%nat)) ∧
  (∃ k' t' m, write_loop (length data) k t data = Ok (k', t') ∧ write k t data = (k', t') ∧
     outgoing k' (fd t) = outgoing k (fd t) ++ take m data ∧
     (m = length data ∧ t' = t ∨ (m ≤ length data)%nat ∧ t' = disconnect t)).
Proof.
  split.
  - destruct (read_loop_spec n n k t []) as (r & k' & t' & E & _ & H); [cbn; lia..|].
    cbn [length] in H. rewrite Nat.sub_0_r in H.
    exists r, k', t'. split; [done|]. unfold read. rewrite E. split; [done|].
    destruct (Nat.leb_spec n (length (incoming k (fd t)))).
    + destruct H as (-> & -> & Hi & _). by left.
    + destruct H as [[[-> ->]|[-> ->]] _]; right; [left | right]; done.
  - destruct (write_loop_spec (length data) k t data) as (k' & t' & m & E & _ & Hm & Ho & Ht); [lia|].
    exists k', t', m. split; [done|]. unfold write. rewrite E. split_and!; [done..|].
    destruct Ht as [[-> ->]| ->]; auto.
Qed.

(** A peer that hangs up costs a descriptor.  A read that fails has already
    marked the transport disconnected, so neither [close] nor the destructor
    calls [::close] on the socket afterwards. *)
Theorem unix_fd_leak {K : Type} {HK : Kernel K} (k k' : K) (t t' : UnixTransport) (n : nat) :
  read k t n = (RdZero, k', t') → close k' t' = (k', t').
Proof.
  intros H. assert (connected t' = false) as Hc; [|by unfold close; rewrite Hc].
  unfold read in H. destruct (read_loop_ n k t n []) as [[[r k1] t1]|] eqn:E; [|done].
  injection H as -> -> ->. revert E. generalize n at 1. intros fuel. generalize (@nil Z).
  revert k. induction fuel as [|fuel IH]; intros k out; cbn [read_loop_];
    (destruct (n <=? length out)%nat; [done|]); [done|].
  destruct (sys_read k (fd t) (n - length out)) as [[bs| |] k1].
  - apply IH.
  - by intros [= <- <-].
  - done.
Qed.

(** ** A kernel of loopback sockets

    Received chunks per descriptor, bytes sent, and closed descriptors; a read
    returns at most the first chunk, a write takes at most 4 bytes; writes to
    descriptor 9 fail. *)
Record Sockets := mkSockets {
  chunks : list bytes;
  sent : bytes;
  hung_up : bool;
  closed_fds : list Z;
}.

Fixpoint next_chunk (cs : list bytes) (n : nat) : bytes * list bytes :=
  match cs with
  | [] => ([], [])
  | [] :: cs => next_chunk cs n
  | c :: cs => (take n c, drop n c :: cs)
  end.

#[export] Instance Sockets_kernel : Kernel Sockets := {
  sys_read k _ n :=
    match next_chunk (chunks k) n with
    | ([], cs) => (if hung_up k then SrFail else SrBlock, k)
    | (bs, cs) => (SrBytes bs, mkSockets cs (sent k) (hung_up k) (closed_fds k))
    end;
  sys_write k fd data :=
    if fd =? 9 then (None, k)
    else (Some (4 `min` length data)%nat,
          mkSockets (chunks k) (sent k ++ take 4 data) (hung_up k) (closed_fds k));
  sys_close k fd := mkSockets (chunks k) (sent k) (hung_up k) (fd :: closed_fds k);
}.

Lemma next_chunk_spec cs n :
  (0 < n)%nat →
  let '(bs, cs') := next_chunk cs n in
  mjoin cs = bs ++ mjoin cs' ∧ (length bs ≤ n)%nat ∧ (bs = [] → mjoin cs = []).
Proof.
  intros Hn. induction cs as [|[|b c] cs IH]; cbn [next_chunk];
    [split_and!; [done | cbn; lia | done] | exact IH |].
  split_and!; [|len|]; cbn [mjoin list_join].
  - by rewrite app_assoc, take_drop.
  - destruct n; [lia | done].
Qed.

#[export] Instance Sockets_laws : KernelLaws Sockets.
Proof.
  refine {| incoming := λ k _, mjoin (chunks k); outgoing := λ k _, sent k;
            alive := λ k _, hung_up k = false |}.
  - intros k fd n Hn Hne. cbn. pose proof (next_chunk_spec (chunks k) n Hn) as H.
    destruct (next_chunk (chunks k) n) as [[|b bs] cs']; destruct H as (H1 & H2 & H3).
    + by specialize (H3 eq_refl).
    + do 2 eexists. split; [done|]. cbn. split; [cbn in H2; lia|]. done.
  - intros k fd n Hn He. cbn. pose proof (next_chunk_spec (chunks k) n Hn) as H.
    destruct (next_chunk (chunks k) n) as [[|b bs] cs']; destruct H as (H1 & H2 & H3).
    + do 2 eexists. split; [done|]. destruct (hung_up k); (split; [by auto | done]).
    + rewrite He in H1. done.
  - intros k fd data Hne. cbn [sys_write Sockets_kernel]. destruct (fd =? 9).
    + by do 2 eexists.
    + assert (0 < length data)%nat by (destruct data; [done | cbn; lia]).
      do 2 eexists. split; [done|]. cbn [sent]. split.
      * lia.
      * f_equal. destruct (decide (length data ≤ 4)%nat).
        -- by rewrite !take_ge by lia.
        -- by rewrite Nat.min_l by lia.
Defined.

(** ** Witnesses *)
Definition ux_sockets : Sockets := mkSockets [[1; 2]; []; [3]] [] true [].
Definition ux_unix : UnixTransport := mkUnix 3 true.

Lemma unix_fd_leak_witness :
  read ux_sockets ux_unix 4 = (RdZero, mkSockets [[]] [] true [], disconnect ux_unix) ∧
  close (mkSockets [[]] [] true []) (disconnect ux_unix) =
    (mkSockets [[]] [] true [], disconnect ux_unix).
Proof.
  assert (read ux_sockets ux_unix 4 = (RdZero, mkSockets [[]] [] true [], disconnect ux_unix)) as E
    by by vm_compute.
  split; [exact E | exact (unix_fd_leak _ _ _ _ _ E)].
Defined.

(** Two messages over a socket that delivers them in odd pieces. *)
Definition ux_messages : list Message := [mkMessage JSON [123; 125]; mkMessage Binary []].
Definition ux_wire : bytes := Eval vm_compute in mjoin (frame <$> ux_messages).
Definition ux_stream : Sockets := mkSockets [take 5 ux_wire; drop 5 ux_wire; [65]] [] false [].

Lemma channel_delivers_witness :
  ∃ tl b (s' : Sockets) t',
    read_loop 2 ux_stream ux_unix =
      Ok ([OnMessage (mkMessage JSON [123; 125]); OnMessage (mkMessage Binary [])] ++ tl, b, s', t') ∧
    (tl = [] ∧ b = true ∨ tl = [OnDisconnect] ∧ b = false).
Proof.
  apply (channel_delivers ux_messages [65] ux_stream ux_unix).
  - repeat constructor; cbn; done.
  - unfold kHeaderSize. cbn. lia.
  - reflexivity.
  - reflexivity.
Defined.

Lemma channel_rejects_witness :
  ∃ (s' : Sockets) t', tr_avail s' t' = [7] ∧
    read_loop 0 (mkSockets [header_bytes (mkFrameHeader kMagic 1 1 0 0x4000001) ++ [7]] [] false [])
      ux_unix = Ok ([OnError PayloadTooLarge; OnDisconnect], false, s', t').
Proof.
  apply (channel_rejects (mkFrameHeader kMagic 1 1 0 0x4000001) [7] 0
    (mkSockets [header_bytes (mkFrameHeader kMagic 1 1 0 0x4000001) ++ [7]] [] false []) ux_unix);
    try done.
  right. right. done.
Defined.
