(* ===== verification/IpcPeer.v ===== *)
(** * IpcPeer: the server and the client of an IPC channel

    Models [Server] and [Client] (src/ipc/include/ipc/ipc.hpp, src/ipc/src/server.cpp
    and client.cpp) and the threads of [Channel] (channel.cpp).  The two classes
    differ in how they acquire a transport and in the error they report when
    that fails; [Peer] has both as parameters.

    Three threads act on a peer: the user's, the accept (or connect) thread and
    the channel's read thread.  A step is one thread's next action, or a change
    of the shared state [S] by the rest of the world.  The user's callbacks are
    all set; the log is the callbacks made, in order. *)

From stdpp Require Import relations.
From S2P Require Import Prelude Bytes Channel TransportUnix.

(** The accept thread: in [*_listen] or [*_connect]; with the transport; with the
    channel set; with the channel started; returned. *)
Inductive AcceptPhase : Type := Idle | Acquiring | SetUp | Starting | Announcing | Returned.

(** The read thread: not started; in its loop; returned. *)
Inductive ReadPhase : Type := NotStarted | Looping | Ended.

(** The user's thread: free to call; in [stop], joining the read thread; joining
    the accept thread; back from [stop]. *)
Inductive UserPhase : Type := Free | JoinReader | JoinAccept | Stopped.

Section Peer.
Context {S T : Type} {HT : Transport S T}.

(** ** A peer *)
Record Peer := mkPeer {
  accept : AcceptPhase;
  transport : option T;
  channel : option T;
  reader : ReadPhase;
  user : UserPhase;
  log : list Callback;
}.
Definition Peer0 : Peer := mkPeer Idle None None NotStarted Free [].
Definition say (p : Peer) (cs : list Callback) : list Callback := log p ++ cs.

(** What acquiring a transport does: wait, or return one, or throw. *)
Variable acquire : S → option (S * option T).
(** [ListenFailed] or [ConnectionRefused]. *)
Variable fail_code : ErrorCode.

(** [listen] (or [connect]) starts the accept thread. *)
Definition listen (p : Peer) : Peer :=
  mkPeer Acquiring (transport p) (channel p) (reader p) (user p) (log p).

(** The next action of the accept thread. *)
Definition accept_step (s : S) (p : Peer) : option (S * Peer) :=
  match accept p with
  | Acquiring =>
      match acquire s with
      | None => None
      | Some (s, Some t) => Some (s, mkPeer SetUp (Some t) (channel p) (reader p) (user p) (log p))
      | Some (s, None) =>
          Some (s, mkPeer Returned None (channel p) (reader p) (user p) (say p [OnError fail_code]))
      end
  | SetUp => Some (s, mkPeer Starting None (transport p) (reader p) (user p) (log p))
  | Starting => Some (s, mkPeer Announcing None (channel p) Looping (user p) (log p))
  | Announcing => Some (s, mkPeer Returned None (channel p) (reader p) (user p) (say p [OnConnect]))
  | Idle | Returned => None
  end.

(** The next action of the read thread. *)
Definition reader_step (s : S) (p : Peer) : option (S * Peer) :=
  match reader p, channel p with
  | Looping, Some t =>
      match read_step s t with
      | (ItNext m, s, t) =>
          Some (s, mkPeer (accept p) (transport p) (Some t) Looping (user p) (say p [OnMessage m]))
      | (ItWait, s, t) => None
      | (ItEnd cs, s, t) =>
          Some (s, mkPeer (accept p) (transport p) (Some t) Ended (user p) (say p cs))
      end
  | _, _ => None
  end.

(** [send]: nothing is sent while there is no channel. *)
Definition send (ty : Z) (data : bytes) (s : S) (p : Peer) : S * Peer :=
  match channel p with
  | None => (s, p)
  | Some t =>
      let '(s, t) := send_raw s t ty data in
      (s, mkPeer (accept p) (transport p) (Some t) (reader p) (user p) (log p))
  end.

(** [stop] closes the transport of the channel, if there is one, joins the read
    thread if it was started, and then the accept thread. *)
Definition stop (s : S) (p : Peer) : S * Peer :=
  match channel p with
  | None => (s, mkPeer (accept p) (transport p) None (reader p) JoinAccept (log p))
  | Some t =>
      let '(s, t) := tr_close s t in
      (s, mkPeer (accept p) (transport p) (Some t) (reader p)
            (match reader p with NotStarted => JoinAccept | _ => JoinReader end) (log p))
  end.

Definition set_user (p : Peer) (u : UserPhase) : Peer :=
  mkPeer (accept p) (transport p) (channel p) (reader p) u (log p).

Inductive step : S * Peer → S * Peer → Prop :=
  | st_world s s' p : step (s, p) (s', p)
  | st_listen s p : accept p = Idle → user p = Free → step (s, p) (s, listen p)
  | st_accept s p s' p' : accept_step s p = Some (s', p') → step (s, p) (s', p')
  | st_reader s p s' p' : reader_step s p = Some (s', p') → step (s, p) (s', p')
  | st_send ty data s p : user p = Free → step (s, p) (send ty data s p)
  | st_stop s p : user p = Free → step (s, p) (stop s p)
  | st_joined_reader s p : user p = JoinReader → reader p = Ended → step (s, p) (s, set_user p JoinAccept)
  | st_joined_accept s p : user p = JoinAccept → accept p = Idle ∨ accept p = Returned →
      step (s, p) (s, set_user p Stopped).

Definition reachable (s : S) (x : S * Peer) : Prop := rtc step (s, Peer0) x.

(** ** The callback protocol *)

(** What the read thread has said: messages, and how it ended. *)
Definition reader_said (r : ReadPhase) (l : list Callback) : Prop :=
  ∃ ms tl, l = (OnMessage <$> ms) ++ tl ∧
    match r with
    | NotStarted => ms = [] ∧ tl = []
    | Looping => tl = []
    | Ended => tl = [OnDisconnect] ∨ tl = [OnError BadFrame; OnDisconnect] ∨ tl = [OnError PayloadTooLarge; OnDisconnect]
    end.

(** How far the accept thread is, and what both threads have said. *)
Definition protocol (p : Peer) : Prop :=
  match accept p with
  | Idle | Acquiring => channel p = None ∧ reader p = NotStarted ∧ log p = []
  | SetUp => is_Some (transport p) ∧ channel p = None ∧ reader p = NotStarted ∧ log p = []
  | Starting => is_Some (channel p) ∧ reader p = NotStarted ∧ log p = []
  | Announcing => is_Some (channel p) ∧ reader p ≠ NotStarted ∧ reader_said (reader p) (log p)
  | Returned =>
      channel p = None ∧ reader p = NotStarted ∧ log p = [OnError fail_code] ∨
      is_Some (channel p) ∧ reader p ≠ NotStarted ∧
        ∃ l1 l2, log p = l1 ++ OnConnect :: l2 ∧ reader_said (reader p) (l1 ++ l2)
  end.

Lemma protocol_same p p' :
  protocol p → accept p' = accept p → transport p' = transport p → (is_Some (channel p) ↔ is_Some (channel p')) →
  reader p' = reader p → log p' = log p → protocol p'.
Proof.
  unfold protocol. intros H E1 E2 Ec E4 E5. rewrite E1, E2, E4, E5.
  assert (channel p = None ↔ channel p' = None) as En by (rewrite !eq_None_not_Some; tauto).
  by destruct (accept p); rewrite <- ?Ec, <- ?En.
Qed.

Lemma read_step_end s t cs s' t' : read_step s t = (ItEnd cs, s', t') →
  cs = [OnDisconnect] ∨ cs = [OnError BadFrame; OnDisconnect] ∨ cs = [OnError PayloadTooLarge; OnDisconnect].
Proof.
  unfold read_step, read_iter. destruct (tr_is_connected t); [|intros [= <- _ _]; auto].
  destruct (tr_read s t kHeaderSize) as [[[bs| |] s1] t1]; [|intros [= <- _ _]; auto|done]. cbv zeta.
  destruct (_ || _); [intros [= <- _ _]; auto|]. destruct (_ <? _); [intros [= <- _ _]; auto|].
  destruct (_ =? _); [done|]. destruct (tr_read s1 t1 _) as [[[b2| |] s2] t2]; [done|intros [= <- _ _]; auto|done].
Qed.

(** The read thread speaks. *)
Lemma reader_says p p' cs r' :
  protocol p → reader p = Looping → accept p' = accept p → is_Some (channel p') → reader p' = r' →
  r' ≠ NotStarted → log p' = log p ++ cs →
  (∀ l, reader_said Looping l → reader_said r' (l ++ cs)) → protocol p'.
Proof.
  unfold protocol. intros H Hr Ea Ec Er Hn El Hs. rewrite Ea, Er, El, Hr in *. destruct (accept p).
  1-4: by destruct_and! H.
  - destruct H as (_ & _ & H). split_and!; [done|done|by apply Hs].
  - destruct H as [(_ & H & _)|(_ & _ & l1 & l2 & E & H)]; [done|]. right. split_and!; [done|done|].
    exists l1, (l2 ++ cs). rewrite E, <- app_assoc. split; [done|]. rewrite app_assoc. by apply Hs.
Qed.

Lemma protocol_step x y : protocol x.2 → step x y → protocol y.2.
Proof.
  intros H Hs. destruct Hs as [s s' p|s p Hi _|s p s' p' E|s p s' p' E|ty data s p _|s p _|s p _ _|s p _ _];
    cbn [snd] in *.
  - exact H.
  - unfold protocol in *. rewrite Hi in H. exact H.
  - unfold accept_step in E. unfold protocol in H. destruct (accept p) eqn:Ea; try done.
    + destruct H as (H1 & H2 & H3). destruct (acquire s) as [[s1 [t|]]|]; [| |done]; injection E as <- <-.
      * unfold protocol. cbn. rewrite H1, H2, H3. by eauto.
      * unfold protocol, say. cbn. rewrite H1, H2, H3. by left.
    + destruct H as (H1 & H2 & H3 & H4). injection E as <- <-. unfold protocol. cbn. by rewrite H3, H4.
    + destruct H as (H1 & H2 & H3). injection E as <- <-. unfold protocol. cbn.
      split_and!; [done|done|]. rewrite H3. by exists [], [].
    + destruct H as (H1 & H2 & H3). injection E as <- <-. unfold protocol, say. cbn. right.
      split_and!; [done|done|]. exists (log p), []. by rewrite app_nil_r.
  - unfold reader_step in E. destruct (reader p) eqn:Er; try done. destruct (channel p) as [t|]; [|done].
    destruct (read_step s t) as [[[m| |cs] s1] t1] eqn:Ei; [| done |]; injection E as <- <-.
    + eapply (reader_says p _ [OnMessage m] Looping); try done.
      intros l (ms & tl & -> & ->). exists (ms ++ [m]), []. by rewrite fmap_app, !app_nil_r.
    + eapply (reader_says p _ cs Ended); try done.
      intros l (ms & tl & -> & ->). exists ms, cs. rewrite app_nil_r. split; [done|]. by eapply read_step_end.
  - unfold send. destruct (channel p) as [t|] eqn:Ec; [|done]. destruct (send_raw s t ty data) as [s1 t1].
    apply (protocol_same p); try done; by rewrite Ec.
  - unfold stop. destruct (channel p) as [t|] eqn:Ec.
    + destruct (tr_close s t) as [s1 t1]. apply (protocol_same p); try done; by rewrite Ec.
    + apply (protocol_same p); try done. by rewrite Ec.
  - by apply (protocol_same p).
  - by apply (protocol_same p).
Qed.

Lemma protocol_reachable s x : reachable s x → protocol x.2.
Proof.
  unfold reachable. intros H. assert (protocol (s, Peer0).2) as H0 by done. revert H0.
  induction H as [|x y z Hxy _ IH]; [done|]. intros H0. apply IH. by eapply protocol_step.
Qed.
End Peer.
Arguments Peer : clear implicits.

(** ** The server and the client *)
Section Ends.
Context {S T : Type} {HT : Transport S T}.

(** A channel identifier that is registered is served in this process. *)
Definition acquire_by (inprocess : bool) (local remote : S → option (S * option T)) : S → option (S * option T) :=
  if inprocess then local else remote.
Definition server_step (inprocess : bool) (local remote : S → option (S * option T)) :=
  step (acquire_by inprocess local remote) ListenFailed.
Definition client_step (inprocess : bool) (local remote : S → option (S * option T)) :=
  step (acquire_by inprocess local remote) ConnectionRefused.

Section silence.
Context (acquire : S → option (S * option T)) (fail_code : ErrorCode).
Abbreviation step := (step acquire fail_code).

(** The accept thread is done, and the user waits in [stop] or is back. *)
Definition silencing (p : Peer T) : Prop :=
  accept p = Returned ∧
  (user p = JoinReader ∨ (user p = JoinAccept ∨ user p = Stopped) ∧ reader p ≠ Looping).

Lemma silencing_step x y : silencing x.2 → step x y →
  silencing y.2 ∧ (user x.2 = Stopped → user y.2 = Stopped ∧ log y.2 = log x.2).
Proof.
  intros [Ha Hu] Hs. destruct Hs as [s s' p|s p Hi Hf|s p s' p' E|s p s' p' E|ty data s p Hf|s p Hf|s p Hj Hr|s p Hj Hr];
    cbn [snd] in *.
  - done.
  - congruence.
  - unfold accept_step in E. by rewrite Ha in E.
  - unfold reader_step in E. destruct (reader p) eqn:Er; try done. destruct (channel p) as [t|]; [|done].
    destruct Hu as [Hu|[_ Hu]]; [|done].
    destruct (read_step s t) as [[[m| |cs] s1] t1]; [| done |]; injection E as <- <-; cbn.
    + split; [|congruence]. split; [done|by left].
    + split; [|congruence]. split; [done|by left].
  - rewrite Hf in Hu. by destruct Hu as [|[[|] _]].
  - rewrite Hf in Hu. by destruct Hu as [|[[|] _]].
  - split; [|congruence]. split; [done|]. right. cbn. split; [by left|congruence].
  - split; [|congruence]. split; [done|]. right. cbn. split; [by right|].
    destruct Hu as [Hu|[_ Hu]]; [congruence|done].
Qed.

Lemma silencing_run x y : rtc step x y → silencing x.2 →
  silencing y.2 ∧ (user x.2 = Stopped → log y.2 = log x.2).
Proof.
  induction 1 as [|x y z Hxy _ IH]; intros Hx; [done|].
  destruct (silencing_step _ _ Hx Hxy) as [Hy Hl]. destruct (IH Hy) as [Hz Hl'].
  split; [done|]. intros Hu. destruct (Hl Hu) as [Hu' <-]. by apply Hl'.
Qed.

Lemma silencing_stop s (p : Peer T) : protocol fail_code p → accept p = Returned → silencing (stop s p).2.
Proof.
  intros Hp Ha. unfold protocol in Hp. rewrite Ha in Hp. unfold stop, silencing.
  destruct Hp as [(Hc & Hr & _)|([t Hc] & Hr & _)]; rewrite Hc.
  - cbn. split; [done|]. right. split; [by left|congruence].
  - destruct (tr_close s t) as [s1 t1]. cbn. split; [done|]. left. by destruct (reader p).
Qed.
End silence.

(** ** Delivery *)
Section delivery.
Context {HL : StreamLaws S T} (acquire : S → option (S * option T)) (fail_code : ErrorCode).
Abbreviation step := (step acquire fail_code).

(** The messages that have arrived can all be delivered. *)
Lemma reader_delivers ms rest : ∀ s t (p : Peer T),
  Forall wf_message ms → reader p = Looping → channel p = Some t → tr_is_connected t = true →
  tr_avail s t = mjoin (frame <$> ms) ++ rest →
  ∃ s' t', rtc step (s, p) (s', mkPeer (accept p) (transport p) (Some t') Looping (user p)
    (log p ++ (OnMessage <$> ms))) ∧ tr_is_connected t' = true ∧ tr_avail s' t' = rest.
Proof.
  intros s t p Hms. revert s t p. induction Hms as [|m ms Hm _ IH]; intros s t p Hr Hch Hc Ha.
  - exists s, t. rewrite app_nil_r. destruct p. cbn in *. subst. split; [constructor|done].
  - cbn [fmap list_fmap mjoin list_join] in Ha. rewrite <- app_assoc in Ha.
    destruct (read_step_frame s t m _ Hm Hc Ha) as (s1 & t1 & E & Hc1 & Ha1 & _).
    set (p1 := mkPeer (accept p) (transport p) (Some t1) Looping (user p) (say p [OnMessage m])).
    destruct (IH s1 t1 p1) as (s2 & t2 & Hs & Hc2 & Ha2); [done|done|done|done|].
    exists s2, t2. split; [|done]. eapply rtc_l.
    { apply st_reader. unfold reader_step. rewrite Hr, Hch, E. reflexivity. }
    unfold p1, say in Hs. cbn in Hs. rewrite <- app_assoc in Hs. exact Hs.
Qed.
End delivery.
End Ends.

(** ** Properties *)


(** Stopping silences.  When [stop] is called after the connection was
    announced (or refused) and returns, no callback runs any more, whatever the
    rest of the world does. *)
Theorem stop_silences {S T : Type} {HT : Transport S T}
    (acquire : S → option (S * option T)) (fail_code : ErrorCode) (s0 s : S) (p : Peer T)
    (x y : S * Peer T)
    (H : reachable acquire fail_code s0 (s, p)) (Ha : accept p = Returned)
    (Hx : rtc (step acquire fail_code) (stop s p) x) (Hu : user x.2 = Stopped)
    (Hy : rtc (step acquire fail_code) x y) :
  log y.2 = log x.2.
Proof.
  apply protocol_reachable in H. pose proof (silencing_stop fail_code s p H Ha) as Hs.
  destruct (silencing_run acquire fail_code _ _ Hx Hs) as [Hsx _].
  exact (proj2 (silencing_run acquire fail_code _ _ Hy Hsx) Hu).
Qed.

(** C31. Every message that arrives is delivered, and possibly before the
    connection is announced: once the transport is acquired there is a run in
    which the read thread delivers all complete messages, in order, before
    [on_connect] is called. *)
Theorem messages_delivered {S T : Type} {HT : Transport S T} {HL : StreamLaws S T}
    (acquire : S → option (S * option T)) (fail_code : ErrorCode) (s s1 : S) (t : T)
    (ms : list Message) (rest : bytes)
    (Hacq : acquire s = Some (s1, Some t)) (Hc : tr_is_connected t = true)
    (Hms : Forall wf_message ms) (Ha : tr_avail s1 t = mjoin (frame <$> ms) ++ rest) :
  ∃ s' p', reachable acquire fail_code s (s', p') ∧ log p' = (OnMessage <$> ms) ++ [OnConnect].
Proof.
  set (p1 := mkPeer Announcing None (Some t) Looping Free []).
  assert (rtc (step acquire fail_code) (s, Peer0) (s1, p1)) as Hstart.
  { eapply rtc_l; [by apply st_listen|]. eapply rtc_l.
    { apply st_accept. unfold accept_step. cbn [accept listen]. by rewrite Hacq. }
    eapply rtc_l; [by apply st_accept|]. eapply rtc_l; [by apply st_accept|]. apply rtc_refl. }
  destruct (reader_delivers acquire fail_code ms rest s1 t p1 Hms eq_refl eq_refl Hc Ha)
    as (s2 & t2 & Hrun & _).
  do 2 eexists. split.
  - unfold reachable. etrans; [exact Hstart|]. etrans; [exact Hrun|]. apply rtc_once.
    by apply st_accept.
  - done.
Qed.

(** ** Witnesses *)
Definition px_acquire (k : Sockets) : option (Sockets * option UnixTransport) := Some (k, Some ux_unix).

Lemma messages_delivered_witness :
  ∃ s' p', reachable px_acquire ListenFailed ux_stream (s', p') ∧
    log p' = [OnMessage (mkMessage JSON [123; 125]); OnMessage (mkMessage Binary []); OnConnect].
Proof.
  apply (messages_delivered px_acquire ListenFailed ux_stream ux_stream ux_unix ux_messages [65]).
  - done.
  - done.
  - repeat constructor; cbn; done.
  - reflexivity.
Defined.

(** A session: the transport is acquired, two messages arrive, the connection is
    announced; then [stop]. *)
Definition px_next (f : Sockets → Peer UnixTransport → option (Sockets * Peer UnixTransport))
  (x : Sockets * Peer UnixTransport) : Sockets * Peer UnixTransport := default x (f x.1 x.2).
Abbreviation px_accept := (px_next (accept_step px_acquire ListenFailed)).
Abbreviation px_read := (px_next reader_step).
Definition px_announced : Sockets * Peer UnixTransport :=
  px_accept (px_read (px_read (px_accept (px_accept (px_accept (ux_stream, listen Peer0)))))).
Definition px_ended : Sockets * Peer UnixTransport := px_read (stop px_announced.1 px_announced.2).
Definition px_stopped : Sockets * Peer UnixTransport := (px_ended.1, set_user px_ended.2 Stopped).

Lemma px_next_accept x : is_Some (accept_step px_acquire ListenFailed x.1 x.2) →
  step px_acquire ListenFailed x (px_accept x).
Proof.
  destruct x as [s p]. unfold px_next. cbn [fst snd]. intros [[s' p'] E]. rewrite E. by apply st_accept.
Qed.

Lemma px_next_read x : is_Some (reader_step x.1 x.2) → step px_acquire ListenFailed x (px_read x).
Proof.
  destruct x as [s p]. unfold px_next. cbn [fst snd]. intros [[s' p'] E]. rewrite E. by apply st_reader.
Qed.

Lemma px_reach : reachable px_acquire ListenFailed ux_stream px_announced.
Proof.
  eapply rtc_l; [by apply st_listen|]. do 3 (eapply rtc_l; [apply px_next_accept; by eexists|]).
  do 2 (eapply rtc_l; [apply px_next_read; vm_compute; by eexists|]).
  apply rtc_once, px_next_accept. vm_compute. by eexists.
Qed.

Lemma px_stops : rtc (step px_acquire ListenFailed) (stop px_announced.1 px_announced.2) px_stopped.
Proof.
  apply (rtc_l _ _ px_ended); [apply px_next_read; vm_compute; by eexists|].
  apply (rtc_l _ _ (px_ended.1, set_user px_ended.2 JoinAccept)).
  { exact (st_joined_reader px_acquire ListenFailed px_ended.1 px_ended.2 eq_refl eq_refl). }
  apply rtc_once. exact (st_joined_accept px_acquire ListenFailed px_ended.1 (set_user px_ended.2 JoinAccept)
    eq_refl (or_intror eq_refl)).
Qed.


Lemma stop_silences_witness :
  log px_stopped.2 = [OnMessage (mkMessage JSON [123; 125]); OnMessage (mkMessage Binary []); OnConnect;
                      OnDisconnect] ∧
  ∀ y, rtc (step px_acquire ListenFailed) px_stopped y → log y.2 = log px_stopped.2.
Proof.
  split; [reflexivity|]. intros y Hy.
  exact (stop_silences px_acquire ListenFailed ux_stream px_announced.1 px_announced.2 px_stopped y
    px_reach eq_refl px_stops eq_refl Hy).
Defined.
