(* ===== verification/NetWire.v ===== *)
(** * NetWire: checksums and frame construction of the user-mode network stack

    Models the wire structs, [ip_cksum], [transport_cksum], [emit_ip],
    [send_tcp] and [send_udp] of src/src/hvf/network.cpp and the [Config] of
    network.hpp.  A pointer into a received frame is the suffix of the frame it
    points to, with its byte count kept apart, as in the code; a read past the
    end of the frame, or a copy past the end of a local buffer, is
    [Err HostOOB].  Addresses are in host byte order. *)

From S2P Require Import Prelude Bytes.

(** ** Sizes of the packed wire structs *)
Definition sizeof_EthHdr : nat := 14.
Definition sizeof_ArpPkt : nat := 28.
Definition sizeof_Ip4Hdr : nat := 20.
Definition sizeof_TcpHdr : nat := 20.
Definition sizeof_UdpHdr : nat := 8.
Definition sizeof_IcmpHdr : nat := 8.

Definition IP_ICMP : Z := 1.
Definition IP_TCP : Z := 6.
Definition IP_UDP : Z := 17.
Definition TF_FIN : Z := 0x01.
Definition TF_SYN : Z := 0x02.
Definition TF_RST : Z := 0x04.
Definition TF_PSH : Z := 0x08.
Definition TF_ACK : Z := 0x10.
Definition kFrameMax : Z := 2048.

(** ** [Config] *)
Record PortForward := mkPortForward { host_port : Z; guest_port : Z }.

Record Config := mkConfig {
  gw_ip : Z;
  dns_ip : Z;
  guest_ip : Z;
  dns_fwd_ip : Z;
  gw_mac : bytes;
  guest_mac : bytes;
  port_forwards : list PortForward;
}.

Definition Config0 : Config :=
  mkConfig 0x0A000202 0x0A000203 0x0A00020F 0x08080808
    [0x52; 0x55; 0x0A; 0x00; 0x02; 0x02] [0x52; 0x54; 0x00; 0x12; 0x34; 0x56] [].

(** ** Reads through a pointer into the frame *)
Definition get (p : bytes) (off n : nat) : res bytes :=
  if bool_decide (off + n ≤ length p)%nat then Ok (take n (drop off p)) else Err HostOOB.

Definition get8 (p : bytes) (off : nat) : res Z := le_dec <$> get p off 1.
Definition get16 (p : bytes) (off : nat) : res Z := be_dec <$> get p off 2.
Definition get32 (p : bytes) (off : nat) : res Z := be_dec <$> get p off 4.

(** ** Checksums *)

(** [while (n >= 2) { s += *w++; n -= 2; } if (n) s += last byte]. *)
Fixpoint sum_words (s : Z) (bs : bytes) : Z :=
  match bs with
  | a :: b :: bs => sum_words (u32 (s + (a + 256 * b))) bs
  | [a] => u32 (s + a)
  | [] => s
  end.

(** [while (s >> 16) s = (s & 0xffff) + (s >> 16)]. *)
Fixpoint fold_carry (fuel : nat) (s : Z) : Z :=
  match fuel with
  | O => s
  | S fuel =>
      if Z.shiftr s 16 =? 0 then s
      else fold_carry fuel (u32 (Z.land s 0xffff + Z.shiftr s 16))
  end.

(** Three rounds end the loop on every 32-bit sum ([fold_carry_small]). *)
Definition carry_fuel : nat := 3.

(** [static_cast<uint16_t>(~s)]. *)
Definition ones_complement (s : Z) : Z := u16 (Z.lnot s).

Definition ip_cksum (p : bytes) : Z := ones_complement (fold_carry carry_fuel (sum_words 0 p)).

(** The 12-byte pseudo header [ph]. *)
Definition pseudo_header (sip dip proto seg_len : Z) : bytes :=
  be_enc 4 sip ++ be_enc 4 dip ++ [0; proto] ++ be_enc 2 seg_len.

Definition transport_cksum (sip dip proto : Z) (seg : bytes) : Z :=
  ones_complement (fold_carry carry_fuel
    (sum_words (sum_words 0 (pseudo_header sip dip proto (u16 (Z.of_nat (length seg))))) seg)).

(** ** [emit_ip] *)

(** The IPv4 header with checksum field [ck], as stored (a [uint16_t] in host,
    little-endian, order). *)
Definition ip_header (sip dip proto ip_total ck : Z) : bytes :=
  [0x45; 0] ++ be_enc 2 ip_total ++ [0; 0; 0; 0; 64; proto] ++ le_enc 2 ck
    ++ be_enc 4 sip ++ be_enc 4 dip.

Definition eth_header (dst src : bytes) (type : Z) : bytes := dst ++ src ++ be_enc 2 type.

(** [memcpy] of the payload into [buf[kFrameMax]] after the two headers; the
    frame handed to [tx] is the first [sizeof(EthHdr) + ip_total] bytes. *)
Definition emit_ip (cfg : Config) (dst_mac : bytes) (sip dip proto : Z) (payload : bytes)
  : res bytes :=
  let ip_total := u16 (Z.of_nat (sizeof_Ip4Hdr + length payload)) in
  let ck := ip_cksum (ip_header sip dip proto ip_total 0) in
  guard_res (Z.of_nat (sizeof_EthHdr + sizeof_Ip4Hdr + length payload) <=? kFrameMax) HostOOB;;
  Ok (take (sizeof_EthHdr + Z.to_nat ip_total)
        (eth_header dst_mac (gw_mac cfg) 0x0800 ++ ip_header sip dip proto ip_total ck ++ payload)).

(** ** [send_tcp] *)
Definition tcp_header (sp dp seq ack flags ck : Z) : bytes :=
  be_enc 2 sp ++ be_enc 2 dp ++ be_enc 4 seq ++ be_enc 4 ack ++ [0x50; flags]
    ++ be_enc 2 65535 ++ le_enc 2 ck ++ [0; 0].

Definition send_tcp (cfg : Config) (dst_mac : bytes) (sip sp dip dp seq ack flags : Z)
    (data : bytes) : res bytes :=
  guard_res (Z.of_nat (length data) <=? 8192) HostOOB;;
  let ck := transport_cksum sip dip IP_TCP (tcp_header sp dp seq ack flags 0 ++ data) in
  emit_ip cfg dst_mac sip dip IP_TCP (tcp_header sp dp seq ack flags ck ++ data).

(** ** [send_udp] *)
Definition udp_header (sp dp len ck : Z) : bytes :=
  be_enc 2 sp ++ be_enc 2 dp ++ be_enc 2 len ++ le_enc 2 ck.

Definition send_udp (cfg : Config) (dst_mac : bytes) (sip sp dip dp : Z) (data : bytes)
  : res bytes :=
  guard_res (Z.of_nat (length data) <=? 1500) HostOOB;;
  let udp_len := u16 (Z.of_nat (sizeof_UdpHdr + length data)) in
  let ck := transport_cksum sip dip IP_UDP (udp_header sp dp udp_len 0 ++ data) in
  let ck := if ck =? 0 then 0xffff else ck in
  emit_ip cfg dst_mac sip dip IP_UDP (udp_header sp dp udp_len ck ++ data).

(** ** One's-complement arithmetic *)
Section checksum.

(** The sum of the little-endian 16-bit words, without wrap-around. *)
Fixpoint word_sum (bs : bytes) : Z :=
  match bs with a :: b :: bs => a + 256 * b + word_sum bs | [a] => a | [] => 0 end.

Lemma word_ind (P : bytes → Prop) :
  P [] → (∀ a, P [a]) → (∀ a b bs, P bs → P (a :: b :: bs)) → ∀ bs, P bs.
Proof.
  intros H0 H1 H2. refine (fix go bs := _).
  destruct bs as [|a [|b bs]]; [done | done |]. apply H2, go.
Qed.

Lemma word_sum_range bs :
  wf_bytes bs → 0 ≤ word_sum bs ≤ 65535 * ((Z.of_nat (length bs) + 1) / 2).
Proof.
  induction bs as [|a|a b bs IH] using word_ind; intros Hb; cbn [word_sum length].
  - done.
  - apply Forall_cons in Hb as [Ha _]. unfold is_byte in Ha. zlia.
  - apply Forall_cons in Hb as [Ha Hb]. apply Forall_cons in Hb as [Hb0 Hb].
    specialize (IH Hb). unfold is_byte in *.
    replace ((Z.of_nat (S (S (length bs))) + 1) / 2)
      with ((Z.of_nat (length bs) + 1) / 2 + 1) by zlia. lia.
Qed.

Lemma sum_words_eq bs : ∀ s, wf_bytes bs → 0 ≤ s → s + word_sum bs < 0x100000000 →
  sum_words s bs = s + word_sum bs.
Proof.
  induction bs as [|a|a b bs IH] using word_ind; intros s Hb Hs Hlt; cbn [sum_words word_sum] in *.
  - lia.
  - apply Forall_cons in Hb as [Ha _]. unfold is_byte in Ha. apply u32_id. lia.
  - apply Forall_cons in Hb as [Ha Hb]. apply Forall_cons in Hb as [Hb0 Hb].
    pose proof (word_sum_range bs Hb). unfold is_byte in *.
    rewrite u32_id by lia. rewrite IH by (done || lia). lia.
Qed.

Lemma word_sum_app xs ys : Nat.Even (length xs) → word_sum (xs ++ ys) = word_sum xs + word_sum ys.
Proof.
  induction xs as [|a|a b xs IH] using word_ind; intros He; cbn [app word_sum length] in *.
  - lia.
  - destruct He as [k Hk]. lia.
  - rewrite IH; [lia|]. destruct He as [k Hk]. exists (k - 1)%nat. lia.
Qed.

(** A 16-bit field at an even offset adds its value to the sum. *)
Lemma word_sum_field xs ck ys :
  Nat.Even (length xs) → 0 ≤ ck < 0x10000 →
  word_sum (xs ++ le_enc 2 ck ++ ys) = word_sum (xs ++ le_enc 2 0 ++ ys) + ck.
Proof. intros He Hc. rewrite !(word_sum_app xs) by done. cbn [le_enc app word_sum]. zlia. Qed.

Lemma fold_carry_S f s :
  0 ≤ s < 0x100000000 →
  fold_carry (S f) s =
    if s <? 0x10000 then s else fold_carry f (s mod 0x10000 + s / 0x10000).
Proof.
  intros Hs. cbn [fold_carry]. rewrite Z.shiftr_div_pow2 by lia.
  change 0xffff with (Z.ones 16). rewrite Z.land_ones by lia.
  change (2 ^ 16) with 0x10000.
  assert (0 ≤ s mod 0x10000 + s / 0x10000 < 0x100000000) by zlia.
  rewrite u32_id by done.
  destruct (Z.eqb_spec (s / 0x10000) 0), (Z.ltb_spec s 0x10000); try done; zlia.
Qed.

(** One round keeps the residue modulo 65535 and the sign. *)
Lemma carry_round s :
  0 < s → 0 < s mod 0x10000 + s / 0x10000 ∧
  (s mod 0x10000 + s / 0x10000) mod 65535 = s mod 65535.
Proof. intros. zlia. Qed.

Lemma fold_carry_small s :
  0 ≤ s < 0x100000000 →
  let r := fold_carry carry_fuel s in
  0 ≤ r < 0x10000 ∧ r mod 65535 = s mod 65535 ∧ (0 < s → 0 < r).
Proof.
  intros Hs. unfold carry_fuel. cbv zeta.
  rewrite fold_carry_S by lia. destruct (Z.ltb_spec s 0x10000); [lia|].
  destruct (carry_round s ltac:(lia)) as [P1 E1].
  set (s1 := s mod 0x10000 + s / 0x10000) in *.
  assert (s1 ≤ 0x1FFFE) by (unfold s1; zlia).
  rewrite fold_carry_S by lia. destruct (Z.ltb_spec s1 0x10000); [lia|].
  destruct (carry_round s1 ltac:(lia)) as [P2 E2].
  set (s2 := s1 mod 0x10000 + s1 / 0x10000) in *.
  assert (s2 < 0x10000) by (unfold s2; zlia).
  rewrite fold_carry_S by lia. destruct (Z.ltb_spec s2 0x10000); lia.
Qed.

Lemma ones_complement_eq s : 0 ≤ s < 0x10000 → ones_complement s = 65535 - s.
Proof. intros. unfold ones_complement, Z.lnot. zlia. Qed.

(** A positive sum divisible by 65535 checks as 0. *)
Lemma checks_zero s :
  0 < s < 0x100000000 → s mod 65535 = 0 → ones_complement (fold_carry carry_fuel s) = 0.
Proof.
  intros Hs Hm. destruct (fold_carry_small s) as (Hr & He & Hp); [lia|].
  rewrite ones_complement_eq by done. specialize (Hp ltac:(lia)). zlia.
Qed.

(** Adding the complement of a sum to it makes it divisible. *)
Lemma complement_divides s :
  0 < s < 0x100000000 →
  let ck := ones_complement (fold_carry carry_fuel s) in
  0 ≤ ck < 0x10000 ∧ (s + ck) mod 65535 = 0.
Proof.
  intros Hs. cbv zeta. destruct (fold_carry_small s) as (Hr & He & Hp); [lia|].
  rewrite ones_complement_eq by done. zlia.
Qed.

Lemma length_get p off n bs : get p off n = Ok bs → length bs = n.
Proof.
  unfold get. case_bool_decide; [|done]. intros [= <-].
  rewrite length_take, length_drop. lia.
Qed.
End checksum.

(** ** Reading fields back *)
Section fields.
Lemma get_app xs f ys n :
  length f = n → get (xs ++ f ++ ys) (length xs) n = Ok f.
Proof.
  intros <-. unfold get. rewrite bool_decide_eq_true_2 by (rewrite !length_app; lia).
  rewrite drop_app_length. by rewrite take_app_length.
Qed.

Lemma get_app' xs f ys off n :
  length xs = off → length f = n → get (xs ++ f ++ ys) off n = Ok f.
Proof. intros <-. apply get_app. Qed.

Lemma get_enc8 p off x : get p off 1 = Ok [x] → is_byte x → get8 p off = Ok x.
Proof. intros H Hx. unfold get8. rewrite H. unfold is_byte in Hx. cbn [fmap res_fmap le_dec]. f_equal. lia. Qed.

Lemma get_be16 p off x : get p off 2 = Ok (be_enc 2 x) → fits 16 x → get16 p off = Ok x.
Proof.
  intros H Hx. unfold get16. rewrite H. cbn [fmap res_fmap]. rewrite be_dec_enc16.
  f_equal. apply u16_id. unfold fits in Hx. lia.
Qed.

Lemma get_be32 p off x : get p off 4 = Ok (be_enc 4 x) → fits 32 x → get32 p off = Ok x.
Proof.
  intros H Hx. unfold get32. rewrite H. cbn [fmap res_fmap]. rewrite be_dec_enc32.
  f_equal. apply u32_id. unfold fits in Hx. lia.
Qed.

Lemma get_drop p k off n : get (drop k p) off n = get p (k + off) n ∨ (length p < k + off + n)%nat.
Proof.
  unfold get. rewrite length_drop, drop_drop. do 2 case_bool_decide; auto; lia.
Qed.
End fields.

#[export] Hint Rewrite @length_cons : len.

(** ** Valid packets *)

(** [frame] carries [seg] from [sip] to [dip]: an Ethernet frame to [dst] with
    an IPv4 header of 20 bytes whose length and checksum are right. *)
Record ip_packet (cfg : Config) (dst : bytes) (sip dip proto : Z) (seg frame : bytes) : Prop := {
  ipk_dst : get frame 0 6 = Ok dst;
  ipk_src : get frame 6 6 = Ok (gw_mac cfg);
  ipk_type : get16 frame 12 = Ok 0x0800;
  ipk_len : get16 (drop 14 frame) 2 = Ok (Z.of_nat (20 + length seg));
  ipk_proto : get8 (drop 14 frame) 9 = Ok proto;
  ipk_sip : get32 (drop 14 frame) 12 = Ok sip;
  ipk_dip : get32 (drop 14 frame) 16 = Ok dip;
  ipk_ck : ip_cksum (take 20 (drop 14 frame)) = 0;
  ipk_seg : drop 34 frame = seg;
}.

(** A TCP segment and a UDP datagram with right checksums. *)
Record tcp_segment (sip dip sp dp seq ack flags : Z) (data seg : bytes) : Prop := {
  tcs_sp : get16 seg 0 = Ok sp;
  tcs_dp : get16 seg 2 = Ok dp;
  tcs_seq : get32 seg 4 = Ok seq;
  tcs_ack : get32 seg 8 = Ok ack;
  tcs_flags : get8 seg 13 = Ok flags;
  tcs_ck : transport_cksum sip dip IP_TCP seg = 0;
  tcs_data : drop 20 seg = data;
}.

Record udp_datagram (sip dip sp dp : Z) (data seg : bytes) : Prop := {
  uds_sp : get16 seg 0 = Ok sp;
  uds_dp : get16 seg 2 = Ok dp;
  uds_len : get16 seg 4 = Ok (Z.of_nat (8 + length data));
  uds_ck : transport_cksum sip dip IP_UDP seg = 0;
  uds_used : get16 seg 6 ≠ Ok 0;
  uds_data : drop 8 seg = data;
}.

Section header.
Context (sip dip : Z).

Lemma length_ip_header proto total ck : length (ip_header sip dip proto total ck) = 20%nat.
Proof. reflexivity. Qed.

Lemma wf_ip_header proto total ck : is_byte proto → wf_bytes (ip_header sip dip proto total ck).
Proof.
  intros Hp. unfold ip_header. rewrite !wf_bytes_app.
  split_and!; auto with vm; repeat (constructor; [done|]); constructor; (done || constructor).
Qed.

(** The stored checksum makes the header check. *)
Lemma ip_header_checks proto total :
  is_byte proto →
  ip_cksum (ip_header sip dip proto total (ip_cksum (ip_header sip dip proto total 0))) = 0.
Proof.
  intros Hp.
  pose (pre := [0x45; 0] ++ be_enc 2 total ++ [0; 0; 0; 0; 64; proto]).
  assert (∀ ck, 0 ≤ ck < 0x10000 → word_sum (ip_header sip dip proto total ck) =
    word_sum (ip_header sip dip proto total 0) + ck) as Hck.
  { intros ck Hr.
    exact (word_sum_field pre ck (be_enc 4 sip ++ be_enc 4 dip) (ex_intro _ 5%nat eq_refl) Hr). }
  assert (0 < word_sum (ip_header sip dip proto total 0)) as Hpos.
  { change (ip_header sip dip proto total 0) with ([0x45; 0] ++ drop 2 (ip_header sip dip proto total 0)).
    rewrite word_sum_app by (by exists 1%nat).
    assert (0 ≤ word_sum (drop 2 (ip_header sip dip proto total 0))).
    { apply word_sum_range, wf_bytes_drop, wf_ip_header, Hp. }
    change (word_sum [0x45; 0]) with 0x45. lia. }
  pose proof (word_sum_range _ (wf_ip_header proto total 0 Hp)) as Hr.
  rewrite length_ip_header in Hr. change ((Z.of_nat 20 + 1) / 2) with 10 in Hr.
  set (S0 := word_sum (ip_header sip dip proto total 0)) in *.
  assert (ip_cksum (ip_header sip dip proto total 0) =
    ones_complement (fold_carry carry_fuel S0)) as ->.
  { unfold ip_cksum. rewrite sum_words_eq; [done | by apply wf_ip_header | done |].
    fold S0. lia. }
  destruct (complement_divides S0) as [Hc Hm]; [lia|].
  unfold ip_cksum. rewrite sum_words_eq; [| by apply wf_ip_header | done |]; rewrite Hck by done.
  - apply checks_zero; [lia | done].
  - lia.
Qed.

End header.

Section emit.
Context (cfg : Config) (Hgw : length (gw_mac cfg) = 6%nat).
Context (dst : bytes) (Hdst : length dst = 6%nat).
Context (sip dip : Z) (Hsip : fits 32 sip) (Hdip : fits 32 dip).

Lemma emit_ip_frame proto seg :
  is_byte proto → Z.of_nat (length seg) ≤ 2014 →
  ∃ frame, emit_ip cfg dst sip dip proto seg = Ok frame ∧
    length frame = (34 + length seg)%nat ∧ ip_packet cfg dst sip dip proto seg frame.
Proof.
  intros Hp Hl. unfold emit_ip, sizeof_EthHdr, sizeof_Ip4Hdr, kFrameMax. cbv zeta.
  rewrite u16_id by lia.
  rewrite (proj2 (guard_res_Ok _ _)) by (apply Z.leb_le; lia). rewrite bind_Ok, Nat2Z.id.
  set (total := Z.of_nat (20 + length seg)).
  set (ck := ip_cksum (ip_header sip dip proto total 0)).
  assert (length (eth_header dst (gw_mac cfg) 0x0800) = 14%nat) as He.
  { unfold eth_header. rewrite !length_app, length_be_enc. lia. }
  rewrite take_ge by (rewrite !length_app, length_ip_header; lia).
  eexists. split; [reflexivity|]. split.
  { rewrite !length_app, length_ip_header. lia. }
  clear He. unfold eth_header. destruct cfg as [a1 a2 a3 a4 gm a5 a6]. cbn [gw_mac] in *.
  destruct dst as [|? [|? [|? [|? [|? [|? []]]]]]]; try done.
  destruct gm as [|? [|? [|? [|? [|? [|? []]]]]]]; try done.
  split; try reflexivity.
  - apply get_be16; [reflexivity | unfold fits; lia].
  - apply (get_enc8 _ _ proto); [reflexivity | done].
  - apply get_be32; [reflexivity | done].
  - apply get_be32; [reflexivity | done].
  - exact (ip_header_checks sip dip proto total Hp).
Qed.
End emit.

Section transport.
Context (sip dip proto : Z) (Hproto : 0 < proto < 256).

Lemma wf_pseudo_header l : wf_bytes (pseudo_header sip dip proto l).
Proof.
  unfold pseudo_header. rewrite !wf_bytes_app.
  split_and!; auto with vm; repeat constructor; lia.
Qed.

Lemma pseudo_header_sum l :
  0 < word_sum (pseudo_header sip dip proto l) ≤ 65535 * 6.
Proof.
  pose proof (word_sum_range _ (wf_pseudo_header l)) as [_ Hu].
  change ((Z.of_nat (length (pseudo_header sip dip proto l)) + 1) / 2) with 6 in Hu.
  split; [|done]. unfold pseudo_header.
  pose proof (word_sum_range (be_enc 4 sip) (wf_be_enc _ _)).
  pose proof (word_sum_range (be_enc 4 dip) (wf_be_enc _ _)).
  pose proof (word_sum_range (be_enc 2 l) (wf_be_enc _ _)).
  rewrite (word_sum_app (be_enc 4 sip)) by (by exists 2%nat).
  rewrite (word_sum_app (be_enc 4 dip)) by (by exists 2%nat).
  rewrite (word_sum_app [0; proto]) by (by exists 1%nat).
  cbn [word_sum]. lia.
Qed.

Lemma transport_cksum_eq seg :
  wf_bytes seg → Z.of_nat (length seg) ≤ 65535 →
  transport_cksum sip dip proto seg =
    ones_complement (fold_carry carry_fuel
      (word_sum (pseudo_header sip dip proto (Z.of_nat (length seg))) + word_sum seg)).
Proof.
  intros Hs Hl. unfold transport_cksum. rewrite u16_id by lia.
  pose proof (pseudo_header_sum (Z.of_nat (length seg))). pose proof (word_sum_range seg Hs).
  assert (65535 * ((Z.of_nat (length seg) + 1) / 2) ≤ 65535 * 32768) by zlia.
  rewrite (sum_words_eq (pseudo_header _ _ _ _)); [|apply wf_pseudo_header | lia | lia].
  rewrite sum_words_eq; [by rewrite Z.add_0_l | done | lia | lia].
Qed.

(** A checksum field computed over the segment with the field zero, or a value
    congruent to it, makes the segment check. *)
Lemma transport_field_checks pre post :
  wf_bytes pre → wf_bytes post → Nat.Even (length pre) →
  Z.of_nat (length pre + 2 + length post) ≤ 65535 →
  let ck := transport_cksum sip dip proto (pre ++ le_enc 2 0 ++ post) in
  0 ≤ ck < 0x10000 ∧
  ∀ ck', 0 ≤ ck' < 0x10000 → ck' mod 65535 = ck mod 65535 →
    transport_cksum sip dip proto (pre ++ le_enc 2 ck' ++ post) = 0.
Proof.
  intros Hpre Hpost He Hl. cbv zeta.
  assert (∀ c, wf_bytes (pre ++ le_enc 2 c ++ post)) as Hwf.
  { intros c. rewrite !wf_bytes_app. auto with vm. }
  assert (∀ c, length (pre ++ le_enc 2 c ++ post) = (length pre + 2 + length post)%nat) as Hlen.
  { intros c. rewrite !length_app, length_le_enc. lia. }
  pose proof (word_sum_range _ (Hwf 0)) as Hr. rewrite Hlen in Hr.
  rewrite transport_cksum_eq, Hlen; [|done|rewrite Hlen; lia].
  pose proof (pseudo_header_sum (Z.of_nat (length pre + 2 + length post))) as Hph.
  set (ph := word_sum (pseudo_header _ _ _ _)) in *.
  set (S0 := word_sum (pre ++ le_enc 2 0 ++ post)) in *.
  assert (65535 * ((Z.of_nat (length pre + 2 + length post) + 1) / 2) ≤ 65535 * 32768) by zlia.
  destruct (complement_divides (ph + S0)) as [Hc Hm]; [lia|]. split; [done|].
  intros c Hcr Hcm. rewrite transport_cksum_eq, Hlen; [|done|rewrite Hlen; lia].
  rewrite word_sum_field by done. fold S0 ph. apply checks_zero; [lia|]. zlia.
Qed.
End transport.

(** ** The senders *)
Section senders.
Context (cfg : Config) (Hgw : length (gw_mac cfg) = 6%nat).
Context (dst : bytes) (Hdst : length dst = 6%nat).
Context (sip dip : Z) (Hsip : fits 32 sip) (Hdip : fits 32 dip).
Context (sp dp : Z) (Hsp : fits 16 sp) (Hdp : fits 16 dp).

Lemma send_tcp_valid seq ack flags data :
  fits 32 seq → fits 32 ack → is_byte flags → wf_bytes data →
  Z.of_nat (length data) ≤ 1994 →
  ∃ seg frame, send_tcp cfg dst sip sp dip dp seq ack flags data = Ok frame ∧
    length frame = (54 + length data)%nat ∧
    ip_packet cfg dst sip dip IP_TCP seg frame ∧ tcp_segment sip dip sp dp seq ack flags data seg.
Proof.
  intros Hseq Hack Hf Hd Hl. unfold send_tcp.
  rewrite (proj2 (guard_res_Ok _ _)) by (apply Z.leb_le; lia). rewrite bind_Ok. cbv zeta.
  set (ck := transport_cksum _ _ _ _).
  pose (pre := be_enc 2 sp ++ be_enc 2 dp ++ be_enc 4 seq ++ be_enc 4 ack ++ [0x50; flags]
    ++ be_enc 2 65535).
  destruct (transport_field_checks sip dip IP_TCP ltac:(done) pre ([0; 0] ++ data)) as [Hc Hz].
  { unfold pre. rewrite !wf_bytes_app. split_and!; auto with vm; repeat (constructor; [done|]); constructor. }
  { apply wf_bytes_app. split; [repeat (constructor; [done|]); constructor | done]. }
  { by exists 8%nat. }
  { rewrite length_app. change (length pre) with 16%nat. cbn [length]. lia. }
  specialize (Hz ck Hc eq_refl).
  destruct (emit_ip_frame cfg Hgw dst Hdst sip dip Hsip Hdip IP_TCP
    (tcp_header sp dp seq ack flags ck ++ data)) as (frame & E & L & V).
  { done. }
  { rewrite length_app. change (length (tcp_header _ _ _ _ _ _)) with 20%nat. lia. }
  eexists _, frame. split_and!; [exact E | | exact V |].
  - rewrite L, length_app. change (length (tcp_header _ _ _ _ _ _)) with 20%nat. lia.
  - split.
    + by apply get_be16.
    + by apply get_be16.
    + by apply get_be32.
    + by apply get_be32.
    + by apply (get_enc8 _ _ flags).
    + exact Hz.
    + done.
Qed.

Lemma send_udp_valid data :
  wf_bytes data → Z.of_nat (length data) ≤ 1500 →
  ∃ seg frame, send_udp cfg dst sip sp dip dp data = Ok frame ∧
    length frame = (42 + length data)%nat ∧
    ip_packet cfg dst sip dip IP_UDP seg frame ∧ udp_datagram sip dip sp dp data seg.
Proof.
  intros Hd Hl. unfold send_udp, sizeof_UdpHdr.
  rewrite (proj2 (guard_res_Ok _ _)) by (apply Z.leb_le; lia). rewrite bind_Ok. cbv zeta.
  rewrite u16_id by lia. set (len := Z.of_nat (8 + length data)).
  set (ck0 := transport_cksum _ _ _ _). set (ck := if ck0 =? 0 then 0xffff else ck0).
  pose (pre := be_enc 2 sp ++ be_enc 2 dp ++ be_enc 2 len).
  destruct (transport_field_checks sip dip IP_UDP ltac:(done) pre data) as [Hc Hz].
  { unfold pre. rewrite !wf_bytes_app. auto with vm. }
  { done. }
  { by exists 3%nat. }
  { change (length pre) with 6%nat. lia. }
  assert (transport_cksum sip dip IP_UDP (pre ++ le_enc 2 0 ++ data) = ck0) as E0 by reflexivity.
  rewrite E0 in Hc, Hz.
  assert (0 < ck < 0x10000 ∧ ck mod 65535 = ck0 mod 65535) as [Hc1 Hc2].
  { unfold ck. destruct (Z.eqb_spec ck0 0) as [Ez|]; [rewrite Ez; done | lia]. }
  specialize (Hz ck ltac:(lia) Hc2).
  destruct (emit_ip_frame cfg Hgw dst Hdst sip dip Hsip Hdip IP_UDP
    (udp_header sp dp len ck ++ data)) as (frame & E & L & V).
  { done. }
  { rewrite length_app. change (length (udp_header _ _ _ _)) with 8%nat. lia. }
  eexists _, frame. split_and!; [exact E | | exact V |].
  - rewrite L, length_app. change (length (udp_header _ _ _ _)) with 8%nat. lia.
  - split.
    + by apply get_be16.
    + by apply get_be16.
    + apply get_be16; [done | unfold fits, len; lia].
    + exact Hz.
    + unfold get16. change (get (udp_header sp dp len ck ++ data) 6 2) with (Ok (le_enc 2 ck)).
      cbn [fmap res_fmap]. intros [= H]. clear -H Hc1. cbn in H. zlia.
    + done.
Qed.
End senders.
