(* ===== verification/NetStack.v ===== *)
(** * NetStack: the user-mode network stack behind virtio-net

    Models [Stack::Impl] of src/src/hvf/network.cpp: the frame dispatcher, the
    ARP, ICMP, DHCP, DNS and UDP handlers, the TCP connection table and its
    threads, and inbound port forwarding.

    [TcpConn] objects are shared between the table and the threads that serve
    them, so they live in a store [heap] and the table maps a key to an
    object's name.  Every thread is the sequence of its atomic pieces (what it
    does between two blocking calls or under one lock), each a function on the
    state.  What the stack does to the outside is the log [out].  Host sockets
    are the parameter [Host].  The loops of the threads are in
    NetStackIo, their interleaving and the closing of a descriptor by the last
    owner of a connection in NetStackRun.  Socket option calls, sleeping times
    and log messages are not modelled. *)

From stdpp Require Import countable.
From S2P Require Import Prelude Bytes NetWire.

(** ** State *)

Inductive ConnState : Type := CONNECTING | SYNACK_SENT | ESTABLISHED.

#[export] Instance ConnState_eq_dec : EqDecision ConnState.
Proof. solve_decision. Defined.

Record TcpConn := mkConn {
  stk_src_ip : Z;
  stk_dst_ip : Z;
  stk_src_port : Z;
  stk_dst_port : Z;
  c_mac : bytes;
  g_nxt : Z;
  h_nxt : Z;
  c_fd : Z;
  c_state : ConnState;
  c_stop : bool;
}.

Definition set_g_nxt (c : TcpConn) (v : Z) : TcpConn :=
  mkConn (stk_src_ip c) (stk_dst_ip c) (stk_src_port c) (stk_dst_port c) (c_mac c)
    v (h_nxt c) (c_fd c) (c_state c) (c_stop c).
Definition set_h_nxt (c : TcpConn) (v : Z) : TcpConn :=
  mkConn (stk_src_ip c) (stk_dst_ip c) (stk_src_port c) (stk_dst_port c) (c_mac c)
    (g_nxt c) v (c_fd c) (c_state c) (c_stop c).
Definition set_fd (c : TcpConn) (v : Z) : TcpConn :=
  mkConn (stk_src_ip c) (stk_dst_ip c) (stk_src_port c) (stk_dst_port c) (c_mac c)
    (g_nxt c) (h_nxt c) v (c_state c) (c_stop c).
Definition set_state (c : TcpConn) (v : ConnState) : TcpConn :=
  mkConn (stk_src_ip c) (stk_dst_ip c) (stk_src_port c) (stk_dst_port c) (c_mac c)
    (g_nxt c) (h_nxt c) (c_fd c) v (c_stop c).
Definition set_stop (c : TcpConn) (v : bool) : TcpConn :=
  mkConn (stk_src_ip c) (stk_dst_ip c) (stk_src_port c) (stk_dst_port c) (c_mac c)
    (g_nxt c) (h_nxt c) (c_fd c) (c_state c) v.

(** [ConnKey]: source address, destination address, source and destination
    ports. *)
Abbreviation ConnKey := (Z * Z * Z * Z)%type.

Inductive NetEvent : Type :=
  | Tx (frame : bytes)
  | UdpSend (ip port : Z) (data : bytes)
  | SpawnConnect (id : nat) (key : ConnKey) (ip port : Z)
  | SpawnIo (id : nat) (key : ConnKey)
  | SockWrite (fd : Z) (data : bytes)
  | ShutdownWr (fd : Z).

Record Impl := mkImpl {
  cfg : Config;
  conns : gmap ConnKey nat;
  heap : gmap nat TcpConn;
  next_id : nat;
  done_queue : list ConnKey;
  next_eport : Z;
  out : list NetEvent;
}.

(** A fresh stack; the listening threads are not started. *)
Definition Stack0 (c : Config) : Impl := mkImpl c ∅ ∅ 0 [] 49152 [].

Definition with_conns (s : Impl) (v : gmap ConnKey nat) : Impl :=
  mkImpl (cfg s) v (heap s) (next_id s) (done_queue s) (next_eport s) (out s).
Definition with_heap (s : Impl) (v : gmap nat TcpConn) : Impl :=
  mkImpl (cfg s) (conns s) v (next_id s) (done_queue s) (next_eport s) (out s).
Definition with_done (s : Impl) (v : list ConnKey) : Impl :=
  mkImpl (cfg s) (conns s) (heap s) (next_id s) v (next_eport s) (out s).
Definition log (s : Impl) (es : list NetEvent) : Impl :=
  mkImpl (cfg s) (conns s) (heap s) (next_id s) (done_queue s) (next_eport s) (out s ++ es).

(** [conn->field = v] through a shared pointer. *)
Definition upd_conn (s : Impl) (id : nat) (f : TcpConn → TcpConn) : Impl :=
  with_heap s (alter f id (heap s)).

(** [std::make_shared<TcpConn>()], filled with [c]. *)
Definition new_conn (s : Impl) (c : TcpConn) : nat * Impl :=
  (next_id s, mkImpl (cfg s) (conns s) (<[next_id s := c]> (heap s)) (S (next_id s))
                (done_queue s) (next_eport s) (out s)).

(** [conns.emplace(key, conn)]: an existing entry stays. *)
Definition emplace (s : Impl) (k : ConnKey) (id : nat) : Impl :=
  match conns s !! k with
  | Some _ => s
  | None => with_conns s (<[k := id]> (conns s))
  end.

Definition erase (s : Impl) (k : ConnKey) : Impl := with_conns s (delete k (conns s)).

(** ** Host sockets

    [h_udp ip port data]: the datagram received within the timeout after
    sending [data] from a fresh UDP socket, [None] when one of the calls fails
    or nothing arrives.  [h_write l fd data]: what [::write] returns after the
    history [l]. *)
Record Host := mkHost {
  h_udp : Z → Z → bytes → option bytes;
  h_write : list NetEvent → Z → bytes → Z;
}.

Section Stack.
Context (host : Host).

(** ** Sending to the guest *)
Definition tx (s : Impl) (frame : bytes) : Impl := log s [Tx frame].

Definition tcp_out (s : Impl) (dst : bytes) (sip sp dip dp seq ack flags : Z) (data : bytes)
  : res Impl := tx s <$> send_tcp (cfg s) dst sip sp dip dp seq ack flags data.

Definition udp_out (s : Impl) (dst : bytes) (sip sp dip dp : Z) (data : bytes) : res Impl :=
  tx s <$> send_udp (cfg s) dst sip sp dip dp data.

(** A segment from the connection's host side to the guest. *)
Definition conn_out (s : Impl) (c : TcpConn) (seq ack flags : Z) (data : bytes) : res Impl :=
  tcp_out s (c_mac c) (stk_src_ip c) (stk_src_port c) (stk_dst_ip c) (stk_dst_port c)
    seq ack flags data.

(** ** ARP *)
Definition arp_reply (mac eth_src sha spa : bytes) (tpa : Z) : bytes :=
  eth_header eth_src mac 0x0806 ++ be_enc 2 1 ++ be_enc 2 0x0800 ++ [6; 4] ++ be_enc 2 2
    ++ mac ++ be_enc 4 tpa ++ sha ++ spa.

Definition handle_arp (s : Impl) (eth_src payload : bytes) (len : Z) : res Impl :=
  if len <? Z.of_nat sizeof_ArpPkt then Ok s else
  op ← get16 payload 6;
  if negb (op =? 1) then Ok s else
  tpa ← get32 payload 24;
  if negb (tpa =? gw_ip (cfg s)) && negb (tpa =? dns_ip (cfg s)) then Ok s else
  sha ← get payload 8 6;
  spa ← get payload 14 4;
  Ok (tx s (arp_reply (gw_mac (cfg s)) eth_src sha spa tpa)).

(** ** ICMP: echo requests only *)
Definition handle_icmp (s : Impl) (eth_src : bytes) (src dst : Z) (payload : bytes) (plen : Z)
  : res Impl :=
  if plen <? Z.of_nat sizeof_IcmpHdr then Ok s else
  t ← get8 payload 0;
  if negb (t =? 8) then Ok s else
  rep ← get payload 0 (Z.to_nat plen);
  code ← get rep 1 1;
  let zeroed := [0] ++ code ++ [0; 0] ++ drop 4 rep in
  let ck := ip_cksum zeroed in
  let rep' := [0] ++ code ++ [Z.land ck 0xff; Z.shiftr ck 8] ++ drop 4 rep in
  frame ← emit_ip (cfg s) eth_src dst src IP_ICMP rep';
  Ok (tx s frame).

(** ** DHCP *)

(** The option loop; [opt_rem] iterations are enough, as each advances. *)
Fixpoint dhcp_options (fuel : nat) (opt : bytes) (opt_rem i : nat) (msg_type : Z) : res Z :=
  if bool_decide (opt_rem ≤ i)%nat then Ok msg_type else
  match fuel with
  | O => Err OutOfFuel
  | S fuel =>
      t ← get8 opt i;
      if t =? 255 then Ok msg_type else
      if t =? 0 then dhcp_options fuel opt opt_rem (i + 1) msg_type else
      if bool_decide (opt_rem ≤ i + 1)%nat then Ok msg_type else
      olen ← get8 opt (i + 1);
      msg_type' ← (if (t =? 53) && (1 <=? olen) then get8 opt (i + 2) else Ok msg_type);
      dhcp_options fuel opt opt_rem (i + 2 + Z.to_nat olen) msg_type'
  end.

Definition opt8 (tag v : Z) : bytes := [tag; 1; v].
Definition opt32 (tag v : Z) : bytes := [tag; 4] ++ be_enc 4 v.

Definition dhcp_opts_out (c : Config) (msg_type : Z) : bytes :=
  opt8 53 (if msg_type =? 1 then 2 else 5) ++ opt32 54 (gw_ip c) ++ opt32 51 86400
    ++ opt32 1 0xFFFFFF00 ++ opt32 3 (gw_ip c) ++ opt32 6 (dns_ip c) ++ [255].

(** [reply], its first [max(p, 300)] bytes. *)
Definition dhcp_reply (c : Config) (msg_type : Z) (xid chaddr : bytes) : bytes :=
  let filled := [2; 1; 6; 0] ++ xid ++ replicate 8 0 ++ be_enc 4 (guest_ip c)
    ++ be_enc 4 (gw_ip c) ++ replicate 4 0 ++ chaddr ++ replicate 202 0 ++ [99; 130; 83; 99]
    ++ dhcp_opts_out c msg_type in
  filled ++ replicate (300 - length filled) 0.

Definition handle_dhcp (s : Impl) (payload : bytes) (len : Z) : res Impl :=
  if len <? 240 then Ok s else
  xid ← get payload 4 4;
  let opt_rem := Z.to_nat (len - 240) in
  msg_type ← dhcp_options opt_rem (drop 240 payload) opt_rem 0 0;
  if negb (msg_type =? 1) && negb (msg_type =? 3) then Ok s else
  chaddr ← get payload 28 6;
  udp_out s (replicate 6 0xff) (gw_ip (cfg s)) 67 0xFFFFFFFF 68
    (dhcp_reply (cfg s) msg_type xid chaddr).

(** ** DNS and generic UDP

    [recv] keeps at most the buffer's size of the datagram.  [sendto] returns 0
    for an empty datagram, which the code takes for a failure. *)
Definition udp_exchange (s : Impl) (ip port : Z) (data : bytes) (cap : nat)
  : Impl * option bytes :=
  (log s [UdpSend ip port data],
   match data, h_udp host ip port data with
   | _ :: _, Some (_ :: _ as resp) => Some (take cap resp)
   | _, _ => None
   end).

Definition handle_dns (s : Impl) (eth_src : bytes) (src src_port : Z) (q : bytes) (qlen : Z)
  : res Impl :=
  data ← get q 0 (Z.to_nat qlen);
  match udp_exchange s (dns_fwd_ip (cfg s)) 53 data 512 with
  | (s, Some resp) => udp_out s eth_src (dns_ip (cfg s)) 53 src src_port resp
  | (s, None) => Ok s
  end.

Definition handle_udp (s : Impl) (eth_src : bytes) (src dst : Z) (payload : bytes) (plen : Z)
  : res Impl :=
  if plen <? Z.of_nat sizeof_UdpHdr then Ok s else
  sp ← get16 payload 0;
  dp ← get16 payload 2;
  let data := drop sizeof_UdpHdr payload in
  let dlen := plen - Z.of_nat sizeof_UdpHdr in
  if dp =? 67 then handle_dhcp s data dlen
  else if dp =? 53 then handle_dns s eth_src src sp data dlen
  else
    bs ← get data 0 (Z.to_nat dlen);
    match udp_exchange s dst dp bs 1500 with
    | (s, Some resp) => udp_out s eth_src dst dp src sp resp
    | (s, None) => Ok s
    end.

(** ** TCP *)
Definition flag (flags bit : Z) : bool := negb (Z.land flags bit =? 0).

(** [for (k : done_queue) conns.erase(k); done_queue.clear()]. *)
Definition reap (s : Impl) : Impl :=
  with_done (with_conns s (foldl (λ m k, delete k m) (conns s) (done_queue s))) [].

(** [while (rem > 0) { w = ::write(fd, p, rem); if (w <= 0) break; ... }]. *)
Fixpoint write_all (fuel : nat) (s : Impl) (fd : Z) (p : bytes) : res Impl :=
  match p, fuel with
  | [], _ => Ok s
  | _ :: _, O => Err OutOfFuel
  | _ :: _, S fuel =>
      let w := h_write host (out s) fd p in
      if w <=? 0 then Ok s
      else write_all fuel (log s [SockWrite fd (take (Z.to_nat w) p)]) fd (drop (Z.to_nat w) p)
  end.

(** The initial SYN of an outbound connection. *)
Definition tcp_syn (s : Impl) (key : ConnKey) (eth_src : bytes) (src dst sp dp seq : Z) : Impl :=
  match conns s !! key with
  | Some _ => s
  | None =>
      let '(id, s) := new_conn s
        (mkConn dst src dp sp eth_src (u32 (seq + 1)) 0x40000000 (-1) CONNECTING false) in
      log (emplace s key id) [SpawnConnect id key dst dp]
  end.

(** Data and FIN on an established connection: what is done under the lock,
    then, after [lk.unlock()], the write and the answer. *)
Definition tcp_established (s : Impl) (key : ConnKey) (id : nat) (c : TcpConn)
    (seq flags : Z) (data : res bytes) (dlen : Z) : res Impl :=
  let in_order := (0 <? dlen) && (seq =? g_nxt c) in
  let should_fin := flag flags TF_FIN in
  to_write ← (if in_order then data else Ok []);
  let s := if in_order then upd_conn s id (λ c, set_g_nxt c (u32 (g_nxt c + dlen))) else s in
  let g1 := if in_order then u32 (g_nxt c + dlen) else g_nxt c in
  let s := if should_fin then
             let s := upd_conn s id (λ c, set_stop (set_g_nxt c (u32 (g_nxt c + 1))) true) in
             let s := if 0 <=? c_fd c then log s [ShutdownWr (c_fd c)] else s in
             upd_conn (erase s key) id (λ c, set_h_nxt c (u32 (h_nxt c + 1)))
           else s in
  let ack_out := if should_fin then u32 (g1 + 1) else g1 in
  let h_seq := h_nxt c in
  s ← (if negb (bool_decide (to_write = [])) && (0 <=? c_fd c)
       then write_all (length to_write) s (c_fd c) to_write else Ok s);
  if should_fin then conn_out s c h_seq ack_out (Z.lor TF_FIN TF_ACK) []
  else if in_order then conn_out s c h_seq ack_out TF_ACK []
  else Ok s.

Definition handle_tcp (s : Impl) (eth_src : bytes) (src dst : Z) (payload : bytes) (plen : Z)
  : res Impl :=
  if plen <? Z.of_nat sizeof_TcpHdr then Ok s else
  sp ← get16 payload 0;
  dp ← get16 payload 2;
  seq ← get32 payload 4;
  ack_v ← get32 payload 8;
  doff ← get8 payload 12;
  flags ← get8 payload 13;
  let hlen := Z.shiftr doff 4 * 4 in
  let dlen := if hlen <? plen then plen - hlen else 0 in
  let data := get payload (Z.to_nat hlen) (Z.to_nat dlen) in
  let key := (src, dst, sp, dp) in
  let s := reap s in
  if flag flags TF_SYN && negb (flag flags TF_ACK)
  then Ok (tcp_syn s key eth_src src dst sp dp seq)
  else
    match conns s !! key with
    | None =>
        if flag flags TF_RST then Ok s
        else tcp_out s eth_src dst dp src sp ack_v 0 TF_RST []
    | Some id =>
        c ← deref (heap s !! id);
        if flag flags TF_RST then Ok (erase (upd_conn s id (λ c, set_stop c true)) key)
        else match c_state c with
             | SYNACK_SENT =>
                 if flag flags TF_ACK
                 then Ok (log (upd_conn s id (λ c, set_state c ESTABLISHED)) [SpawnIo id key])
                 else Ok s
             | CONNECTING => Ok s
             | ESTABLISHED => tcp_established s key id c seq flags data dlen
             end
    end.

(** ** The connecting thread: [socket] and [connect] fail, or the peer
    accepts on descriptor [fd]. *)
Definition connect_failed (s : Impl) (key : ConnKey) : Impl := erase s key.

Definition connect_done (s : Impl) (id : nat) (fd : Z) : res Impl :=
  c ← deref (heap s !! id);
  let s := upd_conn s id (λ c, set_h_nxt (set_state (set_fd c fd) SYNACK_SENT) (u32 (h_nxt c + 1))) in
  conn_out s c (h_nxt c) (g_nxt c) (Z.lor TF_SYN TF_ACK) [].

(** ** The I/O thread: one [read] that returned [data] (at most 4096 bytes),
    and its end after end of file, an error or [stop]. *)
Definition io_read (s : Impl) (id : nat) (data : bytes) : res Impl :=
  c ← deref (heap s !! id);
  let s := upd_conn s id (λ c, set_h_nxt c (u32 (h_nxt c + Z.of_nat (length data)))) in
  conn_out s c (h_nxt c) (g_nxt c) (Z.lor TF_PSH TF_ACK) data.

Definition io_exit (s : Impl) (id : nat) (key : ConnKey) : res Impl :=
  c ← deref (heap s !! id);
  s ← (if c_stop c then Ok s
       else conn_out (upd_conn s id (λ c, set_h_nxt c (u32 (h_nxt c + 1)))) c
              (h_nxt c) (g_nxt c) (Z.lor TF_FIN TF_ACK) []);
  Ok (with_done s (done_queue s ++ [key])).

(** ** Inbound port forwarding *)
Definition fwd_isn (eport : Z) : Z := Z.lor 0x50000000 (u32 (Z.shiftl eport 8)).
Definition fwd_key (c : Config) (gport eport : Z) : ConnKey := (guest_ip c, gw_ip c, gport, eport).

(** Up to the first retransmission: the new connection and its key. *)
Definition inbound_start (s : Impl) (host_fd gport : Z) : Impl * ConnKey * Z :=
  let eport := next_eport s in
  let s := mkImpl (cfg s) (conns s) (heap s) (next_id s) (done_queue s) (u16 (eport + 1)) (out s) in
  let our_isn := fwd_isn eport in
  let key := fwd_key (cfg s) gport eport in
  let '(id, s) := new_conn s
    (mkConn (gw_ip (cfg s)) (guest_ip (cfg s)) eport gport (guest_mac (cfg s))
       0 (u32 (our_isn + 1)) host_fd SYNACK_SENT false) in
  (emplace s key id, key, eport).

Definition inbound_syn (s : Impl) (gport eport : Z) : res Impl :=
  tcp_out s (guest_mac (cfg s)) (gw_ip (cfg s)) eport (guest_ip (cfg s)) gport
    (fwd_isn eport) 0 TF_SYN [].

(** Whether the connection still waits for the guest. *)
Definition inbound_waiting (s : Impl) (key : ConnKey) : res bool :=
  match conns s !! key with
  | None => Ok false
  | Some id => c ← deref (heap s !! id); Ok (bool_decide (c_state c = SYNACK_SENT))
  end.

(** [sleep attempt] is what the other threads do while this one sleeps. *)
Section Inbound.
Context (sleep : nat → Impl → res Impl).

Fixpoint inbound_attempts (tries attempt : nat) (s : Impl) (key : ConnKey) (gport eport : Z)
  : res Impl :=
  match tries with
  | O => Ok (erase s key)
  | S tries =>
      s ← inbound_syn s gport eport;
      s ← sleep attempt s;
      waiting ← inbound_waiting s key;
      if (waiting : bool) then inbound_attempts tries (S attempt) s key gport eport else Ok s
  end.

Definition inbound_fwd (s : Impl) (host_fd gport : Z) : res Impl :=
  let '(s, key, eport) := inbound_start s host_fd gport in
  inbound_attempts 5 0 s key gport eport.
End Inbound.

(** ** [~Stack]: every connection of the table is told to stop. *)
Definition stack_stop (s : Impl) : Impl :=
  with_conns (map_fold (λ _ id s, upd_conn s id (λ c, set_stop c true)) s (conns s)) ∅.

(** ** Frame dispatch *)
Definition handle_frame (s : Impl) (frame : bytes) : res Impl :=
  let len := Z.of_nat (length frame) in
  if len <? Z.of_nat sizeof_EthHdr then Ok s else
  eth_src ← get frame 6 6;
  etype ← get16 frame 12;
  let payload := drop sizeof_EthHdr frame in
  let plen := len - Z.of_nat sizeof_EthHdr in
  if etype =? 0x0806 then handle_arp s eth_src payload plen
  else if negb (etype =? 0x0800) then Ok s
  else if plen <? Z.of_nat sizeof_Ip4Hdr then Ok s
  else
    ver_ihl ← get8 payload 0;
    iplen ← get16 payload 2;
    proto ← get8 payload 9;
    src ← get32 payload 12;
    dst ← get32 payload 16;
    let ihl := Z.land ver_ihl 0x0f * 4 in
    if (plen <? ihl) || (iplen <? ihl) then Ok s else
    let ipp := drop (Z.to_nat ihl) payload in
    let ippl := iplen - ihl in
    if proto =? IP_ICMP then handle_icmp s eth_src src dst ipp ippl
    else if proto =? IP_UDP then handle_udp s eth_src src dst ipp ippl
    else if proto =? IP_TCP then handle_tcp s eth_src src dst ipp ippl
    else Ok s.

Definition guest_tx (s : Impl) (frame : bytes) : res Impl := handle_frame s frame.
End Stack.
