(* ===== verification/NetStackInv.v ===== *)
(** * NetStackInv: well-formed stacks and the steps of the TCP handler

    The invariant of the stack of NetStack: every key of the connection table
    names a live connection whose addresses are those of the key, mirrored, so
    that what the stack sends for it comes from the address the guest talked
    to. *)

From S2P Require Import Prelude Bytes NetWire NetStack.

Record wf_cfg (c : Config) : Prop := {
  wc_gw_mac : length (gw_mac c) = 6%nat;
  wc_guest_mac : length (guest_mac c) = 6%nat;
  wc_gw_ip : fits 32 (gw_ip c);
  wc_dns_ip : fits 32 (dns_ip c);
  wc_guest_ip : fits 32 (guest_ip c);
}.

Record wf_conn (c : TcpConn) : Prop := {
  wn_mac : length (c_mac c) = 6%nat;
  wn_src_ip : fits 32 (stk_src_ip c);
  wn_dst_ip : fits 32 (stk_dst_ip c);
  wn_src_port : fits 16 (stk_src_port c);
  wn_dst_port : fits 16 (stk_dst_port c);
  wn_g : fits 32 (g_nxt c);
  wn_h : fits 32 (h_nxt c);
}.

(** The key under which the guest reaches a connection. *)
Definition conn_key (c : TcpConn) : ConnKey :=
  (stk_dst_ip c, stk_src_ip c, stk_dst_port c, stk_src_port c).

Record wf_stack (s : Impl) : Prop := {
  ws_cfg : wf_cfg (cfg s);
  ws_heap : ∀ id c, heap s !! id = Some c → wf_conn c ∧ (id < next_id s)%nat;
  ws_conns : ∀ k id, conns s !! k = Some id → ∃ c, heap s !! id = Some c ∧ conn_key c = k;
}.

Section updates.
Implicit Types s : Impl.

Lemma log_log s es es' : log (log s es) es' = log s (es ++ es').
Proof. destruct s. unfold log. cbn. by rewrite app_assoc. Qed.

Lemma log_nil s : log s [] = s.
Proof. destruct s. unfold log. cbn. by rewrite app_nil_r. Qed.

Lemma heap_upd_eq s id f c : heap s !! id = Some c → heap (upd_conn s id f) !! id = Some (f c).
Proof. intros H. cbn. by rewrite lookup_alter_eq, H. Qed.

Lemma wf_log s es : wf_stack s → wf_stack (log s es).
Proof. intros []. by split. Qed.

Lemma wf_with_done s v : wf_stack s → wf_stack (with_done s v).
Proof. intros []. by split. Qed.

Lemma wf_erase s k : wf_stack s → wf_stack (erase s k).
Proof.
  intros [? ? H]. split; [done..|]. cbn. intros k' id Hk.
  apply lookup_delete_Some in Hk as [_ Hk]. eauto.
Qed.

Lemma wf_upd s id f :
  (∀ c, wf_conn c → wf_conn (f c) ∧ conn_key (f c) = conn_key c) →
  wf_stack s → wf_stack (upd_conn s id f).
Proof.
  intros Hf [Hc Hh Hk]. split; [done|..]; cbn.
  - intros i c Hi. destruct (decide (id = i)) as [->|Hne].
    + rewrite lookup_alter_eq in Hi. destruct (heap s !! i) as [c0|] eqn:E; [|done].
      injection Hi as <-. destruct (Hh i c0 E). split; [by apply Hf | done].
    + rewrite lookup_alter_ne in Hi by done. eauto.
  - intros k i Hi. destruct (Hk k i Hi) as (c & Hc' & <-).
    destruct (decide (id = i)) as [->|Hne].
    + rewrite lookup_alter_eq, Hc'. exists (f c). split; [done|]. apply Hf. by eapply Hh.
    + rewrite lookup_alter_ne by done. eauto.
Qed.

Lemma wf_reap s : wf_stack s → wf_stack (reap s).
Proof.
  intros [Hc Hh Hk]. split; [done..|]. cbn. revert Hk. generalize (conns s).
  induction (done_queue s) as [|k0 l IH]; intros m Hk; cbn [foldl]; [done|].
  apply IH. intros k id Hi. apply lookup_delete_Some in Hi as [_ Hi]. eauto.
Qed.

Lemma lookup_reap s k : k ∉ done_queue s → conns (reap s) !! k = conns s !! k.
Proof.
  cbn. generalize (conns s). induction (done_queue s) as [|k0 l IH]; intros m Hk; cbn [foldl];
    [done|]. apply not_elem_of_cons in Hk as [Hne Hk]. rewrite IH by done.
  by rewrite lookup_delete_ne.
Qed.

Lemma wf_new_conn s c : wf_stack s → wf_conn c → wf_stack (new_conn s c).2.
Proof.
  intros [Hc Hh Hk] Hw. split; [done|..]; cbn.
  - intros id c' Hi. destruct (decide (next_id s = id)) as [<-|Hne].
    + rewrite lookup_insert_eq in Hi. injection Hi as <-. split; [done | lia].
    + rewrite lookup_insert_ne in Hi by done. destruct (Hh id c' Hi). split; [done | lia].
  - intros k id Hi. destruct (Hk k id Hi) as (c' & Hi' & E). exists c'. split; [|done].
    rewrite lookup_insert_ne; [done|]. destruct (Hh id c' Hi'). lia.
Qed.

Lemma wf_emplace s k id c :
  wf_stack s → heap s !! id = Some c → conn_key c = k → wf_stack (emplace s k id).
Proof.
  intros [Hc Hh Hk] Hi E. unfold emplace. destruct (conns s !! k) eqn:H; [by split|].
  split; [done..|]. cbn. intros k' id' [[<- <-]|[_ H']]%lookup_insert_Some; eauto.
Qed.
End updates.

#[export] Hint Resolve wf_log wf_with_done wf_erase wf_reap : vm.

(** ** The updates the handlers make keep a connection well formed. *)
Section conn.
Implicit Types c : TcpConn.

Lemma wf_bump_g c n :
  wf_conn c → wf_conn (set_g_nxt c (u32 n)) ∧ conn_key (set_g_nxt c (u32 n)) = conn_key c.
Proof. intros []. split; [|done]. split; try done. apply u32_range. Qed.

Lemma wf_bump_h c n :
  wf_conn c → wf_conn (set_h_nxt c (u32 n)) ∧ conn_key (set_h_nxt c (u32 n)) = conn_key c.
Proof. intros []. split; [|done]. split; try done. apply u32_range. Qed.

Lemma wf_set_stop c b : wf_conn c → wf_conn (set_stop c b) ∧ conn_key (set_stop c b) = conn_key c.
Proof. by intros []. Qed.

Lemma wf_set_state c v : wf_conn c → wf_conn (set_state c v) ∧ conn_key (set_state c v) = conn_key c.
Proof. by intros []. Qed.
End conn.

(** ** Sending for a connection *)
Lemma conn_out_valid s c seq ack flags data :
  wf_cfg (cfg s) → wf_conn c → fits 32 seq → fits 32 ack → is_byte flags → wf_bytes data →
  Z.of_nat (length data) ≤ 1994 →
  ∃ seg frame, conn_out s c seq ack flags data = Ok (tx s frame) ∧
    ip_packet (cfg s) (c_mac c) (stk_src_ip c) (stk_dst_ip c) IP_TCP seg frame ∧
    tcp_segment (stk_src_ip c) (stk_dst_ip c) (stk_src_port c) (stk_dst_port c)
      seq ack flags data seg.
Proof.
  intros [Hg _ _ _ _] [Hm Hs Hd Hsp Hdp _ _] Hseq Hack Hf Hb Hl.
  destruct (send_tcp_valid (cfg s) Hg (c_mac c) Hm _ _ Hs Hd _ _ Hsp Hdp seq ack flags data)
    as (seg & frame & E & _ & V & T); [done..|].
  exists seg, frame. unfold conn_out, tcp_out. by rewrite E.
Qed.

(** ** The write loop *)
Section write_all.
Context (host : Host).

(** [::write] returns an error or the positive count it wrote. *)
Definition host_writes (l : list NetEvent) (fd : Z) : Prop :=
  ∀ es p, p ≠ [] → 1 ≤ h_write host (l ++ es) fd p ≤ Z.of_nat (length p).

(** It always ends; it writes everything when every call makes progress. *)
Lemma write_all_ok fd : ∀ fuel s p, (length p ≤ fuel)%nat →
  ∃ ws, write_all host fuel s fd p = Ok (log s (SockWrite fd <$> ws)) ∧
    (host_writes (out s) fd → mjoin ws = p).
Proof.
  induction fuel as [|fuel IH]; intros s p Hf.
  - destruct p; [|cbn in Hf; lia]. exists []. cbn [write_all fmap list_fmap]. by rewrite log_nil.
  - destruct p as [|b p]; [exists []; cbn [write_all fmap list_fmap]; by rewrite log_nil|].
    cbn [write_all]. set (q := b :: p) in *. set (w := h_write host (out s) fd q).
    destruct (Z.leb_spec w 0) as [Hw|Hw].
    + exists []. cbn [fmap list_fmap]. rewrite log_nil. split; [done|].
      intros Hl. specialize (Hl [] q). rewrite app_nil_r in Hl. fold w in Hl.
      destruct Hl; [done | lia].
    + destruct (IH (log s [SockWrite fd (take (Z.to_nat w) q)]) (drop (Z.to_nat w) q))
        as (ws & E & J).
      { rewrite length_drop. unfold q in *. cbn [length] in *. lia. }
      exists (take (Z.to_nat w) q :: ws). cbn [fmap list_fmap]. split.
      * rewrite E, log_log. done.
      * intros Hl. change (take (Z.to_nat w) q ++ mjoin ws = q). rewrite J, take_drop; [done|].
        intros es r Hr. cbn [out log]. rewrite <- app_assoc. by apply Hl.
Qed.
End write_all.
