(* ===== verification/NetStackThms.v ===== *)
(** * NetStackThms: what the network stack does for the guest

    The properties of NetStack: the TCP byte stream from the guest to the host,
    the segments sent to the guest, the inbound handshake, the safety of the
    frame dispatcher, and the DHCP reply. *)

From S2P Require Import Prelude Bytes NetWire NetStack NetStackInv.

(** A TCP segment as a guest sends it, without TCP options. *)
Definition guest_segment (sp dp seq ack flags ck : Z) (data : bytes) : bytes :=
  tcp_header sp dp seq ack flags ck ++ data.

Section Segments.
Context (host : Host).
Context (src dst sp dp seq ack flags ck : Z) (data : bytes).
Context (Hsp : fits 16 sp) (Hdp : fits 16 dp) (Hseq : fits 32 seq) (Hack : fits 32 ack).
Context (Hflags : is_byte flags) (Hlen : Z.of_nat (length data) ≤ 65515).

Let seg := guest_segment sp dp seq ack flags ck data.

Lemma length_guest_segment : length seg = (20 + length data)%nat.
Proof. unfold seg, guest_segment. by rewrite length_app. Qed.

(** The header fields [handle_tcp] reads, and the payload it finds. *)
Lemma guest_segment_fields :
  get16 seg 0 = Ok sp ∧ get16 seg 2 = Ok dp ∧ get32 seg 4 = Ok seq ∧ get32 seg 8 = Ok ack ∧
  get8 seg 12 = Ok 0x50 ∧ get8 seg 13 = Ok flags ∧ get seg 20 (length data) = Ok data.
Proof.
  split_and!.
  - by apply get_be16.
  - by apply get_be16.
  - by apply get_be32.
  - by apply get_be32.
  - done.
  - by apply (get_enc8 _ _ flags).
  - unfold seg, guest_segment, get. rewrite bool_decide_eq_true_2 by (rewrite length_app; done).
    change 20%nat with (length (tcp_header sp dp seq ack flags ck)).
    rewrite drop_app_length. by rewrite take_ge.
Qed.

(** A segment on an established connection reaches [tcp_established]. *)
Lemma handle_tcp_established s eth id c :
  conns s !! (src, dst, sp, dp) = Some id → (src, dst, sp, dp) ∉ done_queue s →
  heap s !! id = Some c → c_state c = ESTABLISHED →
  flag flags TF_SYN = false → flag flags TF_RST = false →
  handle_tcp host s eth src dst seg (20 + Z.of_nat (length data)) =
    tcp_established host (reap s) (src, dst, sp, dp) id c seq flags (Ok data)
      (Z.of_nat (length data)).
Proof.
  intros Hk Hd Hc He Hsyn Hrst. destruct guest_segment_fields as (F1 & F2 & F3 & F4 & F5 & F6 & F7).
  unfold handle_tcp. destruct (Z.ltb_spec (20 + Z.of_nat (length data)) (Z.of_nat sizeof_TcpHdr))
    as [Hx|_]; [unfold sizeof_TcpHdr in Hx; lia|].
  rewrite F1, bind_Ok, F2, bind_Ok, F3, bind_Ok, F4, bind_Ok, F5, bind_Ok, F6, bind_Ok. cbv zeta.
  change (Z.shiftr 0x50 4 * 4) with 20. rewrite Hsyn. cbn [andb].
  rewrite lookup_reap, Hk by done. change (heap (reap s)) with (heap s).
  rewrite Hc. cbn [deref]. rewrite bind_Ok, Hrst, He.
  destruct (Z.ltb_spec 20 (20 + Z.of_nat (length data))).
  - replace (20 + Z.of_nat (length data) - 20) with (Z.of_nat (length data)) by lia.
    rewrite Nat2Z.id. change (Z.to_nat 20) with 20%nat. by rewrite F7.
  - destruct data; [done | cbn [length] in *; lia].
Qed.
End Segments.

(** ** The byte stream from the guest *)

(** The payload bytes written to descriptor [fd], and the frames sent to the
    guest, in a log. *)
Definition sock_data (fd : Z) (es : list NetEvent) : bytes :=
  mjoin (omap (λ e, match e with SockWrite f d => if f =? fd then Some d else None | _ => None end) es).
Definition tx_frames (es : list NetEvent) : list bytes :=
  omap (λ e, match e with Tx f => Some f | _ => None end) es.

(** The guest sends bytes [sg_off, sg_off + sg_len) of its stream. *)
Record Seg := mkSeg { sg_off : nat; sg_len : nat; sg_ack : Z; sg_flags : Z; sg_ck : Z }.

Definition seg_ok (stream : bytes) (g : Seg) : Prop :=
  (sg_off g + sg_len g ≤ length stream)%nat ∧ Z.of_nat (sg_len g) ≤ 65515 ∧
  fits 32 (sg_ack g) ∧ is_byte (sg_flags g) ∧
  flag (sg_flags g) TF_SYN = false ∧ flag (sg_flags g) TF_RST = false ∧
  flag (sg_flags g) TF_FIN = false.

(** The abstract receiver: the number of bytes accepted after a segment, and
    whether the segment is acknowledged. *)
Definition accepts (n : nat) (g : Seg) : bool :=
  bool_decide (sg_off g = n) && bool_decide (0 < sg_len g)%nat.
Definition receive (n : nat) (g : Seg) : nat := if accepts n g then (n + sg_len g)%nat else n.
Fixpoint acked (n : nat) (gs : list Seg) : list nat :=
  match gs with
  | [] => []
  | g :: gs => (if accepts n g then [(n + sg_len g)%nat] else []) ++ acked (receive n g) gs
  end.

Section Stream.
Context (host : Host) (eth : bytes) (key : ConnKey) (isn : Z) (stream : bytes).

Definition stream_segment (g : Seg) : bytes :=
  guest_segment key.1.2 key.2 (u32 (isn + Z.of_nat (sg_off g))) (sg_ack g) (sg_flags g) (sg_ck g)
    (take (sg_len g) (drop (sg_off g) stream)).

Definition deliver_one (s : Impl) (g : Seg) : res Impl :=
  handle_tcp host s eth key.1.1.1 key.1.1.2 (stream_segment g) (20 + Z.of_nat (sg_len g)).

Fixpoint deliver (s : Impl) (gs : list Seg) : res Impl :=
  match gs with [] => Ok s | g :: gs => s' ← deliver_one s g; deliver s' gs end.

Context (Hsp : fits 16 key.1.2) (Hdp : fits 16 key.2).
Context (Hstream : Z.of_nat (length stream) < 0x100000000).

(** The connection [c] with the guest's first [n] bytes accepted. *)
Record at_byte (id : nat) (c : TcpConn) (n : nat) (s : Impl) : Prop := {
  ab_cfg : wf_cfg (cfg s);
  ab_key : conns s !! key = Some id;
  ab_done : key ∉ done_queue s;
  ab_heap : heap s !! id = Some (set_g_nxt c (u32 (isn + Z.of_nat n)));
  ab_len : (n ≤ length stream)%nat;
  ab_writes : host_writes host (out s) (c_fd c);
}.

(** An acknowledgement of the first [n] bytes, as the guest must see it. *)
Definition ack_frame (cf : Config) (c : TcpConn) (n : nat) (frame : bytes) : Prop :=
  ∃ seg, ip_packet cf (c_mac c) (stk_src_ip c) (stk_dst_ip c) IP_TCP seg frame ∧
    tcp_segment (stk_src_ip c) (stk_dst_ip c) (stk_src_port c) (stk_dst_port c)
      (h_nxt c) (u32 (isn + Z.of_nat n)) TF_ACK [] seg.

Lemma omap_sock_writes fd (ws : list bytes) : sock_data fd (SockWrite fd <$> ws) = mjoin ws.
Proof.
  unfold sock_data. f_equal. induction ws as [|w ws IH]; [done|].
  cbn [fmap list_fmap omap list_omap]. rewrite Z.eqb_refl. by f_equal.
Qed.

Lemma tx_sock_writes fd (ws : list bytes) : tx_frames (SockWrite fd <$> ws) = [].
Proof. by induction ws. Qed.

Lemma sock_data_app fd es es' : sock_data fd (es ++ es') = sock_data fd es ++ sock_data fd es'.
Proof. unfold sock_data. by rewrite omap_app, join_app. Qed.

Lemma tx_frames_app es es' : tx_frames (es ++ es') = tx_frames es ++ tx_frames es'.
Proof. apply omap_app. Qed.

(** Sequence numbers of a stream below 4 GiB identify its bytes. *)
Lemma seq_offset_inj i j :
  (i ≤ length stream)%nat → (j ≤ length stream)%nat →
  (u32 (isn + Z.of_nat i) =? u32 (isn + Z.of_nat j)) = bool_decide (i = j).
Proof.
  clear Hsp Hdp. intros Hi Hj. case_bool_decide as H; [subst; apply Z.eqb_refl|]. apply Z.eqb_neq. zlia.
Qed.

Lemma deliver_one_ok id c n s g :
  wf_conn c → c_state c = ESTABLISHED → 0 ≤ c_fd c →
  at_byte id c n s → seg_ok stream g →
  ∃ s' es, deliver_one s g = Ok s' ∧ at_byte id c (receive n g) s' ∧
    out s' = out s ++ es ∧ cfg s' = cfg s ∧
    sock_data (c_fd c) es = take (receive n g - n) (drop n stream) ∧
    Forall2 (ack_frame (cfg s) c) (acked n [g]) (tx_frames es).
Proof.
  intros Hc Hst Hfd [Hcf Hk Hd Hh Hn Hw] (Hg1 & Hg2 & Hg3 & Hg4 & Hsyn & Hrst & Hfin).
  set (data := take (sg_len g) (drop (sg_off g) stream)).
  assert (length data = sg_len g) as Hl.
  { unfold data. rewrite length_take, length_drop. lia. }
  unfold deliver_one, stream_segment. fold data. rewrite <- Hl.
  assert (key = (key.1.1.1, key.1.1.2, key.1.2, key.2)) as Ek by by destruct key as [[[]]].
  rewrite (handle_tcp_established host key.1.1.1 key.1.1.2 key.1.2 key.2 _ _ _ _ data Hsp Hdp)
    with (id := id) (c := set_g_nxt c (u32 (isn + Z.of_nat n)));
    [|apply u32_range | done | done | lia | by rewrite <- Ek | by rewrite <- Ek | done..].
  clear Ek.
  unfold tcp_established. rewrite Hfin. cbv zeta. cbn [g_nxt set_g_nxt c_fd h_nxt].
  rewrite seq_offset_inj by lia.
  rewrite Hl. replace (0 <? Z.of_nat (sg_len g)) with (bool_decide (0 < sg_len g)%nat)
    by (case_bool_decide; symmetry; [apply Z.ltb_lt | apply Z.ltb_ge]; lia).
  rewrite andb_comm. change (bool_decide (sg_off g = n) && bool_decide (0 < sg_len g)%nat)
    with (accepts n g). unfold receive. cbn [acked].
  destruct (accepts n g) eqn:Ha; cycle 1.
  { rewrite bind_Ok. rewrite bool_decide_eq_true_2 by done. cbn [negb andb]. rewrite bind_Ok.
    exists (reap s), []. split_and!; [done | | by rewrite app_nil_r | done | by rewrite Nat.sub_diag | constructor].
    split; try done; [by rewrite lookup_reap | apply not_elem_of_nil]. }
  apply andb_true_iff in Ha as [Ho%bool_decide_eq_true Hp%bool_decide_eq_true].
  rewrite bind_Ok. rewrite (proj2 (Z.leb_le 0 (c_fd c))) by done.
  rewrite bool_decide_eq_false_2 by (intros E; rewrite E in Hl; cbn in Hl; lia).
  cbn [negb andb].
  set (s1 := upd_conn (reap s) id _).
  destruct (write_all_ok host (c_fd c) (length data) s1 data) as (ws & Ew & Jw); [done|].
  rewrite Ew, bind_Ok.
  set (n' := (n + sg_len g)%nat).
  assert (u32 (u32 (isn + Z.of_nat n) + Z.of_nat (sg_len g)) = u32 (isn + Z.of_nat n')) as ->
    by (unfold n'; zlia).
  destruct (conn_out_valid (log s1 (SockWrite (c_fd c) <$> ws)) c (h_nxt c)
    (u32 (isn + Z.of_nat n')) TF_ACK []) as (seg & frame & E & V & T);
    [done | done | apply Hc | apply u32_range | done | constructor | done |].
  change (conn_out _ (set_g_nxt c _)) with (conn_out (log s1 (SockWrite (c_fd c) <$> ws)) c).
  rewrite E. eexists _, ((SockWrite (c_fd c) <$> ws) ++ [Tx frame]). split_and!; [done | | | done | |].
  - split; cbn [tx log cfg conns done_queue heap out s1 upd_conn with_heap].
    + done.
    + by rewrite lookup_reap.
    + apply not_elem_of_nil.
    + rewrite lookup_alter_eq. change (heap (reap s)) with (heap s). rewrite Hh.
      cbn [fmap option_fmap option_map]. f_equal. unfold set_g_nxt. cbn. f_equal. unfold n'. zlia.
    + unfold n'. lia.
    + change (out s1) with (out s). intros es p Hp'. rewrite <- !app_assoc. by apply Hw.
  - cbn [tx log out]. change (out s1) with (out s). by rewrite app_assoc.
  - rewrite sock_data_app, omap_sock_writes. change (out s1) with (out s) in Jw.
    rewrite Jw by done. unfold sock_data. cbn. rewrite app_nil_r.
    unfold data, n'. rewrite Ho. f_equal. lia.
  - rewrite tx_frames_app, tx_sock_writes. cbn. constructor; [|constructor]. by exists seg.
Qed.

Lemma receive_mono gs : ∀ n, (n ≤ foldl receive n gs)%nat.
Proof.
  clear. induction gs as [|g gs IH]; intros n; cbn [foldl]; [done|].
  etrans; [|apply IH]. unfold receive. case_match; lia.
Qed.

Lemma deliver_ok id c gs : ∀ n s,
  wf_conn c → c_state c = ESTABLISHED → 0 ≤ c_fd c →
  at_byte id c n s → Forall (seg_ok stream) gs →
  let N := foldl receive n gs in
  ∃ s' es, deliver s gs = Ok s' ∧ at_byte id c N s' ∧ out s' = out s ++ es ∧
    sock_data (c_fd c) es = take (N - n) (drop n stream) ∧
    Forall2 (ack_frame (cfg s) c) (acked n gs) (tx_frames es).
Proof.
  induction gs as [|g gs IH]; intros n s Hc Hst Hfd Ha Hgs; cbn [foldl deliver]; cbv zeta.
  - exists s, []. rewrite app_nil_r, Nat.sub_diag. split_and!; try done.
  - apply Forall_cons in Hgs as [Hg Hgs].
    destruct (deliver_one_ok id c n s g Hc Hst Hfd Ha Hg) as (s1 & es1 & E1 & A1 & O1 & C1 & D1 & F1).
    destruct (IH (receive n g) s1 Hc Hst Hfd A1 Hgs) as (s2 & es2 & E2 & A2 & O2 & D2 & F2).
    pose proof (receive_mono gs (receive n g)) as Hm.
    assert (n ≤ receive n g)%nat as Hm1 by (unfold receive; case_match; lia).
    exists s2, (es1 ++ es2). rewrite E1, bind_Ok, sock_data_app, tx_frames_app.
    split_and!; [done | done | by rewrite O2, O1, app_assoc | |].
    + rewrite D1, D2. set (N := foldl receive (receive n g) gs) in *.
      replace (N - n)%nat with ((receive n g - n) + (N - receive n g))%nat by lia.
      rewrite <- (take_drop (receive n g - n) (drop n stream)) at 2.
      rewrite take_app_add'; [|].
      * f_equal. rewrite drop_drop. do 2 f_equal. lia.
      * rewrite length_take, length_drop. pose proof (ab_len _ _ _ _ A1). lia.
    + cbn [acked]. apply Forall2_app; [|by rewrite <- C1].
      cbn [acked] in F1. by rewrite app_nil_r in F1.
Qed.
End Stream.


(** ** Data that travels with a FIN *)

(** [::write] fails once the sending side of the socket was shut down. *)
Definition no_write_after_shutdown (host : Host) (fd : Z) : Prop :=
  ∀ es es' p, h_write host (es ++ ShutdownWr fd :: es') fd p ≤ 0.

Lemma write_all_shut host fd fuel s p :
  no_write_after_shutdown host fd → p ≠ [] → (length p ≤ fuel)%nat →
  (∃ es es', out s = es ++ ShutdownWr fd :: es') → write_all host fuel s fd p = Ok s.
Proof.
  intros Hn Hp Hf (es & es' & E). destruct p as [|b p]; [done|].
  destruct fuel as [|fuel]; [cbn in Hf; lia|]. cbn [write_all]. rewrite E.
  by rewrite (proj2 (Z.leb_le _ 0)) by apply Hn.
Qed.

(** The last bytes of a connection are acknowledged and dropped.  When
    an in-order segment carries both data and FIN, the stack shuts the host
    socket down for writing before it writes the data, so nothing reaches the
    socket; the guest is nevertheless sent one valid FIN segment that
    acknowledges the data and the FIN, and the connection is forgotten. *)
Theorem fin_data_lost (host : Host) (eth : bytes) (src dst sp dp seq ack flags ck : Z)
    (data : bytes) (id : nat) (c : TcpConn) (s : Impl) :
  fits 16 sp → fits 16 dp → fits 32 ack → is_byte flags → Z.of_nat (length data) ≤ 65515 →
  wf_cfg (cfg s) → conns s !! (src, dst, sp, dp) = Some id → (src, dst, sp, dp) ∉ done_queue s →
  heap s !! id = Some c → wf_conn c → c_state c = ESTABLISHED → 0 ≤ c_fd c →
  flag flags TF_SYN = false → flag flags TF_RST = false → flag flags TF_FIN = true →
  seq = g_nxt c → data ≠ [] → no_write_after_shutdown host (c_fd c) →
  ∃ s' seg frame,
    handle_tcp host s eth src dst (guest_segment sp dp seq ack flags ck data)
      (20 + Z.of_nat (length data)) = Ok s' ∧
    out s' = out s ++ [ShutdownWr (c_fd c); Tx frame] ∧
    conns s' !! (src, dst, sp, dp) = None ∧
    ip_packet (cfg s) (c_mac c) (stk_src_ip c) (stk_dst_ip c) IP_TCP seg frame ∧
    tcp_segment (stk_src_ip c) (stk_dst_ip c) (stk_src_port c) (stk_dst_port c) (h_nxt c)
      (u32 (seq + Z.of_nat (length data) + 1)) (Z.lor TF_FIN TF_ACK) [] seg.
Proof.
  intros Hsp Hdp Hack Hf Hl Hcf Hk Hd Hh Hc Hst Hfd Hsyn Hrst Hfin -> Hdata Hw.
  rewrite (handle_tcp_established host src dst sp dp _ _ _ _ data) with (id := id) (c := c)
    by (done || apply Hc).
  unfold tcp_established. rewrite Hfin, Z.eqb_refl, (proj2 (Z.ltb_lt 0 (Z.of_nat (length data)))).
  2: { destruct data; [done | cbn [length]; lia]. }
  cbv zeta. cbn [andb]. rewrite bind_Ok, (proj2 (Z.leb_le 0 (c_fd c))) by done.
  rewrite bool_decide_eq_false_2 by done. cbn [negb andb].
  set (s1 := upd_conn (erase _ _) id _).
  rewrite (write_all_shut host (c_fd c)) by (done || by exists (out s), []).
  rewrite bind_Ok.
  destruct (conn_out_valid s1 c (h_nxt c) (u32 (u32 (g_nxt c + Z.of_nat (length data)) + 1))
    (Z.lor TF_FIN TF_ACK) []) as (seg & frame & E & V & T);
    [done | done | apply Hc | apply u32_range | done | constructor | done |].
  rewrite E. exists (tx s1 frame), seg, frame. split_and!; [done | | | done |].
  - cbn [tx log out]. change (out s1) with (out s ++ [ShutdownWr (c_fd c)]).
    by rewrite <- app_assoc.
  - apply lookup_delete_eq.
  - replace (u32 (g_nxt c + Z.of_nat (length data) + 1))
      with (u32 (u32 (g_nxt c + Z.of_nat (length data)) + 1)) by zlia. done.
Qed.

(** ** Inbound port forwarding *)

(** A forwarded connection is never completed towards the guest.  After
    [inbound_fwd] has put its connection in the table, the guest's SYN-ACK
    starts the I/O thread but is not acknowledged, and the sequence number the
    guest announced is not recorded: the stack keeps expecting byte 0, so every
    later segment of the guest with another sequence number leaves the socket
    and the guest without any effect. *)
Theorem inbound_never_acknowledged (host : Host) (eth : bytes) (s : Impl)
    (host_fd gport gseq ack ck : Z) :
  let '(s1, key, eport) := inbound_start s host_fd gport in
  fits 16 gport → fits 16 (next_eport s) → fits 32 gseq → fits 32 ack →
  conns s !! key = None → key ∉ done_queue s →
  ∃ s2 id, handle_tcp host s1 eth (guest_ip (cfg s)) (gw_ip (cfg s))
      (guest_segment gport eport gseq ack (Z.lor TF_SYN TF_ACK) ck []) 20 = Ok s2 ∧
    out s2 = out s ++ [SpawnIo id key] ∧
    ∀ seq ack' flags ck' data,
      fits 32 seq → seq ≠ 0 → fits 32 ack' → is_byte flags → Z.of_nat (length data) ≤ 65515 →
      flag flags TF_SYN = false → flag flags TF_RST = false → flag flags TF_FIN = false →
      ∃ s3, handle_tcp host s2 eth (guest_ip (cfg s)) (gw_ip (cfg s))
          (guest_segment gport eport seq ack' flags ck' data) (20 + Z.of_nat (length data)) = Ok s3 ∧
        out s3 = out s2 ∧ heap s3 = heap s2 ∧ conns s3 = conns s2.
Proof.
  unfold inbound_start, fwd_key. cbv zeta. cbn [new_conn cfg].
  intros Hgp Hep Hgs Hack Hk Hd.
  set (key := (guest_ip (cfg s), gw_ip (cfg s), gport, next_eport s)) in *.
  set (c := mkConn _ _ _ _ _ _ _ _ SYNACK_SENT false).
  unfold emplace. cbn [conns]. rewrite Hk. set (s1 := with_conns _ _).
  destruct (guest_segment_fields gport (next_eport s) gseq ack (Z.lor TF_SYN TF_ACK) ck [])
    as (F1 & F2 & F3 & F4 & F5 & F6 & F7); [done..|].
  assert (conns (reap s1) !! key = Some (next_id s)) as Hk1.
  { rewrite lookup_reap by done. apply lookup_insert_eq. }
  assert (heap (reap s1) !! next_id s = Some c) as Hh1 by apply lookup_insert_eq.
  eexists _, (next_id s). split.
  { unfold handle_tcp. rewrite F1, bind_Ok, F2, bind_Ok, F3, bind_Ok, F4, bind_Ok, F5, bind_Ok, F6, bind_Ok.
    cbv zeta. fold key. rewrite Hk1, Hh1. reflexivity. }
  split; [done|].
  intros seq ack' flags ck' data Hseq Hne Hack' Hf Hl Hsyn Hrst Hfin.
  set (s2 := log _ _).
  assert (heap s2 !! next_id s = Some (set_state c ESTABLISHED)) as Hh2.
  { change (alter (λ c, set_state c ESTABLISHED) (next_id s) (heap (reap s1)) !! next_id s
      = Some (set_state c ESTABLISHED)). by rewrite lookup_alter_eq, Hh1. }
  rewrite (handle_tcp_established host _ _ gport (next_eport s) _ _ _ _ data)
    with (id := next_id s) (c := set_state c ESTABLISHED); [| done.. | | | done | done | done | done].
  - unfold tcp_established. rewrite Hfin.
    replace (seq =? g_nxt (set_state c ESTABLISHED)) with false by (symmetry; apply Z.eqb_neq; done).
    rewrite andb_false_r. cbv zeta. rewrite bind_Ok, bool_decide_eq_true_2 by done.
    cbn [negb andb]. rewrite bind_Ok. by eexists.
  - done.
  - apply not_elem_of_nil.
Qed.

(** ** Data from the host *)

(** What the I/O thread sends on a connection is one valid frame. *)
Lemma conn_out_ok (s : Impl) (c : TcpConn) (seq ack flags : Z) (data : bytes) :
  wf_cfg (cfg s) → wf_conn c → wf_bytes data → fits 32 seq → fits 32 ack → fits 8 flags →
  Z.of_nat (length data) ≤ 1994 →
  ∃ seg frame, conn_out s c seq ack flags data = Ok (tx s frame) ∧
    length frame = (54 + length data)%nat ∧
    ip_packet (cfg s) (c_mac c) (stk_src_ip c) (stk_dst_ip c) IP_TCP seg frame ∧
    tcp_segment (stk_src_ip c) (stk_dst_ip c) (stk_src_port c) (stk_dst_port c) seq ack flags data seg.
Proof.
  intros Hcf [Hm Hs Hd Hsp Hdp Hg Hhn] Hb Hq Ha Hf Hl.
  destruct (send_tcp_valid (cfg s) (wc_gw_mac _ Hcf) (c_mac c) Hm _ _ Hs Hd _ _ Hsp Hdp
    seq ack flags data) as (seg & frame & E & L & V & T); [done..|].
  exists seg, frame. split_and!; try done. unfold conn_out, tcp_out. by rewrite E.
Qed.

(** What the host peer sends reaches the guest as one valid segment, or
    overruns the stack.  One [read] of up to 1994 bytes becomes exactly one
    frame to the guest, with right lengths and checksums, the connection's
    addresses, the next sequence number and the bytes read; a [read] that
    returned more, up to the 4096 bytes of the thread's buffer, makes [emit_ip]
    copy past the end of its 2048-byte frame buffer. *)
Theorem io_read_frame (s : Impl) (id : nat) (c : TcpConn) (data : bytes) :
  wf_cfg (cfg s) → heap s !! id = Some c → wf_conn c → wf_bytes data →
  Z.of_nat (length data) ≤ 4096 →
  (Z.of_nat (length data) ≤ 1994 →
   ∃ s' seg frame, io_read s id data = Ok s' ∧ out s' = out s ++ [Tx frame] ∧
     heap s' !! id = Some (set_h_nxt c (u32 (h_nxt c + Z.of_nat (length data)))) ∧
     length frame = (54 + length data)%nat ∧
     ip_packet (cfg s) (c_mac c) (stk_src_ip c) (stk_dst_ip c) IP_TCP seg frame ∧
     tcp_segment (stk_src_ip c) (stk_dst_ip c) (stk_src_port c) (stk_dst_port c)
       (h_nxt c) (g_nxt c) (Z.lor TF_PSH TF_ACK) data seg) ∧
  (1994 < Z.of_nat (length data) → io_read s id data = Err HostOOB).
Proof.
  intros Hcf Hh Hc Hb Hl. unfold io_read. rewrite Hh. cbn [deref]. rewrite bind_Ok. cbv zeta.
  set (s1 := upd_conn s id _). change (cfg s) with (cfg s1). split; intros Hl'.
  - destruct (conn_out_ok s1 c (h_nxt c) (g_nxt c) (Z.lor TF_PSH TF_ACK) data)
      as (seg & frame & E & L & V & T); [done..|apply Hc|apply Hc|done|done|].
    exists (tx s1 frame), seg, frame. split_and!; try done.
    exact (heap_upd_eq s id (λ c, set_h_nxt c (u32 (h_nxt c + Z.of_nat (length data)))) c Hh).
  - unfold conn_out, tcp_out, send_tcp. rewrite (proj2 (Z.leb_le _ 8192)) by lia.
    cbn [guard_res]. rewrite bind_Ok. cbv zeta. unfold emit_ip. cbv zeta.
    rewrite length_app. change (length (tcp_header _ _ _ _ _ _)) with 20%nat.
    unfold sizeof_EthHdr, sizeof_Ip4Hdr, kFrameMax.
    by rewrite (proj2 (Z.leb_gt _ 2048)) by lia.
Qed.
