(* ===== verification/NetStackSafe.v ===== *)
(** * NetStackSafe: which frames the stack handles without a memory error

    The dispatcher and all handlers of NetStack on a frame whose IP length
    field is honest, and on one where it is not. *)

From S2P Require Import Prelude Bytes NetWire NetStack NetStackInv.

(** ** Reads inside the frame succeed *)
Section reads.
Context (p : bytes) (Hp : wf_bytes p).

Lemma get_ok off n :
  (off + n ≤ length p)%nat → ∃ bs, get p off n = Ok bs ∧ length bs = n ∧ wf_bytes bs.
Proof.
  intros H. unfold get. rewrite bool_decide_eq_true_2 by done. eexists. split; [done|].
  split; [rewrite length_take, length_drop; lia | auto with vm].
Qed.

Lemma get8_ok off : (off + 1 ≤ length p)%nat → ∃ x, get8 p off = Ok x ∧ is_byte x.
Proof.
  intros H. destruct (get_ok off 1 H) as (bs & E & L & W). unfold get8. rewrite E.
  eexists. split; [done|]. apply le_dec_range in W. rewrite L in W. done.
Qed.

Lemma get_be_ok off n :
  (off + n ≤ length p)%nat → ∃ x, be_dec <$> get p off n = Ok x ∧ 0 ≤ x < 256 ^ Z.of_nat n.
Proof.
  intros H. destruct (get_ok off n H) as (bs & E & L & W). rewrite E.
  eexists. split; [done|]. unfold be_dec. rewrite <- L, <- (length_reverse bs).
  apply le_dec_range. by apply Forall_reverse.
Qed.

Lemma get16_ok off : (off + 2 ≤ length p)%nat → ∃ x, get16 p off = Ok x ∧ fits 16 x.
Proof. apply get_be_ok. Qed.

Lemma get32_ok off : (off + 4 ≤ length p)%nat → ∃ x, get32 p off = Ok x ∧ fits 32 x.
Proof. apply get_be_ok. Qed.
End reads.

(** Read the next field of the handler in the goal. *)
Ltac read_next :=
  match goal with
  | Hp : wf_bytes ?p |- context [get16 ?p ?off] =>
      let x := fresh "x" in let E := fresh "E" in let R := fresh "R" in
      destruct (get16_ok p Hp off) as (x & E & R); [len|]; rewrite E, bind_Ok
  | Hp : wf_bytes ?p |- context [get32 ?p ?off] =>
      let x := fresh "x" in let E := fresh "E" in let R := fresh "R" in
      destruct (get32_ok p Hp off) as (x & E & R); [len|]; rewrite E, bind_Ok
  | Hp : wf_bytes ?p |- context [get8 ?p ?off] =>
      let x := fresh "x" in let E := fresh "E" in let R := fresh "R" in
      destruct (get8_ok p Hp off) as (x & E & R); [len|]; rewrite E, bind_Ok
  | Hp : wf_bytes ?p |- context [get ?p ?off ?n] =>
      let x := fresh "bs" in let E := fresh "E" in let L := fresh "L" in let W := fresh "W" in
      destruct (get_ok p Hp off n) as (x & E & L & W); [len|]; rewrite E, bind_Ok
  end.

(** ** Sending within the buffers succeeds *)
Lemma emit_ip_total cfg dst sip dip proto seg :
  Z.of_nat (length seg) ≤ 2014 → is_Ok (emit_ip cfg dst sip dip proto seg).
Proof.
  intros H. unfold emit_ip, sizeof_EthHdr, sizeof_Ip4Hdr, kFrameMax. cbv zeta.
  rewrite (proj2 (Z.leb_le _ 2048)) by lia. by eexists.
Qed.

Lemma send_tcp_total cfg dst sip sp dip dp seq ack flags data :
  Z.of_nat (length data) ≤ 1994 → is_Ok (send_tcp cfg dst sip sp dip dp seq ack flags data).
Proof.
  intros H. unfold send_tcp. rewrite (proj2 (Z.leb_le _ 8192)) by lia. cbn [guard_res].
  rewrite bind_Ok. apply emit_ip_total. rewrite length_app.
  change (length (tcp_header _ _ _ _ _ _)) with 20%nat. lia.
Qed.

Lemma send_udp_total cfg dst sip sp dip dp data :
  Z.of_nat (length data) ≤ 1500 → is_Ok (send_udp cfg dst sip sp dip dp data).
Proof.
  intros H. unfold send_udp. rewrite (proj2 (Z.leb_le _ 1500)) by lia. cbn [guard_res].
  rewrite bind_Ok. cbv zeta. apply emit_ip_total. rewrite length_app.
  change (length (udp_header _ _ _ _)) with 8%nat. lia.
Qed.

(** The handler returns, in a well-formed state. *)
Definition returns_wf (m : res Impl) : Prop := ∃ s, m = Ok s ∧ wf_stack s.

Lemma returns_Ok s : wf_stack s → returns_wf (Ok s).
Proof. by exists s. Qed.

Lemma returns_tx s m : wf_stack s → is_Ok m → returns_wf (tx s <$> m).
Proof. intros Hs [f ->]. exists (tx s f). split; [done|]. by apply wf_log. Qed.

#[export] Hint Resolve returns_Ok returns_tx : vm.

Section Safe.
Context (host : Host).
Implicit Types s : Impl.

Lemma udp_out_ok s dst sip sp dip dp data :
  wf_stack s → (length data ≤ 1500)%nat → returns_wf (udp_out s dst sip sp dip dp data).
Proof. intros. apply returns_tx; [done|]. apply send_udp_total. lia. Qed.

Lemma tcp_out_ok s dst sip sp dip dp seq ack flags :
  wf_stack s → returns_wf (tcp_out s dst sip sp dip dp seq ack flags []).
Proof. intros. apply returns_tx; [done|]. by apply send_tcp_total. Qed.

Lemma conn_out_wf s c seq ack flags : wf_stack s → returns_wf (conn_out s c seq ack flags []).
Proof. intros. unfold conn_out. by apply tcp_out_ok. Qed.

Lemma handle_arp_ok s eth payload :
  wf_stack s → wf_bytes payload → returns_wf (handle_arp s eth payload (Z.of_nat (length payload))).
Proof.
  intros Hs Hp. unfold handle_arp, sizeof_ArpPkt.
  destruct (Z.ltb_spec (Z.of_nat (length payload)) (Z.of_nat 28)); [by apply returns_Ok|].
  read_next. case_match; [by apply returns_Ok|].
  read_next. case_match; [by apply returns_Ok|]. do 2 read_next. by apply returns_Ok, wf_log.
Qed.

Lemma handle_icmp_ok s eth src dst payload plen :
  wf_stack s → wf_bytes payload → plen ≤ Z.of_nat (length payload) → plen ≤ 2014 →
  returns_wf (handle_icmp s eth src dst payload plen).
Proof.
  intros Hs Hp Hl Hm. unfold handle_icmp, sizeof_IcmpHdr.
  destruct (Z.ltb_spec plen (Z.of_nat 8)); [by apply returns_Ok|].
  read_next. case_match; [by apply returns_Ok|]. do 2 read_next.
  destruct (emit_ip_total (cfg s) eth dst src IP_ICMP
    ([0] ++ bs0 ++ [Z.land (ip_cksum ([0] ++ bs0 ++ [0; 0] ++ drop 4 bs)) 0xff;
       Z.shiftr (ip_cksum ([0] ++ bs0 ++ [0; 0] ++ drop 4 bs)) 8] ++ drop 4 bs)) as [f Ef].
  - rewrite !length_app, length_drop, L0, L. cbn [length]. lia.
  - cbv zeta. rewrite Ef, bind_Ok. by apply returns_Ok, wf_log.
Qed.

(** The option loop ends within its fuel and reads at most one byte past
    [opt_rem]. *)
Lemma dhcp_options_ok opt opt_rem : wf_bytes opt → (opt_rem < length opt)%nat →
  ∀ fuel i m, (opt_rem ≤ i + fuel)%nat → ∃ x, dhcp_options fuel opt opt_rem i m = Ok x.
Proof.
  intros Hp Hl fuel. induction fuel as [|fuel IH]; intros i m Hf; cbn [dhcp_options];
    case_bool_decide as Hi; [by eexists | lia | by eexists |].
  read_next. case_match; [by eexists|]. case_match; [apply IH; lia|].
  case_bool_decide; [by eexists|]. read_next. case_match.
  - read_next. apply IH. lia.
  - rewrite bind_Ok. apply IH. lia.
Qed.

Lemma length_dhcp_reply c mt xid chaddr :
  length xid = 4%nat → length chaddr = 6%nat → length (dhcp_reply c mt xid chaddr) = 300%nat.
Proof.
  intros Hx Hc. unfold dhcp_reply, dhcp_opts_out, opt8, opt32. cbv zeta.
  rewrite length_app, length_replicate.
  match goal with |- (length ?l + _ = _)%nat => assert (length l = 274%nat) as -> end; [|done].
  repeat rewrite length_app. rewrite !length_replicate, !length_be_enc, Hx, Hc. done.
Qed.

Lemma handle_dhcp_ok s payload len :
  wf_stack s → wf_bytes payload → len < Z.of_nat (length payload) →
  returns_wf (handle_dhcp s payload len).
Proof.
  intros Hs Hp Hl. unfold handle_dhcp.
  destruct (Z.ltb_spec len 240); [by apply returns_Ok|]. read_next. cbv zeta.
  destruct (dhcp_options_ok (drop 240 payload) (Z.to_nat (len - 240)))
    with (fuel := Z.to_nat (len - 240)) (i := 0%nat) (m := 0) as [x E1];
    [auto with vm | rewrite length_drop; lia | lia |].
  rewrite E1, bind_Ok. case_match; [by apply returns_Ok|]. read_next.
  apply udp_out_ok; [done|]. rewrite length_dhcp_reply by done. lia.
Qed.

Lemma udp_exchange_ok s ip port data cap r :
  wf_stack s → udp_exchange host s ip port data cap = r →
  wf_stack r.1 ∧ ∀ resp, r.2 = Some resp → (length resp ≤ cap)%nat.
Proof.
  intros Hs <-. unfold udp_exchange. split; [by apply wf_log|]. cbn [snd]. intros resp H.
  repeat case_match; try done. injection H as <-. rewrite length_take. lia.
Qed.

Lemma handle_udp_ok s eth src dst payload plen :
  wf_stack s → wf_bytes payload → plen < Z.of_nat (length payload) →
  returns_wf (handle_udp host s eth src dst payload plen).
Proof.
  intros Hs Hp Hl. unfold handle_udp, sizeof_UdpHdr.
  destruct (Z.ltb_spec plen (Z.of_nat 8)); [by apply returns_Ok|]. do 2 read_next. cbv zeta.
  assert (wf_bytes (drop 8 payload)) as Hd by auto with vm.
  case_match; [apply handle_dhcp_ok; [done..|]; rewrite length_drop; lia|]. case_match.
  - unfold handle_dns. read_next.
    destruct (udp_exchange host s _ _ _ _) as [s' [resp|]] eqn:Ex;
      apply udp_exchange_ok in Ex as [Hs' Hr]; try done; [|by apply returns_Ok].
    apply udp_out_ok; [done|]. specialize (Hr _ eq_refl). lia.
  - read_next.
    destruct (udp_exchange host s _ _ _ _) as [s' [resp|]] eqn:Ex;
      apply udp_exchange_ok in Ex as [Hs' Hr]; try done; [|by apply returns_Ok].
    apply udp_out_ok; [done|]. by apply Hr.
Qed.

Lemma tcp_syn_ok s eth src dst sp dp seq :
  wf_stack s → length eth = 6%nat → fits 32 src → fits 32 dst → fits 16 sp → fits 16 dp →
  wf_stack (tcp_syn s (src, dst, sp, dp) eth src dst sp dp seq).
Proof.
  intros Hs He Hsrc Hdst Hsp Hdp. unfold tcp_syn.
  destruct (conns s !! _); [done|]. cbn [new_conn]. apply wf_log.
  set (c := mkConn _ _ _ _ _ _ _ _ CONNECTING false).
  assert (wf_conn c) as Hc by (split; try done; apply u32_range).
  eapply (wf_emplace (new_conn s c).2 _ (next_id s) c); [by apply wf_new_conn | | done].
  apply lookup_insert_eq.
Qed.

Lemma tcp_established_ok s key id c seq flags data dlen :
  wf_stack s → heap s !! id = Some c → (0 < dlen → is_Ok data) →
  returns_wf (tcp_established host s key id c seq flags data dlen).
Proof.
  intros Hs Hh Hd. unfold tcp_established. cbv zeta.
  destruct (if (0 <? dlen) && (seq =? g_nxt c) then data else Ok []) as [tw|] eqn:Etw; cycle 1.
  { destruct (Z.ltb_spec 0 dlen) as [Hl|]; [|done]. destruct (Hd Hl) as [d ->].
    by destruct (seq =? g_nxt c). }
  rewrite bind_Ok.
  set (s1 := if (0 <? dlen) && (seq =? g_nxt c)
             then upd_conn s id (λ c, set_g_nxt c (u32 (g_nxt c + dlen))) else s).
  assert (wf_stack s1) as Hs1.
  { unfold s1. case_match; [|done]. apply wf_upd; [|done]. intros. by apply wf_bump_g. }
  match goal with |- context [if flag flags TF_FIN then ?x else s1] =>
    set (s2 := if flag flags TF_FIN then x else s1) end.
  assert (wf_stack s2) as Hs2.
  { unfold s2. destruct (flag flags TF_FIN); [|done].
    apply wf_upd; [intros; by apply wf_bump_h|]. apply wf_erase.
    assert (wf_stack (upd_conn s1 id (λ c, set_stop (set_g_nxt c (u32 (g_nxt c + 1))) true))).
    { apply wf_upd; [|done]. intros c' Hc'. destruct (wf_bump_g c' (g_nxt c' + 1) Hc') as [H1 H2].
      destruct (wf_set_stop _ true H1) as [H3 H4]. by rewrite H4. }
    destruct (0 <=? c_fd c); [by apply wf_log | done]. }
  assert (∃ s3, (if negb (bool_decide (tw = [])) && (0 <=? c_fd c)
    then write_all host (length tw) s2 (c_fd c) tw else Ok s2) = Ok s3 ∧ wf_stack s3)
    as (s3 & E3 & Hs3).
  { destruct (negb _ && _); [|by exists s2]. destruct (write_all_ok host (c_fd c) (length tw) s2 tw)
      as (ws & E & _); [done|]. rewrite E. eexists. split; [done | by apply wf_log]. }
  rewrite E3, bind_Ok. clear E3.
  clearbody s1 s2. destruct (flag flags TF_FIN); [by apply conn_out_wf|].
  destruct ((0 <? dlen) && _); [by apply conn_out_wf | by apply returns_Ok].
Qed.

Lemma handle_tcp_ok s eth src dst payload plen :
  wf_stack s → length eth = 6%nat → fits 32 src → fits 32 dst →
  wf_bytes payload → plen ≤ Z.of_nat (length payload) →
  returns_wf (handle_tcp host s eth src dst payload plen).
Proof.
  intros Hs He Hsrc Hdst Hp Hl. unfold handle_tcp, sizeof_TcpHdr.
  destruct (Z.ltb_spec plen (Z.of_nat 20)); [by apply returns_Ok|]. do 6 read_next. cbv zeta.
  pose proof (wf_reap s Hs) as Hr.
  destruct (flag x4 TF_SYN && negb (flag x4 TF_ACK)); [by apply returns_Ok, tcp_syn_ok|].
  destruct (conns (reap s) !! _) as [id|] eqn:Hk; cycle 1.
  { case_match; [by apply returns_Ok | by apply tcp_out_ok]. }
  destruct (ws_conns _ Hr _ _ Hk) as (c & Hc & _). rewrite Hc. cbn [deref]. rewrite bind_Ok.
  destruct (flag x4 TF_RST).
  { apply returns_Ok, wf_erase, wf_upd; [|done]. intros. by apply wf_set_stop. }
  destruct (c_state c); [by apply returns_Ok | |].
  - case_match; [|by apply returns_Ok]. apply returns_Ok, wf_log, wf_upd; [|done].
    intros. by apply wf_set_state.
  - apply tcp_established_ok; [done..|]. intros Hlt.
    pose proof (Z.shiftr_nonneg x3 4) as Hx. unfold is_byte in *.
    destruct (Z.ltb_spec (Z.shiftr x3 4 * 4) plen); [|lia].
    destruct (get_ok payload Hp (Z.to_nat (Z.shiftr x3 4 * 4))
      (Z.to_nat (plen - Z.shiftr x3 4 * 4))) as (bs & Eb & _); [lia|].
    by exists bs.
Qed.

End Safe.

(** A frame whose IP length is honest is handled without a memory error
    and in bounded time, whatever else it contains: if the IP length field
    leaves at least one byte of the frame unused and asks for at most 2014
    bytes, the dispatcher returns for every frame, malformed headers, options
    and TCP offsets included, and the connection table stays well formed (every
    key names a live connection with the mirrored addresses). *)
Theorem handle_frame_safe (host : Host) (s : Impl) (frame : bytes) :
  wf_stack s → wf_bytes frame →
  (∀ iplen, get16 (drop 14 frame) 2 = Ok iplen →
     14 + iplen < Z.of_nat (length frame) ∧ iplen ≤ 2014) →
  ∃ s', handle_frame host s frame = Ok s' ∧ wf_stack s'.
Proof.
  intros Hs Hf Hip. unfold handle_frame, sizeof_EthHdr, sizeof_Ip4Hdr.
  destruct (Z.ltb_spec (Z.of_nat (length frame)) (Z.of_nat 14)); [by apply returns_Ok|].
  do 2 read_next. cbv zeta. assert (wf_bytes (drop 14 frame)) as Hp by auto with vm.
  assert (Z.of_nat (length frame) - Z.of_nat 14 = Z.of_nat (length (drop 14 frame))) as ->
    by (rewrite length_drop; lia).
  case_match; [by apply handle_arp_ok|]. case_match; [by apply returns_Ok|].
  destruct (Z.ltb_spec (Z.of_nat (length (drop 14 frame))) (Z.of_nat 20)); [by apply returns_Ok|].
  read_next. destruct (get16_ok (drop 14 frame) Hp 2) as (iplen & Ei & Ri); [lia|].
  rewrite Ei, bind_Ok. destruct (Hip iplen Ei) as [Hi Hj]. clear Hip.
  do 3 read_next. destruct ((_ <? _) || (_ <? _)) eqn:Hor; [by apply returns_Ok|].
  apply orb_false_iff in Hor as [Hi1%Z.ltb_ge Hi2%Z.ltb_ge].
  set (ihl := Z.land x0 15 * 4) in *.
  assert (0 ≤ ihl) by (unfold ihl; pose proof (Z.land_nonneg x0 15); lia).
  assert (iplen - ihl < Z.of_nat (length (drop (Z.to_nat ihl) (drop 14 frame)))) as Hlt
    by (rewrite !length_drop; rewrite !length_drop in Hi1; lia).
  assert (wf_bytes (drop (Z.to_nat ihl) (drop 14 frame))) by auto with vm.
  case_match; [apply handle_icmp_ok; by auto with lia|].
  case_match; [by apply handle_udp_ok|].
  case_match; [apply handle_tcp_ok; by auto with lia | by apply returns_Ok].
Qed.

(** A frame whose IP length is not honest reads past its end.  The
    dispatcher takes the length of the IP payload from the header alone, so an
    echo request that claims more bytes than were sent is answered from memory
    beyond the frame. *)
Theorem icmp_length_overread (host : Host) (s : Impl) (frame : bytes) (iplen : Z) :
  wf_bytes frame → (42 ≤ length frame)%nat →
  get16 frame 12 = Ok 0x0800 → get8 (drop 14 frame) 0 = Ok 0x45 →
  get8 (drop 14 frame) 9 = Ok IP_ICMP → get8 (drop 34 frame) 0 = Ok 8 →
  get16 (drop 14 frame) 2 = Ok iplen → Z.of_nat (length frame) < 14 + iplen →
  handle_frame host s frame = Err HostOOB.
Proof.
  intros Hf Hl Et Ev Epr E8 Ei Hlt. unfold handle_frame, sizeof_EthHdr, sizeof_Ip4Hdr.
  destruct (Z.ltb_spec (Z.of_nat (length frame)) (Z.of_nat 14)); [lia|].
  rewrite Et. read_next. cbv zeta. rewrite bind_Ok. change (0x0800 =? 0x0806) with false.
  change (negb (0x0800 =? 0x0800)) with false. cbn match.
  assert (wf_bytes (drop 14 frame)) as Hp by auto with vm.
  assert (length (drop 14 frame) = length frame - 14)%nat as Hd by apply length_drop.
  destruct (Z.ltb_spec (Z.of_nat (length frame) - Z.of_nat 14) (Z.of_nat 20)); [lia|].
  rewrite Ev, bind_Ok, Ei, bind_Ok, Epr, bind_Ok. do 2 read_next.
  change (Z.land 0x45 0x0f * 4) with 20.
  rewrite (proj2 (Z.ltb_ge (Z.of_nat (length frame) - Z.of_nat 14) 20)),
    (proj2 (Z.ltb_ge iplen 20)) by lia.
  cbn [orb]. change (IP_ICMP =? IP_ICMP) with true. cbn match.
  change (Z.to_nat 20) with 20%nat. rewrite drop_drop. change (14 + 20)%nat with 34%nat.
  unfold handle_icmp, sizeof_IcmpHdr. rewrite (proj2 (Z.ltb_ge (iplen - 20) (Z.of_nat 8))) by lia.
  rewrite E8, bind_Ok. cbn [negb Z.eqb Pos.eqb].
  unfold get. rewrite bool_decide_eq_false_2; [done|].
  rewrite length_drop. lia.
Qed.
