(* ===== verification/NetStackWit.v ===== *)
(** * NetStackWit: the properties of the network stack at concrete inputs *)

From S2P Require Import Prelude Bytes NetWire NetStack NetStackInv NetStackThms NetStackSafe.

(** A host whose writes succeed in full until the socket is shut down, and
    that answers no datagram. *)
Definition nx_shut (fd : Z) (e : NetEvent) : bool :=
  match e with ShutdownWr f => f =? fd | _ => false end.
Definition nx_host : Host :=
  mkHost (λ _ _ _, None)
    (λ l fd p, if existsb (nx_shut fd) l then -1 else Z.of_nat (length p)).
(** A host whose sockets stay writable, one or two bytes at a time. *)
Definition nx_slow_host : Host := mkHost (λ _ _ _, None) (λ _ _ p, Z.min 2 (Z.of_nat (length p))).

Definition nx_mac : bytes := [0x52; 0x54; 0; 0x12; 0x34; 0x56].
Definition nx_key : ConnKey := (0x0A00020F, 0x01020304, 40000, 80).
Definition nx_conn : TcpConn :=
  mkConn 0x01020304 0x0A00020F 80 40000 nx_mac 1001 0x40000001 7 ESTABLISHED false.
Definition nx_stack : Impl :=
  mkImpl Config0 {[ nx_key := 0%nat ]} {[ 0%nat := nx_conn ]} 1 [] 49152 [].

Lemma wf_Config0 : wf_cfg Config0.
Proof. by split. Qed.

Lemma wf_nx_conn : wf_conn nx_conn.
Proof. by split. Qed.

Lemma wf_nx_stack : wf_stack nx_stack.
Proof.
  split; [apply wf_Config0 | |]; cbn.
  - intros id c [<- <-]%lookup_singleton_Some. split; [apply wf_nx_conn | lia].
  - intros k id [<- <-]%lookup_singleton_Some. exists nx_conn. by rewrite lookup_singleton_eq.
Qed.

Lemma nx_slow_writes l fd : host_writes nx_slow_host l fd.
Proof. intros es p Hp. cbn [h_write nx_slow_host]. destruct p; [done|]. cbn [length]. lia. Qed.

Lemma nx_no_write fd : no_write_after_shutdown nx_host fd.
Proof.
  intros es es' p. cbn [h_write nx_host].
  rewrite existsb_app. cbn [existsb nx_shut]. by rewrite Z.eqb_refl, orb_true_r.
Qed.

(** Out of order, repeated and finally complete. *)
Definition nx_stream : bytes := [10; 11; 12; 13; 14].
Definition nx_segs : list Seg :=
  [mkSeg 0 2 5 0x10 0; mkSeg 3 2 5 0x10 0; mkSeg 0 2 5 0x18 0; mkSeg 2 1 5 0x10 0; mkSeg 3 2 5 0x10 0].

Lemma nx_segs_ok : Forall (seg_ok nx_stream) nx_segs.
Proof. repeat (constructor; [split_and!; (done || cbn; lia)|]). constructor. Qed.


Lemma fin_data_lost_witness :
  ∃ s' seg frame,
    handle_tcp nx_host nx_stack nx_mac 0x0A00020F 0x01020304
      (guest_segment 40000 80 1001 5 0x11 0 [9; 9]) 22 = Ok s' ∧
    out s' = [ShutdownWr 7; Tx frame] ∧ conns s' !! nx_key = None ∧
    ip_packet Config0 nx_mac 0x01020304 0x0A00020F IP_TCP seg frame ∧
    tcp_segment 0x01020304 0x0A00020F 80 40000 0x40000001 1004 0x11 [] seg.
Proof.
  refine (fin_data_lost nx_host nx_mac 0x0A00020F 0x01020304 40000 80 1001 5 0x11 0 [9; 9] 0%nat
    nx_conn nx_stack _ _ _ _ _ _ _ _ _ _ _ _ _ _ _ _ _ _); try done.
  - apply not_elem_of_nil.
  - apply nx_no_write.
Defined.

(** A host port forwarded to the guest's port 22. *)
Lemma inbound_never_acknowledged_witness :
  let s1 := (inbound_start (Stack0 Config0) 9 22).1.1 in
  ∃ s2 id, handle_tcp nx_host s1 nx_mac 0x0A00020F 0x0A000202
      (guest_segment 22 49152 7000 0x50C00001 0x12 0 []) 20 = Ok s2 ∧
    out s2 = [SpawnIo id (0x0A00020F, 0x0A000202, 22, 49152)] ∧
    ∀ seq ack' flags ck' data,
      fits 32 seq → seq ≠ 0 → fits 32 ack' → is_byte flags → Z.of_nat (length data) ≤ 65515 →
      flag flags TF_SYN = false → flag flags TF_RST = false → flag flags TF_FIN = false →
      ∃ s3, handle_tcp nx_host s2 nx_mac 0x0A00020F 0x0A000202
          (guest_segment 22 49152 seq ack' flags ck' data) (20 + Z.of_nat (length data)) = Ok s3 ∧
        out s3 = out s2 ∧ heap s3 = heap s2 ∧ conns s3 = conns s2.
Proof.
  refine (inbound_never_acknowledged nx_host nx_mac (Stack0 Config0) 9 22 7000 0x50C00001 0
            _ _ _ _ _ _); try done.
  apply not_elem_of_nil.
Defined.

Lemma io_read_frame_witness :
  (∃ s' seg frame, io_read nx_stack 0 [1; 2; 3] = Ok s' ∧ out s' = [Tx frame] ∧
     heap s' !! 0%nat = Some (set_h_nxt nx_conn 0x40000004) ∧ length frame = 57%nat ∧
     ip_packet Config0 nx_mac 0x01020304 0x0A00020F IP_TCP seg frame ∧
     tcp_segment 0x01020304 0x0A00020F 80 40000 0x40000001 1001 0x18 [1; 2; 3] seg) ∧
  io_read nx_stack 0 (replicate 2000 65) = Err HostOOB.
Proof.
  split.
  - apply (io_read_frame nx_stack 0 nx_conn [1; 2; 3]); try done.
    + by apply wf_bytesb_ok.
  - refine (proj2 (io_read_frame nx_stack 0 nx_conn (replicate 2000 65) _ _ _ _ _) _).
    + apply wf_Config0.
    + done.
    + apply wf_nx_conn.
    + by apply wf_bytes_replicate.
    + rewrite length_replicate. lia.
    + rewrite length_replicate. lia.
Defined.

(** An echo request of 28 bytes with one byte of padding; the same frame
    claiming 29 bytes more than it has. *)
Definition nx_ping (iplen : Z) : bytes :=
  eth_header [0x52; 0x55; 0x0A; 0; 2; 2] nx_mac 0x0800
    ++ ip_header 0x0A00020F 0x0A000202 IP_ICMP iplen 0 ++ [8; 0; 0; 0; 0; 1; 0; 1; 0].

Lemma handle_frame_safe_witness :
  ∃ s', handle_frame nx_host nx_stack (nx_ping 28) = Ok s' ∧ wf_stack s'.
Proof.
  apply (handle_frame_safe nx_host nx_stack (nx_ping 28)).
  - apply wf_nx_stack.
  - by apply wf_bytesb_ok.
  - intros iplen E. vm_compute in E. injection E as <-. split; (reflexivity || discriminate).
Defined.

Lemma icmp_length_overread_witness :
  handle_frame nx_host nx_stack (nx_ping 58) = Err HostOOB.
Proof.
  apply (icmp_length_overread nx_host nx_stack (nx_ping 58) 58); try done.
  - by apply wf_bytesb_ok.
  - cbn. lia.
Defined.
