(* ===== verification/NetStackIo.v ===== *)
(** * NetStackIo: the I/O thread and the listening thread of the stack

    Models the loops of [launch_io_thread] and [port_fwd_listen] of
    src/src/hvf/network.cpp over the outcomes of their system calls, and proves
    that the guest receives the host peer's byte stream. *)

From S2P Require Import Prelude Bytes NetWire NetStack NetStackInv NetStackThms NetStackWit.

(** ** [launch_io_thread] *)

(** One round of the loop: [poll] timed out or failed; it reported something
    else than input; [read] delivered some bytes (at most 4096), or none. *)
Inductive IoRound : Type :=
  | PollNone
  | PollOther
  | ReadSome (data : bytes)
  | ReadNone.

(** Whether the thread ended, with the new state; it waits when no more outcome
    is known. *)
Fixpoint io_thread (rounds : list IoRound) (s : Impl) (id : nat) (key : ConnKey) : res (bool * Impl) :=
  c ← deref (heap s !! id);
  if c_stop c then s ← io_exit s id key; Ok (true, s) else
  match rounds with
  | [] => Ok (false, s)
  | PollNone :: rounds => io_thread rounds s id key
  | ReadSome data :: rounds => s ← io_read s id data; io_thread rounds s id key
  | PollOther :: _ | ReadNone :: _ => s ← io_exit s id key; Ok (true, s)
  end.

(** ** [port_fwd_listen] *)

(** What happens to the listening socket: setting it up may fail; then each
    round polls, accepts a connection or not; [running] is read before it. *)
Inductive ListenRound : Type :=
  | LPoll
  | LAccept (cfd : Z).

Inductive ListenEvent : Type :=
  | LClose
  | LSpawn (cfd guest_port : Z).

Fixpoint listen_rounds (gport : Z) (rounds : list (bool * ListenRound)) : list ListenEvent :=
  match rounds with
  | [] => []
  | (false, _) :: _ => [LClose]
  | (true, LPoll) :: rounds => listen_rounds gport rounds
  | (true, LAccept cfd) :: rounds =>
      (if cfd <? 0 then [] else [LSpawn cfd gport]) ++ listen_rounds gport rounds
  end.
Definition port_fwd_listen (lfd : Z) (bound : bool) (gport : Z) (rounds : list (bool * ListenRound))
  : list ListenEvent :=
  if lfd <? 0 then [] else if negb bound then [LClose] else listen_rounds gport rounds.

(** ** The stream the guest sees *)

(** The rounds that deliver [chunks] and then end. *)
Inductive delivers : list IoRound → list bytes → Prop :=
  | dl_end r : r = PollOther ∨ r = ReadNone → delivers [r] []
  | dl_wait rs cs : delivers rs cs → delivers (PollNone :: rs) cs
  | dl_read d rs cs : delivers rs cs → delivers (ReadSome d :: rs) (d :: cs).

(** A valid frame to the guest on connection [c]. *)
Definition conn_frame (cf : Config) (c : TcpConn) (seq flags : Z) (data frame : bytes) : Prop :=
  ∃ seg, ip_packet cf (c_mac c) (stk_src_ip c) (stk_dst_ip c) IP_TCP seg frame ∧
    tcp_segment (stk_src_ip c) (stk_dst_ip c) (stk_src_port c) (stk_dst_port c) seq (g_nxt c) flags data seg.

(** Frames that carry the chunks with consecutive sequence numbers from [seq]. *)
Fixpoint stream_frames (cf : Config) (c : TcpConn) (seq : Z) (chunks frames : list bytes) : Prop :=
  match chunks, frames with
  | [], [] => True
  | d :: chunks, f :: frames =>
      conn_frame cf c seq (Z.lor TF_PSH TF_ACK) d f ∧
      stream_frames cf c (u32 (seq + Z.of_nat (length d))) chunks frames
  | _, _ => False
  end.

Section io.

Lemma conn_frame_seq cf c v seq flags d f :
  conn_frame cf (set_h_nxt c v) seq flags d f ↔ conn_frame cf c seq flags d f.
Proof. done. Qed.

Lemma stream_frames_seq cf c v : ∀ chunks frames seq,
  stream_frames cf (set_h_nxt c v) seq chunks frames ↔ stream_frames cf c seq chunks frames.
Proof.
  induction chunks as [|d chunks IH]; intros [|f frames] seq; cbn [stream_frames]; [done..|].
  by rewrite conn_frame_seq, IH.
Qed.

Lemma wf_conn_h c v : wf_conn c → wf_conn (set_h_nxt c (u32 v)).
Proof. intros []. split; try done. apply u32_range. Qed.

Lemma io_read_ok s id c data :
  wf_cfg (cfg s) → heap s !! id = Some c → wf_conn c → wf_bytes data → Z.of_nat (length data) ≤ 1994 →
  ∃ s' frame, io_read s id data = Ok s' ∧ out s' = out s ++ [Tx frame] ∧ cfg s' = cfg s ∧
    heap s' !! id = Some (set_h_nxt c (u32 (h_nxt c + Z.of_nat (length data)))) ∧
    conn_frame (cfg s) c (h_nxt c) (Z.lor TF_PSH TF_ACK) data frame.
Proof.
  intros Hcf Hh Hc Hb Hl. unfold io_read. rewrite Hh. cbn [deref]. rewrite bind_Ok. cbv zeta.
  set (s1 := upd_conn s id _).
  destruct (conn_out_ok s1 c (h_nxt c) (g_nxt c) (Z.lor TF_PSH TF_ACK) data)
    as (seg & frame & E & _ & V & T); [done|done|done|apply Hc|apply Hc|done|done|].
  exists (tx s1 frame), frame. split_and!; try done; [|by exists seg].
  exact (heap_upd_eq s id (λ c, set_h_nxt c (u32 (h_nxt c + Z.of_nat (length data)))) c Hh).
Qed.

Lemma io_exit_ok s id c key :
  wf_cfg (cfg s) → heap s !! id = Some c → wf_conn c → c_stop c = false →
  ∃ s' frame, io_exit s id key = Ok s' ∧ out s' = out s ++ [Tx frame] ∧
    done_queue s' = done_queue s ++ [key] ∧
    conn_frame (cfg s) c (h_nxt c) (Z.lor TF_FIN TF_ACK) [] frame.
Proof.
  intros Hcf Hh Hc Hs. unfold io_exit. rewrite Hh. cbn [deref]. rewrite bind_Ok, Hs.
  set (s1 := upd_conn s id _).
  destruct (conn_out_ok s1 c (h_nxt c) (g_nxt c) (Z.lor TF_FIN TF_ACK) [])
    as (seg & frame & E & _ & V & T); [done|done|constructor|apply Hc|apply Hc|done|cbn; lia|].
  rewrite E. rewrite bind_Ok. do 2 eexists. split_and!; [reflexivity|done|done|by exists seg].
Qed.

End io.

(** ** Properties *)

(** The guest sees the host peer's stream.  However the peer's bytes are cut
    into reads of at most 1994 bytes and whatever polls time out in between,
    the I/O thread ends, having sent one valid frame for each read, in order and
    with consecutive sequence numbers (mod 2^32), and then one FIN at the number
    after the last byte; the connection is queued for removal. *)
Theorem io_thread_stream (s : Impl) (id : nat) (c : TcpConn) (key : ConnKey)
    (rounds : list IoRound) (chunks : list bytes)
    (Hcf : wf_cfg (cfg s)) (Hh : heap s !! id = Some c) (Hc : wf_conn c) (Hs : c_stop c = false)
    (Hr : delivers rounds chunks)
    (Hok : Forall (λ d, wf_bytes d ∧ Z.of_nat (length d) ≤ 1994) chunks) :
  ∃ s' frames fin, io_thread rounds s id key = Ok (true, s') ∧
    out s' = out s ++ (Tx <$> frames) ++ [Tx fin] ∧ done_queue s' = done_queue s ++ [key] ∧
    stream_frames (cfg s) c (h_nxt c) chunks frames ∧
    conn_frame (cfg s) c (u32 (h_nxt c + Z.of_nat (length (mjoin chunks)))) (Z.lor TF_FIN TF_ACK) [] fin.
Proof.
  revert s c Hcf Hh Hc Hs. induction Hr as [r Hr|rs cs _ IH|d rs cs _ IH]; intros s c Hcf Hh Hc Hs.
- destruct (io_exit_ok s id c key Hcf Hh Hc Hs) as (s' & fin & E & Eo & Ed & Hf).
    exists s', [], fin. cbn [io_thread]. rewrite Hh. cbn [deref]. rewrite bind_Ok, Hs.
    split_and!; [by destruct Hr as [-> | ->]; rewrite E|done|done|done|].
    cbn. rewrite Z.add_0_r, u32_id; [done|]. apply Hc.
  - cbn [io_thread]. rewrite Hh. cbn [deref]. rewrite bind_Ok, Hs. by apply (IH Hok).
  - apply Forall_cons in Hok as [[Hb Hl] Hok].
    destruct (io_read_ok s id c d Hcf Hh Hc Hb Hl) as (s1 & f & E & Eo & Ec & Eh & Hf).
    destruct (IH Hok s1 (set_h_nxt c (u32 (h_nxt c + Z.of_nat (length d)))))
      as (s' & frames & fin & E' & Eo' & Ed & Hst & Hfin); [by rewrite Ec|done|by apply wf_conn_h|done|].
    exists s', (f :: frames), fin. cbn [io_thread]. rewrite Hh. cbn [deref]. rewrite bind_Ok, Hs, E, bind_Ok.
    rewrite Ec in Hst, Hfin. apply stream_frames_seq in Hst. split; [exact E'|]. split.
    { rewrite Eo', Eo, <- app_assoc. done. }
    split; [|split; [by split|]].
    + rewrite Ed. revert E. unfold io_read. rewrite Hh. cbn [deref]. rewrite bind_Ok. cbv zeta.
      unfold conn_out, tcp_out. destruct (send_tcp _ _ _ _ _ _ _ _ _ _); [|done]. by intros [= <-].
    + destruct Hfin as (seg & V & T). exists seg. split; [exact V|].
      cbn [h_nxt set_h_nxt] in T. cbn [mjoin list_join]. rewrite length_app.
      replace (u32 (h_nxt c + Z.of_nat (length d + length (mjoin cs))))
        with (u32 (u32 (h_nxt c + Z.of_nat (length d)) + Z.of_nat (length (mjoin cs)))); [exact T|].
      rewrite Nat2Z.inj_add, Z.add_assoc. unfold u32. by rewrite Z.add_mod_idemp_l.
Qed.


Lemma io_thread_stream_witness :
  ∃ s' frames fin, io_thread [PollNone; ReadSome [1; 2; 3]; PollNone; ReadSome [4]; ReadNone] nx_stack 0 nx_key =
      Ok (true, s') ∧ out s' = (Tx <$> frames) ++ [Tx fin] ∧
    stream_frames Config0 nx_conn 0x40000001 [[1; 2; 3]; [4]] frames ∧
    conn_frame Config0 nx_conn 0x40000005 (Z.lor TF_FIN TF_ACK) [] fin.
Proof.
  destruct (io_thread_stream nx_stack 0 nx_conn nx_key
    [PollNone; ReadSome [1; 2; 3]; PollNone; ReadSome [4]; ReadNone] [[1; 2; 3]; [4]])
    as (s' & frames & fin & E & Eo & _ & Hst & Hf).
  - apply wf_Config0.
  - done.
  - apply wf_nx_conn.
  - done.
  - apply dl_wait, dl_read, dl_wait, dl_read, dl_end. by right.
  - repeat apply Forall_cons_2; try apply Forall_nil_2; split; try done; apply wf_bytesb_ok; reflexivity.
  - exists s', frames, fin. split_and!; [exact E|exact Eo|exact Hst|exact Hf].
Defined.
