(* ===== verification/VirtioNet.v ===== *)
(** * VirtioNet: the virtio network device

    Models src/src/hvf/virtio_net.hpp and virtio_net.cpp.  Queue 1 carries
    guest frames to the network stack; queue 0 is fed from [rx_queue_] by the
    flush thread.  The device knows its stack through the interface [NetApi]:
    a call takes a guest frame and returns the frames the stack handed to its
    callback before it returned.  That callback is [enqueue_rx], which locks
    the device mutex that every register access already holds, so a stack that
    answers at once locks it twice: [Err Deadlock].  The thread itself, the
    condition variable and the destructor are in NetRxThread. *)

From S2P Require Import Prelude Bytes GuestMem Virtq VirtqSpec World VirtioRegs Fixtures.
From S2P Require Import NetWire NetStack.

Definition kQueueSize : Z := 256.
Definition sizeof_VirtioNetHdr : nat := 12.
Definition kNetF_Mac : Z := Z.shiftl 1 5.

(** ** The interface of the stack *)
Class NetApi (St : Type) := {
  guest_tx : St → bytes → res (St * list bytes);
}.

(** The stack of src/src/hvf/network.cpp on a host. *)
Record StackOn := mkStackOn { so_host : Host; so_impl : Impl }.

#[export] Instance StackOn_api : NetApi StackOn := {
  guest_tx st frame :=
    s' ← NetStack.guest_tx (so_host st) (so_impl st) frame;
    Ok (mkStackOn (so_host st) s',
        omap (λ e, match e with Tx f => Some f | _ => None end)
          (drop (length (out (so_impl st))) (out s')));
}.

Section Net.
Context {St : Type} {HS : NetApi St}.

Record Net := mkNet {
  mac : bytes;
  regs : Regs;
  stack : St;
  rx_queue : list bytes;
}.

(** The constructor; the stack is built from the port forwards elsewhere. *)
Definition Net0 (cfg_mac : bytes) (st : St) : Net :=
  mkNet cfg_mac (Regs0 kQueueSize (Z.lor kVirtioF_Version1 kNetF_Mac)) st [].

Definition set_regs (n : Net) (r : Regs) : Net := mkNet (mac n) r (stack n) (rx_queue n).
Definition set_stack (n : Net) (st : St) : Net := mkNet (mac n) (regs n) st (rx_queue n).
Definition set_rx_queue (n : Net) (q : list bytes) : Net := mkNet (mac n) (regs n) (stack n) q.

(** ** [enqueue_rx] and the stack call, made with the device mutex held *)
Definition enqueue_rx (n : Net) (frame : bytes) : Net := set_rx_queue n (rx_queue n ++ [frame]).

Definition stack_tx (n : Net) (payload : bytes) : res Net :=
  '(st, frames) ← guest_tx (stack n) payload;
  match frames with
  | [] => Ok (set_stack n st)
  | _ :: _ => Err Deadlock
  end.

(** ** [process_tx] *)
Definition tx_visit (m : Ram) (al l : Z) (frame_buf : bytes) : res bytes :=
  match gpa_to_hva m al with
  | Some b8 => bs ← load m b8 (Z.to_nat l); Ok (frame_buf ++ bs)
  | None => Ok frame_buf
  end.

Definition net_state : Type := Net * World.
Definition tx_last (s : net_state) : Z := last_avail (r_q1 (regs s.1)).
Definition net_ram (s : net_state) : Ram := w_ram s.2.

Definition tx_one (fuel : nat) (d a u : Z) (s : net_state) : res (bool * net_state) :=
  let '(n, w) := s in
  head ← avail_ring (w_ram w) a (tx_last s mod kQueueSize);
  frame_buf ← walk_chain (w_ram w) (tx_visit (w_ram w)) fuel d head [];
  n ← (if bool_decide (sizeof_VirtioNetHdr < length frame_buf)%nat
       then stack_tx n (drop sizeof_VirtioNetHdr frame_buf) else Ok n);
  m' ← push_used kQueueSize (w_ram w) u head (u32 (Z.of_nat (length frame_buf)));
  Ok (true, (set_regs n (bump1 (regs n)), with_ram w m')).

(** [raised] is set by the first round of the loop, which runs iff the driver's
    index differs from [last_avail] at entry. *)
Definition process_tx (fuel : nat) (n : Net) (w : World) : res (Net * World) :=
  match ring_ptrs (w_ram w) (r_q1 (regs n)) with
  | None => Ok (n, w)
  | Some (d, a, u) =>
      idx ← avail_idx (w_ram w) a;
      '(n', w') ← drain tx_last (λ s, avail_idx (net_ram s) a) (tx_one fuel d a u) fuel (n, w);
      if last_avail (r_q1 (regs n)) =? idx then Ok (n', w')
      else Ok (set_regs n' (set_irq (regs n')), raise_spi kSpiNet w')
  end.

(** ** [do_feed_rx] *)

(** The copy loop: descriptor [cur] with buffer [buf], [frame] still to copy.
    [cap] is computed in [size_t]. *)
Fixpoint rx_copy (fuel : nat) (m : Ram) (d head cur : Z) (buf : option Z) (frame : bytes) (wrote : Z)
  : res (Ram * Z) :=
  match frame, buf with
  | [], _ | _, None => Ok (m, wrote)
  | _ :: _, Some b =>
      l ← desc_len m d cur;
      let hdr := if (0 <? wrote) && (cur =? head) then Z.of_nat sizeof_VirtioNetHdr else 0 in
      let cap := u64 (l - hdr) in
      let to_copy := Z.min (Z.of_nat (length frame)) cap in
      m' ← (if 0 <? to_copy then store m (b + hdr) (take (Z.to_nat to_copy) frame) else Ok m);
      let wrote' := u32 (wrote + to_copy) in
      let frame' := drop (Z.to_nat to_copy) frame in
      f ← desc_flags m' d cur;
      if negb (bool_decide (frame' = [])) && has_flag f VRING_DESC_F_NEXT then
        match fuel with
        | O => Err OutOfFuel
        | S fuel =>
            cur' ← desc_next m' d cur;
            al ← desc_addr m' d cur';
            rx_copy fuel m' d head cur' (gpa_to_hva m' al) frame' wrote'
        end
      else Ok (m', wrote')
  end.

Definition do_feed_rx (fuel : nat) (n : Net) (w : World) (frame : bytes) : res (Net * World) :=
  match ring_ptrs (w_ram w) (r_q0 (regs n)) with
  | None => Ok (n, w)
  | Some (d, a, u) =>
      let m := w_ram w in
      let last := last_avail (r_q0 (regs n)) in
      idx ← avail_idx m a;
      if last =? idx then Ok (n, w) else
      head ← avail_ring m a (last mod kQueueSize);
      al ← desc_addr m d head;
      l ← desc_len m d head;
      let buf := gpa_to_hva m al in
      '(m1, wrote) ← match buf with
                     | Some b => if Z.of_nat sizeof_VirtioNetHdr <=? l
                                 then m1 ← store m b (replicate sizeof_VirtioNetHdr 0); Ok (m1, 12)
                                 else Ok (m, 0)
                     | None => Ok (m, 0)
                     end;
      '(m2, wrote) ← rx_copy fuel m1 d head head buf frame wrote;
      m3 ← push_used kQueueSize m2 u head wrote;
      Ok (set_regs n (set_irq (bump0 (regs n))), raise_spi kSpiNet (with_ram w m3))
  end.

(** One round of [rx_flush_func]: the queue is popped, whether or not the
    guest takes the frame. *)
Definition rx_flush_one (fuel : nat) (n : Net) (w : World) : res (Net * World) :=
  match rx_queue n with
  | [] => Ok (n, w)
  | frame :: q => do_feed_rx fuel (set_rx_queue n q) w frame
  end.

(** ** Registers *)

(** [memcpy] of up to [len] bytes of the MAC into the 4-byte [val]. *)
Definition read (n : Net) (off len : Z) : res Z :=
  let r := regs n in
  if (Reg.Config <=? off) && (off <? Reg.Config + 6) then
    let k := off - Reg.Config in
    let count := Z.to_nat (Z.min len (6 - k)) in
    guard_res (bool_decide (count ≤ 4)%nat) HostOOB;;
    Ok (le_dec (take count (drop (Z.to_nat k) (mac n))))
  else if off =? Reg.Magic then Ok 0x74726976
  else if off =? Reg.Version then Ok 2
  else if off =? Reg.DeviceId then Ok 1
  else if off =? Reg.VendorId then Ok 0x554D4551
  else if off =? Reg.DeviceFeat then Ok (feature_word (r_dev_feat_sel r) (r_features r))
  else if off =? Reg.QueueNumMax then Ok kQueueSize
  else if off =? Reg.QueueReady then
    Ok (match selected r with Some q => if ready q then 1 else 0 | None => 0 end)
  else if off =? Reg.IrqStatus then Ok (r_irq_status r)
  else if off =? Reg.Status then Ok (r_status r)
  else if off =? Reg.ConfigGen then Ok 0
  else Ok 0.

Definition write (fuel : nat) (n : Net) (w : World) (off val len : Z) : res (Net * World) :=
  let r := regs n in
  if off =? Reg.QueueSel then Ok (set_regs n (with_queue_sel r val), w)
  else if off =? Reg.QueueNotify then (if val =? 1 then process_tx fuel n w else Ok (n, w))
  else if off =? Reg.Status then
    let r' := with_status r val in
    Ok (set_regs n (if val =? 0 then regs_reset kQueueSize r' else r'), w)
  else match regs_write kQueueSize r off val with
       | Some r' => Ok (set_regs n r', w)
       | None => Ok (n, w)
       end.

#[export] Instance Net_mmio : MmioDevice Net := {
  dev_read := read;
  dev_write := write;
}.
End Net.
Arguments Net : clear implicits.
