(* ===== verification/VirtioNetThms.v ===== *)
(** * VirtioNetThms: what the network device promises

    The transmit queue against the stack's interface, the deadlock of a stack
    that answers at once, and the receive path. *)

From S2P Require Import Prelude Bytes GuestMem Virtq VirtqSpec World VirtioRegs Fixtures.
From S2P Require Import NetWire NetStack VirtioNet.

Section Tx.
Context {St : Type} {HS : NetApi St}.
Context (prot : Z → Prop) (d a u : Z) (fuel : nat).

(** The frames the stack takes without answering at once. *)
Context (silent : bytes → Prop).
Context (silent_ok : ∀ st f, silent f → ∃ st', guest_tx st f = Ok (st', [])).

(** The bytes of a chain of buffers, and the frame handed to the stack: what
    follows the virtio header, if anything does. *)
Fixpoint chain_bytes (m : Ram) (segs : list (Z * Z)) : bytes :=
  match segs with
  | [] => []
  | (al, l) :: segs =>
      (match gpa_to_hva m al with Some p => peeks m p (Z.to_nat l) | None => [] end)
        ++ chain_bytes m segs
  end.

Definition job_frame (m : Ram) (j : TxJob) : list bytes :=
  let bs := chain_bytes m (tj_bufs j) in
  if bool_decide (sizeof_VirtioNetHdr < length bs)%nat then [drop sizeof_VirtioNetHdr bs] else [].

(** The stack after one frame. *)
Definition stack_step (st : St) (f : bytes) : St :=
  match guest_tx st f with Ok (st', _) => st' | Err _ => st end.

Definition net_good (m : Ram) (j : TxJob) : Prop :=
  tx_good kQueueSize prot d fuel m j ∧ Forall silent (job_frame m j).

Lemma chain_bytes_stable m m' segs :
  stable prot m m' → Forall (buf_ok prot m) segs → chain_bytes m' segs = chain_bytes m segs.
Proof.
  intros Hs. induction 1 as [|[al l] segs [H0 H] _ IH]; [done|]. cbn [chain_bytes].
  rewrite IH, (gpa_to_hva_same m) by apply Hs. cbn [fst snd] in H0, H.
  destruct (gpa_to_hva m al) as [p|] eqn:Hp; [|done]. destruct (H p eq_refl) as [_ Hc].
  rewrite (peeks_agree m m'); [done|]. rewrite Z2Nat.id by done. by eapply stable_agree.
Qed.

Lemma job_frame_stable m m' j :
  stable prot m m' → tx_good kQueueSize prot d fuel m j → job_frame m' j = job_frame m j.
Proof. intros Hs (_ & Hb & _). unfold job_frame. by rewrite (chain_bytes_stable m). Qed.

Lemma net_good_stable m m' j :
  stable prot m m' → rings kQueueSize prot d a u m → net_good m j → net_good m' j.
Proof.
  intros Hs Hr [Hg Hf]. split; [by eapply tx_good_stable|]. by rewrite (job_frame_stable m).
Qed.

Lemma visit_net m segs : ∀ bs, Forall (buf_ok prot m) segs →
  visit_all (tx_visit m) segs bs = Ok (bs ++ chain_bytes m segs).
Proof.
  induction segs as [|[al l] segs IH]; intros bs Hk; cbn [visit_all chain_bytes].
  - by rewrite app_nil_r.
  - apply Forall_cons in Hk as [[H0 H] Hk]. cbn [fst snd] in H0, H. unfold tx_visit.
    fold (tx_visit m). destruct (gpa_to_hva m al) as [p|].
    + destruct (H p eq_refl) as [Hin _]. rewrite load_in, !bind_Ok, IH by done. by rewrite app_assoc.
    + by rewrite bind_Ok, IH.
Qed.

(** The service of one chain. *)
Definition serve_net (j : TxJob) (s : @net_state St) : res net_state :=
  let '(n, w) := s in
  m' ← push_used kQueueSize (w_ram w) u (tj_head j)
         (u32 (Z.of_nat (length (chain_bytes (w_ram w) (tj_bufs j)))));
  Ok (set_regs (set_stack n (foldl stack_step (stack n) (job_frame (w_ram w) j))) (bump1 (regs n)),
      with_ram w m').

Lemma net_tx_one_ok (s : @net_state St) j i :
  rings kQueueSize prot d a u (net_ram s) → net_good (net_ram s) j →
  avail_ring (net_ram s) a (tx_last s mod kQueueSize) = Ok (tj_head j) →
  used_idx (net_ram s) u = Ok i →
  ∃ s', tx_one fuel d a u s = Ok (true, s') ∧ serve_net j s = Ok s' ∧
    stable prot (net_ram s) (net_ram s') ∧ used_idx (net_ram s') u = Ok (u16 (i + 1)) ∧
    tx_last s' = u16 (tx_last s + 1).
Proof.
  destruct s as [n w]. unfold net_ram. cbn [snd]. intros Hr [(Hb & Hk & Hl) Hs] Hav Hi.
  pose proof (buffers_head _ _ _ _ _ Hb) as Hh.
  destruct (publish_spec kQueueSize prot d a u (w_ram w) (w_ram w) i (tj_head j)
    (u32 (Z.of_nat (length (chain_bytes (w_ram w) (tj_bufs j)))))) as (m' & E & S & U & _); try done.
  { unfold kQueueSize in *. lia. }
  { apply u32_range. }
  eexists (_, with_ram w m'). split_and!; [| by unfold serve_net; rewrite E | done..].
  unfold tx_one. rewrite Hav, bind_Ok, (walk_chain_buffers kQueueSize _ _ _ _ (tj_bufs j)),
    visit_net, bind_Ok by done. cbn [app].
  unfold job_frame in *. case_bool_decide as Hlen.
  - apply Forall_cons in Hs as [Hs _]. destruct (silent_ok (stack n) _ Hs) as [st' Est].
    unfold stack_tx. rewrite Est, !bind_Ok, E, bind_Ok. cbn [foldl]. unfold stack_step. by rewrite Est.
  - rewrite bind_Ok, E, bind_Ok. cbn [foldl]. by destruct n.
Qed.

Lemma serve_jobs_stack js : ∀ s s' : @net_state St,
  rings kQueueSize prot d a u (net_ram s) →
  queued kQueueSize a tj_head net_good (net_ram s) (tx_last s) js →
  serve_jobs serve_net js s = Ok s' →
  stack s'.1 = foldl stack_step (stack s.1) (flat_map (job_frame (net_ram s)) js) ∧
  w_log s'.2 = w_log s.2 ∧ mac s'.1 = mac s.1 ∧ rx_queue s'.1 = rx_queue s.1 ∧ ∃ l,
    regs s'.1 = with_queues (regs s.1) (r_q0 (regs s.1)) (set_last_avail (r_q1 (regs s.1)) l).
Proof.
  induction js as [|j js IH]; intros s s' Hr Hq H; cbn [serve_jobs flat_map] in *.
  - injection H as <-. split_and!; [done..|]. exists (last_avail (r_q1 (regs s.1))).
    by destruct s as [[mc [? ? ? ? ? ? ? []] st q] w].
  - apply bind_Ok_inv in H as (s1 & E1 & H). inversion Hq as [|? ? ? Ha Hg Hq']; subst.
    assert (∃ i, used_idx (net_ram s) u = Ok i) as [i Hi].
    { pose proof (rg_used_in _ _ _ _ _ _ Hr) as Hin. apply in_ram_spec in Hin.
      unfold used_bytes, kQueueSize in Hin.
      unfold used_idx, load16, load. rewrite (proj2 (in_ram_spec _ _ _)) by lia. by eexists. }
    destruct (net_tx_one_ok s j i Hr Hg Ha Hi) as (s1' & _ & E1' & S & _ & L1).
    rewrite E1 in E1'. injection E1' as <-.
    assert (stack s1.1 = foldl stack_step (stack s.1) (job_frame (net_ram s) j) ∧
      w_log s1.2 = w_log s.2 ∧ mac s1.1 = mac s.1 ∧ rx_queue s1.1 = rx_queue s.1 ∧
      regs s1.1 = bump1 (regs s.1)) as (K1 & W1 & M1 & X1 & R1).
    { destruct s as [n w]. unfold serve_net in E1. inv_bind. done. }
    destruct (IH s1 s') as (K2 & W2 & M2 & X2 & l & R2); [by eapply rings_stable | | done |].
    { rewrite L1. eapply queued_stable; [| |done|done|done]; [done|]. apply net_good_stable. }
    split_and!; [|congruence..|].
    + rewrite K2, K1, foldl_app. f_equal.
      clear -Hq' S Hr. revert Hq'. generalize (u16 (tx_last s + 1)). intros l Hq.
      induction Hq as [|l j js _ [Hg _] _ IH]; [done|]. cbn [flat_map].
      rewrite IH. f_equal. by apply job_frame_stable.
    + exists l. by rewrite R2, R1.
Qed.
End Tx.

Lemma same_map_join m m1 m2 : same_map m m1 → same_map m m2 → same_map m1 m2.
Proof. intros (?&?&?) (?&?&?). repeat split; congruence. Qed.

(** The copy loop when the frame fits the first descriptor after the header. *)
Lemma rx_copy_fits P m m1 m2 d head l fl fuel b frame :
  covers P d (16 * kQueueSize) → stable P m m1 → stable P m m2 → 0 ≤ head < kQueueSize →
  desc_len m d head = Ok l → desc_flags m d head = Ok fl →
  12 + Z.of_nat (length frame) ≤ l < 0x100000000 → frame ≠ [] →
  store m1 (b + 12) frame = Ok m2 →
  rx_copy fuel m1 d head head (Some b) frame 12 = Ok (m2, 12 + Z.of_nat (length frame)).
Proof.
  intros Hd S1 S2 Hh Hl Hfl Hcap Hne E.
  assert (desc_len m1 d head = Ok l) as Hl1 by (rewrite <- Hl; by apply (desc_stable P kQueueSize)).
  assert (desc_flags m2 d head = Ok fl) as Hf2 by (rewrite <- Hfl; by apply (desc_stable P kQueueSize)).
  assert (0 < Z.of_nat (length frame)) as Hpos by (destruct frame; [done | cbn; lia]).
  destruct frame as [|b0 fr0] eqn:Efr; [done|]. rewrite <- Efr in *.
  rewrite Efr. destruct fuel; cbn [rx_copy]; rewrite <- Efr, Hl1, bind_Ok; change (0 <? 12) with true;
    rewrite Z.eqb_refl; cbn [andb]; change (Z.of_nat sizeof_VirtioNetHdr) with 12;
    rewrite u64_id, Z.min_l by lia; rewrite (proj2 (Z.ltb_lt 0 _)) by done;
    rewrite Nat2Z.id, firstn_all, E, bind_Ok, Hf2, bind_Ok, drop_all;
    rewrite bool_decide_eq_true_2 by done; cbn [negb andb]; by rewrite u32_id by lia.
Qed.

(** ** Properties *)


(** A guest frame that the stack answers at once stops the device.  If
    the first pending chain carries a frame for which the stack calls back
    before it returns, the notification never returns: [enqueue_rx] locks the
    mutex that [write] holds.  The stack of network.cpp does so for every ARP
    request for the gateway, every echo request and every DHCP request. *)
Theorem net_tx_deadlock {St} `{HS : NetApi St} (prot : Z → Prop) (d a u idx : Z) (j : TxJob)
    (fuel : nat) (n : Net St) (w : World) (f fr : bytes) (frs : list bytes) (st' : St) :
  ring_ptrs (w_ram w) (r_q1 (regs n)) = Some (d, a, u) →
  avail_idx (w_ram w) a = Ok idx → last_avail (r_q1 (regs n)) ≠ idx →
  avail_ring (w_ram w) a (last_avail (r_q1 (regs n)) mod kQueueSize) = Ok (tj_head j) →
  tx_good kQueueSize prot d fuel (w_ram w) j → job_frame (w_ram w) j = [f] →
  guest_tx (stack n) f = Ok (st', fr :: frs) → (0 < fuel)%nat →
  write fuel n w Reg.QueueNotify 1 4 = Err Deadlock.
Proof.
  intros Hp Hai Hne Hav (Hb & Hk & Hl) Hf Hst Hfuel.
  change (write fuel n w Reg.QueueNotify 1 4) with (process_tx fuel n w).
  unfold process_tx. rewrite Hp, Hai, bind_Ok. destruct fuel as [|k]; [lia|].
  rewrite (drain_step _ _ _ _ _ idx); [|done..].
  unfold tx_one, tx_last. cbn [fst]. rewrite Hav, bind_Ok.
  rewrite (walk_chain_buffers kQueueSize _ _ _ _ (tj_bufs j)), (visit_net prot), bind_Ok by done.
  cbn [app]. unfold job_frame in Hf. case_bool_decide; [|done]. injection Hf as <-.
  unfold stack_tx. by rewrite Hst.
Qed.

(** The header and the frame in the receive buffer. *)
Lemma store_header_frame P m buf frame :
  let total := 12 + Z.of_nat (length frame) in
  wf_bytes frame → in_ram m buf (Z.to_nat total) = true → spares P buf total →
  ∃ m1 m2, store m buf (replicate sizeof_VirtioNetHdr 0) = Ok m1 ∧ store m1 (buf + 12) frame = Ok m2 ∧
    stable P m m1 ∧ stable P m m2 ∧ (∀ q k, disjoint buf total q k → agree m m2 q k) ∧
    (∀ m3, same_map m2 m3 → agree m2 m3 buf total → load m3 buf (Z.to_nat total) = Ok (replicate 12 0 ++ frame)).
Proof.
  intros total Hwf Hin%in_ram_spec Hsp. set (hdr := replicate sizeof_VirtioNetHdr 0).
  assert (length hdr = 12%nat) as Hlh by done. unfold total in *.
  set (m1 := pokes m buf hdr). set (m2 := pokes m1 (buf + 12) frame).
  assert (store m buf hdr = Ok m1) as E1 by (apply store_in, in_ram_spec; rewrite Hlh; lia).
  assert (store m1 (buf + 12) frame = Ok m2) as E2.
  { apply store_in. rewrite (in_ram_same m) by apply same_map_pokes. apply in_ram_spec. lia. }
  assert (stable P m m1) as S1.
  { eapply stable_store; [exact E1 | by apply wf_bytes_replicate |]. rewrite Hlh. intros x Hx. apply Hsp. lia. }
  assert (stable P m m2) as S2.
  { transitivity m1; [exact S1|]. eapply stable_store; [exact E2 | done |]. intros x Hx. apply Hsp. lia. }
  exists m1, m2. split_and!; try done.
  { intros q k Hd. eapply agree_trans; apply agree_pokes; unfold disjoint in *; rewrite ?Hlh; lia. }
  intros m3 Hs Ha.
  replace (Z.to_nat (12 + Z.of_nat (length frame))) with (12 + length frame)%nat by lia.
  rewrite (load_agree m2); [|exact Hs|by rewrite Nat2Z.inj_add].
  rewrite load_in by (apply in_ram_spec; destruct (st_map _ _ _ S2) as (_ & _ & ->); lia).
  rewrite peeks_app. f_equal. f_equal.
  - rewrite (peeks_agree m1 m2); [|apply agree_pokes; unfold disjoint; lia].
    change 12%nat with (length hdr). apply peeks_pokes.
  - change (buf + Z.of_nat 12) with (buf + 12). apply peeks_pokes.
Qed.

(** One frame goes to the next published buffer. *)
Lemma feed_frame {St} (prot : Z → Prop) (d a u idx i : Z) (fuel : nat) (n : Net St) (w : World)
    (frame : bytes) (head al buf l fl : Z) :
  wf_bytes frame → frame ≠ [] → ring_ptrs (w_ram w) (r_q0 (regs n)) = Some (d, a, u) →
  rings kQueueSize prot d a u (w_ram w) →
  avail_idx (w_ram w) a = Ok idx → used_idx (w_ram w) u = Ok i → last_avail (r_q0 (regs n)) ≠ idx →
  avail_ring (w_ram w) a (last_avail (r_q0 (regs n)) mod kQueueSize) = Ok head →
  0 ≤ head < kQueueSize → desc_addr (w_ram w) d head = Ok al →
  desc_len (w_ram w) d head = Ok l → desc_flags (w_ram w) d head = Ok fl →
  let total := 12 + Z.of_nat (length frame) in
  gpa_to_hva (w_ram w) al = Some buf → total ≤ l < 0x100000000 →
  in_ram (w_ram w) buf (Z.to_nat total) = true → spares (prot_all kQueueSize prot u) buf total →
  ∃ w', do_feed_rx fuel n w frame = Ok (set_regs n (set_irq (bump0 (regs n))), w') ∧
    load (w_ram w') buf (Z.to_nat total) = Ok (replicate 12 0 ++ frame) ∧
    load32 (w_ram w') (u + 4 + 8 * (i mod kQueueSize)) = Ok head ∧
    load32 (w_ram w') (u + 4 + 8 * (i mod kQueueSize) + 4) = Ok total ∧
    used_idx (w_ram w') u = Ok (u16 (i + 1)) ∧ stable prot (w_ram w) (w_ram w') ∧
    w_log w' = w_log w ++ [SetSpi 51 true; SetSpi 51 false] ∧
    (∀ q k, disjoint (u + 2) 2 q k → disjoint (used_slot kQueueSize u i) 8 q k → disjoint buf total q k →
       agree (w_ram w) (w_ram w') q k).
Proof.
  intros Hwf Hne Hp Hr Hai Hui Hlast Hav Hh Hal Hl Hfl total Hg Hcap Hin Hsp. unfold do_feed_rx.
  rewrite Hp, Hai, bind_Ok, (proj2 (Z.eqb_neq _ _) Hlast), Hav, bind_Ok, Hal, bind_Ok, Hl, bind_Ok. cbv zeta. rewrite Hg.
  destruct (store_header_frame (prot_all kQueueSize prot u) (w_ram w) buf frame Hwf Hin Hsp)
    as (m1 & m2 & E1 & E2 & S1 & S2 & A0 & L). fold total in A0, L.
  rewrite (proj2 (Z.leb_le (Z.of_nat sizeof_VirtioNetHdr) l)) by (unfold total, sizeof_VirtioNetHdr in *; lia).
  rewrite E1, !bind_Ok.
  rewrite (rx_copy_fits (prot_all kQueueSize prot u) (w_ram w) m1 m2 d head l fl); try done; cycle 1.
  { intros x Hx. left. by apply (rg_table _ _ _ _ _ _ Hr). }
  rewrite bind_Ok.
  destruct (publish_spec kQueueSize prot d a u (w_ram w) m2 i head total)
    as (m3 & E & S & U & L1 & L2 & A); try done.
  { unfold kQueueSize in *. lia. }
  { unfold fits, total in *. lia. }
  fold total. rewrite E, bind_Ok. eexists. split; [done|]. cbn [w_ram raise_spi emit with_ram w_log].
  split_and!; try done.
  - apply L; [exact (same_map_join (w_ram w) m2 m3 (st_map _ _ _ S2) (st_map _ _ _ S))|].
    apply A, (spares_disjoint kQueueSize prot u); [done | unfold total; lia | done].
  - intros q k H1 H2 H3. eapply agree_trans; [by apply A0|].
    by eapply (publish_frame kQueueSize prot u (w_ram w)).
Qed.

(** A frame for the guest is delivered in full or dropped.  With a
    published receive buffer that holds the virtio header and the frame, one
    round of the flush thread stores twelve zero bytes and the frame in it,
    publishes it with the total length and raises the interrupt; with no
    published buffer the frame leaves the host queue and is lost. *)
Theorem net_rx_flush {St} (prot : Z → Prop) (d a u idx i : Z) (fuel : nat) (n : Net St)
    (w : World) (frame : bytes) (q : list bytes) :
  rx_queue n = frame :: q → wf_bytes frame → frame ≠ [] →
  ring_ptrs (w_ram w) (r_q0 (regs n)) = Some (d, a, u) →
  rings kQueueSize prot d a u (w_ram w) →
  avail_idx (w_ram w) a = Ok idx → used_idx (w_ram w) u = Ok i →
  let total := 12 + Z.of_nat (length frame) in
  (last_avail (r_q0 (regs n)) = idx → rx_flush_one fuel n w = Ok (set_rx_queue n q, w)) ∧
  (last_avail (r_q0 (regs n)) ≠ idx → ∀ head al buf l fl,
     avail_ring (w_ram w) a (last_avail (r_q0 (regs n)) mod kQueueSize) = Ok head →
     0 ≤ head < kQueueSize → desc_addr (w_ram w) d head = Ok al →
     desc_len (w_ram w) d head = Ok l → desc_flags (w_ram w) d head = Ok fl →
     gpa_to_hva (w_ram w) al = Some buf → total ≤ l < 0x100000000 →
     in_ram (w_ram w) buf (Z.to_nat total) = true →
     spares (prot_all kQueueSize prot u) buf total →
     ∃ w', rx_flush_one fuel n w =
         Ok (set_regs (set_rx_queue n q) (set_irq (bump0 (regs n))), w') ∧
       load (w_ram w') buf (Z.to_nat total) = Ok (replicate 12 0 ++ frame) ∧
       load32 (w_ram w') (u + 4 + 8 * (i mod kQueueSize)) = Ok head ∧
       load32 (w_ram w') (u + 4 + 8 * (i mod kQueueSize) + 4) = Ok total ∧
       used_idx (w_ram w') u = Ok (u16 (i + 1)) ∧ stable prot (w_ram w) (w_ram w') ∧
       w_log w' = w_log w ++ [SetSpi 51 true; SetSpi 51 false]).
Proof.
  intros Hrx Hwf Hne Hp Hr Hai Hui total. unfold rx_flush_one. rewrite Hrx. split.
  { intros E. unfold do_feed_rx. cbn [regs set_rx_queue]. by rewrite Hp, Hai, bind_Ok, E, Z.eqb_refl. }
  intros Hlast head al buf l fl Hav Hh Hal Hl Hfl Hg Hcap Hin Hsp.
  destruct (feed_frame prot d a u idx i fuel (set_rx_queue n q) w frame head al buf l fl)
    as (w' & E & L & L1 & L2 & U & S & Hlog & _); try done.
  exists w'. split_and!; done.
Qed.
