(* ===== verification/VirtioNetWit.v ===== *)
(** * VirtioNetWit: the network device's properties at concrete inputs

    The device on the real stack of NetStack, with concrete guest memories. *)

From S2P Require Import Prelude Bytes GuestMem Virtq VirtqSpec World VirtioRegs Fixtures.
From S2P Require Import NetWire NetStack NetStackWit VirtioNet VirtioNetThms.

(** The stack ignores every frame that is neither ARP nor IPv4. *)
Definition foreign (f : bytes) : Prop :=
  ∃ t, get16 f 12 = Ok t ∧ t ≠ 0x0806 ∧ t ≠ 0x0800 ∧ (14 ≤ length f)%nat.

Lemma foreign_silent (st : StackOn) f : foreign f → ∃ st', guest_tx st f = Ok (st', []).
Proof.
  intros (t & Et & H1 & H2 & Hl). exists st. destruct st as [h s]. cbn [guest_tx StackOn_api so_host so_impl].
  unfold NetStack.guest_tx, handle_frame, sizeof_EthHdr. rewrite (proj2 (Z.ltb_ge _ (Z.of_nat 14))) by lia.
  unfold get at 1. rewrite bool_decide_eq_true_2, bind_Ok, Et, bind_Ok by lia. cbv zeta.
  rewrite (proj2 (Z.eqb_neq t 0x0806)), (proj2 (Z.eqb_neq t 0x0800)) by done. cbn [negb].
  rewrite bind_Ok, drop_all. done.
Qed.

(** A virtio header and a frame in two chained buffers. *)
Definition vx_ram (frame : bytes) : Ram :=
  fx_avail 1 [0]
    (fx_desc 0 (fx_base + fx_buf) 12 1 1
       (fx_desc 1 (fx_base + fx_st) (Z.of_nat (length frame)) 0 0 (pokes fx_ram fx_st frame))).
Definition vx_world (frame : bytes) : World := mkWorld (vx_ram frame) [].
Definition vx_stack : StackOn := mkStackOn nx_host nx_stack.
Definition vx_net : Net StackOn :=
  mkNet nx_mac (mkRegs 15 1 0 0 0 kVirtioF_Version1 (fx_queue 256) (fx_queue 256)) vx_stack [[1; 2; 3]].

(** An IPv6 frame, and an ARP request for the gateway. *)
Definition vx_ipv6 : bytes := eth_header (replicate 6 0xff) nx_mac 0x86DD ++ [0x60; 0; 0; 0].
Definition vx_arp : bytes :=
  eth_header (replicate 6 0xff) nx_mac 0x0806 ++ be_enc 2 1 ++ be_enc 2 0x0800 ++ [6; 4]
    ++ be_enc 2 1 ++ nx_mac ++ be_enc 4 0x0A00020F ++ replicate 6 0 ++ be_enc 4 0x0A000202.

Lemma wf_vx_ram frame : wf_bytes frame → wf_ram (vx_ram frame).
Proof.
  intros H. unfold vx_ram. apply wf_fx_avail, wf_fx_desc, wf_fx_desc, wf_pokes; [apply wf_fx_ram | done].
Qed.

Lemma vx_rings frame prot :
  wf_bytes frame → (∀ x, fx_ring_prot x → prot x) → (∀ x, fx_u ≤ x < fx_u + 0x1000 → ¬ prot x) →
  rings kQueueSize prot fx_d fx_a fx_u (vx_ram frame).
Proof.
  intros. apply fx_rings; [|by apply wf_vx_ram | done..].
  unfold vx_ram, fx_avail, fx_desc. by repeat (etrans; [|apply same_map_pokes]).
Qed.

Lemma wf_vx_regs : wf_regs kQueueSize (regs vx_net).
Proof. by repeat split. Qed.

Definition vx_job (len : Z) : TxJob := mkTxJob 0 [(fx_base + fx_buf, 12); (fx_base + fx_st, len)].

Lemma vx_ipv6_good : tx_good kQueueSize fx_tx_prot fx_d 4 (vx_ram vx_ipv6) (vx_job 18).
Proof.
  split_and!; [| |cbn; lia].
  - apply (buffers_next _ _ _ _ 1 _ _ 1); [done | by vm_compute.. |].
    apply (buffers_last _ _ _ _ 0); [done | by vm_compute..].
  - apply Forall_cons_2; [|apply Forall_singleton]; (split; [done|]);
      intros p Hp; cbn [fst snd vx_job] in *; eval_in Hp;
      (split; [by vm_compute|]); intros x Hx; right; lia.
Qed.

Lemma vx_arp_good : tx_good kQueueSize fx_tx_prot fx_d 4 (vx_ram vx_arp) (vx_job 42).
Proof.
  split_and!; [| |cbn; lia].
  - apply (buffers_next _ _ _ _ 1 _ _ 1); [done | by vm_compute.. |].
    apply (buffers_last _ _ _ _ 0); [done | by vm_compute..].
  - apply Forall_cons_2; [|apply Forall_singleton]; (split; [done|]);
      intros p Hp; cbn [fst snd vx_job] in *; eval_in Hp;
      (split; [by vm_compute|]); intros x Hx; right; lia.
Qed.

Lemma vx_ipv6_frame : job_frame (vx_ram vx_ipv6) (vx_job 18) = [vx_ipv6].
Proof. by vm_compute. Qed.

Lemma vx_arp_frame : job_frame (vx_ram vx_arp) (vx_job 42) = [vx_arp].
Proof. by vm_compute. Qed.


Lemma net_tx_deadlock_witness :
  write 4 vx_net (vx_world vx_arp) Reg.QueueNotify 1 4 = Err Deadlock.
Proof.
  refine (net_tx_deadlock fx_tx_prot fx_d fx_a fx_u 1 (vx_job 42) 4 vx_net (vx_world vx_arp)
    vx_arp (arp_reply (gw_mac Config0) nx_mac nx_mac (be_enc 4 0x0A00020F) 0x0A000202) []
    (mkStackOn nx_host (tx nx_stack
       (arp_reply (gw_mac Config0) nx_mac nx_mac (be_enc 4 0x0A00020F) 0x0A000202)))
    _ _ _ _ _ _ _ _); try eval_eq.
  - done.
  - apply vx_arp_good.
  - lia.
Defined.

(** A receive buffer of 64 bytes; the host queue holds one frame. *)
Definition vx_rx_world : World :=
  mkWorld (fx_avail 1 [0] (fx_desc 0 (fx_base + fx_buf) 64 2 0 fx_ram)) [].

Lemma net_rx_flush_witness :
  ∃ w', rx_flush_one 1 vx_net vx_rx_world =
      Ok (set_regs (set_rx_queue vx_net []) (set_irq (bump0 (regs vx_net))), w') ∧
    load (w_ram w') fx_buf 15 = Ok (replicate 12 0 ++ [1; 2; 3]) ∧
    load32 (w_ram w') (fx_u + 4) = Ok 0 ∧ load32 (w_ram w') (fx_u + 8) = Ok 15 ∧
    used_idx (w_ram w') fx_u = Ok 1 ∧ stable fx_ring_prot (w_ram vx_rx_world) (w_ram w') ∧
    w_log w' = [SetSpi 51 true; SetSpi 51 false].
Proof.
  refine (proj2 (net_rx_flush fx_ring_prot fx_d fx_a fx_u 1 0 1 vx_net vx_rx_world [1; 2; 3] []
    _ _ _ _ _ _ _) _ 0 (fx_base + fx_buf) fx_buf 64 2 _ _ _ _ _ _ _ _ _); try eval_eq; try done.
  - by apply wf_bytesb_ok.
  - apply fx_rings; [| |done|done|apply fx_u_ring_prot].
    + unfold vx_rx_world, fx_avail, fx_desc. by repeat (etrans; [|apply same_map_pokes]).
    + apply wf_fx_avail, wf_fx_desc, wf_fx_ram.
  - intros x Hx [H|H]; unfold fx_ring_prot, in_used, used_bytes, kQueueSize, fx_buf, fx_d, fx_a, fx_u in *;
      cbn [length] in Hx; lia.
Defined.
