(* ===== verification/GpuResource.v ===== *)
(** * GpuResource: 2D resources of the virtio GPU and their guest backing

    Models [Resource], [MemEntry], [read_backing] and the pixel copy of
    TRANSFER_TO_HOST_2D of src/src/hvf/virtio_gpu.hpp and virtio_gpu.cpp.  A
    resource's [host_buf] is a byte string; a write past its end is
    [Err HostOOB]. *)

From S2P Require Import Prelude Bytes GuestMem.

Record MemEntry := mkEntry { e_gpa : Z; e_len : Z }.

Record Resource := mkResource {
  r_id : Z;
  r_format : Z;
  r_width : Z;
  r_height : Z;
  r_backing : list MemEntry;
  r_host_buf : bytes;
}.

Definition set_backing (r : Resource) (b : list MemEntry) : Resource :=
  mkResource (r_id r) (r_format r) (r_width r) (r_height r) b (r_host_buf r).
Definition set_host_buf (r : Resource) (b : bytes) : Resource :=
  mkResource (r_id r) (r_format r) (r_width r) (r_height r) (r_backing r) b.

(** [memcpy(buf + off, bs, n)]. *)
Definition buf_put (buf : bytes) (off : Z) (bs : bytes) : res bytes :=
  if (0 <=? off) && (off + Z.of_nat (length bs) <=? Z.of_nat (length buf))
  then Ok (take (Z.to_nat off) buf ++ bs ++ drop (Z.to_nat off + length bs) buf)
  else Err HostOOB.

(** ** [read_backing]

    [dst] is an offset into [buf]; all sums are in [size_t]. *)
Fixpoint read_backing_loop (m : Ram) (backing : list MemEntry) (start_off end_off lin_base : Z)
    (buf : bytes) (dst copied : Z) : res (bytes * Z) :=
  match backing with
  | [] => Ok (buf, copied)
  | e :: backing =>
      if end_off <=? lin_base then Ok (buf, copied) else
      let lin_end := u64 (lin_base + e_len e) in
      let ov_start := Z.max lin_base start_off in
      let ov_end := Z.min lin_end end_off in
      '(buf', copied') ←
        (if ov_start <? ov_end then
           let in_entry := ov_start - lin_base in
           let n := ov_end - ov_start in
           let dst_off := ov_start - start_off in
           bs ← match gpa_to_hva m (u64 (e_gpa e + in_entry)) with
                | Some hva => load m hva (Z.to_nat n)
                | None => Ok (replicate (Z.to_nat n) 0)
                end;
           buf' ← buf_put buf (dst + dst_off) bs;
           Ok (buf', copied + n)
         else Ok (buf, copied));
      read_backing_loop m backing start_off end_off lin_end buf' dst copied'
  end.

Definition read_backing (m : Ram) (r : Resource) (start_off : Z) (buf : bytes) (dst len : Z)
  : res (bytes * Z) :=
  read_backing_loop m (r_backing r) start_off (u64 (start_off + len)) 0 buf dst 0.

(** ** The pixel copy of TRANSFER_TO_HOST_2D *)
Record Rect := mkRect { rx : Z; ry : Z; rw : Z; rh : Z }.

(** Rows [row, row + n) of the clipped rectangle; [rx2] is its right edge. *)
Fixpoint transfer_rows (n : nat) (m : Ram) (r : Resource) (rc : Rect) (offset rx2 row : Z)
    (buf : bytes) : res bytes :=
  match n with
  | O => Ok buf
  | S n =>
      let res_stride := u32 (r_width r * 4) in
      let row_bytes := u32 (u32 (rx2 - rx rc) * 4) in
      let src_off := u64 (offset + (row - ry rc) * res_stride) in
      let dst := u64 (row * res_stride + rx rc * 4) in
      '(buf', _) ← read_backing m r src_off buf dst row_bytes;
      transfer_rows n m r rc offset rx2 (row + 1) buf'
  end.

(** [resize(total, 0)] when the buffer is smaller. *)
Definition grow (buf : bytes) (total : Z) : bytes :=
  buf ++ replicate (Z.to_nat total - length buf) 0.

Definition total_bytes (r : Resource) : Z := u64 (u64 (r_width r * r_height r) * 4).

Definition transfer_to_host (m : Ram) (r : Resource) (rc : Rect) (offset : Z) : res bytes :=
  let buf := grow (r_host_buf r) (total_bytes r) in
  let rx2 := Z.min (u32 (rx rc + rw rc)) (r_width r) in
  let ry2 := Z.min (u32 (ry rc + rh rc)) (r_height r) in
  if (rx rc <? rx2) && (ry rc <? ry2)
  then transfer_rows (Z.to_nat (ry2 - ry rc)) m r rc offset rx2 (ry rc) buf
  else Ok buf.

(** ** The linear view of a backing store *)
Fixpoint lin_byte (m : Ram) (backing : list MemEntry) (off : Z) : option Z :=
  match backing with
  | [] => None
  | e :: backing =>
      if off <? e_len e then
        Some (match gpa_to_hva m (e_gpa e + off) with Some p => peek m p | None => 0 end)
      else lin_byte m backing (off - e_len e)
  end.

(** Every entry lies entirely inside RAM or entirely outside it. *)
Definition entry_ok (m : Ram) (e : MemEntry) : Prop :=
  0 ≤ e_gpa e ∧ 0 ≤ e_len e ∧ e_gpa e + e_len e ≤ 2 ^ 64 ∧
  (ram_gpa m ≤ e_gpa e ∧ e_gpa e + e_len e ≤ ram_gpa m + ram_size m ∨
   e_gpa e + e_len e ≤ ram_gpa m ∨ ram_gpa m + ram_size m ≤ e_gpa e).

Definition lin_total (backing : list MemEntry) : Z :=
  foldr (λ e s, e_len e + s) 0 backing.

Section buf_put.
Lemma buf_put_ok buf off bs :
  0 ≤ off → off + Z.of_nat (length bs) ≤ Z.of_nat (length buf) →
  ∃ buf', buf_put buf off bs = Ok buf' ∧ length buf' = length buf ∧
    ∀ i, buf' !! i =
      if bool_decide (Z.to_nat off ≤ i < Z.to_nat off + length bs)%nat
      then bs !! (i - Z.to_nat off)%nat else buf !! i.
Proof.
  intros H0 H1. unfold buf_put. rewrite (proj2 (Z.leb_le 0 off)), (proj2 (Z.leb_le _ _)) by done.
  cbn [andb]. eexists. split; [done|]. split.
  { rewrite !length_app, length_take, length_drop. lia. }
  intros i. case_bool_decide as Hi.
  - rewrite lookup_app_r by (rewrite length_take; lia). rewrite length_take.
    rewrite lookup_app_l by lia. f_equal. lia.
  - destruct (decide (i < Z.to_nat off)%nat).
    + rewrite lookup_app_l by (rewrite length_take; lia). by rewrite lookup_take_lt by lia.
    + rewrite lookup_app_r by (rewrite length_take; lia). rewrite length_take.
      rewrite lookup_app_r by lia. rewrite lookup_drop. f_equal. lia.
Qed.
End buf_put.

Section read_backing.
Context (m : Ram) (Hm : wf_ram m).

(** The part of an entry that is copied: from RAM, or zeros. *)
Definition entry_byte (e : MemEntry) (off : Z) : Z :=
  match gpa_to_hva m (e_gpa e + off) with Some p => peek m p | None => 0 end.

Lemma entry_copy e o n :
  entry_ok m e → 0 ≤ o → 0 < n → o + n ≤ e_len e →
  ∃ bs, match gpa_to_hva m (u64 (e_gpa e + o)) with
        | Some hva => load m hva (Z.to_nat n)
        | None => Ok (replicate (Z.to_nat n) 0)
        end = Ok bs ∧ length bs = Z.to_nat n ∧
    ∀ k, (k < Z.to_nat n)%nat → bs !! k = Some (entry_byte e (o + Z.of_nat k)).
Proof.
  intros (Hg & Hl & He & Hr) Ho Hn Hon. rewrite u64_id by lia.
  assert (∀ x, ram_mapped m = true → ram_gpa m ≤ x < ram_gpa m + ram_size m →
    gpa_to_hva m x = Some (x - ram_gpa m)) as Hin by (intros; by apply gpa_to_hva_in).
  assert (∀ x, ¬ (ram_gpa m ≤ x < ram_gpa m + ram_size m) → gpa_to_hva m x = None) as Hout.
  { intros x Hx. destruct (gpa_to_hva m x) as [p|] eqn:E; [|done].
    apply gpa_to_hva_Some in E; [|done]. lia. }
  destruct (ram_mapped m) eqn:Hmap; cycle 1.
  { assert (∀ x, gpa_to_hva m x = None) as Hno by (intros; unfold gpa_to_hva; by rewrite Hmap).
    rewrite Hno. eexists. split; [done|]. split; [apply length_replicate|].
    intros k Hk. unfold entry_byte. rewrite Hno. by apply lookup_replicate_2. }
  destruct Hr as [Hr|Hr].
  - rewrite Hin by (done || lia).
    rewrite load_in by (apply in_ram_spec; lia). eexists. split; [done|].
    split; [apply length_peeks|]. intros k Hk. rewrite lookup_peeks by done.
    unfold entry_byte. rewrite Hin by (done || lia). do 2 f_equal. lia.
  - rewrite Hout by lia. eexists. split; [done|]. split; [apply length_replicate|].
    intros k Hk. unfold entry_byte. rewrite Hout by lia. by apply lookup_replicate_2.
Qed.

(** [read_backing] stores the linear view of the backing, as far as it goes. *)
Lemma read_backing_loop_ok start len dst : 0 ≤ start → 0 ≤ len → start + len < 2 ^ 64 → 0 ≤ dst →
  ∀ bk base buf copied, 0 ≤ base → base + lin_total bk < 2 ^ 64 → Forall (entry_ok m) bk →
  dst + len ≤ Z.of_nat (length buf) →
  ∃ buf' n, read_backing_loop m bk start (start + len) base buf dst copied = Ok (buf', n) ∧
    length buf' = length buf ∧
    ∀ i, buf' !! i =
      if bool_decide (dst ≤ Z.of_nat i < dst + len ∧ base ≤ start + (Z.of_nat i - dst)) then
        match lin_byte m bk (start + (Z.of_nat i - dst) - base) with
        | Some b => Some b
        | None => buf !! i
        end
      else buf !! i.
Proof.
  intros Hs Hl Hsl Hd bk. induction bk as [|e bk IH]; intros base buf copied Hb Ht Hok Hlen;
    cbn [read_backing_loop lin_byte].
  { exists buf, copied. split_and!; [done..|]. intros i. by case_bool_decide. }
  apply Forall_cons in Hok as [He Hok]. cbn [lin_total foldr] in Ht. fold (lin_total bk) in Ht.
  assert (0 ≤ e_len e) as Hel by apply He.
  assert (0 ≤ lin_total bk) as Hbk.
  { clear -Hok. induction Hok as [|e' bk He' _ IH]; cbn [lin_total foldr]; [done|].
    fold (lin_total bk). destruct He' as (_ & H & _). lia. }
  destruct (Z.leb_spec (start + len) base) as [Hend|Hend].
  { exists buf, copied. split_and!; [done..|]. intros i. case_bool_decide; [lia | done]. }
  rewrite u64_id by lia. cbv zeta.
  set (os := Z.max base start). set (oe := Z.min (base + e_len e) (start + len)).
  assert (∃ buf1 n1, (if os <? oe then
      bs ← match gpa_to_hva m (u64 (e_gpa e + (os - base))) with
           | Some hva => load m hva (Z.to_nat (oe - os))
           | None => Ok (replicate (Z.to_nat (oe - os)) 0)
           end;
      buf' ← buf_put buf (dst + (os - start)) bs; Ok (buf', copied + (oe - os))
    else Ok (buf, copied)) = Ok (buf1, n1) ∧ length buf1 = length buf ∧
    ∀ i, buf1 !! i =
      if bool_decide (dst ≤ Z.of_nat i < dst + len ∧ os ≤ start + (Z.of_nat i - dst) < oe)
      then Some (entry_byte e (start + (Z.of_nat i - dst) - base)) else buf !! i)
    as (buf1 & n1 & E1 & L1 & B1).
  { destruct (Z.ltb_spec os oe) as [Hlt|Hge]; cycle 1.
    { exists buf, copied. split_and!; [done..|]. intros i. case_bool_decide; [lia | done]. }
    destruct (entry_copy e (os - base) (oe - os) He) as (bs & Eb & Lb & Bb); [lia..|].
    rewrite Eb, bind_Ok.
    destruct (buf_put_ok buf (dst + (os - start)) bs) as (buf' & Ep & Lp & Bp); [lia..|].
    rewrite Ep, bind_Ok. eexists _, _. split; [done|]. split; [done|]. intros i. rewrite Bp, Lb.
    do 2 case_bool_decide; try lia; [|done].
    rewrite Bb by lia. do 2 f_equal. lia. }
  rewrite E1, bind_Ok.
  destruct (IH (base + e_len e) buf1 n1) as (buf2 & n2 & E2 & L2 & B2); [lia | lia | done | lia |].
  exists buf2, n2. split; [done|]. split; [lia|]. intros i. rewrite B2.
  set (off := start + (Z.of_nat i - dst)).
  destruct (decide (dst ≤ Z.of_nat i < dst + len)) as [Hi|Hi]; cycle 1.
  { rewrite !bool_decide_eq_false_2 by lia. rewrite B1, bool_decide_eq_false_2 by lia. done. }
  destruct (decide (base ≤ off)) as [Hbo|Hbo]; cycle 1.
  { rewrite !bool_decide_eq_false_2 by lia. rewrite B1, bool_decide_eq_false_2 by lia. done. }
  rewrite (bool_decide_eq_true_2 (_ ∧ base ≤ off)) by done.
  destruct (Z.ltb_spec (off - base) (e_len e)).
  - rewrite bool_decide_eq_false_2 by lia. rewrite B1, bool_decide_eq_true_2 by lia. done.
  - rewrite bool_decide_eq_true_2 by lia.
    replace (off - (base + e_len e)) with (off - base - e_len e) by lia.
    destruct (lin_byte m bk (off - base - e_len e)); [done|].
    rewrite B1, bool_decide_eq_false_2 by lia. done.
Qed.

Lemma read_backing_ok r start len buf dst :
  0 ≤ start → 0 ≤ len → start + len < 2 ^ 64 → 0 ≤ dst → lin_total (r_backing r) < 2 ^ 64 →
  Forall (entry_ok m) (r_backing r) → dst + len ≤ Z.of_nat (length buf) →
  ∃ buf' n, read_backing m r start buf dst len = Ok (buf', n) ∧ length buf' = length buf ∧
    ∀ i, buf' !! i =
      if bool_decide (dst ≤ Z.of_nat i < dst + len) then
        match lin_byte m (r_backing r) (start + (Z.of_nat i - dst)) with
        | Some b => Some b
        | None => buf !! i
        end
      else buf !! i.
Proof.
  intros Hs Hl Hsl Hd Ht Hok Hlen. unfold read_backing. rewrite u64_id by lia.
  destruct (read_backing_loop_ok start len dst Hs Hl Hsl Hd (r_backing r) 0 buf 0)
    as (buf' & n & E & L & B); [lia | lia | done | done |].
  exists buf', n. split; [done|]. split; [done|]. intros i. rewrite B, Z.sub_0_r.
  do 2 case_bool_decide; try lia; done.
Qed.
End read_backing.

(** ** What the pixel copy computes *)
Section transfer.
Context (m : Ram) (Hm : wf_ram m).

(** The byte of the guest's image that belongs at position [i] of a buffer with
    rows of [S] bytes, when [i] lies in columns [x, x2) of row [y] or below. *)
Definition pixel_src (S offset x y i : Z) : Z := offset + (i / S - y) * S + (i mod S - 4 * x).
Definition in_rect (S x x2 y y2 i : Z) : Prop := 4 * x ≤ i mod S < 4 * x2 ∧ y ≤ i / S < y2.

(** Byte [i] of a buffer after the copy. *)
Definition pixel_after (bk : list MemEntry) (S offset x y i : Z) (old : option Z) : option Z :=
  match lin_byte m bk (pixel_src S offset x y i) with Some b => Some b | None => old end.

#[export] Instance in_rect_dec S x x2 y y2 i : Decision (in_rect S x x2 y y2 i).
Proof. unfold in_rect. apply _. Defined.

(** A row of the buffer is an interval of positions. *)
Lemma row_interval S row x x2 i :
  0 < S → 0 ≤ x → x2 * 4 ≤ S → 0 ≤ i →
  (row * S + x * 4 ≤ i < row * S + x * 4 + (x2 - x) * 4 ↔ in_rect S x x2 row (row + 1) i).
Proof.
  intros HS Hx Hx2 Hi. unfold in_rect. pose proof (Z.div_mod i S ltac:(lia)) as E.
  pose proof (Z.mod_pos_bound i S HS) as R. set (q := i / S) in *. set (r := i mod S) in *.
  split; intros H.
  - assert (q = row) as -> by nia. lia.
  - assert (q = row) as -> by lia. lia.
Qed.

Lemma transfer_rows_ok r rc offset x2 y2 :
  0 < r_width r < 2 ^ 30 → 0 ≤ rx rc < x2 → x2 ≤ r_width r → 0 ≤ ry rc →
  0 ≤ offset → offset + (y2 - ry rc) * (r_width r * 4) < 2 ^ 64 →
  y2 * (r_width r * 4) < 2 ^ 64 →
  lin_total (r_backing r) < 2 ^ 64 → Forall (entry_ok m) (r_backing r) →
  ∀ n row buf, ry rc ≤ row → row + Z.of_nat n = y2 →
  y2 * (r_width r * 4) ≤ Z.of_nat (length buf) →
  ∃ buf', transfer_rows n m r rc offset x2 row buf = Ok buf' ∧ length buf' = length buf ∧
    ∀ i, buf' !! i =
      if bool_decide (in_rect (r_width r * 4) (rx rc) x2 row y2 (Z.of_nat i))
      then pixel_after (r_backing r) (r_width r * 4) offset (rx rc) (ry rc) (Z.of_nat i) (buf !! i)
      else buf !! i.
Proof.
  intros HW Hx Hx2 Hy Ho Hoff Hy2 Ht Hok n. induction n as [|n IH]; intros row buf Hrow Hn Hlen;
    cbn [transfer_rows].
  { exists buf. split_and!; [done..|]. intros i. case_bool_decide as H; [|done].
    unfold in_rect in H. lia. }
  cbv zeta. set (S := r_width r * 4) in *.
  assert (0 < S < 2 ^ 32) as HS by lia.
  rewrite (u32_id S), (u32_id (x2 - rx rc)), (u32_id ((x2 - rx rc) * 4)) by lia.
  assert (0 ≤ (row - ry rc) * S) by nia.
  assert ((row - ry rc) * S + S ≤ (y2 - ry rc) * S) by nia.
  assert (0 ≤ row * S ∧ row * S + S ≤ y2 * S) as [Hr0 Hr1] by nia.
  rewrite (u64_id (offset + _)), (u64_id (row * S + _)) by lia.
  destruct (read_backing_ok m Hm r (offset + (row - ry rc) * S) ((x2 - rx rc) * 4) buf
    (row * S + rx rc * 4)) as (buf1 & n1 & E1 & L1 & B1); [lia..| done | done | lia |].
  rewrite E1, bind_Ok.
  destruct (IH (row + 1) buf1) as (buf2 & E2 & L2 & B2); [lia..|].
  exists buf2. split; [done|]. split; [lia|]. intros i. rewrite B2.
  pose proof (row_interval S row (rx rc) x2 (Z.of_nat i) ltac:(lia) ltac:(lia) ltac:(lia) ltac:(lia))
    as Hrow'.
  rewrite B1. destruct (decide (in_rect S (rx rc) x2 row (row + 1) (Z.of_nat i))) as [Hi|Hi].
  - rewrite (bool_decide_eq_false_2 (in_rect _ _ _ (row + 1) _ _)) by (unfold in_rect in *; lia).
    rewrite bool_decide_eq_true_2 by tauto.
    rewrite bool_decide_eq_true_2 by (unfold in_rect in *; lia).
    unfold pixel_after, pixel_src. pose proof (Z.div_mod (Z.of_nat i) S ltac:(lia)) as E.
    assert (Z.of_nat i / S = row) as Eq by (unfold in_rect in Hi; lia). rewrite Eq in *.
    by replace (offset + (row - ry rc) * S + (Z.of_nat i - (row * S + rx rc * 4)))
      with (offset + (row - ry rc) * S + (Z.of_nat i mod S - 4 * rx rc)) by lia.
  - rewrite (bool_decide_eq_false_2 (_ ≤ _ < _)) by tauto.
    do 2 case_bool_decide; try done; unfold in_rect in *; lia.
Qed.
End transfer.
