(* ===== verification/VirtioGpu.v ===== *)
(** * VirtioGpu: the virtio GPU in 2D mode

    Models src/src/hvf/virtio_gpu.hpp and virtio_gpu.cpp: the control commands,
    the control queue, the registers and the delivery of frames after the lock
    is released.  Allocation of a resource's buffer is the parameter [alloc]
    (whether the allocator provides that many bytes); other allocations are
    taken to succeed. *)

From S2P Require Import Prelude Bytes GuestMem Virtq VirtqSpec World VirtioRegs GpuResource.

Definition kQueueSize : Z := 256.
Module ShmReg.
Definition ShmLenLo : Z := 0x0B0.
Definition ShmLenHi : Z := 0x0B4.
End ShmReg.
Definition VIRTIO_STATUS_FEATURES_OK : Z := 0x08.

Module Cmd.
Definition GET_DISPLAY_INFO : Z := 0x0100.
Definition RESOURCE_CREATE_2D : Z := 0x0101.
Definition RESOURCE_UNREF : Z := 0x0102.
Definition SET_SCANOUT : Z := 0x0103.
Definition RESOURCE_FLUSH : Z := 0x0104.
Definition TRANSFER_TO_HOST_2D : Z := 0x0105.
Definition RESOURCE_ATTACH_BACKING : Z := 0x0106.
Definition RESOURCE_DETACH_BACKING : Z := 0x0107.
End Cmd.

Module Resp.
Definition OK_NODATA : Z := 0x1100.
Definition OK_DISPLAY_INFO : Z := 0x1101.
Definition ERR_UNSPEC : Z := 0x1200.
Definition ERR_INVALID_RESOURCE_ID : Z := 0x1203.
End Resp.

Definition VIRTIO_GPU_FLAG_FENCE : Z := 1.

(** Sizes of the packed request structs. *)
Definition sizeof_GpuCtrlHdr : Z := 24.
Definition sizeof_GpuMemEntry : Z := 16.
Definition sizeof_GpuResourceCreate2d : Z := 40.
Definition sizeof_GpuResourceUnref : Z := 32.
Definition sizeof_GpuSetScanout : Z := 48.
Definition sizeof_GpuResourceFlush : Z := 48.
Definition sizeof_GpuTransferToHost2d : Z := 56.
Definition sizeof_GpuResourceAttachBacking : Z := 32.
Definition sizeof_GpuResourceDetachBacking : Z := 32.

(** ** State *)
Record PendingFrame := mkFrame {
  f_pixels : bytes;
  f_width : Z;
  f_height : Z;
  f_stride : Z;
}.

(** [frame_cb] is whether a callback is installed; [r_features] of [regs] is
    [driver_features_]. *)
Record Gpu := mkGpu {
  frame_cb : bool;
  width : Z;
  height : Z;
  regs : Regs;
  device_features : Z;
  scanout : Z;
  resources : gmap Z Resource;
  pending : list PendingFrame;
}.

Definition Gpu0 (w h : Z) (cb : bool) : Gpu :=
  mkGpu cb w h (Regs0 kQueueSize 0) kVirtioF_Version1 0 ∅ [].

Definition set_regs (g : Gpu) (r : Regs) : Gpu :=
  mkGpu (frame_cb g) (width g) (height g) r (device_features g) (scanout g) (resources g) (pending g).
Definition set_scanout (g : Gpu) (v : Z) : Gpu :=
  mkGpu (frame_cb g) (width g) (height g) (regs g) (device_features g) v (resources g) (pending g).
Definition set_resources (g : Gpu) (v : gmap Z Resource) : Gpu :=
  mkGpu (frame_cb g) (width g) (height g) (regs g) (device_features g) (scanout g) v (pending g).
Definition set_pending (g : Gpu) (v : list PendingFrame) : Gpu :=
  mkGpu (frame_cb g) (width g) (height g) (regs g) (device_features g) (scanout g) (resources g) v.
Definition put_resource (g : Gpu) (id : Z) (r : Resource) : Gpu :=
  set_resources g (<[id := r]> (resources g)).

Definition find_resource (g : Gpu) (id : Z) : option Resource := resources g !! id.

(** ** Wire formats *)

(** [n] bytes at [off] of a request already checked to be long enough. *)
Definition fld (req : bytes) (off n : nat) : Z := le_dec (take n (drop off req)).

Definition hdr_bytes (type flags fence_id : Z) : bytes :=
  le_enc 4 type ++ le_enc 4 flags ++ le_enc 8 fence_id ++ le_enc 8 0.

(** A response header that echoes the fence of the request. *)
Definition fenced_hdr (type : Z) (req : bytes) : bytes :=
  if has_flag (fld req 4 4) VIRTIO_GPU_FLAG_FENCE
  then hdr_bytes type VIRTIO_GPU_FLAG_FENCE (fld req 8 8) else hdr_bytes type 0 0.

Definition ok_nodata (req : bytes) : bytes := fenced_hdr Resp.OK_NODATA req.
Definition err (type : Z) : bytes := hdr_bytes type 0 0.

Definition display_info (g : Gpu) (req : bytes) : bytes :=
  fenced_hdr Resp.OK_DISPLAY_INFO req
    ++ le_enc 4 0 ++ le_enc 4 0 ++ le_enc 4 (width g) ++ le_enc 4 (height g)
    ++ le_enc 4 1 ++ le_enc 4 0 ++ replicate (15 * 24) 0.

Definition rect_at (req : bytes) (off : nat) : Rect :=
  mkRect (fld req off 4) (fld req (off + 4) 4) (fld req (off + 8) 4) (fld req (off + 12) 4).

(** The entries of an ATTACH_BACKING request, as far as the request goes; no
    more than [req_len / 16] of them can be present. *)
Fixpoint attach_entries (fuel : nat) (req : bytes) (req_len nr i : Z) : list MemEntry :=
  match fuel with
  | O => []
  | S fuel =>
      let off := sizeof_GpuResourceAttachBacking + i * sizeof_GpuMemEntry in
      if nr <=? i then [] else
      if req_len <? off + sizeof_GpuMemEntry then [] else
      mkEntry (fld req (Z.to_nat off) 8) (fld req (Z.to_nat off + 8) 4)
        :: attach_entries fuel req req_len nr (i + 1)
  end.

Section Gpu.
Context (alloc : Z → bool).

(** ** [handle_command]: the new state and the bytes written to the response
    buffer of [resp_cap] bytes; [m] is guest memory. *)
Definition create_2d (g : Gpu) (req : bytes) : res (Gpu * bytes) :=
  let id := fld req 24 4 in
  let w := fld req 32 4 in
  let h := fld req 36 4 in
  let n := u64 (u64 (w * h) * 4) in
  guard_res (alloc n) Thrown;;
  Ok (put_resource g id (mkResource id (fld req 28 4) w h [] (replicate (Z.to_nat n) 0)),
      ok_nodata req).

Definition unref (g : Gpu) (req : bytes) : Gpu * bytes :=
  let id := fld req 24 4 in
  let g := set_resources g (delete id (resources g)) in
  (if scanout g =? id then set_scanout g 0 else g, ok_nodata req).

Definition set_scanout_cmd (g : Gpu) (req : bytes) : Gpu * bytes :=
  (if fld req 40 4 =? 0 then set_scanout g (fld req 44 4) else g, ok_nodata req).

Definition flush (g : Gpu) (req : bytes) : Gpu * bytes :=
  let id := fld req 40 4 in
  match find_resource g id with
  | None => (g, err Resp.ERR_INVALID_RESOURCE_ID)
  | Some r =>
      (if frame_cb g && (id =? scanout g) && negb (bool_decide (r_host_buf r = []))
       then set_pending g (pending g ++
              [mkFrame (r_host_buf r) (r_width r) (r_height r) (u32 (r_width r * 4))])
       else g, ok_nodata req)
  end.

Definition transfer (m : Ram) (g : Gpu) (req : bytes) : res (Gpu * bytes) :=
  let id := fld req 48 4 in
  match find_resource g id with
  | None => Ok (g, err Resp.ERR_INVALID_RESOURCE_ID)
  | Some r =>
      guard_res ((total_bytes r <=? Z.of_nat (length (r_host_buf r))) || alloc (total_bytes r)) Thrown;;
      buf ← transfer_to_host m r (rect_at req 24) (fld req 40 8);
      Ok (put_resource g id (set_host_buf r buf), ok_nodata req)
  end.

Definition attach (g : Gpu) (req : bytes) (req_len : Z) : Gpu * bytes :=
  let id := fld req 24 4 in
  match find_resource g id with
  | None => (g, err Resp.ERR_INVALID_RESOURCE_ID)
  | Some r =>
      (put_resource g id (set_backing r (r_backing r ++
         attach_entries (Z.to_nat (req_len / sizeof_GpuMemEntry)) req req_len (fld req 28 4) 0)),
       ok_nodata req)
  end.

Definition detach (g : Gpu) (req : bytes) : Gpu * bytes :=
  let id := fld req 24 4 in
  (match find_resource g id with
   | Some r => put_resource g id (set_backing r [])
   | None => g
   end, ok_nodata req).

(** Requests shorter than their struct are refused. *)
Definition sized (g : Gpu) (req_len size : Z) (m : res (Gpu * bytes)) : res (Gpu * bytes) :=
  if req_len <? size then Ok (g, err Resp.ERR_UNSPEC) else m.

Definition handle_command (m : Ram) (g : Gpu) (req : bytes) (resp_cap : Z) : res (Gpu * bytes) :=
  let req_len := u32 (Z.of_nat (length req)) in
  if req_len <? sizeof_GpuCtrlHdr then Ok (g, []) else
  let type := fld req 0 4 in
  if type =? Cmd.GET_DISPLAY_INFO then Ok (g, take (Z.to_nat (Z.min resp_cap 408)) (display_info g req))
  else if type =? Cmd.RESOURCE_CREATE_2D then
    sized g req_len sizeof_GpuResourceCreate2d (create_2d g req)
  else if type =? Cmd.RESOURCE_UNREF then
    sized g req_len sizeof_GpuResourceUnref (Ok (unref g req))
  else if type =? Cmd.SET_SCANOUT then
    sized g req_len sizeof_GpuSetScanout (Ok (set_scanout_cmd g req))
  else if type =? Cmd.RESOURCE_FLUSH then
    sized g req_len sizeof_GpuResourceFlush (Ok (flush g req))
  else if type =? Cmd.TRANSFER_TO_HOST_2D then
    sized g req_len sizeof_GpuTransferToHost2d (transfer m g req)
  else if type =? Cmd.RESOURCE_ATTACH_BACKING then
    sized g req_len sizeof_GpuResourceAttachBacking (Ok (attach g req req_len))
  else if type =? Cmd.RESOURCE_DETACH_BACKING then
    sized g req_len sizeof_GpuResourceDetachBacking (Ok (detach g req))
  else Ok (g, err Resp.ERR_UNSPEC).

(** ** [process_controlq] *)

(** The [for (step < 64)] walk: the request bytes, and the last writable
    buffer with its capacity. *)
Fixpoint gather (steps : nat) (m : Ram) (d c : Z) (req : bytes) (resp : option (Z * Z))
  : res (bytes * option (Z * Z)) :=
  match steps with
  | O => Ok (req, resp)
  | S steps =>
      al ← desc_addr m d c;
      match gpa_to_hva m al with
      | None => Ok (req, resp)
      | Some hva =>
          f ← desc_flags m d c;
          l ← desc_len m d c;
          '(req', resp') ← (if has_flag f VRING_DESC_F_WRITE then Ok (req, Some (hva, l))
                            else bs ← load m hva (Z.to_nat l); Ok (req ++ bs, resp));
          if negb (has_flag f VRING_DESC_F_NEXT) then Ok (req', resp') else
          c' ← desc_next m d c;
          gather steps m d c' req' resp'
      end
  end.

Definition gpu_state : Type := Gpu * World.
Definition ctl_last (s : gpu_state) : Z := last_avail (r_q0 (regs s.1)).

(** Run the request, if there is one and room for an answer, and store the
    answer in the response buffer. *)
Definition ctl_run (g : Gpu) (m : Ram) (req : bytes) (resp : option (Z * Z)) : res (Gpu * Ram * Z) :=
  match resp with
  | Some (p, cap) =>
      if negb (bool_decide (req = [])) && (sizeof_GpuCtrlHdr <=? cap) then
        '(g', out) ← handle_command m g req cap;
        m' ← (if bool_decide (out = []) then Ok m else store m p out);
        Ok (g', m', Z.of_nat (length out))
      else Ok (g, m, 0)
  | None => Ok (g, m, 0)
  end.

Definition ctl_one (d a u : Z) (s : gpu_state) : res (bool * gpu_state) :=
  let '(g, w) := s in
  head ← avail_ring (w_ram w) a (ctl_last s mod kQueueSize);
  '(req, resp) ← gather 64 (w_ram w) d head [] None;
  '(g', m1, resp_len) ← ctl_run g (w_ram w) req resp;
  m2 ← push_used kQueueSize m1 u head resp_len;
  Ok (true, (set_regs g' (bump0 (regs g')), with_ram w m2)).

Definition process_controlq (fuel : nat) (g : Gpu) (w : World) : res (Gpu * World) :=
  match ring_ptrs (w_ram w) (r_q0 (regs g)) with
  | None => Ok (g, w)
  | Some (d, a, u) =>
      '(g', w') ← drain ctl_last (λ s, avail_idx (w_ram s.2) a) (ctl_one d a u) fuel (g, w);
      Ok (set_regs g' (set_irq (regs g')), raise_spi kSpiGpu w')
  end.

(** ** Registers *)
Definition read (g : Gpu) (off len : Z) : res Z :=
  let r := regs g in
  if off =? Reg.Magic then Ok 0x74726976
  else if off =? Reg.Version then Ok 2
  else if off =? Reg.DeviceId then Ok 16
  else if off =? Reg.VendorId then Ok 0x554D4551
  else if off =? Reg.DeviceFeat then Ok (feature_word (r_dev_feat_sel r) (device_features g))
  else if off =? Reg.QueueNumMax then Ok kQueueSize
  else if off =? Reg.QueueReady then
    q ← deref (selected r); Ok (if ready q then 1 else 0)
  else if off =? Reg.IrqStatus then Ok (r_irq_status r)
  else if off =? Reg.Status then Ok (r_status r)
  else if off =? ShmReg.ShmLenLo then Ok 0xFFFFFFFF
  else if off =? ShmReg.ShmLenHi then Ok 0xFFFFFFFF
  else if off =? Reg.ConfigGen then Ok 0
  else if off =? Reg.Config + 8 then Ok 1
  else Ok 0.

(** [queues_[queue_sel_ % 2]]. *)
Definition on_mod2 (f : Queue → Queue) (r : Regs) : Regs :=
  if r_queue_sel r mod 2 =? 0 then with_queues r (f (r_q0 r)) (r_q1 r)
  else with_queues r (r_q0 r) (f (r_q1 r)).

Definition write_status (g : Gpu) (val : Z) : Gpu :=
  let r := regs g in
  let newly := has_flag val VIRTIO_STATUS_FEATURES_OK
               && negb (has_flag (r_status r) VIRTIO_STATUS_FEATURES_OK) in
  let refused := negb (Z.land (r_features r) (Z.lnot (device_features g)) =? 0) in
  let status := if newly && refused then Z.land val (Z.lnot VIRTIO_STATUS_FEATURES_OK) else val in
  let g := set_regs g (with_status r status) in
  if val =? 0
  then mkGpu (frame_cb g) (width g) (height g) (with_features (regs_reset kQueueSize (regs g)) 0)
         (device_features g) 0 ∅ []
  else g.

(** The [switch], under the lock. *)
Definition write_locked (fuel : nat) (g : Gpu) (w : World) (off val : Z) : res (Gpu * World) :=
  let r := regs g in
  if off =? Reg.QueueSel then Ok (set_regs g (with_queue_sel r (Z.min val 1)), w)
  else if off =? Reg.QueueNotify then (if val =? 0 then process_controlq fuel g w else Ok (g, w))
  else if off =? Reg.Status then Ok (write_status g val, w)
  else match queue_reg kQueueSize off val with
       | Some f => Ok (set_regs g (on_mod2 f r), w)
       | None =>
           match regs_write kQueueSize r off val with
           | Some r' => Ok (set_regs g r', w)
           | None => Ok (g, w)
           end
       end.

Definition frame_event (f : PendingFrame) : Event :=
  Frame (f_pixels f) (f_width f) (f_height f) (f_stride f).

(** The staged frames are taken under the lock and delivered after it. *)
Definition write (fuel : nat) (g : Gpu) (w : World) (off val len : Z) : res (Gpu * World) :=
  '(g', w') ← write_locked fuel g w off val;
  Ok (set_pending g' [], emit w' (if frame_cb g' then frame_event <$> pending g' else [])).

#[export] Instance Gpu_mmio : MmioDevice Gpu := {
  dev_read := read;
  dev_write := write;
}.
End Gpu.
