(* ===== verification/VirtioGpuThms.v ===== *)
(** * VirtioGpuThms: what the GPU promises

    The pixel transfer against the guest's linear image, the device invariant
    with the shape of every frame shown, feature negotiation, and a resource
    whose size wraps. *)

From S2P Require Import Prelude Bytes GuestMem Virtq VirtqSpec World VirtioRegs GpuResource.
From S2P Require Import VirtioGpu.

(** ** Sizes are kept *)
Lemma buf_put_length buf off bs buf' : buf_put buf off bs = Ok buf' → length buf' = length buf.
Proof.
  unfold buf_put. destruct (_ && _) eqn:E; [|done]. intros [= <-].
  apply andb_true_iff in E as [H1%Z.leb_le H2%Z.leb_le].
  rewrite !length_app, length_take, length_drop. lia.
Qed.

Lemma read_backing_length m bk s e dst : ∀ base buf c buf' n,
  read_backing_loop m bk s e base buf dst c = Ok (buf', n) → length buf' = length buf.
Proof.
  induction bk as [|en bk IH]; intros base buf c buf' n H; cbn [read_backing_loop] in H;
    [by injection H as <- _|].
  destruct (e <=? base); [by injection H as <- _|]. cbv zeta in H.
  apply bind_Ok_inv in H as ([b1 n1] & E1 & H). apply IH in H. rewrite H.
  destruct (_ <? _) in E1; [|by injection E1 as <- _]. inv_bind. by eapply buf_put_length.
Qed.

Lemma transfer_rows_length m r rc o x2 : ∀ n row buf buf',
  transfer_rows n m r rc o x2 row buf = Ok buf' → length buf' = length buf.
Proof.
  induction n as [|n IH]; intros row buf buf' H; cbn [transfer_rows] in H; [by injection H as <-|].
  cbv zeta in H. apply bind_Ok_inv in H as ([b1 n1] & E1 & H). apply IH in H. rewrite H.
  by eapply read_backing_length.
Qed.

Lemma length_grow buf total : length (grow buf total) = Nat.max (length buf) (Z.to_nat total).
Proof. unfold grow. rewrite length_app, length_replicate. lia. Qed.

(** ** The invariant *)
Record wf_resource (id : Z) (r : Resource) : Prop := {
  wr_id : r_id r = id;
  wr_width : fits 32 (r_width r);
  wr_height : fits 32 (r_height r);
  wr_buf : Z.of_nat (length (r_host_buf r)) = total_bytes r;
}.

(** A frame is as large as its dimensions say, with rows of [width * 4]. *)
Definition frame_ok (f : PendingFrame) : Prop :=
  Z.of_nat (length (f_pixels f)) = u64 (u64 (f_width f * f_height f) * 4) ∧
  f_stride f = u32 (f_width f * 4).

Record wf_gpu (g : Gpu) : Prop := {
  wg_regs : wf_regs kQueueSize (regs g);
  wg_sel : 0 ≤ r_queue_sel (regs g) ≤ 1;
  wg_res : map_Forall wf_resource (resources g);
}.

(** Between two register accesses no frame is staged. *)
Definition gpu_inv (g : Gpu) : Prop := wf_gpu g ∧ Forall frame_ok (pending g).

Lemma total_bytes_nonneg r : 0 ≤ total_bytes r.
Proof. unfold total_bytes. apply u64_range. Qed.

Lemma fld_range req off n : wf_bytes req → (off + n ≤ length req)%nat →
  0 ≤ fld req off n < 256 ^ Z.of_nat n.
Proof.
  intros Hr Hl. unfold fld. pose proof (le_dec_range (take n (drop off req))) as H.
  rewrite length_take, length_drop, Nat.min_l in H by lia. apply H. auto with vm.
Qed.

Section commands.
Context (alloc : Z → bool).

(** Commands leave the registers alone and keep the resources well formed. *)
Definition keeps (g g' : Gpu) : Prop :=
  regs g' = regs g ∧ frame_cb g' = frame_cb g ∧ device_features g' = device_features g ∧
  (gpu_inv g → gpu_inv g').

Lemma keeps_refl g : keeps g g.
Proof. split_and!; auto. Qed.

Lemma keeps_put g id r : (gpu_inv g → wf_resource id r) → keeps g (put_resource g id r).
Proof.
  intros Hr. split_and!; [done..|]. intros Hg. pose proof (Hr Hg) as Hw. destruct Hg as [[? ? ?] Hp].
  split; [split; [done..|]|done]. by apply map_Forall_insert_2.
Qed.

Lemma put_backing_wf g id r b :
  find_resource g id = Some r → gpu_inv g → wf_resource id (set_backing r b).
Proof. intros Hf [[_ _ Hr] _]. by destruct (Hr id r Hf). Qed.

Lemma create_2d_keeps g req g' out :
  wf_bytes req → (40 ≤ length req)%nat → create_2d alloc g req = Ok (g', out) → keeps g g'.
Proof.
  intros Hr Hl H. unfold create_2d in H. inv_bind. apply keeps_put. intros _.
  split; cbn; try done.
  - apply (fld_range req 32 4); [done | lia].
  - apply (fld_range req 36 4); [done | lia].
  - rewrite length_replicate, Z2Nat.id; [done | apply u64_range].
Qed.

Lemma transfer_keeps m g req g' out : transfer alloc m g req = Ok (g', out) → keeps g g'.
Proof.
  unfold transfer. destruct (find_resource g _) as [r|] eqn:Hf.
  2: { intros [= <- <-]. apply keeps_refl. }
  intros H. inv_bind. apply keeps_put. intros [[_ _ Hr] _].
  destruct (Hr _ r Hf) as [H1 H2 H3 H4]. split; try done. cbn [r_host_buf set_host_buf].
  change (total_bytes (set_host_buf r v0)) with (total_bytes r).
  unfold transfer_to_host in Hm0. pose proof (total_bytes_nonneg r).
  assert (length v0 = length (grow (r_host_buf r) (total_bytes r))) as ->; [|rewrite length_grow; lia].
  cbv zeta in Hm0. destruct (_ && _) in Hm0; [by eapply transfer_rows_length | by injection Hm0 as <-].
Qed.

Lemma flush_keeps g req : keeps g (flush g req).1.
Proof.
  unfold flush. destruct (find_resource g _) as [r|] eqn:Hf; [|apply keeps_refl].
  cbn [fst]. destruct (_ && _); [|apply keeps_refl]. split_and!; [done..|].
  intros [[? ? Hr] Hp]. split; [done|]. apply Forall_app. split; [done|]. apply Forall_singleton.
  by destruct (Hr _ r Hf) as [_ _ _ Hb].
Qed.

Lemma set_scanout_keeps g v : keeps g (set_scanout g v).
Proof. split_and!; [done..|]. by intros [[] ?]. Qed.

Lemma keeps_trans g1 g2 g3 : keeps g1 g2 → keeps g2 g3 → keeps g1 g3.
Proof. intros (?&?&?&?) (?&?&?&?). split_and!; [congruence..|auto]. Qed.

Lemma keeps_pair g g' out (p : Gpu * bytes) : Ok p = Ok (g', out) → keeps g p.1 → keeps g g'.
Proof. by intros [= ->]. Qed.

Lemma unref_keeps g req : keeps g (unref g req).1.
Proof.
  unfold unref. cbn [fst].
  assert (keeps g (set_resources g (delete (fld req 24 4) (resources g)))) as H.
  { split_and!; [done..|]. intros [[? ? Hr] Hp]. split; [|done].
    split; [done..|]. by apply map_Forall_delete. }
  destruct (_ =? _); [|done]. eapply keeps_trans; [done | apply set_scanout_keeps].
Qed.

Lemma handle_command_keeps m g req cap g' out :
  wf_bytes req → handle_command alloc m g req cap = Ok (g', out) → keeps g g'.
Proof.
  intros Hr H. unfold handle_command, sized in H. cbv zeta in H.
  assert (∀ n, (u32 (Z.of_nat (length req)) <? n) = false → n ≤ Z.of_nat (length req)) as Hlen.
  { intros n Hn%Z.ltb_ge. pose proof (Nat2Z.is_nonneg (length req)). zlia. }
  repeat match type of H with
  | (if ?b then _ else _) = Ok _ => destruct b eqn:?
  end; try (injection H as <- <-; apply keeps_refl).
  - eapply create_2d_keeps; [done | | done]. unfold sizeof_GpuResourceCreate2d in *.
    match goal with E : (_ <? 40) = false |- _ => apply Hlen in E end. lia.
  - eapply keeps_pair; [exact H | apply unref_keeps].
  - unfold set_scanout_cmd in H. injection H as <- <-.
    destruct (_ =? 0); [apply set_scanout_keeps | apply keeps_refl].
  - eapply keeps_pair; [exact H | apply flush_keeps].
  - by eapply transfer_keeps.
  - unfold attach in H. destruct (find_resource g _) as [r|] eqn:Hf; injection H as <- <-;
      [|apply keeps_refl]. apply keeps_put. by apply put_backing_wf.
  - unfold detach in H. injection H as <- <-.
    destruct (find_resource g _) as [r|] eqn:Hf; [|apply keeps_refl].
    apply keeps_put. by apply put_backing_wf.
Qed.
End commands.

(** ** One control chain *)
Lemma wf_hdr t f i : wf_bytes (hdr_bytes t f i).
Proof. unfold hdr_bytes. rewrite !wf_bytes_app. auto with vm. Qed.

Lemma wf_fenced t req : wf_bytes (fenced_hdr t req).
Proof. unfold fenced_hdr. case_match; apply wf_hdr. Qed.

Lemma wf_display_info g req : wf_bytes (display_info g req).
Proof.
  unfold display_info. rewrite !wf_bytes_app.
  split_and!; auto using wf_fenced with vm. by apply wf_bytes_replicate.
Qed.

Lemma handle_command_out alloc m g req cap g' out :
  handle_command alloc m g req cap = Ok (g', out) → wf_bytes out.
Proof.
  intros H. unfold handle_command, sized, create_2d, unref, set_scanout_cmd, flush, transfer,
    attach, detach, err, ok_nodata in H. cbv zeta in H.
  repeat match type of H with
  | (if ?b then _ else _) = Ok _ => destruct b
  | (match find_resource ?g ?i with _ => _ end) = Ok _ => destruct (find_resource g i)
  | Ok (match find_resource ?g ?i with _ => _ end) = Ok _ => destruct (find_resource g i)
  end; inv_bind;
    first [by constructor | apply wf_fenced | apply wf_hdr | apply wf_bytes_take, wf_display_info].
Qed.

Lemma gather_wf m d : wf_ram m → ∀ n c req resp req' resp',
  wf_bytes req → gather n m d c req resp = Ok (req', resp') → wf_bytes req'.
Proof.
  intros Hm n. induction n as [|n IH]; intros c req resp req' resp' Hr H; cbn [gather] in H.
  { by injection H as <- _. }
  inv_bind. destruct (gpa_to_hva m v); [|by injection H as <- _]. inv_bind.
  assert (wf_bytes l) as Hl.
  { destruct (has_flag v0 VRING_DESC_F_WRITE); [by injection Hm3 as <- _|].
    apply bind_Ok_inv in Hm3 as (bs & [_ ->]%load_Ok & [= <- _]). apply wf_bytes_app. auto with vm. }
  destruct (negb _) in H; [by injection H as <- _|]. inv_bind. by eapply IH.
Qed.

Section steps.
Context (alloc : Z → bool).

Lemma ctl_run_keeps g m req resp g' m' n :
  wf_bytes req → ctl_run alloc g m req resp = Ok (g', m', n) → keeps g g' ∧ ram_step m m'.
Proof.
  intros Hr H. unfold ctl_run in H. destruct resp as [[p cap]|]; cycle 1.
  { injection H as <- <- _. split; [apply keeps_refl | done]. }
  destruct (_ && _) in H; [|injection H as <- <- _; split; [apply keeps_refl | done]].
  inv_bind. split; [by eapply handle_command_keeps|].
  destruct (bool_decide _) in Hm0; [by injection Hm0 as <-|].
  apply store_Ok in Hm0 as [_ ->]. apply handle_command_out in Hm.
  split; auto with vm.
Qed.

Lemma ctl_one_step d a u s go s' :
  wf_ram (w_ram s.2) → ctl_one alloc d a u s = Ok (go, s') →
  (gpu_inv s.1 → gpu_inv s'.1) ∧ ram_step (w_ram s.2) (w_ram s'.2) ∧
  w_log s'.2 = w_log s.2 ∧ device_features s'.1 = device_features s.1.
Proof.
  destruct s as [g w]. cbn [fst snd]. intros Hw H. unfold ctl_one in H. inv_bind.
  assert (wf_bytes l) as Hl by (eapply gather_wf; [exact Hw | | exact Hm0]; constructor).
  apply ctl_run_keeps in Hm1 as [(K1 & _ & K3 & K4) S]; [|done]. cbn [fst snd w_ram with_ram w_log].
  split_and!; [| |done|done].
  - intros Hg. destruct (K4 Hg) as [[H1 H2 H3] H4]. split; [split|]; try done. by apply bump0_wf.
  - etrans; [exact S|]. by eapply push_used_wf.
Qed.

Lemma process_controlq_step fuel g g' w w' :
  wf_ram (w_ram w) → gpu_inv g → process_controlq alloc fuel g w = Ok (g', w') →
  gpu_inv g' ∧ ram_step (w_ram w) (w_ram w') ∧ device_features g' = device_features g ∧
  (w_log w' = w_log w ∨ w_log w' = w_log w ++ [SetSpi 52 true; SetSpi 52 false]).
Proof.
  intros Hw Hg H. unfold process_controlq in H.
  destruct (ring_ptrs _ _) as [[[d a] u]|]; [|injection H as <- <-; split_and!; try done; by left].
  apply bind_Ok_inv in H as ([g1 w1] & D & H). injection H as <- <-.
  pose (P := λ s : gpu_state, gpu_inv s.1 ∧ ram_step (w_ram w) (w_ram s.2) ∧
    w_log s.2 = w_log w ∧ device_features s.1 = device_features g).
  assert (P (g1, w1)) as (H1 & H2 & H3 & H4).
  { refine (drain_Ok_inv _ _ _ P _ fuel (g, w) (g1, w1) _ D); [|done].
    intros s go s' (Hs & Hr & Hlg & Hdf) Hb.
    destruct (ctl_one_step _ _ _ _ _ _ ltac:(by apply Hr) Hb) as (? & ? & ? & ?).
    split_and!; [auto | by etrans | congruence..]. }
  cbn [fst snd] in *. split_and!; [| done | done | right; cbn [raise_spi emit w_log]; by rewrite H3].
  destruct H1 as [[? ? ?] ?]. split; [split|]; try done. by apply set_irq_wf.
Qed.

Lemma on_mod2_wf f r :
  (∀ q, wf_queue kQueueSize q → wf_queue kQueueSize (f q)) → wf_regs kQueueSize r →
  wf_regs kQueueSize (on_mod2 f r) ∧ r_queue_sel (on_mod2 f r) = r_queue_sel r.
Proof. intros Hf []. unfold on_mod2. case_match; (split; [split|]; cbn; auto). Qed.

Lemma with_features_wf r v : wf_regs kQueueSize r → fits 64 v → wf_regs kQueueSize (with_features r v).
Proof. by intros []. Qed.

Lemma write_status_inv g val : gpu_inv g → fits 32 val → gpu_inv (write_status g val).
Proof.
  intros [[Hr Hs Hres] Hp] Hv. unfold write_status. cbv zeta.
  set (st := if _ : bool then _ else val).
  assert (fits 32 st) as Hst by (unfold st; case_match; [by apply fits_land | done]).
  case_match.
  - split; [split|]; cbn; [|done|apply map_Forall_empty|constructor].
    apply with_features_wf; [|done]. apply regs_reset_wf; [done|]. by apply with_status_wf.
  - split; [split|]; cbn; try done. by apply with_status_wf.
Qed.

Lemma regs_write_sel K r r' off val : regs_write K r off val = Some r' → r_queue_sel r' = r_queue_sel r.
Proof.
  intros H. unfold regs_write in H.
  repeat (case_match; [injection H as <-; repeat case_match; done|]).
  destruct (queue_reg K off val); [|done]. injection H as <-. unfold on_selected.
  by repeat case_match.
Qed.

Lemma write_locked_inv fuel g g' w w' off val :
  wf_ram (w_ram w) → gpu_inv g → fits 32 val →
  write_locked alloc fuel g w off val = Ok (g', w') →
  gpu_inv g' ∧ ram_step (w_ram w) (w_ram w') ∧ device_features g' = device_features g ∧
  (w_log w' = w_log w ∨ w_log w' = w_log w ++ [SetSpi 52 true; SetSpi 52 false]).
Proof.
  intros Hw Hg Hv H. unfold write_locked in H.
  destruct (off =? Reg.QueueSel).
  { injection H as <- <-. split_and!; try done; [|by left].
    destruct Hg as [[? ? ?] ?]. unfold fits in Hv.
    split; [split|]; cbn; try done; [|lia]. apply with_queue_sel_wf; [done|]. unfold fits. lia. }
  destruct (off =? Reg.QueueNotify).
  { destruct (val =? 0); [by eapply process_controlq_step|].
    injection H as <- <-. split_and!; try done. by left. }
  destruct (off =? Reg.Status).
  { injection H as <- <-. split_and!; try done; [by apply write_status_inv | | by left].
    unfold write_status. cbv zeta. by case_match. }
  destruct Hg as [[Hr Hs Hres] Hp].
  destruct (queue_reg kQueueSize off val) as [f|] eqn:Hq.
  { injection H as <- <-. split_and!; try done; [|by left].
    destruct (on_mod2_wf f (regs g)) as [H1 H2]; [|done|split; [split|]; cbn; try done; by rewrite H2].
    intros q. by apply (queue_reg_wf kQueueSize ltac:(done) off val). }
  destruct (regs_write kQueueSize (regs g) off val) as [r'|] eqn:Hrw; injection H as <- <-;
    split_and!; try done; try (by left).
  split; [split|]; cbn; try done; [by eapply regs_write_wf | by erewrite regs_write_sel].
Qed.
End steps.

(** ** Properties *)

(** C3. TRANSFER_TO_HOST_2D copies exactly the requested pixels.  For a
    resource less than 2^30 pixels wide whose backing entries each lie inside
    RAM or outside it, the command succeeds and leaves a buffer of the same
    size in which every byte of the rectangle, clipped to the resource, is the
    byte of the guest's image: the backing entries in sequence, at [offset]
    plus one resource row per rectangle row, zero where an entry is not RAM,
    unchanged past their end.  All other bytes are unchanged. *)
Theorem gpu_transfer_copies (alloc : Z → bool) (m : Ram) (g : Gpu) (req : bytes) (cap id : Z)
    (r : Resource) :
  wf_ram m → gpu_inv g → wf_bytes req → 56 ≤ Z.of_nat (length req) < 2 ^ 32 →
  fld req 0 4 = Cmd.TRANSFER_TO_HOST_2D → fld req 48 4 = id →
  find_resource g id = Some r → r_width r < 2 ^ 30 →
  Forall (entry_ok m) (r_backing r) → lin_total (r_backing r) < 2 ^ 64 →
  let rc := rect_at req 24 in
  let offset := fld req 40 8 in
  let row := r_width r * 4 in
  let x2 := Z.min (u32 (rx rc + rw rc)) (r_width r) in
  let y2 := Z.min (u32 (ry rc + rh rc)) (r_height r) in
  offset + (y2 - ry rc) * row < 2 ^ 64 →
  ∃ buf, handle_command alloc m g req cap =
      Ok (put_resource g id (set_host_buf r buf), ok_nodata req) ∧
    length buf = length (r_host_buf r) ∧
    ∀ i, buf !! i =
      if bool_decide (in_rect row (rx rc) x2 (ry rc) y2 (Z.of_nat i))
      then pixel_after m (r_backing r) row offset (rx rc) (ry rc) (Z.of_nat i) (r_host_buf r !! i)
      else r_host_buf r !! i.
Proof.
  intros Hm [[_ _ Hres] _] Hreq Hlen Ht Hid Hf HW Hok Hlin rc offset row x2 y2 Hoff.
  destruct (Hres id r Hf) as [_ Hw Hh Hb].
  assert (fits 32 (rx rc) ∧ fits 32 (ry rc) ∧ 0 ≤ offset) as (Hx & Hy & Ho).
  { pose proof (fld_range req 24 4 Hreq ltac:(lia)) as Hx.
    pose proof (fld_range req 28 4 Hreq ltac:(lia)) as Hy.
    pose proof (fld_range req 40 8 Hreq ltac:(lia)) as Ho.
    split; [exact Hx|]. split; [exact Hy | exact (proj1 Ho)]. }
  unfold fits in Hw, Hh, Hx, Hy.
  assert (r_width r * r_height r < 2 ^ 30 * 2 ^ 32) by nia.
  assert (total_bytes r = r_height r * row) as Htot.
  { unfold total_bytes, row. rewrite (u64_id (r_width r * r_height r)) by nia.
    rewrite u64_id by nia. lia. }
  assert (∃ buf, transfer_to_host m r rc offset = Ok buf ∧ length buf = length (r_host_buf r) ∧
    ∀ i, buf !! i =
      if bool_decide (in_rect row (rx rc) x2 (ry rc) y2 (Z.of_nat i))
      then pixel_after m (r_backing r) row offset (rx rc) (ry rc) (Z.of_nat i) (r_host_buf r !! i)
      else r_host_buf r !! i) as (buf & E & L & B).
  { unfold transfer_to_host, grow.
    replace (Z.to_nat (total_bytes r) - length (r_host_buf r))%nat with 0%nat by lia.
    cbn [replicate]. rewrite app_nil_r. fold x2 y2.
    destruct (Z.ltb_spec (rx rc) x2), (Z.ltb_spec (ry rc) y2); cbn [andb].
    2-4: exists (r_host_buf r); split_and!; [done..|]; intros i; case_bool_decide as H'; [|done];
      unfold in_rect in H'; lia.
    assert (y2 * row ≤ r_height r * row) by (apply Z.mul_le_mono_nonneg_r; unfold row; lia).
    apply transfer_rows_ok; try done; unfold row, x2 in *; try lia; nia. }
  exists buf. split; [|done]. unfold handle_command.
  rewrite (u32_id (Z.of_nat (length req))) by lia. rewrite Ht. unfold sizeof_GpuCtrlHdr.
  rewrite (proj2 (Z.ltb_ge _ 24)) by lia. const_eqb. cbv zeta. unfold sized, sizeof_GpuTransferToHost2d.
  rewrite (proj2 (Z.ltb_ge _ 56)) by lia. unfold transfer. cbv zeta. rewrite Hid, Hf.
  rewrite Hb, Z.leb_refl. cbn [orb guard_res]. rewrite bind_Ok. fold rc offset. by rewrite E, bind_Ok.
Qed.

Lemma features_ok_bit x : has_flag x VIRTIO_STATUS_FEATURES_OK = Z.testbit x 3.
Proof.
  unfold has_flag. change VIRTIO_STATUS_FEATURES_OK with (2 ^ 3).
  destruct (Z.testbit x 3) eqn:E; [apply negb_true_iff, Z.eqb_neq | apply negb_false_iff, Z.eqb_eq].
  - intros H. apply (f_equal (λ y, Z.testbit y 3)) in H. rewrite Z.land_spec, E in H. done.
  - apply Z.bits_inj'. intros n Hn. rewrite Z.land_spec, Z.bits_0, Z.pow2_bits_eqb by lia.
    destruct (Z.eqb_spec 3 n) as [<-|]; [by rewrite E | apply andb_false_r].
Qed.

Lemma land_lnot_subset f d :
  Z.land f (Z.lnot d) = 0 ↔ ∀ n, Z.testbit f n = true → Z.testbit d n = true.
Proof.
  split.
  - intros H n Hn. apply (f_equal (λ y, Z.testbit y n)) in H.
    destruct (Z.le_gt_cases 0 n); [|by rewrite Z.testbit_neg_r in Hn].
    rewrite Z.land_spec, Z.lnot_spec, Hn, Z.bits_0 in H by done. by destruct (Z.testbit d n).
  - intros H. apply Z.bits_inj'. intros n Hn. rewrite Z.land_spec, Z.lnot_spec, Z.bits_0 by done.
    destruct (Z.testbit f n) eqn:E; [|done]. by rewrite H.
Qed.

(** The host effects of the GPU: its interrupt, and frames whose pixel buffer
    has the size and row length announced with it. *)
Definition gpu_event_ok (e : Event) : Prop :=
  match e with
  | SetSpi i _ => i = 52
  | Frame px w h st => frame_ok (mkFrame px w h st)
  | _ => False
  end.


(** FEATURES_OK is granted exactly to drivers that ask for offered
    features.  A status write that newly sets FEATURES_OK reads back with the
    bit set iff every feature the driver acknowledged was offered; the other
    status bits are stored as written. *)
Theorem gpu_features_ok (alloc : Z → bool) (fuel : nat) (g : Gpu) (w : World) (val len : Z) :
  fits 32 val → has_flag val VIRTIO_STATUS_FEATURES_OK = true →
  has_flag (r_status (regs g)) VIRTIO_STATUS_FEATURES_OK = false → pending g = [] →
  ∃ g' st, write alloc fuel g w Reg.Status val len = Ok (g', w) ∧
    read g' Reg.Status len = Ok st ∧
    (has_flag st VIRTIO_STATUS_FEATURES_OK = true ↔
     ∀ n, Z.testbit (r_features (regs g)) n = true → Z.testbit (device_features g) n = true) ∧
    (∀ n, n ≠ 3 → Z.testbit st n = Z.testbit val n) ∧
    resources g' = resources g ∧ r_features (regs g') = r_features (regs g).
Proof.
  intros Hv Hnew Hold Hp.
  assert (val ≠ 0) as Hne by (intros ->; done).
  unfold write, write_locked. const_eqb. unfold write_status. cbv zeta.
  rewrite Hnew, Hold, (proj2 (Z.eqb_neq val 0) Hne). cbn [andb negb].
  set (st := if negb _ then _ else val). rewrite bind_Ok. eexists _, st. split_and!.
  - f_equal. cbn [pending set_regs regs]. rewrite Hp. cbn [fmap list_fmap].
    f_equal. unfold emit. destruct w, (frame_cb _); cbn; by rewrite app_nil_r.
  - done.
  - rewrite <- land_lnot_subset, !features_ok_bit in *. unfold st.
    destruct (Z.eqb_spec (Z.land (r_features (regs g)) (Z.lnot (device_features g))) 0) as [E|E];
      cbn [negb]; [done|].
    rewrite Z.land_spec. change (Z.testbit (Z.lnot VIRTIO_STATUS_FEATURES_OK) 3) with false.
    rewrite andb_false_r. done.
  - intros n Hn. unfold st. destruct (negb _); [|done]. rewrite Z.land_spec.
    destruct (Z.le_gt_cases 0 n); [|by rewrite !Z.testbit_neg_r].
    rewrite Z.lnot_spec by done. change VIRTIO_STATUS_FEATURES_OK with (2 ^ 3).
    rewrite Z.pow2_bits_eqb by done. destruct (Z.eqb_spec 3 n); [lia|]. apply andb_true_r.
  - done.
  - done.
Qed.

(** ** A resource whose size wraps

    2^31 by 2^31 pixels need 2^64 bytes, computed as 0: the resource is created
    with an empty buffer, and the first transfer into it writes past its end. *)
Theorem gpu_wrapped_resource_overruns (alloc : Z → bool) (m : Ram) (g : Gpu) (req : bytes)
    (cap id : Z) (r : Resource) (e : MemEntry) (bk : list MemEntry) :
  wf_ram m → 56 ≤ Z.of_nat (length req) < 2 ^ 32 →
  fld req 0 4 = Cmd.TRANSFER_TO_HOST_2D → fld req 48 4 = id →
  rect_at req 24 = mkRect 0 0 1 1 → fld req 40 8 = 0 →
  find_resource g id = Some r → r_width r = 2 ^ 31 → r_height r = 2 ^ 31 → r_host_buf r = [] →
  r_backing r = e :: bk → entry_ok m e → 4 ≤ e_len e < 2 ^ 32 →
  handle_command alloc m g req cap = Err HostOOB.
Proof.
  intros Hm Hlen Ht Hid Hrc Ho Hf HW HH Hb Hbk He Hel. unfold handle_command. cbv zeta.
  rewrite (u32_id (Z.of_nat (length req))), Ht by lia. unfold sizeof_GpuCtrlHdr.
  rewrite (proj2 (Z.ltb_ge _ 24)) by lia. const_eqb. unfold sized, sizeof_GpuTransferToHost2d.
  rewrite (proj2 (Z.ltb_ge _ 56)) by lia. unfold transfer. cbv zeta. rewrite Hid, Hf, Hrc, Ho.
  unfold total_bytes. rewrite HW, HH, Hb. change (u64 (u64 (2 ^ 31 * 2 ^ 31) * 4)) with 0.
  cbn [length orb guard_res]. change (0 <=? Z.of_nat 0) with true. cbn [orb guard_res]. rewrite bind_Ok.
  unfold transfer_to_host, total_bytes. rewrite HW, HH, Hb. cbn [rx ry rw rh].
  change (Z.min (u32 (0 + 1)) (2 ^ 31)) with 1. change (u64 (u64 (2 ^ 31 * 2 ^ 31) * 4)) with 0.
  change (Z.to_nat (1 - 0)) with 1%nat. cbn [Z.ltb Z.compare andb transfer_rows]. cbv zeta.
  rewrite HW. cbn [rx ry]. unfold read_backing. rewrite Hbk.
  change (u32 (u32 (1 - 0) * 4)) with 4. change (u64 (0 + (0 - 0) * u32 (2 ^ 31 * 4))) with 0.
  change (u64 (0 + 4)) with 4. cbn [read_backing_loop]. cbv zeta.
  change (4 <=? 0) with false. cbn match. rewrite (u64_id (0 + e_len e)) by lia.
  rewrite (Z.min_r (0 + e_len e) 4) by lia. change (Z.max 0 0) with 0. change (0 <? 4) with true. cbn match.
  destruct (entry_copy m Hm e (0 - 0) (4 - 0) He) as (bs & E & L & _); [lia..|].
  rewrite E, bind_Ok. unfold buf_put. rewrite L. reflexivity.
Qed.
