(* ===== verification/VirtioGpuWit.v ===== *)
(** * VirtioGpuWit: the GPU's properties at concrete inputs *)

From S2P Require Import Prelude Bytes GuestMem Virtq VirtqSpec World VirtioRegs Fixtures GpuResource.
From S2P Require Import VirtioGpu VirtioGpuThms.

Definition gx_alloc (n : Z) : bool := n <=? 0x10000000.

(** A 2x2 resource whose backing is ten bytes of RAM and four bytes that are
    not RAM: the image's last two bytes have no backing. *)
Definition gx_resource : Resource :=
  mkResource 5 1 2 2 [mkEntry (fx_base + fx_buf) 10; mkEntry 0x1000 4] (replicate 16 7).
Definition gx_gpu : Gpu :=
  mkGpu true 640 480 (mkRegs 7 0 0 0 0 kVirtioF_Version1 (fx_queue 256) (fx_queue 256))
    kVirtioF_Version1 5 {[ 5 := gx_resource ]} [].

Definition gx_req (type : Z) (body : bytes) : bytes := hdr_bytes type 0 0 ++ body.
Definition gx_transfer : bytes :=
  gx_req Cmd.TRANSFER_TO_HOST_2D
    (le_enc 4 0 ++ le_enc 4 0 ++ le_enc 4 2 ++ le_enc 4 2 ++ le_enc 8 0 ++ le_enc 4 5 ++ le_enc 4 0).
Definition gx_flush : bytes :=
  gx_req Cmd.RESOURCE_FLUSH (replicate 16 0 ++ le_enc 4 5 ++ le_enc 4 0).

(** A FLUSH request and its response buffer on the control queue. *)
Definition gx_ram : Ram :=
  fx_avail 1 [0]
    (fx_desc 0 (fx_base + fx_hdr) 48 1 1
       (fx_desc 1 (fx_base + fx_st) 24 2 0
          (pokes (pokes fx_ram fx_buf [1; 2; 3; 4; 5; 6; 7; 8; 9; 10]) fx_hdr gx_flush))).
Definition gx_world : World := mkWorld gx_ram [].

Lemma wf_gx_ram : wf_ram gx_ram.
Proof.
  unfold gx_ram. apply wf_fx_avail, wf_fx_desc, wf_fx_desc.
  apply wf_pokes; [apply wf_pokes; [apply wf_fx_ram|] |]; by apply wf_bytesb_ok.
Qed.

Lemma gx_inv : gpu_inv gx_gpu.
Proof.
  split; [split|]; [by repeat split | cbn; lia | | constructor].
  apply map_Forall_singleton. by split.
Qed.

Lemma gx_entries : Forall (entry_ok gx_ram) (r_backing gx_resource).
Proof.
  assert (ram_gpa gx_ram = fx_base ∧ ram_size gx_ram = 0x10000) as [E1 E2] by by vm_compute.
  repeat constructor; unfold entry_ok; rewrite ?E1, ?E2; cbn [e_gpa e_len];
    unfold fx_base, fx_buf, kGpaRamBase; lia.
Qed.

Lemma gpu_transfer_copies_witness :
  ∃ buf, handle_command gx_alloc gx_ram gx_gpu gx_transfer 24 =
      Ok (put_resource gx_gpu 5 (set_host_buf gx_resource buf), ok_nodata gx_transfer) ∧
    length buf = 16%nat ∧
    ∀ i, buf !! i =
      if bool_decide (in_rect 8 0 2 0 2 (Z.of_nat i))
      then pixel_after gx_ram (r_backing gx_resource) 8 0 0 0 (Z.of_nat i) (r_host_buf gx_resource !! i)
      else r_host_buf gx_resource !! i.
Proof.
  refine (gpu_transfer_copies gx_alloc gx_ram gx_gpu gx_transfer 24 5 gx_resource
            _ _ _ _ _ _ _ _ _ _ _); try eval_eq.
  - apply wf_gx_ram.
  - apply gx_inv.
  - by apply wf_bytesb_ok.
  - split; [discriminate | reflexivity].
  - apply gx_entries.
Defined.

Definition gx_after : Gpu * World := Eval vm_compute in
  match write gx_alloc 4 gx_gpu gx_world Reg.QueueNotify 0 4 with
  | Ok s => s | Err _ => (gx_gpu, gx_world) end.


(** The flush shows the resource. *)
Example gx_shown :
  w_log gx_after.2 = [SetSpi 52 true; SetSpi 52 false; Frame (replicate 16 7) 2 2 8].
Proof. reflexivity. Qed.

Lemma gpu_features_ok_witness :
  ∃ g' st, write gx_alloc 0 gx_gpu gx_world Reg.Status 15 4 = Ok (g', gx_world) ∧
    read g' Reg.Status 4 = Ok st ∧
    (has_flag st VIRTIO_STATUS_FEATURES_OK = true ↔
     ∀ n, Z.testbit kVirtioF_Version1 n = true → Z.testbit kVirtioF_Version1 n = true) ∧
    (∀ n, n ≠ 3 → Z.testbit st n = Z.testbit 15 n) ∧
    resources g' = resources gx_gpu ∧ r_features (regs g') = kVirtioF_Version1.
Proof. by apply (gpu_features_ok gx_alloc 0 gx_gpu gx_world 15 4). Defined.

(** The resource of 2^31 by 2^31 pixels that CREATE_2D accepts. *)
Definition gx_wrapped : Resource :=
  mkResource 6 1 (2 ^ 31) (2 ^ 31) [mkEntry (fx_base + fx_buf) 4096] [].
Definition gx_wrapped_gpu : Gpu := put_resource gx_gpu 6 gx_wrapped.
Definition gx_overrun : bytes :=
  gx_req Cmd.TRANSFER_TO_HOST_2D
    (le_enc 4 0 ++ le_enc 4 0 ++ le_enc 4 1 ++ le_enc 4 1 ++ le_enc 8 0 ++ le_enc 4 6 ++ le_enc 4 0).

Example gx_create :
  create_2d gx_alloc gx_gpu
    (gx_req Cmd.RESOURCE_CREATE_2D (le_enc 4 6 ++ le_enc 4 1 ++ le_enc 4 (2 ^ 31) ++ le_enc 4 (2 ^ 31)))
  = Ok (put_resource gx_gpu 6 (set_backing gx_wrapped []), hdr_bytes Resp.OK_NODATA 0 0).
Proof. reflexivity. Qed.

Lemma gpu_wrapped_resource_overruns_witness :
  handle_command gx_alloc gx_ram gx_wrapped_gpu gx_overrun 24 = Err HostOOB.
Proof.
  refine (gpu_wrapped_resource_overruns gx_alloc gx_ram gx_wrapped_gpu gx_overrun 24 6 gx_wrapped
    (mkEntry (fx_base + fx_buf) 4096) [] _ _ _ _ _ _ _ _ _ _ _ _ _); try eval_eq.
  - apply wf_gx_ram.
  - split; [discriminate | reflexivity].
  - assert (ram_gpa gx_ram = fx_base ∧ ram_size gx_ram = 0x10000) as [E1 E2] by by vm_compute.
    unfold entry_ok. rewrite E1, E2. cbn [e_gpa e_len]. unfold fx_base, fx_buf, kGpaRamBase. lia.
  - cbn [e_len]. lia.
Defined.
