(* ===== verification/Devices.v ===== *)
(** * Devices: what every virtio-mmio device promises the machine

    The interface between the devices and the exit handler's client theorems:
    [DeviceLaws] states that a device identifies itself, keeps itself and guest
    memory well formed on every register write, and drives no interrupt line
    but its own.  The instances discharge it for the console, the disk, the
    network, the display and the input devices. *)

From S2P Require Import Prelude Bytes GuestMem Virtq VirtqSpec World VirtioRegs.
From S2P Require VirtioConsole VirtioInput VirtioBlock VirtioBlockThms VirtioNet VirtioGpu VirtioGpuThms.

(** ** Host effects of one device *)

(** An effect that is not an interrupt line other than [spi]'s. *)
Definition line_ok (spi : Z) (e : Event) : Prop :=
  match e with SetSpi i _ => i = u32 (kGicSpiBase + spi) | _ => True end.

Definition log_ext (spi : Z) (w w' : World) : Prop :=
  ∃ es, w_log w' = w_log w ++ es ∧ Forall (line_ok spi) es.

#[export] Instance log_ext_preorder spi : PreOrder (log_ext spi).
Proof.
  split.
  - intros w. exists []. by rewrite app_nil_r.
  - intros w1 w2 w3 (es & E & H) (es' & E' & H'). exists (es ++ es').
    rewrite E', E, app_assoc. split; [done|]. by apply Forall_app.
Qed.

Section log.
Context (spi : Z).
Lemma log_ext_ram w m : log_ext spi w (with_ram w m).
Proof. exists []. by rewrite app_nil_r. Qed.
Lemma log_ext_emit w es : Forall (line_ok spi) es → log_ext spi w (emit w es).
Proof. by exists es. Qed.
Lemma log_ext_raise w : log_ext spi w (raise_spi spi w).
Proof. apply log_ext_emit. by repeat constructor. Qed.
End log.
#[export] Hint Resolve log_ext_ram log_ext_raise : vm.

Class DeviceLaws (D : Type) `{MmioDevice D} := {
  dev_wf : D → Prop;
  dev_spi : D → Z;
  dev_magic : ∀ d, dev_read d Reg.Magic 4 = Ok 0x74726976;
  dev_step : ∀ fuel d w off val len d' w',
    dev_wf d → wf_ram (w_ram w) → fits 32 val → dev_write fuel d w off val len = Ok (d', w') →
    dev_wf d' ∧ ram_step (w_ram w) (w_ram w') ∧ dev_spi d' = dev_spi d ∧ log_ext (dev_spi d) w w';
}.

(** A loop whose body only makes the effects of [spi]. *)
Lemma drain_log {St} (spi : Z) (world : St → World) (keep : St → Prop) last idx body fuel (s s' : St) :
  (∀ s go s', keep s → body s = Ok (go, s') → keep s' ∧ log_ext spi (world s) (world s')) →
  keep s → drain last idx body fuel s = Ok s' → keep s' ∧ log_ext spi (world s) (world s').
Proof.
  intros Hb Hk D.
  refine (drain_Ok_inv last idx body (λ t, keep t ∧ log_ext spi (world s) (world t)) _ fuel s s' _ D);
    [|done].
  intros t go t' [Ht Hl] Hs. destruct (Hb _ _ _ Ht Hs) as [Hk' Hl']. split; [done|]. by etrans.
Qed.

(** ** Console *)
Section console.
Import VirtioConsole.

Lemma console_tx_events fd (m : Ram) fuel d cur (s s' : Z * list Event) :
  Forall (line_ok kSpiConsole) s.2 → walk_chain m (tx_visit fd m) fuel d cur s = Ok s' →
  Forall (line_ok kSpiConsole) s'.2.
Proof.
  apply (walk_chain_inv m _ (λ s : Z * list Event, Forall (line_ok kSpiConsole) s.2)).
  intros al l [wrote es] t Hs H. unfold tx_visit in H.
  repeat (case_match; inv_bind); simplify_eq; try done.
  apply Forall_app. split; [done|]. by repeat constructor.
Qed.

Lemma console_tx_log fuel c c' w w' :
  process_tx fuel c w = Ok (c', w') → log_ext kSpiConsole w w'.
Proof.
  unfold process_tx. intros H. case_match; [|by simplify_eq]. destruct p as [[d a] u].
  apply bind_Ok_inv in H as ([c1 w1] & D & H). injection H as _ <-.
  etrans; [|by apply log_ext_raise].
  refine (proj2 (drain_log kSpiConsole snd (λ _, True) _ _ _ _ _ _ _ I D)).
  intros [c2 w2] go [c3 w3] _ Hb. split; [done|]. unfold tx_one in Hb. inv_bind.
  exists l. split; [done|]. by apply (console_tx_events _ _ _ _ _ (0, []) _ (Forall_nil_2 _) Hm0).
Qed.

Lemma console_lines fuel c w off val len c' w' :
  write fuel c w off val len = Ok (c', w') → log_ext kSpiConsole w w'.
Proof.
  unfold write. intros H. repeat case_match; simplify_eq; try reflexivity. by eapply console_tx_log.
Qed.

#[export] Instance Console_laws : DeviceLaws Console.
Proof.
  refine {| dev_wf := λ c, wf_regs kQueueSize (regs c); dev_spi := λ _, kSpiConsole |}.
  - done.
  - intros fuel c w off val len c' w' Hc _ Hv H.
    destruct (console_write_invariant _ _ _ _ _ _ _ _ Hc Hv H) as (? & ? & _).
    split_and!; try done. by eapply console_lines.
Defined.
End console.

(** ** Disk *)
Section block.
Import VirtioBlock.
Context {F : Type} {HF : BlockFile F} {HL : BlockFileLaws F}.

Lemma block_rq_log fuel (b b' : Block F) w w' :
  process_rq fuel b w = Ok (b', w') → log_ext kSpiBlock w w'.
Proof.
  unfold process_rq. intros H. case_match; [|by simplify_eq]. destruct p as [[d a] u].
  apply bind_Ok_inv in H as ([[b1 w1] raised] & D & H).
  assert (log_ext kSpiBlock w w1) as Hl.
  { clear H. refine (proj2 (drain_log kSpiBlock (λ s : rq_state, s.1.2) (λ _, True) _ _ _ _ _ _ _ I D)).
    intros [[b2 w2] r2] go [[b3 w3] r3] _ Hb. split; [done|]. unfold serve_one in Hb.
    inv_bind. repeat (case_match; inv_bind); simplify_eq; try reflexivity. cbn [fst snd].
    eexists; split; [reflexivity|]. unfold serve_data in *. inv_bind.
    case_match; by repeat constructor. }
  destruct raised; injection H as _ <-; [|done]. etrans; [done | by apply log_ext_raise].
Qed.

Lemma block_lines fuel (b b' : Block F) w off val len w' :
  write fuel b w off val len = Ok (b', w') → log_ext kSpiBlock w w'.
Proof.
  unfold write. cbv zeta. intros H. repeat (case_match; [|]);
    first [injection H as _ <-; reflexivity | by eapply block_rq_log].
Qed.

#[export] Instance Block_laws : DeviceLaws (Block F).
Proof.
  refine {| dev_wf := λ b, VirtioBlockThms.wf_block b; dev_spi := λ _, kSpiBlock |}.
  - done.
  - intros fuel c w off val len c' w' Hc Hw Hv H.
    destruct (VirtioBlockThms.block_write_invariant _ _ _ _ _ _ _ _ Hc Hw Hv H) as [[? ?] _].
    split_and!; try done. exact (block_lines _ _ _ _ _ _ _ _ H).
Defined.
End block.

(** ** Keyboard and tablet *)
Section input.
Import VirtioInput.

Lemma input_drain_log last idx body fuel dev w d' w' :
  (∀ s go s', body s = Ok (go, s') →
     spi_id s'.1.1 = spi_id s.1.1 ∧ w_log s'.1.2 = w_log s.1.2) →
  notify <$> drain last idx body fuel (dev, w, false) = Ok (d', w') →
  spi_id d' = spi_id dev ∧ log_ext (spi_id dev) w w'.
Proof.
  intros Hb H. destruct (drain _ _ _ _ _) as [[[d1 w1] r]|] eqn:D; [|done].
  assert (spi_id d1 = spi_id dev ∧ log_ext (spi_id dev) w w1) as [Hs Hl].
  { refine (drain_log (spi_id dev) (λ s : inp_state, s.1.2) (λ s, spi_id s.1.1 = spi_id dev)
      _ _ _ _ (dev, w, false) (d1, w1, r) _ eq_refl D).
    intros s go s' Hk E. destruct (Hb _ _ _ E) as [E1 E2]. split; [congruence|].
    exists []. by rewrite app_nil_r. }
  destruct r; injection H as <- <-; [|done]. split; [done|].
  etrans; [exact Hl|]. rewrite Hs. apply log_ext_raise.
Qed.

Lemma input_flush_log fuel dev w d' w' :
  flush_events_locked fuel dev w = Ok (d', w') → spi_id d' = spi_id dev ∧ log_ext (spi_id dev) w w'.
Proof.
  intros H. unfold flush_events_locked in H. case_match; [by simplify_eq|].
  repeat (destruct (gpa_to_hva _ _); [|by simplify_eq]).
  eapply input_drain_log; [|exact H]. intros [[d1 w1] r] go [[d2 w2] r2] E. unfold flush_one in E.
  repeat (case_match; inv_bind); by simplify_eq.
Qed.

Lemma input_status_log fuel dev w d' w' :
  process_statusq fuel dev w = Ok (d', w') → spi_id d' = spi_id dev ∧ log_ext (spi_id dev) w w'.
Proof.
  intros H. unfold process_statusq in H. case_match; [by simplify_eq|].
  repeat (destruct (gpa_to_hva _ _); [|by simplify_eq]).
  eapply input_drain_log; [|exact H]. intros [[d1 w1] r] go [[d2 w2] r2] E. unfold status_one in E.
  inv_bind. by simplify_eq.
Qed.

Lemma update_config_spi d : spi_id (update_config d) = spi_id d.
Proof. unfold update_config. by destruct (config_value _ _ _ _ _) as [[]|]. Qed.

Lemma input_lines fuel d w off val len d' w' :
  write fuel d w off val len = Ok (d', w') → spi_id d' = spi_id d ∧ log_ext (spi_id d) w w'.
Proof.
  unfold write. cbv zeta. intros H. case_match.
  - case_match; [done|]. injection H as <- <-. split; [|done].
    case_match; [by rewrite update_config_spi | done].
  - case_match; [by simplify_eq|]. case_match.
    { case_match; [by eapply input_flush_log|].
      case_match; [by eapply input_status_log | by simplify_eq]. }
    repeat case_match; by simplify_eq.
Qed.

#[export] Instance Input_laws : DeviceLaws Input.
Proof.
  refine {| dev_wf := wf_input; dev_spi := spi_id |}.
  - done.
  - intros fuel c w off val len c' w' Hc _ Hv H.
    destruct (input_invariant fuel c c' w w' off val len 0 0 0 true true true Hc Hv (or_introl H)).
    destruct (input_lines _ _ _ _ _ _ _ _ H). by split_and!.
Defined.
End input.

(** ** Network *)
Section net.
Import VirtioNet.
Context {St : Type} {HS : NetApi St}.

(** Well-formed registers, and frames of bytes waiting for the guest. *)
Record wf_net (n : Net St) : Prop := {
  wn_regs : wf_regs kQueueSize (regs n);
  wn_queue : Forall wf_bytes (rx_queue n);
}.

Lemma stack_tx_regs (n n' : Net St) p :
  stack_tx n p = Ok n' → regs n' = regs n ∧ rx_queue n' = rx_queue n.
Proof. unfold stack_tx. intros H. inv_bind. case_match; by simplify_eq. Qed.

Lemma net_tx_one_step fuel d a u (s : @net_state St) go s' :
  tx_one fuel d a u s = Ok (go, s') →
  (wf_regs kQueueSize (regs s.1) → wf_regs kQueueSize (regs s'.1)) ∧
  rx_queue s'.1 = rx_queue s.1 ∧ ram_step (net_ram s) (net_ram s') ∧ w_log s'.2 = w_log s.2.
Proof.
  destruct s as [n w]. intros H. unfold tx_one in H. inv_bind.
  match goal with X : (if _ then stack_tx n _ else Ok n) = Ok ?n' |- _ =>
    assert (regs n' = regs n ∧ rx_queue n' = rx_queue n) as [Er Eq]
      by (destruct (bool_decide _); [by eapply stack_tx_regs | by simplify_eq]) end.
  split_and!; [|exact Eq|by eapply push_used_wf|done]. intros Hn. cbn [fst set_regs regs].
  apply bump1_wf. by rewrite Er.
Qed.

Lemma net_tx_step fuel (n n' : Net St) w w' :
  process_tx fuel n w = Ok (n', w') →
  (wf_regs kQueueSize (regs n) → wf_regs kQueueSize (regs n')) ∧ rx_queue n' = rx_queue n ∧
  ram_step (w_ram w) (w_ram w') ∧ log_ext kSpiNet w w'.
Proof.
  intros H. unfold process_tx in H. case_match; [|by simplify_eq]. destruct p as [[d a] u].
  apply bind_Ok_inv in H as (idx & _ & H). apply bind_Ok_inv in H as ([n1 w1] & D & H).
  pose (P := λ s : @net_state St, (wf_regs kQueueSize (regs n) → wf_regs kQueueSize (regs s.1)) ∧
    rx_queue s.1 = rx_queue n ∧ ram_step (w_ram w) (net_ram s) ∧ w_log s.2 = w_log w).
  assert (P (n1, w1)) as (H1 & Hq & H2 & H3).
  { refine (drain_Ok_inv _ _ _ P _ fuel (n, w) (n1, w1) _ D); [|done].
    intros s go s' (Hs & Hsq & Hr & Hl) Hb. destruct (net_tx_one_step _ _ _ _ _ _ _ Hb) as (? & ? & ? & ?).
    split_and!; [by auto | congruence | by etrans | congruence]. }
  cbn [fst snd] in *. assert (log_ext kSpiNet w w1) as Hl by (exists []; by rewrite app_nil_r).
  case_match; simplify_eq; [done|]. split_and!; [intros; apply set_irq_wf; by auto | done | done|].
  etrans; [done | apply log_ext_raise].
Qed.

Lemma net_write_step fuel (n n' : Net St) w off val len w' :
  write fuel n w off val len = Ok (n', w') →
  (wf_regs kQueueSize (regs n) → fits 32 val → wf_regs kQueueSize (regs n')) ∧
  rx_queue n' = rx_queue n ∧ ram_step (w_ram w) (w_ram w') ∧ log_ext kSpiNet w w'.
Proof.
  intros H. unfold write in H. case_match; [simplify_eq; split_and!; [|done..]|].
  { intros. by apply with_queue_sel_wf. }
  case_match.
  { case_match; [|by simplify_eq]. apply net_tx_step in H as (? & ? & ? & ?). split_and!; auto. }
  case_match; [simplify_eq; split_and!; [|done..]|].
  { intros. case_match; [apply regs_reset_wf; [done|]|]; by apply with_status_wf. }
  destruct (regs_write _ _ _ _) eqn:Hw; simplify_eq; [|done]. split_and!; [|done..].
  intros. by eapply regs_write_wf.
Qed.

#[export] Instance Net_laws : DeviceLaws (Net St).
Proof.
  refine {| dev_wf := wf_net; dev_spi := λ _, kSpiNet |}.
  - done.
  - intros fuel n w off val len n' w' [Hn Hq] _ Hv H.
    destruct (net_write_step _ _ _ _ _ _ _ _ H) as (? & E & ? & ?).
    split_and!; try done. split; [by auto | by rewrite E].
Defined.
End net.

(** ** Display *)
Section gpu.
Import VirtioGpu VirtioGpuThms.
Context (alloc : Z → bool).

#[export] Instance Gpu_laws : @DeviceLaws Gpu (Gpu_mmio alloc).
Proof.
  refine {| dev_wf := gpu_inv; dev_spi := λ _, kSpiGpu |}.
  - done.
  - intros fuel g w off val len g' w' Hg Hw Hv H. cbn [dev_write Gpu_mmio] in H. unfold write in H.
    apply bind_Ok_inv in H as ([g1 w1] & E & H). injection H as <- <-.
    destruct (write_locked_inv alloc fuel g g1 w w1 off val Hw Hg Hv E) as ([H1 H2] & Hs & _ & Hl).
    split_and!; [|done|done|].
    + split; [by destruct H1; split | constructor].
    + transitivity w1.
      * destruct Hl as [Hl | Hl]; [exists []; by rewrite app_nil_r|].
        exists [SetSpi 52 true; SetSpi 52 false]. split; [done|]. by repeat constructor.
      * apply log_ext_emit. case_match; [|constructor]. apply Forall_fmap, Forall_true. by intros [].
Defined.
End gpu.
