(* ===== verification/Fdt.v ===== *)
(** * Fdt: the flattened device tree builder and a reader for its format

    Models [FdtBuilder] of src/src/hvf/fw_dtb.cpp.  A sequence of builder calls
    is a list of tokens; [parse_fdt] is a reader of the version-17 format the
    header announces, written independently of the builder (big-endian cells,
    4-byte aligned tokens, names in a strings block). *)

From stdpp Require Import strings.
From S2P Require Import Prelude Bytes.

Definition kFdtMagic : Z := 0xd00dfeed.
Definition kFdtVersion : Z := 17.
Definition kFdtCompVer : Z := 16.
Definition kFdtHdrSize : Z := 40.
Definition kFdtBeginNode : Z := 1.
Definition kFdtEndNode : Z := 2.
Definition kFdtProp : Z := 3.
Definition kFdtEnd : Z := 9.

(** The bytes of a C string literal, without its terminating zero. *)
Definition cs (s : string) : bytes :=
  (λ c, Z.of_N (Ascii.N_of_ascii c)) <$> String.list_ascii_of_string s.

(** ** The builder *)
Record FdtBuilder := mkFdt {
  st : bytes;
  str : bytes;
  rsv : bytes;
  str_map : gmap (list Z) Z;
}.
Definition Fdt0 : FdtBuilder := mkFdt [] [] [] ∅.

Definition push_be32 (v : bytes) (x : Z) : bytes := v ++ be_enc 4 x.
Definition push_be64 (v : bytes) (x : Z) : bytes := push_be32 (push_be32 v (Z.shiftr x 32)) x.

(** [while (v.size() & 3u) v.push_back(0)]: at most three rounds. *)
Definition pad_len (n : nat) : nat := ((4 - n mod 4) mod 4)%nat.
Definition pad4 (v : bytes) : bytes := v ++ replicate (pad_len (length v)) 0.

Definition set_st (b : FdtBuilder) (v : bytes) : FdtBuilder := mkFdt v (str b) (rsv b) (str_map b).

Definition begin_node (b : FdtBuilder) (name : bytes) : FdtBuilder :=
  set_st b (pad4 (push_be32 (st b) kFdtBeginNode ++ name ++ [0])).
Definition end_node (b : FdtBuilder) : FdtBuilder := set_st b (push_be32 (st b) kFdtEndNode).

(** [str_off]: the offset of a name in the strings block, which is extended
    with names not seen before. *)
Definition str_off (b : FdtBuilder) (name : bytes) : Z * FdtBuilder :=
  match str_map b !! name with
  | Some off => (off, b)
  | None =>
      let off := u32 (Z.of_nat (length (str b))) in
      (off, mkFdt (st b) (str b ++ name ++ [0]) (rsv b) (<[name := off]> (str_map b)))
  end.

Definition prop (b : FdtBuilder) (name data : bytes) : FdtBuilder :=
  let len := u32 (Z.of_nat (length data)) in
  let v := push_be32 (push_be32 (st b) kFdtProp) len in
  let '(off, b) := str_off b name in
  set_st b (pad4 (push_be32 v off ++ take (Z.to_nat len) data)).

Definition prop_u32 (b : FdtBuilder) (name : bytes) (v : Z) : FdtBuilder := prop b name (be_enc 4 v).
Definition prop_str (b : FdtBuilder) (name s : bytes) : FdtBuilder := prop b name (s ++ [0]).
Definition prop_strlist (b : FdtBuilder) (name : bytes) (strs : list bytes) : FdtBuilder :=
  prop b name (mjoin ((λ s, s ++ [0]) <$> strs)).
Definition prop_cells (b : FdtBuilder) (name : bytes) (cells : list Z) : FdtBuilder :=
  prop b name (mjoin (be_enc 4 <$> cells)).
Definition prop_empty (b : FdtBuilder) (name : bytes) : FdtBuilder := prop b name [].

Definition reserve (b : FdtBuilder) (addr size : Z) : FdtBuilder :=
  mkFdt (st b) (str b) (push_be64 (push_be64 (rsv b) addr) size) (str_map b).

Definition build (b : FdtBuilder) : bytes :=
  let st' := push_be32 (st b) kFdtEnd in
  let rsv' := push_be64 (push_be64 (rsv b) 0) 0 in
  let off_rsv := kFdtHdrSize in
  let off_st := u32 (off_rsv + Z.of_nat (length rsv')) in
  let off_str := u32 (off_st + Z.of_nat (length st')) in
  let total := u32 (off_str + Z.of_nat (length (str b))) in
  be_enc 4 kFdtMagic ++ be_enc 4 total ++ be_enc 4 off_st ++ be_enc 4 off_str
    ++ be_enc 4 off_rsv ++ be_enc 4 kFdtVersion ++ be_enc 4 kFdtCompVer ++ be_enc 4 0
    ++ be_enc 4 (Z.of_nat (length (str b))) ++ be_enc 4 (Z.of_nat (length st'))
    ++ rsv' ++ st' ++ str b.

(** ** Builder calls as tokens *)
Inductive tok : Type :=
  | TBegin (name : bytes)
  | TProp (name data : bytes)
  | TEnd.

#[export] Instance tok_eq_dec : EqDecision tok.
Proof. solve_decision. Defined.

Definition emit (b : FdtBuilder) (t : tok) : FdtBuilder :=
  match t with
  | TBegin n => begin_node b n
  | TProp n d => prop b n d
  | TEnd => end_node b
  end.
Definition emits (b : FdtBuilder) (ts : list tok) : FdtBuilder := foldl emit b ts.

(** ** The reader *)

(** The bytes up to the first zero. *)
Fixpoint until_nul (bs : bytes) : option bytes :=
  match bs with
  | [] => None
  | c :: bs => if c =? 0 then Some [] else (c ::.) <$> until_nul bs
  end.

Definition rd32 (bs : bytes) : option (Z * bytes) :=
  if bool_decide (4 ≤ length bs)%nat then Some (be_dec (take 4 bs), drop 4 bs) else None.
Definition rd64 (bs : bytes) : option (Z * bytes) :=
  '(h, bs) ← rd32 bs; '(l, bs) ← rd32 bs; Some (h * 2 ^ 32 + l, bs).

(** [n] bytes and their padding to the next multiple of four. *)
Definition skip_padded (n : nat) (bs : bytes) : option bytes :=
  if bool_decide (n + pad_len n ≤ length bs)%nat then Some (drop (n + pad_len n) bs) else None.

Fixpoint read_toks (fuel : nat) (strs bs : bytes) : option (list tok) :=
  match fuel with
  | O => None
  | S fuel =>
      '(tag, bs) ← rd32 bs;
      if tag =? kFdtEnd then Some [] else
      if tag =? kFdtEndNode then ts ← read_toks fuel strs bs; Some (TEnd :: ts) else
      if tag =? kFdtBeginNode then
        name ← until_nul bs;
        bs ← skip_padded (length name + 1) bs;
        ts ← read_toks fuel strs bs; Some (TBegin name :: ts)
      else if tag =? kFdtProp then
        '(len, bs) ← rd32 bs;
        '(off, bs) ← rd32 bs;
        name ← until_nul (drop (Z.to_nat off) strs);
        bs' ← skip_padded (Z.to_nat len) bs;
        ts ← read_toks fuel strs bs'; Some (TProp name (take (Z.to_nat len) bs) :: ts)
      else None
  end.

Fixpoint read_rsv (fuel : nat) (bs : bytes) : option (list (Z * Z)) :=
  match fuel with
  | O => None
  | S fuel =>
      '(a, bs) ← rd64 bs;
      '(s, bs) ← rd64 bs;
      if (a =? 0) && (s =? 0) then Some [] else rs ← read_rsv fuel bs; Some ((a, s) :: rs)
  end.

(** The header's word [i]. *)
Definition hdr_word (blob : bytes) (i : nat) : Z := be_dec (take 4 (drop (4 * i) blob)).

Definition parse_fdt (blob : bytes) : option (list (Z * Z) * list tok) :=
  if negb (hdr_word blob 0 =? kFdtMagic) then None else
  if Z.of_nat (length blob) <? hdr_word blob 1 then None else
  if hdr_word blob 5 <? hdr_word blob 6 then None else
  let strs := take (Z.to_nat (hdr_word blob 8)) (drop (Z.to_nat (hdr_word blob 3)) blob) in
  let struct := take (Z.to_nat (hdr_word blob 9)) (drop (Z.to_nat (hdr_word blob 2)) blob) in
  rs ← read_rsv (length blob) (drop (Z.to_nat (hdr_word blob 4)) blob);
  ts ← read_toks (length blob) strs struct;
  Some (rs, ts).

(** Every BEGIN has its END and nothing follows the root. *)
Fixpoint nested (depth : nat) (ts : list tok) : bool :=
  match ts, depth with
  | [], O => true
  | [], S _ => false
  | TBegin _ :: ts, _ => nested (S depth) ts
  | TProp _ _ :: ts, S _ => nested depth ts
  | TProp _ _ :: _, O => false
  | TEnd :: ts, S d => nested d ts
  | TEnd :: _, O => false
  end.

(** ** Reading back what the builder wrote *)
Section roundtrip.

Definition name_ok (n : bytes) : Prop := Forall (λ c, c ≠ 0) n.
Definition tok_ok (t : tok) : Prop :=
  match t with
  | TBegin n => name_ok n
  | TProp n d => name_ok n ∧ Z.of_nat (length d) < 2 ^ 32
  | TEnd => True
  end.

Lemma until_nul_name n ys : name_ok n → until_nul (n ++ 0 :: ys) = Some n.
Proof.
  induction 1 as [|c n Hc _ IH]; cbn [app until_nul]; [done|].
  rewrite (proj2 (Z.eqb_neq c 0)) by done. by rewrite IH.
Qed.

Lemma until_nul_app xs ys n : until_nul xs = Some n → until_nul (xs ++ ys) = Some n.
Proof.
  revert n. induction xs as [|c xs IH]; intros n H; [done|]. cbn [app until_nul] in *.
  destruct (c =? 0); [done|]. destruct (until_nul xs) as [m|]; [|done]. by rewrite (IH m).
Qed.

Lemma rd32_be x rest : rd32 (be_enc 4 x ++ rest) = Some (u32 x, rest).
Proof.
  unfold rd32. rewrite bool_decide_eq_true_2 by (rewrite length_app, length_be_enc; lia).
  rewrite take_app_length', drop_app_length' by (by rewrite length_be_enc).
  by rewrite be_dec_enc32.
Qed.

Lemma pad_len_mod n k : (k mod 4 = 0)%nat → pad_len (k + n) = pad_len n.
Proof.
  intros Hk. unfold pad_len. f_equal. f_equal.
  rewrite <- Nat.Div0.add_mod_idemp_l, Hk. done.
Qed.

Lemma pad4_aligned v : (length (pad4 v) mod 4 = 0)%nat.
Proof.
  unfold pad4, pad_len. rewrite length_app, length_replicate.
  pose proof (Nat.mod_upper_bound (length v) 4 ltac:(done)) as Hr.
  rewrite <- Nat.Div0.add_mod_idemp_l.
  destruct (length v mod 4)%nat as [|[|[|[|r]]]]; try done; lia.
Qed.

Lemma skip_padded_ok xs rest :
  skip_padded (length xs) (xs ++ replicate (pad_len (length xs)) 0 ++ rest) = Some rest.
Proof.
  unfold skip_padded. rewrite bool_decide_eq_true_2 by (rewrite !length_app, length_replicate; lia).
  rewrite app_assoc, drop_app_length'; [done|]. by rewrite length_app, length_replicate.
Qed.

(** The encoding of a token whose name sits at [off] of the strings block. *)
Definition enc_tok (off : Z) (t : tok) : bytes :=
  match t with
  | TBegin n => be_enc 4 kFdtBeginNode ++ (n ++ [0]) ++ replicate (pad_len (length (n ++ [0]))) 0
  | TProp n d => be_enc 4 kFdtProp ++ be_enc 4 (Z.of_nat (length d)) ++ be_enc 4 off
                   ++ d ++ replicate (pad_len (length d)) 0
  | TEnd => be_enc 4 kFdtEndNode
  end.

Definition tok_name_at (strs : bytes) (off : Z) (t : tok) : Prop :=
  match t with
  | TProp n _ => 0 ≤ off < 2 ^ 32 ∧ until_nul (drop (Z.to_nat off) strs) = Some n
  | _ => True
  end.

Lemma read_one fuel strs off t rest :
  tok_ok t → tok_name_at strs off t →
  read_toks (S fuel) strs (enc_tok off t ++ rest) = (t ::.) <$> read_toks fuel strs rest.
Proof.
  intros Ht Hn. destruct t as [n|n d|]; cbn [enc_tok read_toks].
  - rewrite <- !app_assoc, rd32_be. cbn [mbind option_bind]. change (u32 kFdtBeginNode) with 1.
    const_eqb. rewrite (app_assoc n), <- (app_assoc n [0]). cbn [app].
    rewrite until_nul_name by done. cbn [mbind option_bind].
    replace (length n + 1)%nat with (length (n ++ [0])) by (rewrite length_app; done).
    assert (∀ X, n ++ 0 :: X = (n ++ [0]) ++ X) as Hc by (intros X; by rewrite <- app_assoc).
    rewrite (Hc (_ ++ rest)), skip_padded_ok.
    cbn [mbind option_bind]. by destruct (read_toks fuel strs rest).
  - destruct Ht as [_ Hd]. destruct Hn as [Ho Hn].
    rewrite <- !app_assoc, rd32_be. cbn [mbind option_bind]. change (u32 kFdtProp) with 3. const_eqb.
    rewrite rd32_be. cbn [mbind option_bind]. rewrite rd32_be. cbn [mbind option_bind].
    rewrite !u32_id by lia. rewrite Hn. cbn [mbind option_bind]. rewrite Nat2Z.id, skip_padded_ok.
    cbn [mbind option_bind]. rewrite take_app_length. by destruct (read_toks fuel strs rest).
  - rewrite rd32_be. cbn [mbind option_bind]. change (u32 kFdtEndNode) with 2. const_eqb.
    by destruct (read_toks fuel strs rest).
Qed.

Record wf_fdt (b : FdtBuilder) : Prop := {
  wf_aligned : (length (st b) mod 4 = 0)%nat;
  wf_names : ∀ n off, str_map b !! n = Some off →
    0 ≤ off < 2 ^ 32 ∧ (Z.to_nat off ≤ length (str b))%nat ∧
    until_nul (drop (Z.to_nat off) (str b)) = Some n;
}.

Lemma until_nul_drop_app k xs ys n :
  (k ≤ length xs)%nat → until_nul (drop k xs) = Some n → until_nul (drop k (xs ++ ys)) = Some n.
Proof. intros Hk H. rewrite drop_app_le by done. by apply until_nul_app. Qed.

(** One builder call appends the token's encoding, keeps the builder well
    formed and never changes what is already in the strings block. *)
Lemma emit_ok b t :
  wf_fdt b → tok_ok t → Z.of_nat (length (str (emit b t))) < 2 ^ 32 →
  ∃ off more, st (emit b t) = st b ++ enc_tok off t ∧ tok_name_at (str (emit b t)) off t ∧
    wf_fdt (emit b t) ∧ str (emit b t) = str b ++ more ∧ rsv (emit b t) = rsv b.
Proof.
  intros [Ha Hn] Ht Hl. destruct t as [n|n d|]; cbn [emit] in *.
  - exists 0, []. rewrite app_nil_r. split_and!; try done; [|split; [apply pad4_aligned | done]].
    unfold begin_node, set_st, push_be32, pad4. cbn [st enc_tok]. rewrite <- !app_assoc.
    do 5 f_equal. rewrite !length_app, length_be_enc.
    rewrite pad_len_mod by done. by rewrite (pad_len_mod (length n + length [0]) 4).
  - destruct Ht as [Hnm Hd]. unfold prop, str_off in *. cbv zeta in *.
    assert (u32 (Z.of_nat (length d)) = Z.of_nat (length d)) as Eu by (apply u32_id; lia).
    rewrite Eu, Nat2Z.id, firstn_all in Hl |- *.
    assert (∀ off, pad4 (push_be32 (push_be32 (push_be32 (st b) kFdtProp) (Z.of_nat (length d))) off ++ d)
      = st b ++ enc_tok off (TProp n d)) as Henc.
    { intros off. unfold pad4, push_be32. cbn [enc_tok]. rewrite <- !app_assoc. do 6 f_equal.
      rewrite !length_app, !length_be_enc.
      rewrite pad_len_mod by done. by rewrite !(pad_len_mod _ 4). }
    destruct (str_map b !! n) as [off|] eqn:Hm; cbn [set_st st str rsv] in *.
    + exists off, []. rewrite app_nil_r. destruct (Hn n off Hm) as (H1 & H2 & H3).
      split_and!; try done. split; [apply pad4_aligned | done].
    + rewrite !length_app in Hl. cbn [length] in Hl.
      rewrite (u32_id (Z.of_nat (length (str b)))) by lia.
      exists (Z.of_nat (length (str b))), (n ++ [0]).
      assert (until_nul (drop (length (str b)) (str b ++ n ++ [0])) = Some n) as Hu.
      { rewrite drop_app_length. by apply until_nul_name. }
      split_and!; try done; [split; [lia | by rewrite Nat2Z.id]|].
      split; [apply pad4_aligned|]. cbn [set_st str_map str]. intros n' off'.
      intros [[<- <-]|[_ H]]%lookup_insert_Some.
      * split; [lia|]. rewrite Nat2Z.id, !length_app. split; [lia | done].
      * destruct (Hn n' off' H) as (H1 & H2 & H3). split; [done|].
        rewrite length_app. split; [lia|]. by apply until_nul_drop_app.
  - exists 0, []. rewrite app_nil_r. split_and!; try done. split; [|done].
    cbn [end_node set_st st]. unfold push_be32. rewrite length_app, length_be_enc.
    rewrite Nat.Div0.add_mod, Ha. done.
Qed.

Lemma str_mono ts : ∀ b, (length (str b) ≤ length (str (emits b ts)))%nat.
Proof.
  induction ts as [|t ts IH]; intros b; [done|]. cbn [emits foldl]. etrans; [|apply IH].
  destruct t; cbn [emit]; [done| |done].
  unfold prop, str_off. cbv zeta. destruct (str_map b !! name); cbn; [done|].
  rewrite !length_app. lia.
Qed.

Lemma length_enc_tok off t : (4 ≤ length (enc_tok off t))%nat.
Proof. destruct t; cbn [enc_tok]; rewrite ?length_app, length_be_enc; lia. Qed.

Lemma tok_name_at_app strs more off t :
  tok_name_at strs off t → tok_name_at (strs ++ more) off t.
Proof.
  destruct t as [n|n d|]; cbn; [done| |done]. intros [H1 H2]. split; [done|].
  destruct (decide (Z.to_nat off ≤ length strs)%nat).
  - by apply until_nul_drop_app.
  - rewrite drop_ge in H2 by lia. done.
Qed.

(** The structure block reads back as the tokens. *)
Lemma emits_read ts : ∀ b,
  wf_fdt b → Forall tok_ok ts → Z.of_nat (length (str (emits b ts))) < 2 ^ 32 →
  ∃ enc more, st (emits b ts) = st b ++ enc ∧ (length ts ≤ length enc)%nat ∧
    str (emits b ts) = str b ++ more ∧ rsv (emits b ts) = rsv b ∧
    ∀ fuel rest, read_toks (length ts + fuel) (str (emits b ts)) (enc ++ rest) =
      (ts ++.) <$> read_toks fuel (str (emits b ts)) rest.
Proof.
  induction ts as [|t ts IH]; intros b Hb Hts Hl.
  - exists [], []. rewrite !app_nil_r. split_and!; try done. intros fuel rest. cbn.
    by destruct (read_toks fuel (str b) rest).
  - apply Forall_cons in Hts as [Ht Hts]. cbn [emits foldl] in *. fold (emits (emit b t) ts) in *.
    pose proof (str_mono ts (emit b t)).
    destruct (emit_ok b t Hb Ht) as (off & m1 & E1 & N1 & W1 & S1 & R1); [lia|].
    destruct (IH (emit b t) W1 Hts Hl) as (enc & m2 & E2 & L2 & S2 & R2 & F2).
    exists (enc_tok off t ++ enc), (m1 ++ m2). split_and!.
    + by rewrite E2, E1, app_assoc.
    + rewrite length_app. cbn [length]. pose proof (length_enc_tok off t). lia.
    + by rewrite S2, S1, app_assoc.
    + congruence.
    + intros fuel rest. cbn [length Nat.add]. rewrite <- app_assoc.
      rewrite (read_one _ _ off t); [|done|rewrite S2; by apply tok_name_at_app].
      rewrite F2. by destruct (read_toks fuel _ rest).
Qed.

(** ** Reservations *)
Definition reserves (b : FdtBuilder) (rs : list (Z * Z)) : FdtBuilder :=
  foldl (λ b r, reserve b r.1 r.2) b rs.

Definition be64 (x : Z) : bytes := be_enc 4 (Z.shiftr x 32) ++ be_enc 4 x.

Lemma rd64_be x rest : fits 64 x → rd64 (be64 x ++ rest) = Some (x, rest).
Proof.
  intros Hx. unfold rd64, be64. rewrite <- app_assoc, rd32_be. cbn [mbind option_bind].
  rewrite rd32_be. cbn [mbind option_bind]. rewrite Z.shiftr_div_pow2 by lia. do 2 f_equal.
  unfold fits in Hx. change (2 ^ 32) with 0x100000000. zlia.
Qed.

Lemma reserves_rsv rs : ∀ b,
  st (reserves b rs) = st b ∧ str (reserves b rs) = str b ∧ str_map (reserves b rs) = str_map b ∧
  rsv (reserves b rs) = rsv b ++ mjoin ((λ r, be64 r.1 ++ be64 r.2) <$> rs).
Proof.
  induction rs as [|r rs IH]; intros b; cbn [reserves foldl].
  - by rewrite app_nil_r.
  - destruct (IH (reserve b r.1 r.2)) as (H1 & H2 & H3 & H4). split_and!; [done..|].
    fold (reserves (reserve b r.1 r.2) rs). rewrite H4. cbn [reserve rsv fmap list_fmap].
    change (mjoin (?a :: ?l)) with (a ++ mjoin l). unfold push_be64, push_be32, be64.
    by rewrite <- !app_assoc.
Qed.

Lemma length_rsv (rs : list (Z * Z)) :
  length (mjoin ((λ r, be64 r.1 ++ be64 r.2) <$> rs)) = (16 * length rs)%nat.
Proof.
  induction rs as [|r rs IH]; [done|]. cbn [fmap list_fmap].
  change (mjoin ((be64 r.1 ++ be64 r.2) :: ?l)) with ((be64 r.1 ++ be64 r.2) ++ mjoin l).
  rewrite length_app, IH. unfold be64. rewrite !length_app, !length_be_enc. cbn [length]. lia.
Qed.

Lemma read_rsv_ok rs : ∀ fuel rest,
  Forall (λ r, fits 64 r.1 ∧ fits 64 r.2 ∧ (r.1 ≠ 0 ∨ r.2 ≠ 0)) rs → (length rs < fuel)%nat →
  read_rsv fuel (mjoin ((λ r, be64 r.1 ++ be64 r.2) <$> rs) ++ be64 0 ++ be64 0 ++ rest) = Some rs.
Proof.
  induction rs as [|[a z] rs IH]; intros fuel rest Hrs Hf; (destruct fuel as [|fuel]; [cbn in Hf; lia|]);
    cbn [read_rsv fmap list_fmap].
  - change (mjoin []) with (@nil Z). cbn [app]. rewrite rd64_be by done. cbn [mbind option_bind].
    by rewrite rd64_be by done.
  - apply Forall_cons in Hrs as [(Ha & Hz & Hnz) Hrs]. cbn [fst snd] in *.
    change (mjoin ((be64 a ++ be64 z) :: ?l)) with ((be64 a ++ be64 z) ++ mjoin l).
    rewrite <- !app_assoc, rd64_be by done. cbn [mbind option_bind]. rewrite rd64_be by done.
    cbn [mbind option_bind]. rewrite IH by (done || cbn in Hf; lia). cbn [mbind option_bind].
    destruct (Z.eqb_spec a 0), (Z.eqb_spec z 0); cbn [andb]; try done. by destruct Hnz.
Qed.
End roundtrip.

(** ** The blob *)
Section blob.
Context (b : FdtBuilder).

Let R := push_be64 (push_be64 (rsv b) 0) 0.
Let T := push_be32 (st b) kFdtEnd.

(** The ten header words, when the blob is below 4 GiB. *)
Definition blob_hdr : list Z :=
  [kFdtMagic; 40 + Z.of_nat (length R) + Z.of_nat (length T) + Z.of_nat (length (str b));
   40 + Z.of_nat (length R); 40 + Z.of_nat (length R) + Z.of_nat (length T); 40; kFdtVersion;
   kFdtCompVer; 0; Z.of_nat (length (str b)); Z.of_nat (length T)].

Lemma length_build : length (build b) = (40 + (length R + (length T + length (str b))))%nat.
Proof. unfold build. fold R T. rewrite !length_app, !length_be_enc. lia. Qed.

Lemma build_eq : Z.of_nat (length (build b)) < 2 ^ 32 →
  build b = mjoin (be_enc 4 <$> blob_hdr) ++ R ++ T ++ str b.
Proof.
  rewrite length_build. intros Hl. unfold build. fold R T. cbv zeta. unfold kFdtHdrSize.
  rewrite (u32_id (40 + Z.of_nat (length R))) by lia.
  rewrite (u32_id (40 + Z.of_nat (length R) + Z.of_nat (length T))) by lia.
  rewrite u32_id by lia. unfold blob_hdr. cbn [fmap list_fmap].
  repeat change (mjoin (?a :: ?l)) with (a ++ mjoin l). cbn [mjoin list_join].
  by rewrite <- !app_assoc.
Qed.

Lemma hdr_word_eq i x rest ws :
  ws !! i = Some x → hdr_word (mjoin (be_enc 4 <$> ws) ++ rest) i = u32 x.
Proof.
  revert i. induction ws as [|w ws IH]; intros i H; [done|]. unfold hdr_word in *.
  cbn [fmap list_fmap]. change (mjoin (be_enc 4 w :: ?l)) with (be_enc 4 w ++ mjoin l).
  rewrite <- app_assoc. destruct i as [|i]; cbn [lookup list_lookup] in H.
  - injection H as ->. rewrite Nat.mul_0_r, drop_0, take_app_length' by (by rewrite length_be_enc).
    apply be_dec_enc32.
  - replace (4 * S i)%nat with (4 + 4 * i)%nat by lia.
    rewrite <- drop_drop, drop_app_length' by (by rewrite length_be_enc). by apply IH.
Qed.

Lemma build_sections : Z.of_nat (length (build b)) < 2 ^ 32 →
  (∀ i x, blob_hdr !! i = Some x → hdr_word (build b) i = x) ∧
  drop 40 (build b) = R ++ T ++ str b ∧
  drop (40 + length R) (build b) = T ++ str b ∧
  drop (40 + (length R + length T)) (build b) = str b.
Proof.
  intros Hl. pose proof (build_eq Hl) as E. rewrite length_build in Hl.
  assert (length (mjoin (be_enc 4 <$> blob_hdr)) = 40%nat) as H40 by reflexivity.
  assert (drop 40 (build b) = R ++ T ++ str b) as D.
  { rewrite E. by apply drop_app_length'. }
  split_and!; [|done| |].
  - intros i x Hx. rewrite E, (hdr_word_eq i x) by done. apply u32_id.
    repeat (destruct i as [|i]; [cbn in Hx; injection Hx as <-; unfold kFdtMagic, kFdtVersion, kFdtCompVer; lia|]).
    done.
  - rewrite <- drop_drop, D. apply drop_app_length.
  - rewrite <- drop_drop, D, <- drop_drop, drop_app_length. apply drop_app_length.
Qed.
End blob.

(** C13. The device tree blob reads back as what was put into it.  For any
    reservations and any sequence of builder calls with zero-free names, the
    blob the builder returns, when it is below 4 GiB, is accepted by the format
    reader and yields exactly the reservations and the nodes and properties in
    the order of the calls; its size field is its length. *)
Theorem fdt_roundtrip (rs : list (Z * Z)) (ts : list tok) :
  Forall (λ r, fits 64 r.1 ∧ fits 64 r.2 ∧ (r.1 ≠ 0 ∨ r.2 ≠ 0)) rs → Forall tok_ok ts →
  Z.of_nat (length (build (emits (reserves Fdt0 rs) ts))) < 2 ^ 32 →
  parse_fdt (build (emits (reserves Fdt0 rs) ts)) = Some (rs, ts) ∧
  hdr_word (build (emits (reserves Fdt0 rs) ts)) 1 =
    Z.of_nat (length (build (emits (reserves Fdt0 rs) ts))).
Proof.
  intros Hrs Hts Hl. set (b := emits (reserves Fdt0 rs) ts) in *.
  destruct (reserves_rsv rs Fdt0) as (S0 & X0 & M0 & R0). cbn [Fdt0 st str str_map rsv app] in *.
  destruct (build_sections b Hl) as (Hw & D1 & D2 & D3).
  pose proof (length_build b) as Hlen. rewrite Hlen in Hl.
  destruct (emits_read ts (reserves Fdt0 rs)) as (enc & more & E & Le & Es & Er & F).
  { split; [by rewrite S0|]. rewrite M0. intros n off H. by rewrite lookup_empty in H. }
  { done. }
  { fold b. lia. }
  fold b in E, Es, Er, F. rewrite S0 in E. cbn [app] in E.
  assert (hdr_word (build b) 1 = Z.of_nat (length (build b))) as H1.
  { rewrite (Hw 1%nat _ eq_refl), Hlen. lia. }
  split; [|exact H1]. unfold parse_fdt. cbv zeta.
  rewrite H1, (Hw 0%nat _ eq_refl), (Hw 2%nat _ eq_refl), (Hw 3%nat _ eq_refl), (Hw 4%nat _ eq_refl),
    (Hw 5%nat _ eq_refl), (Hw 6%nat _ eq_refl), (Hw 8%nat _ eq_refl), (Hw 9%nat _ eq_refl).
  rewrite Z.eqb_refl, Z.ltb_irrefl. cbn [negb]. change (kFdtVersion <? kFdtCompVer) with false. cbn match.
  set (R := push_be64 (push_be64 (rsv b) 0) 0) in *. set (T := push_be32 (st b) kFdtEnd) in *.
  replace (Z.to_nat (40 + Z.of_nat (length R) + Z.of_nat (length T)))
    with (40 + (length R + length T))%nat by lia.
  replace (Z.to_nat (40 + Z.of_nat (length R))) with (40 + length R)%nat by lia.
  change (Z.to_nat 40) with 40%nat. rewrite !Nat2Z.id, D1, D2, D3, firstn_all, take_app_length.
  assert (R = mjoin ((λ r, be64 r.1 ++ be64 r.2) <$> rs) ++ be64 0 ++ be64 0) as ER.
  { unfold R, push_be64, push_be32. rewrite Er, R0. unfold be64. by rewrite <- !app_assoc. }
  rewrite ER, <- !app_assoc, read_rsv_ok; [|done|].
  2: { rewrite Hlen, ER, !length_app, length_rsv. unfold be64. len. }
  cbn [mbind option_bind].
  assert (length T = length enc + 4)%nat as HT.
  { unfold T, push_be32. rewrite E, length_app, length_be_enc. done. }
  replace (length (build b)) with (length ts + S (length (build b) - length ts - 1))%nat by lia.
  assert (T = enc ++ be_enc 4 kFdtEnd ++ []) as -> by (unfold T, push_be32; rewrite E; by rewrite app_nil_r).
  rewrite F. cbn [read_toks]. rewrite rd32_be. cbn [mbind option_bind].
  change (u32 kFdtEnd) with 9. const_eqb. cbn. by rewrite app_nil_r.
Qed.
