(* ===== verification/Boot.v ===== *)
(** * Boot: loading the kernel, the initrd and the device tree

    Models [Loader] (src/src/hvf/fw_loader.hpp and fw_loader.cpp),
    [DTB::generate] (fw_dtb.hpp and fw_dtb.cpp) and the boot sequence of
    [HvfBackend::Create] (hvf_backend.cpp).  Files are the parameter [fopen]. *)

From stdpp Require Import strings.
From S2P Require Import Prelude Bytes GuestMem World VmContext Fdt.

(** ** The boot members of [VMContext] *)
Record BootInfo := mkBoot {
  kernel_entry : Z;
  initrd_gpa : Z;
  initrd_size : Z;
  dtb_gpa : Z;
  cmdline : bytes;
}.
Definition set_kernel_entry (b : BootInfo) (v : Z) : BootInfo :=
  mkBoot v (initrd_gpa b) (initrd_size b) (dtb_gpa b) (cmdline b).
Definition set_initrd (b : BootInfo) (gpa size : Z) : BootInfo :=
  mkBoot (kernel_entry b) gpa size (dtb_gpa b) (cmdline b).
Definition set_dtb_gpa (b : BootInfo) (v : Z) : BootInfo :=
  mkBoot (kernel_entry b) (initrd_gpa b) (initrd_size b) v (cmdline b).

(** ** Files

    [f_size] is what [ftell] reports at the end, [f_data] what [fread] can
    deliver from the start. *)
Record File := mkFile { f_size : Z; f_data : bytes }.

Definition kArm64Magic : Z := 0x644D5241.

(** [load_file]: the new memory and, on success, the size. *)
Definition load_file (f : option File) (m : Ram) (dst max_size : Z) : res (Ram * option Z) :=
  match f with
  | None => Ok (m, None)
  | Some f =>
      if (f_size f <=? 0) || (max_size <? f_size f) then Ok (m, None) else
      let got := take (Z.to_nat (f_size f)) (f_data f) in
      m' ← store m dst got;
      Ok (m', if Z.of_nat (length got) =? f_size f then Some (f_size f) else None)
  end.

(** [hdr->magic] and [hdr->text_offset] are read from guest memory. *)
Definition load_kernel (f : option File) (m : Ram) (b : BootInfo) : res (bool * Ram * BootInfo) :=
  match gpa_to_hva m kGpaKernelLoad with
  | None => Ok (false, m, b)
  | Some dst =>
      '(m, sz) ← load_file f m dst (ram_size m / 2);
      match sz with
      | None => Ok (false, m, b)
      | Some _ =>
          magic ← load32 m (dst + 56);
          if negb (magic =? kArm64Magic) then Ok (false, m, b) else
          text_offset ← load64 m (dst + 8);
          Ok (true, m, set_kernel_entry b (u64 (kGpaKernelLoad + text_offset)))
      end
  end.

Definition load_initrd (f : option File) (m : Ram) (b : BootInfo) : res (bool * Ram * BootInfo) :=
  match gpa_to_hva m kGpaInitrdLoad with
  | None => Ok (false, m, b)
  | Some dst =>
      '(m, sz) ← load_file f m dst (ram_size m / 4);
      match sz with
      | None => Ok (false, m, b)
      | Some sz => Ok (true, m, set_initrd b kGpaInitrdLoad sz)
      end
  end.

(** ** [snprintf] of [%llx] and [%u] *)
Definition digit (d : Z) : Z := if d <? 10 then 48 + d else 87 + d.
Fixpoint digits (fuel : nat) (base x : Z) (acc : bytes) : bytes :=
  match fuel with
  | O => acc
  | S fuel =>
      let acc := digit (x mod base) :: acc in
      if x <? base then acc else digits fuel base (x / base) acc
  end.
(** 16 hexadecimal digits hold a 64-bit word, 10 decimal ones a 32-bit word. *)
Definition hex64 (x : Z) : bytes := digits 16 16 x [].
Definition dec32 (x : Z) : bytes := digits 10 10 x [].

(** [std::string::c_str()] as the C functions read it. *)
Fixpoint c_str (s : bytes) : bytes :=
  match s with [] => [] | c :: s => if c =? 0 then [] else c :: c_str s end.

(** ** The device tree *)
Section Dtb.
Definition p_u32 (name : string) (v : Z) : tok := TProp (cs name) (be_enc 4 v).
Definition p_str (name : string) (s : bytes) : tok := TProp (cs name) (s ++ [0]).
Definition p_strs (name : string) (ss : list string) : tok :=
  TProp (cs name) (mjoin ((λ s, cs s ++ [0]) <$> ss)).
Definition p_cells (name : string) (l : list Z) : tok := TProp (cs name) (mjoin (be_enc 4 <$> l)).
Definition p_empty (name : string) : tok := TProp (cs name) [].

Definition kPhGic : Z := 1.
Definition kPhClock : Z := 2.

Definition hi32 (x : Z) : Z := u32 (Z.shiftr x 32).

Definition chosen_node (b : BootInfo) : list tok :=
  [TBegin (cs "chosen"); p_str "bootargs" (c_str (cmdline b)); p_str "stdout-path" (cs "/pl011@9000000")]
  ++ (if 0 <? initrd_size b then
        let e := u64 (initrd_gpa b + initrd_size b) in
        [p_cells "linux,initrd-start" [hi32 (initrd_gpa b); u32 (initrd_gpa b)];
         p_cells "linux,initrd-end" [hi32 e; u32 e]]
      else []) ++ [TEnd].

Definition memory_node (m : Ram) : list tok :=
  [TBegin (cs "memory@" ++ hex64 (ram_gpa m)); p_str "device_type" (cs "memory");
   p_cells "reg" [hi32 (ram_gpa m); u32 (ram_gpa m); hi32 (ram_size m); u32 (ram_size m)]; TEnd].

Definition cpu_node (i : Z) : list tok :=
  [TBegin (cs "cpu@" ++ dec32 i); p_strs "compatible" ["arm,cortex-a72"; "arm,armv8"]%string;
   p_str "device_type" (cs "cpu"); p_str "enable-method" (cs "psci"); p_u32 "reg" i; TEnd].

Definition cpus_node (n : Z) : list tok :=
  [TBegin (cs "cpus"); p_u32 "#address-cells" 1; p_u32 "#size-cells" 0]
  ++ flat_map (λ i, cpu_node (Z.of_nat i)) (seq 0 (Z.to_nat n)) ++ [TEnd].

Definition psci_node : list tok :=
  [TBegin (cs "psci"); p_strs "compatible" ["arm,psci-1.0"; "arm,psci-0.2"; "arm,psci"]%string;
   p_str "method" (cs "hvc"); TEnd].

Definition timer_node : list tok :=
  [TBegin (cs "timer"); p_strs "compatible" ["arm,armv8-timer"]%string;
   p_cells "interrupts" [1; 13; 0xf04; 1; 14; 0xf04; 1; 11; 0xf04; 1; 10; 0xf04];
   p_empty "always-on"; TEnd].

Definition gic_node : list tok :=
  [TBegin (cs "intc@8000000"); p_strs "compatible" ["arm,gic-v3"]%string; p_u32 "#interrupt-cells" 3;
   p_empty "interrupt-controller";
   p_cells "reg" [0; kGpaGicDist; 0; kGpaGicDistSize; 0; kGpaGicRedist; 0;
                  u32 (kVcpuMax * kGpaGicRedistStride)];
   p_cells "interrupts" [1; 9; 0xf04]; p_u32 "phandle" kPhGic; p_u32 "linux,phandle" kPhGic; TEnd].

Definition clock_node : list tok :=
  [TBegin (cs "apb-clk"); p_strs "compatible" ["fixed-clock"]%string; p_u32 "#clock-cells" 0;
   p_u32 "clock-frequency" 24000000; p_str "clock-output-names" (cs "clk24mhz");
   p_u32 "phandle" kPhClock; p_u32 "linux,phandle" kPhClock; TEnd].

Definition pl011_node : list tok :=
  [TBegin (cs "pl011@9000000"); p_strs "compatible" ["arm,pl011"; "arm,primecell"]%string;
   p_cells "reg" [0; kGpaUart0; 0; kGpaUart0Size]; p_cells "interrupts" [0; 1; 4];
   p_cells "clocks" [kPhClock; kPhClock]; p_strs "clock-names" ["uartclk"; "apb_pclk"]%string; TEnd].

Definition virtio_node (name : string) (gpa spi : Z) : list tok :=
  [TBegin (cs name); p_strs "compatible" ["virtio,mmio"]%string;
   p_cells "reg" [0; gpa; 0; kGpaVirtioStride]; p_cells "interrupts" [0; spi; 1];
   p_empty "dma-coherent"; TEnd].

Context {Con Blk Net Gpu Inp : Type}.
Implicit Types c : Ctx Con Blk Net Gpu Inp.

Definition when_present {A} (d : option A) (ts : list tok) : list tok :=
  match d with Some _ => ts | None => [] end.

(** The optional devices' nodes. *)
Definition optional_nodes c : list tok :=
  when_present (net c) (virtio_node "virtio_mmio@a000400" kGpaVirtioNet kSpiNet)
  ++ when_present (gpu c) (virtio_node "virtio_mmio@a000600" kGpaVirtioGpu kSpiGpu)
  ++ when_present (keyboard c) (virtio_node "virtio_mmio@a000800" kGpaVirtioKeyboard kSpiKeyboard)
  ++ when_present (tablet c) (virtio_node "virtio_mmio@a000a00" kGpaVirtioTablet kSpiTablet).

Definition root_props : list tok :=
  [p_u32 "#address-cells" 2; p_u32 "#size-cells" 2; p_u32 "interrupt-parent" kPhGic;
   p_strs "compatible" ["linux,dummy-virt"]%string; p_str "model" (cs "virtualization-vm")].

(** The nodes below the root, and the builder calls of [generate], in order. *)
Definition dtb_nodes c (b : BootInfo) : list tok :=
  chosen_node b ++ memory_node (w_ram (world c)) ++ psci_node ++ cpus_node (vcpu_count c)
  ++ timer_node ++ gic_node ++ clock_node ++ pl011_node
  ++ virtio_node "virtio_mmio@a000000" kGpaVirtioConsole kSpiConsole
  ++ virtio_node "virtio_mmio@a000200" kGpaVirtioBlock kSpiBlock
  ++ optional_nodes c.
Definition dtb_toks c (b : BootInfo) : list tok :=
  TBegin [] :: (root_props ++ dtb_nodes c b) ++ [TEnd].

Definition dtb_room : Z := kGpaKernelLoad - kGpaDtbLoad.
Definition dtb_blob c (b : BootInfo) : bytes :=
  build (emits (reserve Fdt0 kGpaDtbLoad dtb_room) (dtb_toks c b)).

Definition generate c (b : BootInfo) : res (bool * Ctx Con Blk Net Gpu Inp * BootInfo) :=
  let blob := dtb_blob c b in
  let w := world c in
  match gpa_to_hva (w_ram w) kGpaDtbLoad with
  | None => Ok (false, c, b)
  | Some dst =>
      if dtb_room <? Z.of_nat (length blob) then Ok (false, c, b) else
      m ← store (w_ram w) dst blob;
      Ok (true, set_world c (with_ram w m), set_dtb_gpa b kGpaDtbLoad)
  end.

(** ** The boot sequence of [HvfBackend::Create]: each step throws when it
    fails; the initrd is loaded when its path is not empty. *)
Definition boot (kernel : option File) (initrd : option (option File)) c (b : BootInfo)
  : res (Ctx Con Blk Net Gpu Inp * BootInfo) :=
  let c := init_vcpus c in
  '(ok, m, b) ← load_kernel kernel (w_ram (world c)) b;
  guard_res ok Thrown;;
  '(ok, m, b) ← match initrd with Some f => load_initrd f m b | None => Ok (true, m, b) end;
  guard_res ok Thrown;;
  '(ok, c, b) ← generate (set_world c (with_ram (world c) m)) b;
  guard_res ok Thrown;;
  Ok (c, b).
End Dtb.
