(* ===== verification/UnixSocket.v ===== *)
(** * UnixSocket: making the sockets of the Unix transport

    Models [unix_socket_path], [unix_listen] and [unix_connect] of
    src/ipc/src/transport_unix.cpp as the system calls they make for given
    outcomes, and accounts for the descriptors. *)

From stdpp Require Import strings.
From S2P Require Import Prelude Bytes Channel TransportUnix.
From S2P Require Fdt Boot.

Definition unix_socket_path (channel_id : bytes) : bytes := Fdt.cs "/tmp/arc-ipc-" ++ channel_id.

(** [strncpy] into the zeroed [sun_path] of [size] bytes, of which the last is
    never written. *)
Definition sun_path (size : nat) (path : bytes) : bytes :=
  let p := take (size - 1) (Boot.c_str path) in p ++ replicate (size - length p) 0.

Inductive Sys : Type :=
  | SysSocket (fd : Z)
  | SysUnlink (path : bytes)
  | SysBind (fd : Z) (addr : bytes)
  | SysListen (fd : Z)
  | SysAccept (fd client : Z)
  | SysConnect (fd : Z) (addr : bytes)
  | SysClose (fd : Z).

(** What the calls answer: a descriptor, or a negative number. *)
Record SockEnv := mkSockEnv {
  so_socket : Z;
  so_bind : bool;
  so_listen : bool;
  so_accept : Z;
  so_connect : bool;
}.

Definition unix_listen (size : nat) (e : SockEnv) (channel_id : bytes) : list Sys * res UnixTransport :=
  let path := unix_socket_path channel_id in
  let server_fd := so_socket e in
  if server_fd <? 0 then ([SysSocket server_fd], Err Thrown) else
  let made := [SysSocket server_fd; SysUnlink path; SysBind server_fd (sun_path size path)] in
  if negb (so_bind e) then (made ++ [SysClose server_fd], Err Thrown) else
  if negb (so_listen e) then (made ++ [SysListen server_fd; SysClose server_fd], Err Thrown) else
  let client_fd := so_accept e in
  (made ++ [SysListen server_fd; SysAccept server_fd client_fd; SysClose server_fd],
   if client_fd <? 0 then Err Thrown else Ok (mkUnix client_fd true)).

Definition unix_connect (size : nat) (e : SockEnv) (channel_id : bytes) : list Sys * res UnixTransport :=
  let path := unix_socket_path channel_id in
  let fd := so_socket e in
  if fd <? 0 then ([SysSocket fd], Err Thrown) else
  let made := [SysSocket fd; SysConnect fd (sun_path size path)] in
  if negb (so_connect e) then (made ++ [SysClose fd], Err Thrown) else (made, Ok (mkUnix fd true)).

(** The open descriptors after some calls. *)
Definition open_after (s : gset Z) (c : Sys) : gset Z :=
  match c with
  | SysSocket fd | SysAccept _ fd => if fd <? 0 then s else {[fd]} ∪ s
  | SysClose fd => s ∖ {[fd]}
  | _ => s
  end.
Definition opened (s : gset Z) (cs : list Sys) : gset Z := foldl open_after s cs.

Section paths.
(** Two channels whose names agree in the bytes that fit share a socket. *)
Lemma sun_path_prefix size p p' :
  take (size - 1) (Boot.c_str p) = take (size - 1) (Boot.c_str p') → sun_path size p = sun_path size p'.
Proof. intros E. unfold sun_path. by rewrite E. Qed.

Lemma c_str_id p : 0 ∉ p → Boot.c_str p = p.
Proof.
  induction p as [|c p IH]; intros H; [done|]. apply not_elem_of_cons in H as [H1 H2]. cbn.
  rewrite (proj2 (Z.eqb_neq c 0)) by done. by rewrite IH.
Qed.

Lemma socket_collision size id a b :
  (size - 1 ≤ 13 + length id)%nat → 0 ∉ id → 0 ∉ a → 0 ∉ b →
  sun_path size (unix_socket_path (id ++ a)) = sun_path size (unix_socket_path (id ++ b)).
Proof.
  intros Hl Hi Ha Hb. apply sun_path_prefix. unfold unix_socket_path.
  assert (0 ∉ Fdt.cs "/tmp/arc-ipc-") as Hp by (apply (bool_decide_unpack _); vm_compute; exact I).
  rewrite !c_str_id by (rewrite !elem_of_app; tauto). rewrite !app_assoc.
  by rewrite (take_app_le _ a), (take_app_le _ b) by (rewrite length_app; exact Hl).
Qed.
End paths.

(** Making a socket leaks nothing.  Whatever the system calls answer, with
    descriptors that were free, [unix_listen] and [unix_connect] leave open what
    was open, plus exactly the transport's descriptor when they return one. *)
Theorem sockets_accounted (size : nat) (e : SockEnv) (id : bytes) (s : gset Z)
    (H1 : so_socket e ∉ s) (H2 : so_accept e ∉ s) (H3 : so_accept e ≠ so_socket e) :
  (let '(cs, r) := unix_listen size e id in
   opened s cs = match r with Ok t => {[fd t]} ∪ s | Err _ => s end) ∧
  (let '(cs, r) := unix_connect size e id in
   opened s cs = match r with Ok t => {[fd t]} ∪ s | Err _ => s end).
Proof.
  assert (∀ x : Z, x ∉ s → ({[x]} ∪ s) ∖ {[x]} = s) as Hx.
  { intros x Hn. rewrite difference_union_distr_l_L, difference_diag_L, union_empty_l_L.
    by rewrite difference_disjoint_L by by apply disjoint_singleton_r. }
  assert (({[so_accept e]} ∪ ({[so_socket e]} ∪ s)) ∖ {[so_socket e]} = {[so_accept e]} ∪ s) as Hy.
  { rewrite difference_union_distr_l_L, Hx by done.
    by rewrite (difference_disjoint_L {[so_accept e]} {[so_socket e]}) by by apply disjoint_singleton_r, not_elem_of_singleton. }
  unfold unix_listen, unix_connect, opened.
  destruct (so_socket e <? 0) eqn:E1; [by cbn [foldl open_after]; rewrite E1|]. split.
  - destruct (so_bind e); cbn [negb]; [destruct (so_listen e); cbn [negb]|];
      cbn [app foldl open_after]; rewrite E1; [|by apply Hx..].
    destruct (so_accept e <? 0); [by apply Hx|exact Hy].
  - destruct (so_connect e); cbn [negb app foldl open_after fd]; rewrite E1; [done|by apply Hx].
Qed.

Lemma sockets_accounted_witness :
  let e := mkSockEnv 4 true true 5 true in
  opened {[3]} (unix_listen 104 e [97]).1 = {[5]} ∪ {[3]} ∧
  opened {[3]} (unix_connect 104 e [97]).1 = {[4]} ∪ {[3]}.
Proof.
  apply (sockets_accounted 104 (mkSockEnv 4 true true 5 true) [97] {[3]}).
  - by apply (bool_decide_unpack _).
  - by apply (bool_decide_unpack _).
  - done.
Defined.
