(* ===== verification/TransportWin.v ===== *)
(** * TransportWin: the named-pipe transport

    Models [WinTransport] of src/ipc/src/transport_win.hpp and transport_win.cpp:
    the loops over [WriteFile] and [ReadFile], with their 32-bit counters, and
    [close].  The operating system is the interface [Kernel] of TransportUnix,
    with handles for descriptors; flushing, disconnecting and closing the handle
    are one call.  [win_listen] and [win_connect] are the calls they make for given
    outcomes. *)

From stdpp Require Import strings gmap.
From S2P Require Import Prelude Bytes Channel TransportUnix.
From S2P Require Fdt.

Section Win.
Context {K : Type} {HK : Kernel K}.

(** [static_cast<DWORD>(size)]. *)
Definition dword (n : nat) : nat := Z.to_nat (u32 (Z.of_nat n)).

(** [write], with [total] bytes written. *)
Fixpoint win_write_loop (fuel : nat) (k : K) (t : UnixTransport) (data : bytes) (total : nat)
  : res (K * UnixTransport) :=
  if (dword (length data) <=? total)%nat then Ok (k, t) else
  match fuel with
  | O => Err OutOfFuel
  | S fuel =>
      match sys_write k (fd t) (take (dword (length data) - total) (drop total data)) with
      | (Some n, k) => if (n =? 0)%nat then Ok (k, disconnect t)
                       else win_write_loop fuel k t data (dword (total + n))
      | (None, k) => Ok (k, disconnect t)
      end
  end.
Definition win_write (k : K) (t : UnixTransport) (data : bytes) : res (K * UnixTransport) :=
  win_write_loop (length data) k t data 0.

(** [read], with [out] read so far. *)
Fixpoint win_read_loop (fuel : nat) (k : K) (t : UnixTransport) (n : nat) (out : bytes)
  : res (Rd * K * UnixTransport) :=
  if (dword n <=? length out)%nat then Ok (RdBytes out, k, t) else
  match fuel with
  | O => Err OutOfFuel
  | S fuel =>
      match sys_read k (fd t) (dword n - length out) with
      | (SrBytes bs, k) => win_read_loop fuel k t n (out ++ bs)
      | (SrFail, k) => Ok (RdZero, k, disconnect t)
      | (SrBlock, k) => Ok (RdBlock, k, t)
      end
  end.
Definition win_read (k : K) (t : UnixTransport) (n : nat) : res (Rd * K * UnixTransport) :=
  win_read_loop n k t n [].

Definition win_close (k : K) (t : UnixTransport) : K * UnixTransport :=
  if connected t then (sys_close k (fd t), disconnect t) else (k, t).

Section equiv.
Context {HL : KernelLaws K}.

Lemma dword_id n : Z.of_nat n < 2 ^ 32 → dword n = n.
Proof. intros H. unfold dword. rewrite u32_id by lia. apply Nat2Z.id. Qed.

Lemma win_write_loop_unix data fuel : Z.of_nat (length data) < 2 ^ 32 → ∀ k t total,
  (total ≤ length data)%nat →
  win_write_loop fuel k t data total = write_loop fuel k t (drop total data).
Proof.
  intros Hd. induction fuel as [|fuel IH]; intros k t total Ht; cbn [win_write_loop];
    rewrite dword_id by done;
    (destruct (Nat.leb_spec (length data) total) as [Hl|Hl];
      [by rewrite (drop_ge data total) by lia|]);
    (assert (∃ b r, drop total data = b :: r) as (b & r & E)
      by (destruct (drop total data) eqn:E; [apply (f_equal length) in E; rewrite length_drop in E; cbn in E; lia|by do 2 eexists]));
    rewrite E; cbn [write_loop]; [done|].
  rewrite take_ge by (rewrite <- E, length_drop; lia).
  destruct (sys_write_spec k (fd t) (b :: r)) as (n & k' & Es & Hn); [done|]. rewrite Es.
  destruct n as [n|]; [|done]. destruct (Nat.eqb_spec n 0); [done|]. destruct Hn as [Hn _].
  rewrite <- E, length_drop in Hn. rewrite dword_id by lia. rewrite IH by lia.
  by rewrite <- drop_drop, E.
Qed.

Lemma win_read_loop_unix n fuel : Z.of_nat n < 2 ^ 32 → ∀ k t out,
  win_read_loop fuel k t n out = read_loop_ fuel k t n out.
Proof.
  intros Hn. induction fuel as [|fuel IH]; intros k t out; cbn [win_read_loop read_loop_]; rewrite dword_id by done.
  - done.
  - case_match; [done|]. destruct (sys_read _ _ _) as [[bs| |] k']; [apply IH|done|done].
Qed.
End equiv.
End Win.

(** ** Making a pipe *)
Definition win_pipe_name (channel_id : bytes) : bytes := Fdt.cs "\\.\pipe\arc-ipc-" ++ channel_id.

Inductive WinSys : Type :=
  | CreateNamedPipe (name : bytes) (pipe : option Z)
  | ConnectNamedPipe (pipe : Z)
  | WaitNamedPipe (name : bytes)
  | CreateFile (name : bytes) (pipe : option Z)
  | CloseHandle (pipe : Z).

(** What the calls answer: a handle or [INVALID_HANDLE_VALUE]; whether
    [ConnectNamedPipe] succeeds, or fails because a client is there already. *)
Record PipeEnv := mkPipeEnv {
  pe_create : option Z;
  pe_connect : bool;
  pe_connected : bool;
  pe_open : option Z;
}.

Definition win_listen (e : PipeEnv) (channel_id : bytes) : list WinSys * res UnixTransport :=
  let made := [CreateNamedPipe (win_pipe_name channel_id) (pe_create e)] in
  match pe_create e with
  | None => (made, Err Thrown)
  | Some pipe =>
      if negb (pe_connect e) && negb (pe_connected e)
      then (made ++ [ConnectNamedPipe pipe; CloseHandle pipe], Err Thrown)
      else (made ++ [ConnectNamedPipe pipe], Ok (mkUnix pipe true))
  end.

Definition win_connect (e : PipeEnv) (channel_id : bytes) : list WinSys * res UnixTransport :=
  let name := win_pipe_name channel_id in
  ([WaitNamedPipe name; CreateFile name (pe_open e)],
   match pe_open e with None => Err Thrown | Some pipe => Ok (mkUnix pipe true) end).

(** The handles open after some calls. *)
Definition handles_after (s : gset Z) (c : WinSys) : gset Z :=
  match c with
  | CreateNamedPipe _ (Some h) | CreateFile _ (Some h) => {[h]} ∪ s
  | CloseHandle h => s ∖ {[h]}
  | _ => s
  end.

(** Making a pipe leaks nothing: what was open stays open, plus the handle of the
    transport when there is one.  Both ends use the name of the channel. *)
Theorem pipes_accounted (e : PipeEnv) (id : bytes) (s : gset Z) (Hf : ∀ h, pe_create e = Some h → h ∉ s) :
  (let '(cs, r) := win_listen e id in
   foldl handles_after s cs = match r with Ok t => {[fd t]} ∪ s | Err _ => s end) ∧
  (let '(cs, r) := win_connect e id in
   foldl handles_after s cs = match r with Ok t => {[fd t]} ∪ s | Err _ => s end).
Proof.
  unfold win_listen, win_connect. split.
  - destruct (pe_create e) as [h|] eqn:E; [|done]. destruct (_ && _); [|done]. cbn.
    rewrite difference_union_distr_l_L, difference_diag_L, union_empty_l_L.
    by rewrite difference_disjoint_L by by apply disjoint_singleton_r, Hf.
  - by destruct (pe_open e).
Qed.

Lemma pipes_accounted_witness :
  foldl handles_after {[3]} (win_listen (mkPipeEnv (Some 4) false false None) [97]).1 = {[3]}.
Proof.
  apply (pipes_accounted (mkPipeEnv (Some 4) false false None) [97] {[3]}).
  intros h [= <-]. by apply (bool_decide_unpack _).
Defined.

(** Both transports are the same byte stream.  For buffers below 4 GiB, which
    is all the channel uses, the named-pipe transport writes, reads and closes
    exactly as the socket transport does over the same operating system, and its
    loops end. *)
Theorem win_is_unix {K : Type} {HK : Kernel K} {HL : KernelLaws K}
    (k : K) (t : UnixTransport) (data : bytes) (n : nat)
    (Hd : Z.of_nat (length data) < 2 ^ 32) (Hn : Z.of_nat n < 2 ^ 32) :
  win_write k t data = Ok (write k t data) ∧ win_read k t n = Ok (read k t n) ∧
    win_close k t = close k t.
Proof.
  split; [|split; [|done]].
  - unfold win_write, write. rewrite win_write_loop_unix by (done || lia). rewrite drop_0.
    by destruct (write_loop_spec (length data) k t data) as (k' & t' & m & -> & _).
  - unfold win_read, read. rewrite win_read_loop_unix by done.
    by destruct (read_loop_spec n n k t []) as (r & k' & t' & -> & _); [cbn; lia..|].
Qed.

Lemma win_is_unix_witness :
  win_write ux_stream ux_unix [1; 2; 3; 4; 5; 6] = Ok (write ux_stream ux_unix [1; 2; 3; 4; 5; 6]) ∧
  win_read ux_stream ux_unix 12 = Ok (read ux_stream ux_unix 12).
Proof.
  destruct (win_is_unix ux_stream ux_unix [1; 2; 3; 4; 5; 6] 12) as (H1 & H2 & _); [done|done|].
  split; [exact H1|exact H2].
Defined.
