(* ===== verification/BootThms.v ===== *)
(** * BootThms: what the loader and the device tree guarantee

    The device tree in guest memory reads back as the calls [generate] makes;
    the loader's bounds; the boot sequence end to end. *)

From stdpp Require Import strings.
From S2P Require Import Prelude Bytes GuestMem World VmContext Fdt Boot.

(** ** The tokens of the tree are encodable and well nested *)
Section tokens.

Lemma name_ok_digit d : 0 ≤ d → digit d ≠ 0.
Proof. unfold digit. destruct (d <? 10) eqn:?; lia. Qed.

Lemma name_ok_digits fuel base x acc :
  0 < base → name_ok acc → name_ok (digits fuel base x acc).
Proof.
  intros Hb. revert x acc. induction fuel as [|fuel IH]; intros x acc Ha; [done|]. cbn [digits].
  assert (name_ok (digit (x mod base) :: acc)).
  { constructor; [|done]. apply name_ok_digit. by apply Z.mod_pos_bound. }
  destruct (x <? base); [done | by apply IH].
Qed.

Lemma name_ok_app n n' : name_ok n → name_ok n' → name_ok (n ++ n').
Proof. intros. apply Forall_app. done. Qed.

(** Names given as literals are decided by evaluation. *)
Definition name_okb (n : bytes) : bool := forallb (λ c, negb (c =? 0)) n.
Lemma name_okb_ok n : name_okb n = true → name_ok n.
Proof.
  unfold name_okb, name_ok. rewrite forallb_forall, Forall_forall.
  intros H c Hc. specialize (H c (proj1 (list_elem_of_In _ _) Hc)). lia.
Qed.

Lemma length_cells l : length (mjoin (be_enc 4 <$> l)) = (4 * length l)%nat.
Proof.
  induction l as [|x l IH]; [done|]. cbn [fmap list_fmap length].
  change (mjoin (be_enc 4 x :: ?l)) with (be_enc 4 x ++ mjoin l).
  rewrite length_app, length_be_enc, IH. lia.
Qed.

Lemma length_c_str s : (length (c_str s) ≤ length s)%nat.
Proof. induction s as [|c s IH]; cbn [c_str]; [done|]. destruct (c =? 0); cbn [length]; lia. Qed.

Lemma tok_ok_begin n : name_okb (cs n) = true → tok_ok (TBegin (cs n)).
Proof. apply name_okb_ok. Qed.
Lemma tok_ok_cells name l :
  name_okb (cs name) = true → Z.of_nat (length l) < 2 ^ 30 → tok_ok (p_cells name l).
Proof. intros. split; [by apply name_okb_ok|]. rewrite length_cells. lia. Qed.
Lemma tok_ok_u32 name v : name_okb (cs name) = true → tok_ok (p_u32 name v).
Proof. intros. split; [by apply name_okb_ok|]. by rewrite length_be_enc. Qed.
Lemma tok_ok_str name s :
  name_okb (cs name) = true → Z.of_nat (length s) < 2 ^ 32 - 1 → tok_ok (p_str name s).
Proof. intros. split; [by apply name_okb_ok|]. rewrite length_app. cbn [length]. lia. Qed.
Lemma tok_ok_strs name ss :
  name_okb (cs name) = true →
  (Z.of_nat (length (mjoin ((λ s, cs s ++ [0]) <$> ss))) <? 2 ^ 32) = true → tok_ok (p_strs name ss).
Proof. intros. split; [by apply name_okb_ok|]. lia. Qed.
Lemma tok_ok_empty name : name_okb (cs name) = true → tok_ok (p_empty name).
Proof. intros. split; [by apply name_okb_ok | done]. Qed.

(** Two 32-bit cells are one big-endian 64-bit number. *)
Lemma be_enc_u32 x : be_enc 4 (u32 x) = be_enc 4 x.
Proof.
  unfold be_enc. f_equal. rewrite <- le_dec_enc32.
  pose proof (le_enc_dec (le_enc 4 x) (wf_le_enc 4 x)) as H. by rewrite length_le_enc in H.
Qed.
Lemma cells64 x : mjoin (be_enc 4 <$> [hi32 x; u32 x]) = be_enc 8 x.
Proof.
  cbn [fmap list_fmap]. change (mjoin [?a; ?b]) with (a ++ b ++ []). unfold hi32.
  rewrite !be_enc_u32, app_nil_r. unfold be_enc. rewrite (le_enc_app 4 4), reverse_app.
  rewrite Z.shiftr_div_pow2 by lia. done.
Qed.

(** A list of tokens that opens and closes the same nodes. *)
Definition balanced (ts : list tok) : Prop :=
  ∀ d rest, nested (S d) (ts ++ rest) = nested (S d) rest.
Lemma balanced_app ts ts' : balanced ts → balanced ts' → balanced (ts ++ ts').
Proof. intros H H' d rest. rewrite <- app_assoc, H. apply H'. Qed.
End tokens.

(** Literal nodes: each token by its lemma, the side conditions by evaluation. *)
Ltac node_tok :=
  lazymatch goal with
  | |- tok_ok (TBegin (cs _)) => apply tok_ok_begin; first [assumption | vm_compute; reflexivity]
  | |- tok_ok (p_u32 _ _) => apply tok_ok_u32; first [assumption | vm_compute; reflexivity]
  | |- tok_ok (p_empty _) => apply tok_ok_empty; first [assumption | vm_compute; reflexivity]
  | |- tok_ok (p_strs _ _) => apply tok_ok_strs; first [assumption | vm_compute; reflexivity]
  | |- tok_ok (p_cells _ _) => apply tok_ok_cells; first [assumption | vm_compute; reflexivity]
  | |- tok_ok (p_str _ (cs _)) => apply tok_ok_str; first [assumption | vm_compute; reflexivity]
  | |- tok_ok (p_str _ _) => apply tok_ok_str; [first [assumption | vm_compute; reflexivity]|]
  | |- tok_ok TEnd => exact I
  | |- _ => idtac
  end.
Ltac node_toks :=
  repeat lazymatch goal with
  | |- Forall tok_ok (_ :: _) => apply Forall_cons_2; [node_tok|]
  | |- Forall tok_ok [] => apply Forall_nil_2
  end.

Section tree.
Context {Con Blk Net Gpu Inp : Type}.
Implicit Types c : Ctx Con Blk Net Gpu Inp.

Definition good_toks (ts : list tok) : Prop := Forall tok_ok ts ∧ balanced ts.

Lemma good_app ts ts' : good_toks ts → good_toks ts' → good_toks (ts ++ ts').
Proof. intros [] []. split; [by apply Forall_app | by apply balanced_app]. Qed.
Lemma good_nil : good_toks [].
Proof. by split. Qed.

Lemma good_virtio name gpa spi : name_okb (cs name) = true → good_toks (virtio_node name gpa spi).
Proof. intros H. split; [unfold virtio_node; by node_toks | by intros d rest]. Qed.

Lemma good_when {A} (d : option A) ts : good_toks ts → good_toks (when_present d ts).
Proof. destruct d; [done | intros; apply good_nil]. Qed.

Lemma good_chosen b :
  Z.of_nat (length (cmdline b)) < 2 ^ 32 - 1 → good_toks (chosen_node b).
Proof.
  intros Hc. unfold chosen_node. pose proof (length_c_str (cmdline b)).
  destruct (0 <? initrd_size b); (split; [|by intros d rest]); cbn [app]; node_toks; lia.
Qed.

Lemma good_memory m : good_toks (memory_node m).
Proof.
  split; [|by intros d rest]. unfold memory_node. node_toks.
  apply name_ok_app; [by apply name_okb_ok | apply name_ok_digits; [done | constructor]].
Qed.

Lemma good_cpu i : good_toks (cpu_node i).
Proof.
  split; [|by intros d rest]. unfold cpu_node. node_toks.
  apply name_ok_app; [by apply name_okb_ok | apply name_ok_digits; [done | constructor]].
Qed.

Lemma good_flat_map {A} (f : A → list tok) l : (∀ x, good_toks (f x)) → good_toks (flat_map f l).
Proof. intros H. induction l; cbn [flat_map]; [apply good_nil | by apply good_app]. Qed.

(** Wrapping balanced content in a node. *)
Lemma good_wrap n ts : tok_ok (TBegin n) → good_toks ts → good_toks (TBegin n :: ts ++ [TEnd]).
Proof.
  intros Hn [H1 H2]. split.
  - constructor; [done|]. apply Forall_app. split; [done|]. by repeat constructor.
  - intros d rest. cbn [app nested]. rewrite <- app_assoc. by rewrite H2.
Qed.

Lemma good_props ts : Forall tok_ok ts → Forall (λ t, match t with TProp _ _ => True | _ => False end) ts →
  good_toks ts.
Proof.
  intros H Hp. split; [done|]. intros d rest.
  induction Hp as [|t ts Ht _ IH]; [done|]. apply Forall_cons in H as [_ H]. destruct t; try done.
  cbn [app nested]. by apply IH.
Qed.

Lemma good_cpus n : good_toks (cpus_node n).
Proof.
  unfold cpus_node. cbn [app]. apply (good_wrap _ (p_u32 "#address-cells" 1 :: p_u32 "#size-cells" 0 :: _)).
  - by apply tok_ok_begin.
  - apply (good_app [_; _]); [|apply good_flat_map; intros; apply good_cpu].
    apply good_props; [by node_toks | by repeat constructor].
Qed.

Lemma good_fixed :
  good_toks psci_node ∧ good_toks timer_node ∧ good_toks gic_node ∧ good_toks clock_node ∧
  good_toks pl011_node.
Proof.
  split_and!; (split; [unfold psci_node, timer_node, gic_node, clock_node, pl011_node; by node_toks | by intros d rest]). Qed.

Lemma good_root : good_toks root_props.
Proof. apply good_props; [unfold root_props; by node_toks | by repeat constructor]. Qed.

(** Everything between the root's BEGIN and END. *)
Lemma good_dtb c b :
  Z.of_nat (length (cmdline b)) < 2 ^ 32 - 1 →
  Forall tok_ok (dtb_toks c b) ∧ nested 0 (dtb_toks c b) = true.
Proof.
  intros Hc. destruct good_fixed as (H1 & H2 & H3 & H4 & H5).
  assert (good_toks (root_props ++ dtb_nodes c b)) as [Ht Hb].
  { apply good_app; [apply good_root|]. unfold dtb_nodes, optional_nodes.
    pose proof (good_chosen b Hc). pose proof (good_memory (w_ram (world c))).
    pose proof (good_cpus (vcpu_count c)).
    repeat (apply good_app; [first [assumption | by apply good_virtio | by apply good_when, good_virtio]|]).
    by apply good_when, good_virtio. }
  split.
  - apply Forall_cons_2; [constructor|]. apply Forall_app. split; [exact Ht|]. by repeat constructor.
  - unfold dtb_toks. cbn [nested]. by rewrite Hb.
Qed.
End tree.

(** ** The tree in guest memory *)
Section generate.
Context {Con Blk Net Gpu Inp : Type}.
Implicit Types c : Ctx Con Blk Net Gpu Inp.

(** What a guest finds at [kGpaDtbLoad]: the size is taken from the header. *)
Definition guest_fdt (m : Ram) (p : Z) : option (list (Z * Z) * list tok) :=
  parse_fdt (peeks m p (Z.to_nat (be_dec (peeks m (p + 4) 4)))).

(** The memory [Memory::init] sets up: mapped at the RAM base. *)
Definition base_ram (m : Ram) : Prop := ram_mapped m = true ∧ ram_gpa m = kGpaRamBase ∧ wf_ram m.

Lemma base_hva m gpa :
  base_ram m → kGpaRamBase ≤ gpa < kGpaRamBase + ram_size m →
  gpa_to_hva m gpa = Some (gpa - kGpaRamBase).
Proof. intros (Hm & Hg & Hw) H. rewrite gpa_to_hva_in; rewrite ?Hg; done. Qed.

Lemma base_step m m' : base_ram m → same_map m m' → wf_ram m' → base_ram m'.
Proof. intros (Hm & Hg & _) (E1 & E2 & _) Hw. split_and!; congruence || done. Qed.

Lemma length_blob_min c b : (40 ≤ length (dtb_blob c b))%nat.
Proof. unfold dtb_blob. rewrite length_build. lia. Qed.

Lemma dtb_blob_reads c b :
  Z.of_nat (length (cmdline b)) < 2 ^ 32 - 1 → Z.of_nat (length (dtb_blob c b)) < 2 ^ 32 →
  parse_fdt (dtb_blob c b) = Some ([(kGpaDtbLoad, dtb_room)], dtb_toks c b) ∧
  hdr_word (dtb_blob c b) 1 = Z.of_nat (length (dtb_blob c b)).
Proof.
  intros Hc Hl. destruct (good_dtb c b Hc) as [Ht _].
  apply (fdt_roundtrip [(kGpaDtbLoad, dtb_room)] (dtb_toks c b)); [|done|done].
  repeat constructor; by vm_compute.
Qed.

(** A blob stored at [p] is what the guest finds there. *)
Lemma guest_fdt_stored m p blob x :
  (8 ≤ length blob)%nat → hdr_word blob 1 = Z.of_nat (length blob) → parse_fdt blob = x →
  guest_fdt (pokes m p blob) p = x.
Proof.
  intros Hl Hw Hp. unfold guest_fdt.
  assert (peeks (pokes m p blob) (p + 4) 4 = take 4 (drop 4 blob)) as ->.
  { pose proof (peeks_pokes m p blob) as E. rewrite <- E at 2.
    replace (length blob) with (4 + (4 + (length blob - 8)))%nat by lia. rewrite !peeks_app.
    rewrite drop_app_length', take_app_length' by (by rewrite length_peeks). done. }
  change (be_dec (take 4 (drop 4 blob))) with (hdr_word blob 1).
  by rewrite Hw, Nat2Z.id, peeks_pokes.
Qed.

Lemma generate_stored c b :
  base_ram (w_ram (world c)) → dtb_room ≤ ram_size (w_ram (world c)) →
  Z.of_nat (length (dtb_blob c b)) ≤ dtb_room →
  generate c b = Ok (true, set_world c (with_ram (world c) (pokes (w_ram (world c)) 0 (dtb_blob c b))),
                     set_dtb_gpa b kGpaDtbLoad).
Proof.
  intros Hm Hr Hl. unfold generate. rewrite base_hva; [|done|].
  2: { unfold dtb_room, kGpaDtbLoad, kGpaKernelLoad, kGpaRamBase in *. lia. }
  change (kGpaDtbLoad - kGpaRamBase) with 0. rewrite (proj2 (Z.ltb_ge _ _)) by done.
  rewrite store_in; [done|]. apply in_ram_spec. lia.
Qed.
End generate.

(** C32. The device tree the guest finds is the one [generate] describes.  With
    RAM at its base and room for the reservation, [generate] never faults: it
    refuses exactly the trees larger than the room below the kernel, changing
    nothing, and otherwise leaves at [kGpaDtbLoad] a well-nested tree that reads
    back as its builder calls and its own memory reservation, touches no byte
    outside that room, and records the address. *)
Theorem dtb_readable {Con Blk Net Gpu Inp : Type} (c : Ctx Con Blk Net Gpu Inp) (b : BootInfo) :
  base_ram (w_ram (world c)) → dtb_room ≤ ram_size (w_ram (world c)) →
  Z.of_nat (length (cmdline b)) < 2 ^ 32 - 1 →
  (dtb_room < Z.of_nat (length (dtb_blob c b)) ∧ generate c b = Ok (false, c, b)) ∨
  ∃ m', generate c b = Ok (true, set_world c (with_ram (world c) m'), set_dtb_gpa b kGpaDtbLoad) ∧
    guest_fdt m' 0 = Some ([(kGpaDtbLoad, dtb_room)], dtb_toks c b) ∧
    nested 0 (dtb_toks c b) = true ∧ same_map (w_ram (world c)) m' ∧
    agree (w_ram (world c)) m' dtb_room (ram_size m' - dtb_room).
Proof.
  intros Hm Hr Hc. destruct (decide (dtb_room < Z.of_nat (length (dtb_blob c b)))) as [Hl|Hl].
  - left. split; [done|]. unfold generate. rewrite base_hva; [|done|].
    2: { unfold dtb_room, kGpaDtbLoad, kGpaKernelLoad, kGpaRamBase in *. lia. }
    by rewrite (proj2 (Z.ltb_lt _ _)).
  - right. apply Z.nlt_ge in Hl. eexists. split; [by apply generate_stored|].
    destruct (dtb_blob_reads c b Hc) as [Hp Hw].
    { unfold dtb_room, kGpaDtbLoad, kGpaKernelLoad in *. lia. }
    split_and!; [|by apply good_dtb|apply same_map_pokes|].
    + apply guest_fdt_stored; try done. pose proof (length_blob_min c b). lia.
    + apply agree_pokes. unfold disjoint. lia.
Qed.

(** ** The loader *)
Section loader.
Implicit Types m : Ram.

(** A file [fread] can deliver completely. *)
Definition whole (data : bytes) : File := mkFile (Z.of_nat (length data)) data.

Lemma load_whole m dst max data :
  load_file (Some (whole data)) m dst max =
    if (Z.of_nat (length data) <=? 0) || (max <? Z.of_nat (length data)) then Ok (m, None)
    else m' ← store m dst data; Ok (m', Some (Z.of_nat (length data))).
Proof.
  unfold load_file, whole. cbn [f_size f_data]. destruct (_ || _); [done|].
  rewrite Nat2Z.id, firstn_all. by rewrite Z.eqb_refl.
Qed.

Lemma load_whole_in m dst max data :
  0 < Z.of_nat (length data) ≤ max → in_ram m dst (length data) = true →
  load_file (Some (whole data)) m dst max = Ok (pokes m dst data, Some (Z.of_nat (length data))).
Proof.
  intros Hl Hi. rewrite load_whole, (proj2 (orb_false_iff _ _)).
  - by rewrite store_in.
  - split; lia.
Qed.

(** Reading memory back from a stored block. *)
Lemma peeks_pokes_sub m p blob k n :
  (k + n ≤ length blob)%nat →
  peeks (pokes m p blob) (p + Z.of_nat k) n = take n (drop k blob).
Proof.
  intros Hl. pose proof (peeks_pokes m p blob) as E. rewrite <- E at 2.
  replace (length blob) with (k + (n + (length blob - k - n)))%nat by lia. rewrite !peeks_app.
  rewrite drop_app_length', take_app_length' by (by rewrite length_peeks). done.
Qed.

(** A block stored elsewhere leaves a range as it was. *)
Lemma peeks_kept m p blob q n :
  disjoint p (Z.of_nat (length blob)) q (Z.of_nat n) → peeks (pokes m p blob) q n = peeks m q n.
Proof. intros H. by apply peeks_agree, agree_pokes. Qed.

(** The fields of [Arm64ImageHdr] in an image. *)
Definition image_magic (k : bytes) : Z := le_dec (take 4 (drop 56 k)).
Definition image_offset (k : bytes) : Z := le_dec (take 8 (drop 8 k)).

Lemma load_kernel_image m b k :
  base_ram m → 2 * (kGpaKernelLoad - kGpaRamBase) ≤ ram_size m →
  64 ≤ Z.of_nat (length k) ≤ ram_size m / 2 →
  load_kernel (Some (whole k)) m b =
    Ok (image_magic k =? kArm64Magic, pokes m 0x400000 k,
        if image_magic k =? kArm64Magic then set_kernel_entry b (u64 (kGpaKernelLoad + image_offset k))
        else b).
Proof.
  intros Hm Hs Hk. change (kGpaKernelLoad - kGpaRamBase) with 0x400000 in Hs.
  assert (in_ram m 0x400000 (length k) = true) as Hi.
  { apply in_ram_spec. pose proof (Z.mul_div_le (ram_size m) 2). lia. }
  unfold load_kernel. rewrite base_hva; [|done|].
  2: { unfold kGpaKernelLoad, kGpaRamBase. lia. }
  change (kGpaKernelLoad - kGpaRamBase) with 0x400000.
  rewrite load_whole_in by (done || lia). cbn [mbind res_bind].
  assert (∀ j n, (j + n ≤ 64)%nat →
    load (pokes m 0x400000 k) (0x400000 + Z.of_nat j) n = Ok (take n (drop j k))) as Hld.
  { intros j n Hj. rewrite load_in; [by rewrite peeks_pokes_sub by lia|].
    rewrite (in_ram_same m) by auto with vm. apply in_ram_spec in Hi. apply in_ram_spec. lia. }
  pose proof (Hld 56%nat 4%nat ltac:(lia)) as H4. pose proof (Hld 8%nat 8%nat ltac:(lia)) as H8.
  change (Z.of_nat 56) with 56 in H4. change (Z.of_nat 8) with 8 in H8.
  unfold load32, load64. rewrite H4, H8. cbn [fmap res_fmap mbind res_bind].
  fold (image_magic k) (image_offset k). by destruct (image_magic k =? kArm64Magic).
Qed.
End loader.

(** The initrd loader's only size check is a quarter of RAM, not what is
    left behind its load address: for a complete, non-empty file, when the
    address is mapped, it runs over the end of the guest RAM mapping exactly
    when the file passes that check and is longer than the room left, refuses
    exactly the larger ones, and otherwise stores the file there and records
    its place. *)
Theorem initrd_overrun (m : Ram) (b : BootInfo) (data : bytes) :
  base_ram m → kGpaInitrdLoad - kGpaRamBase < ram_size m → data ≠ [] →
  let len := Z.of_nat (length data) in
  let off := kGpaInitrdLoad - kGpaRamBase in
  load_initrd (Some (whole data)) m b =
    if ram_size m / 4 <? len then Ok (false, m, b)
    else if ram_size m <? off + len then Err HostOOB
    else Ok (true, pokes m off data, set_initrd b kGpaInitrdLoad len).
Proof.
  intros Hm Hs Hd. cbv zeta. unfold load_initrd. rewrite base_hva; [|done|].
  2: { unfold kGpaInitrdLoad, kGpaRamBase in *. lia. }
  rewrite load_whole. destruct data as [|d ds]; [done|]. set (data := d :: ds).
  rewrite (proj2 (Z.leb_gt _ 0)) by (unfold data; cbn [length]; lia). cbn [orb].
  destruct (ram_size m / 4 <? Z.of_nat (length data)); [done|]. unfold store, in_ram.
  change (0 <=? kGpaInitrdLoad - kGpaRamBase) with true. cbn [andb].
  destruct (ram_size m <? kGpaInitrdLoad - kGpaRamBase + Z.of_nat (length data)) eqn:E.
  - by rewrite (proj2 (Z.leb_gt _ _)) by lia.
  - by rewrite (proj2 (Z.leb_le _ _)) by lia.
Qed.

(** ** The boot sequence *)
Section boot.
Context {Con Blk Net Gpu Inp : Type}.
Implicit Types c : Ctx Con Blk Net Gpu Inp.

Definition kernel_off : Z := kGpaKernelLoad - kGpaRamBase.
Definition initrd_off : Z := kGpaInitrdLoad - kGpaRamBase.

(** RAM, kernel and initrd that do not run into each other. *)
Record layout_ok (m : Ram) (k i : bytes) : Prop := {
  lay_ram : base_ram m;
  lay_magic : image_magic k = kArm64Magic;
  lay_kernel : 64 ≤ Z.of_nat (length k) ≤ Z.min (ram_size m / 2) (initrd_off - kernel_off);
  lay_initrd : 0 < Z.of_nat (length i) ≤ Z.min (ram_size m / 4) (ram_size m - initrd_off);
  lay_bytes : wf_bytes k ∧ wf_bytes i;
}.

(** The boot information [boot] hands to the device tree. *)
Definition boot_info (b : BootInfo) (k i : bytes) : BootInfo :=
  set_initrd (set_kernel_entry b (u64 (kGpaKernelLoad + image_offset k)))
    kGpaInitrdLoad (Z.of_nat (length i)).
Definition boot_ram (m : Ram) (k i : bytes) : Ram := pokes (pokes m kernel_off k) initrd_off i.
Definition boot_ctx c (m : Ram) : Ctx Con Blk Net Gpu Inp :=
  set_world (init_vcpus c) (with_ram (world c) m).

Lemma boot_to_dtb c b k i :
  layout_ok (w_ram (world c)) k i →
  boot (Some (whole k)) (Some (Some (whole i))) c b =
    ('(ok, c', b') ← generate (boot_ctx c (boot_ram (w_ram (world c)) k i)) (boot_info b k i);
     guard_res ok Thrown;; Ok (c', b')).
Proof.
  intros [Hm Hmag Hk Hi [Wk Wi]]. unfold boot, kernel_off, initrd_off in *.
  change (kGpaInitrdLoad - kGpaRamBase) with 0x8000000 in *.
  change (kGpaKernelLoad - kGpaRamBase) with 0x400000 in *. cbv zeta.
  change (world (init_vcpus c)) with (world c).
  rewrite load_kernel_image; [|done| |lia].
  2: { change (kGpaKernelLoad - kGpaRamBase) with 0x400000. lia. }
  rewrite Hmag, Z.eqb_refl. cbn [mbind res_bind guard_res]. unfold load_initrd.
  rewrite base_hva; [|eapply base_step; [exact Hm|apply same_map_pokes|]; apply wf_pokes; [apply Hm|done]|].
  2: { cbn [same_map]. rewrite (proj2 (proj2 (same_map_pokes (w_ram (world c)) 0x400000 k))).
       unfold kGpaInitrdLoad, kGpaRamBase. lia. }
  change (kGpaInitrdLoad - kGpaRamBase) with 0x8000000.
  rewrite (proj2 (proj2 (same_map_pokes (w_ram (world c)) 0x400000 k))).
  rewrite load_whole_in; [|lia|].
  2: { rewrite (in_ram_same (w_ram (world c))) by apply same_map_pokes. apply in_ram_spec. lia. }
  done.
Qed.
(** The images stay where they were put, inside the same mapping. *)
Lemma layout_same (m : Ram) k i : layout_ok m k i →
  base_ram (boot_ram m k i) ∧ ram_size (boot_ram m k i) = ram_size m ∧
  peeks (boot_ram m k i) kernel_off (length k) = k ∧ peeks (boot_ram m k i) initrd_off (length i) = i.
Proof.
  intros [Hm _ Hk Hi [Wk Wi]]. unfold boot_ram.
  assert (same_map m (pokes (pokes m kernel_off k) initrd_off i)) as Hs by (etrans; apply same_map_pokes).
  split_and!.
  - eapply base_step; [exact Hm|exact Hs|]. apply wf_pokes; [|done]. apply wf_pokes; [apply Hm|done].
  - apply Hs.
  - rewrite peeks_kept; [apply peeks_pokes|]. unfold disjoint. lia.
  - apply peeks_pokes.
Qed.

Lemma dtb_room_disjoint n q k : n ≤ dtb_room → dtb_room ≤ q → disjoint 0 n q k.
Proof. unfold disjoint. lia. Qed.

Lemma layout_initrd (m : Ram) k i : layout_ok m k i → 0 < Z.of_nat (length i) < 2 ^ 62.
Proof.
  intros [[_ [Hg [_ _ Hs He]]] _ _ Hi _].
  pose proof (Z.mul_div_le (ram_size m) 4). rewrite Hg in He. unfold kGpaRamBase in He. lia.
Qed.

(** The range the chosen node announces. *)
Lemma initrd_props c b k i : 0 < Z.of_nat (length i) < 2 ^ 62 →
  TProp (cs "linux,initrd-start") (be_enc 8 kGpaInitrdLoad) ∈ dtb_toks c (boot_info b k i) ∧
  TProp (cs "linux,initrd-end") (be_enc 8 (kGpaInitrdLoad + Z.of_nat (length i)))
    ∈ dtb_toks c (boot_info b k i).
Proof.
  intros Hi. rewrite <- !cells64.
  assert (u64 (kGpaInitrdLoad + Z.of_nat (length i)) = kGpaInitrdLoad + Z.of_nat (length i)) as Eu.
  { apply u64_id. unfold kGpaInitrdLoad. lia. }
  assert (∀ t, t ∈ chosen_node (boot_info b k i) → t ∈ dtb_toks c (boot_info b k i)) as Hin.
  { intros t Ht. unfold dtb_toks, dtb_nodes. apply list_elem_of_further.
    rewrite !elem_of_app. auto. }
  split; apply Hin; unfold chosen_node; cbn [initrd_size initrd_gpa boot_info set_initrd];
    rewrite (proj2 (Z.ltb_lt 0 _)) by lia; cbv zeta; rewrite Eu; unfold p_cells;
    cbn [app]; repeat first [apply list_elem_of_here | apply list_elem_of_further].
Qed.
End boot.

(** Boot places everything where the guest is told to look.  For images
    that fit their regions and a device tree that fits below the kernel, the
    boot sequence succeeds: guest RAM holds the kernel at its load address and
    the initrd at its own, the device tree reads back and announces that initrd
    range (end exclusive), the entry point is the load address plus the text
    offset of the image header, and every vCPU exists. *)
Lemma boot_places {Con Blk Net Gpu Inp : Type} (c : Ctx Con Blk Net Gpu Inp) (b : BootInfo)
    (k i : bytes) :
  layout_ok (w_ram (world c)) k i → Z.of_nat (length (cmdline b)) < 2 ^ 32 - 1 →
  Z.of_nat (length (dtb_blob (boot_ctx c (boot_ram (w_ram (world c)) k i)) (boot_info b k i))) ≤ dtb_room →
  ∃ c' b' rs ts, boot (Some (whole k)) (Some (Some (whole i))) c b = Ok (c', b') ∧
    peeks (w_ram (world c')) kernel_off (length k) = k ∧
    peeks (w_ram (world c')) initrd_off (length i) = i ∧
    guest_fdt (w_ram (world c')) (dtb_gpa b' - kGpaRamBase) = Some (rs, ts) ∧
    TProp (cs "linux,initrd-start") (be_enc 8 kGpaInitrdLoad) ∈ ts ∧
    TProp (cs "linux,initrd-end") (be_enc 8 (kGpaInitrdLoad + Z.of_nat (length i))) ∈ ts ∧
    kernel_entry b' = u64 (kGpaKernelLoad + image_offset k) ∧
    length (vcpus c') = (length (vcpus c) + Z.to_nat (vcpu_count c))%nat.
Proof.
  intros Hlay Hc Hb. rewrite boot_to_dtb by done.
  destruct (dtb_blob_reads (boot_ctx c (boot_ram (w_ram (world c)) k i)) (boot_info b k i) Hc)
    as [Hp Hw]; [by eapply Z.le_lt_trans|].
  pose proof (layout_same _ k i Hlay) as (Hbr & Hsz & Hk & Hi).
  rewrite generate_stored; [|exact Hbr| |exact Hb].
  2: { cbn [world boot_ctx set_world with_ram w_ram]. rewrite Hsz. destruct Hlay as [_ _ ? ? _].
       unfold dtb_room, initrd_off, kGpaInitrdLoad, kGpaRamBase, kGpaKernelLoad, kGpaDtbLoad in *. lia. }
  do 4 eexists. split; [reflexivity|]. cbn [world set_world with_ram w_ram set_dtb_gpa dtb_gpa kernel_entry vcpus].
  split_and!; [| |by apply guest_fdt_stored; [pose proof (length_blob_min (boot_ctx c (boot_ram (w_ram (world c)) k i)) (boot_info b k i)); lia|exact Hw|exact Hp]| | |done|].
  - etrans; [apply peeks_kept|exact Hk]. apply dtb_room_disjoint; [exact Hb|unfold kernel_off; done].
  - etrans; [apply peeks_kept|exact Hi]. apply dtb_room_disjoint; [exact Hb|done].
  - apply initrd_props, (layout_initrd _ _ _ Hlay).
  - apply initrd_props, (layout_initrd _ _ _ Hlay).
  - cbn. by rewrite length_app, length_replicate.
Qed.
