(* ===== verification/BootMachine.v ===== *)
(** * BootMachine: booting keeps the machine well formed

    The device tree is a string of bytes, and the boot sequence changes guest
    RAM only by storing bytes inside the mapping, besides making the vCPUs. *)

From stdpp Require Import strings.
From S2P Require Import Prelude Bytes GuestMem World VmContext Fdt Boot.

(** ** The device tree is made of bytes *)
Definition wf_tok (t : tok) : Prop :=
  match t with TBegin n => wf_bytes n | TProp n d => wf_bytes n ∧ wf_bytes d | TEnd => True end.

Section bytes.

Lemma wf_cs s : wf_bytes (cs s).
Proof.
  unfold wf_bytes, cs. apply Forall_fmap, Forall_true. intros a. unfold is_byte. cbn.
  pose proof (Ascii.N_ascii_bounded a). lia.
Qed.

Lemma wf_nul n : wf_bytes n → wf_bytes (n ++ [0]).
Proof. intros H. apply wf_bytes_app. split; [done|]. by constructor. Qed.

Lemma wf_mjoin (l : list bytes) : Forall wf_bytes l → wf_bytes (mjoin l).
Proof. induction 1; [constructor|]. by apply wf_bytes_app. Qed.

Lemma wf_cells l : wf_bytes (mjoin (be_enc 4 <$> l)).
Proof. apply wf_mjoin, Forall_fmap, Forall_true. intros x. apply wf_be_enc. Qed.

Lemma wf_strs ss : wf_bytes (mjoin ((λ s, cs s ++ [0]) <$> ss)).
Proof. apply wf_mjoin, Forall_fmap, Forall_true. intros s. apply wf_nul, wf_cs. Qed.

Lemma wf_c_str s : wf_bytes s → wf_bytes (c_str s).
Proof. induction 1 as [|c s Hc _ IH]; cbn; [constructor|]. case_match; [constructor|by constructor]. Qed.

Lemma wf_digits base fuel : 0 < base ≤ 16 → ∀ x acc, wf_bytes acc → wf_bytes (digits fuel base x acc).
Proof.
  intros Hb. induction fuel as [|fuel IH]; intros x acc Ha; [done|]. cbn [digits].
  assert (wf_bytes (digit (x mod base) :: acc)) as Hd.
  { constructor; [|done]. pose proof (Z.mod_pos_bound x base). unfold is_byte, digit. case_match; lia. }
  case_match; [done|by apply IH].
Qed.

Lemma wf_pad4 v : wf_bytes v → wf_bytes (pad4 v).
Proof. intros H. apply wf_bytes_app. split; [done|]. by apply wf_bytes_replicate. Qed.

Lemma wf_push_be32 v x : wf_bytes v → wf_bytes (push_be32 v x).
Proof. intros H. apply wf_bytes_app. split; [done|apply wf_be_enc]. Qed.

Lemma wf_push_be64 v x : wf_bytes v → wf_bytes (push_be64 v x).
Proof. intros H. by apply wf_push_be32, wf_push_be32. Qed.

(** What a builder holds. *)
Definition wf_fdt (b : FdtBuilder) : Prop := wf_bytes (st b) ∧ wf_bytes (str b) ∧ wf_bytes (rsv b).

Lemma wf_emit b t : wf_fdt b → wf_tok t → wf_fdt (emit b t).
Proof.
  intros (H1 & H2 & H3) Ht. destruct t as [n|n d|]; cbn [emit].
  - split; [|done]. apply wf_pad4, wf_bytes_app. split; [by apply wf_push_be32|by apply wf_nul].
  - destruct Ht as [Hn Hd]. unfold prop, str_off.
    destruct (str_map b !! n) as [off|]; (split; [|split]); cbn [set_st st str rsv]; try done;
      try (apply wf_pad4, wf_bytes_app; split; [by repeat apply wf_push_be32|by apply wf_bytes_take]).
    apply wf_bytes_app. split; [done|by apply wf_nul].
  - split; [|done]. by apply wf_push_be32.
Qed.

Lemma wf_emits ts : ∀ b, wf_fdt b → Forall wf_tok ts → wf_fdt (emits b ts).
Proof.
  induction ts as [|t ts IH]; intros b Hb Ht; [done|]. apply Forall_cons in Ht as [Ht Hts].
  apply IH; [by apply wf_emit|done].
Qed.

Lemma wf_build b : wf_fdt b → wf_bytes (build b).
Proof.
  intros (H1 & H2 & H3). unfold build. cbv zeta. rewrite !wf_bytes_app.
  split_and!; try apply wf_be_enc; [by repeat apply wf_push_be64|by apply wf_push_be32|done].
Qed.
End bytes.

Create HintDb fdt.
#[export] Hint Resolve wf_cs wf_nul wf_cells wf_strs wf_c_str wf_be_enc wf_digits : fdt.
#[export] Hint Extern 1 (wf_bytes []) => apply Forall_nil_2 : fdt.
#[export] Hint Extern 1 (_ < _ ≤ _) => done : fdt.

(** A list of tokens, by its parts. *)
Ltac wf_toks :=
  repeat lazymatch goal with
  | |- Forall wf_tok [] => apply Forall_nil_2
  | |- Forall wf_tok (_ :: _) => apply Forall_cons_2
  | |- Forall wf_tok (_ ++ _) => apply Forall_app_2
  | |- wf_tok (TBegin _) => unfold wf_tok
  | |- wf_tok (TProp _ _) => split
  | |- wf_tok TEnd => exact I
  | |- wf_bytes (_ ++ [0]) => apply wf_nul
  | |- wf_bytes (_ ++ _) => apply wf_bytes_app; split
  end; auto with fdt.

Section tree.
Context {Con Blk Net Gpu Inp : Type}.
Implicit Types c : Ctx Con Blk Net Gpu Inp.

Lemma wf_chosen b : wf_bytes (cmdline b) → Forall wf_tok (chosen_node b).
Proof. intros H. unfold chosen_node, p_str, p_cells. case_match; wf_toks. Qed.

Lemma wf_virtio name gpa spi : Forall wf_tok (virtio_node name gpa spi).
Proof. unfold virtio_node, p_strs, p_cells, p_empty. wf_toks. Qed.

Lemma wf_cpus n : Forall wf_tok (cpus_node n).
Proof.
  unfold cpus_node, p_u32. wf_toks. induction (seq 0 (Z.to_nat n)) as [|i l IH]; [constructor|].
  cbn [flat_map]. unfold cpu_node, p_strs, p_str, p_u32, dec32. wf_toks.
Qed.

Lemma wf_dtb_toks c b : wf_bytes (cmdline b) → Forall wf_tok (dtb_toks c b).
Proof.
  intros H. unfold dtb_toks, dtb_nodes, root_props, memory_node, psci_node, timer_node, gic_node,
    clock_node, pl011_node, optional_nodes, p_u32, p_str, p_strs, p_cells, p_empty, hex64.
  assert (∀ {A} (d : option A) ts, Forall wf_tok ts → Forall wf_tok (when_present d ts)) as Hp
    by (by intros A []).
  pose proof wf_virtio. pose proof (wf_chosen b H). pose proof wf_cpus.
  wf_toks.
Qed.

Lemma wf_dtb_blob c b : wf_bytes (cmdline b) → wf_bytes (dtb_blob c b).
Proof.
  intros H. apply wf_build, wf_emits; [|by apply wf_dtb_toks].
  split_and!; [constructor|constructor|]. do 2 apply wf_push_be64. constructor.
Qed.

(** ** The boot sequence *)
Definition wf_file (f : File) : Prop := wf_bytes (f_data f).

Lemma store_wf_step m p bs m' : wf_bytes bs → store m p bs = Ok m' → ram_step m m'.
Proof. intros Hb [_ ->]%store_Ok. split; [apply same_map_pokes|]. intros. by apply wf_pokes. Qed.

Lemma load_file_step f m dst max m' sz :
  from_option wf_file True f → load_file f m dst max = Ok (m', sz) → ram_step m m'.
Proof.
  intros Hf H. unfold load_file in H. destruct f as [f|]; [|injection H as <- _; reflexivity].
  destruct (_ || _); [injection H as <- _; reflexivity|].
  apply bind_Ok_inv in H as (m1 & E & H). injection H as <- _.
  eapply store_wf_step; [|exact E]. by apply wf_bytes_take.
Qed.

Lemma load_kernel_step f m b ok m' b' :
  from_option wf_file True f → load_kernel f m b = Ok (ok, m', b') →
  ram_step m m' ∧ cmdline b' = cmdline b.
Proof.
  intros Hf H. unfold load_kernel in H. destruct (gpa_to_hva _ _); [|injection H as _ <- <-; by split].
  apply bind_Ok_inv in H as ([m1 sz] & E & H). apply load_file_step in E; [|done].
  destruct sz; [|injection H as _ <- <-; by split].
  apply bind_Ok_inv in H as (magic & _ & H). destruct (negb _); [injection H as _ <- <-; by split|].
  apply bind_Ok_inv in H as (off & _ & H). injection H as _ <- <-. by split.
Qed.

Lemma load_initrd_step f m b ok m' b' :
  from_option wf_file True f → load_initrd f m b = Ok (ok, m', b') →
  ram_step m m' ∧ cmdline b' = cmdline b.
Proof.
  intros Hf H. unfold load_initrd in H. destruct (gpa_to_hva _ _); [|injection H as _ <- <-; by split].
  apply bind_Ok_inv in H as ([m1 sz] & E & H). apply load_file_step in E; [|done].
  destruct sz; injection H as _ <- <-; by split.
Qed.

Lemma generate_step c b ok c' b' :
  generate c b = Ok (ok, c', b') →
  ∃ m', c' = set_world c (with_ram (world c) m') ∧
    (wf_bytes (cmdline b) → ram_step (w_ram (world c)) m').
Proof.
  intros H. unfold generate in H. assert (c = set_world c (with_ram (world c) (w_ram (world c)))) as Hc
    by by destruct c as [????[] ??????].
  destruct (gpa_to_hva _ _); [|injection H as _ <- _; by eexists].
  destruct (_ <? _); [injection H as _ <- _; by eexists|].
  apply bind_Ok_inv in H as (m' & E & H). injection H as _ <- _. exists m'. split; [done|].
  intros Hb. eapply store_wf_step; [|exact E]. by apply wf_dtb_blob.
Qed.

(** Booting makes the vCPUs and changes guest RAM, by storing bytes when the
    files and the command line are made of them. *)
Lemma boot_step kernel initrd c b c' b' :
  boot kernel initrd c b = Ok (c', b') →
  ∃ m', c' = set_world (init_vcpus c) (with_ram (world c) m') ∧
    (from_option wf_file True kernel → from_option wf_file True (mjoin initrd) →
     wf_bytes (cmdline b) → ram_step (w_ram (world c)) m').
Proof.
  intros H. unfold boot in H. cbv zeta in H.
  apply bind_Ok_inv in H as ([[ok1 m1] b1] & E1 & H).
  apply bind_Ok_inv in H as (? & _ & H). apply bind_Ok_inv in H as ([[ok2 m2] b2] & E2 & H).
  apply bind_Ok_inv in H as (? & _ & H). apply bind_Ok_inv in H as ([[ok3 c3] b3] & E3 & H).
  apply generate_step in E3 as (m3 & -> & S3).
  apply bind_Ok_inv in H as (? & _ & H). injection H as <- _. exists m3. split; [done|].
  intros Hk Hi Hb. apply load_kernel_step in E1 as [S1 B1]; [|done].
  assert (ram_step m1 m2 ∧ cmdline b2 = cmdline b1) as [S2 B2].
  { destruct initrd as [f|]; [by apply load_initrd_step in E2|]. by injection E2 as _ <- <-. }
  etrans; [exact S1|]. etrans; [exact S2|]. apply S3. congruence.
Qed.
End tree.
