(* ===== verification/BootWit.v ===== *)
(** * BootWit: concrete boots for the theorems of Fdt and BootThms *)

From stdpp Require Import strings.
From S2P Require Import Prelude Bytes GuestMem World VmContext Fdt Boot BootThms.

(** 256 MiB of RAM, a 64-byte image with text offset 0x80000, a small initrd,
    two vCPUs and a tablet. *)
Definition bx_ram : Ram := set_ram kGpaRamBase 0x10000000.
Definition bx_ctx : Ctx unit unit unit unit unit :=
  set_tablet (Ctx0 2 (mkWorld bx_ram [])) (Some tt).
Definition bx_info : BootInfo := mkBoot 0 0 0 0 (cs "console=ttyAMA0").
Definition bx_kernel : bytes :=
  le_enc 8 0 ++ le_enc 8 0x80000 ++ replicate 40 0 ++ le_enc 4 kArm64Magic ++ le_enc 4 0.
Definition bx_initrd : bytes := [1; 2; 3; 4; 5].

Lemma bx_base size : 0 ≤ size ≤ 0x10000000 → base_ram (set_ram kGpaRamBase size).
Proof.
  intros H. split_and!; [done|done|]. split; [|done|cbn; lia|].
  - intros p. unfold peek. cbn. by rewrite lookup_empty.
  - cbn. unfold kGpaRamBase. lia.
Qed.

Lemma fdt_roundtrip_witness :
  parse_fdt (build (emits (reserves Fdt0 [(0x40000000, 0x400000)])
    [TBegin []; TProp (cs "reg") [1; 2; 3]; TBegin (cs "cpus"); TProp (cs "reg") []; TEnd; TEnd])) =
    Some ([(0x40000000, 0x400000)],
      [TBegin []; TProp (cs "reg") [1; 2; 3]; TBegin (cs "cpus"); TProp (cs "reg") []; TEnd; TEnd]).
Proof.
  apply (fdt_roundtrip [(0x40000000, 0x400000)]
    [TBegin []; TProp (cs "reg") [1; 2; 3]; TBegin (cs "cpus"); TProp (cs "reg") []; TEnd; TEnd]).
  - apply Forall_singleton. split_and!; [by vm_compute | by vm_compute | by left].
  - repeat (apply Forall_cons_2; [|]); try apply Forall_nil_2; repeat split;
      try (apply name_okb_ok; vm_compute; reflexivity); by vm_compute.
  - by vm_compute.
Defined.

Lemma dtb_readable_witness :
  ∃ m', generate bx_ctx bx_info =
      Ok (true, set_world bx_ctx (with_ram (world bx_ctx) m'), set_dtb_gpa bx_info kGpaDtbLoad) ∧
    guest_fdt m' 0 = Some ([(kGpaDtbLoad, dtb_room)], dtb_toks bx_ctx bx_info).
Proof.
  destruct (dtb_readable bx_ctx bx_info) as [[H _]|(m' & E & H & _)].
  - by apply bx_base.
  - by vm_compute.
  - by vm_compute.
  - vm_compute in H. discriminate H.
  - exists m'. split; [exact E | exact H].
Defined.

(** 128 MiB and four bytes: a five-byte initrd passes the check. *)
Lemma initrd_overrun_witness :
  load_initrd (Some (whole bx_initrd)) (set_ram kGpaRamBase 0x8000004) bx_info = Err HostOOB.
Proof.
  etrans; [apply (initrd_overrun (set_ram kGpaRamBase 0x8000004) bx_info bx_initrd)|].
  - by apply bx_base.
  - by vm_compute.
  - done.
  - by vm_compute.
Defined.

Lemma bx_layout : layout_ok bx_ram bx_kernel bx_initrd.
Proof.
  split.
  - by apply bx_base.
  - by vm_compute.
  - by vm_compute.
  - by vm_compute.
  - split; apply wf_bytesb_ok; by vm_compute.
Qed.
