(* ===== verification/Machine.v ===== *)
(** * Machine: the devices, the exit handler and the device tree together

    Client theorems proved against [DeviceLaws]: what one vCPU exit may do to
    the machine, and the agreement of the device tree with the MMIO map and the
    interrupt lines. *)

From stdpp Require Import strings.
From S2P Require Import Prelude Bytes GuestMem Virtq World Hypervisor VmContext Psci ExitHandler Devices Fdt Boot BootThms.

Section Machine.
Context {Con Blk Net Gpu Inp : Type}.
Context {HCon : MmioDevice Con} {HBlk : MmioDevice Blk} {HNet : MmioDevice Net}
  {HGpu : MmioDevice Gpu} {HInp : MmioDevice Inp}.
Context {LCon : DeviceLaws Con} {LBlk : DeviceLaws Blk} {LNet : DeviceLaws Net}
  {LGpu : DeviceLaws Gpu} {LInp : DeviceLaws Inp}.
Abbreviation Ctx := (Ctx Con Blk Net Gpu Inp).

(** A slot is empty or holds a well-formed device on the slot's line. *)
Definition slot_wf {D} `{DeviceLaws D} (spi : Z) (d : option D) : Prop :=
  match d with Some d => dev_wf d ∧ dev_spi d = spi | None => True end.

Record vm_wf (c : Ctx) : Prop := {
  vw_ctx : wf_ctx c;
  vw_ram : wf_ram (w_ram (world c));
  vw_console : slot_wf kSpiConsole (console c);
  vw_block : slot_wf kSpiBlock (block c);
  vw_net : slot_wf kSpiNet (net c);
  vw_gpu : slot_wf kSpiGpu (gpu c);
  vw_keyboard : slot_wf kSpiKeyboard (keyboard c);
  vw_tablet : slot_wf kSpiTablet (tablet c);
}.

(** The line of the device whose window starts at [base]. *)
Definition slot_spi (c : Ctx) (base : Z) : option Z :=
  if base =? kGpaVirtioConsole then dev_spi <$> console c
  else if base =? kGpaVirtioBlock then dev_spi <$> block c
  else if base =? kGpaVirtioNet then dev_spi <$> net c
  else if base =? kGpaVirtioGpu then dev_spi <$> gpu c
  else if base =? kGpaVirtioKeyboard then dev_spi <$> keyboard c
  else if base =? kGpaVirtioTablet then dev_spi <$> tablet c
  else None.

(** Effects of an exit: an interrupt line belongs to a device that exists. *)
Definition lines_ok (c : Ctx) (e : Event) : Prop :=
  match e with
  | SetSpi i _ => ∃ base spi, slot_spi c base = Some spi ∧ i = u32 (kGicSpiBase + spi)
  | _ => True
  end.

(** What an exit keeps. *)
Record vm_keeps (c c' : Ctx) : Prop := {
  vk_wf : vm_wf c';
  vk_ram : ram_step (w_ram (world c)) (w_ram (world c'));
  vk_slots : ∀ base, slot_spi c' base = slot_spi c base;
  vk_log : ∃ es, w_log (world c') = w_log (world c) ++ es ∧ Forall (lines_ok c) es;
}.

Section exits.
Context {V : Type} {HV : Hv V}.

Lemma slot_step {D} `{DeviceLaws D} fuel (d d' : option D) w w' (v v' : V) base esr ipa spi :
  slot_wf spi d → wf_ram (w_ram w) → slot fuel d w v base esr ipa = Ok (d', w', v') →
  slot_wf spi d' ∧ ram_step (w_ram w) (w_ram w') ∧ dev_spi <$> d' = dev_spi <$> d ∧
  (d = d' ∧ w' = w ∨ is_Some d ∧ log_ext spi w w').
Proof.
  intros Hd Hw E. unfold slot in E. destruct d as [d|]; [|injection E as <- <- _; split_and!; [done|reflexivity|done|by left]].
  destruct Hd as [Hd Hs]. destruct (esr_wnr esr); inv_bind; [|split_and!; [done|reflexivity|done|by left]].
  match goal with X : dev_write _ _ _ _ _ _ = _ |- _ =>
    destruct (dev_step _ _ _ _ _ _ _ _ Hd Hw (u32_range _) X) as (H1 & H2 & H3 & H4) end.
  split_and!; [split; [done | congruence] | done | by cbn; rewrite H3 | right].
  split; [by eexists | congruence || done].
Qed.

(** An exit that touches no device and no memory. *)
Lemma vm_keeps_same c c' :
  vm_wf c → wf_ctx c' → world c' = world c → console c' = console c → block c' = block c →
  net c' = net c → gpu c' = gpu c → keyboard c' = keyboard c → tablet c' = tablet c → vm_keeps c c'.
Proof.
  intros [] ? E0 E1 E2 E3 E4 E5 E6. split.
  - split; rewrite ?E0, ?E1, ?E2, ?E3, ?E4, ?E5, ?E6; done.
  - by rewrite E0.
  - intros base. unfold slot_spi. by rewrite E1, E2, E3, E4, E5, E6.
  - exists []. by rewrite app_nil_r, E0.
Qed.

Lemma log_lines c base spi (w w' : World) :
  slot_spi c base = Some spi → log_ext spi w w' →
  ∃ es, w_log w' = w_log w ++ es ∧ Forall (lines_ok c) es.
Proof.
  intros Hs (es & E & H). exists es. split; [done|]. eapply Forall_impl; [exact H|].
  intros [] He; try done. by exists base, spi.
Qed.

Lemma psci_keeps (v v' : V) c c' go :
  vm_wf c → psci_dispatch v c = Ok (go, v', c') → vm_keeps c c'.
Proof.
  intros Hc H. unfold psci_dispatch in H. cbv zeta in H.
  repeat match type of H with (if ?b then _ else _) = _ => destruct b end; inv_bind;
    (apply vm_keeps_same; [done| |done..]); try apply Hc.
  destruct Hc as [[] _ _ _ _ _ _ _]. split; [done|]. cbn. by rewrite length_insert.
Qed.

Lemma pl011_write_world p p' (w w' : World) off x :
  pl011_write p w off x = (p', w') →
  w_ram w' = w_ram w ∧ ∃ es, w_log w' = w_log w ++ es ∧ ∀ c, Forall (lines_ok c) es.
Proof.
  unfold pl011_write. intros H. repeat (case_match; [|]); injection H as <- <-;
    try (split; [done|]; exists []; by rewrite app_nil_r).
  all: split; [done|]; eexists; split; [done|]; by repeat constructor.
Qed.

(** The effects of one slot, as effects of the machine. *)
Lemma slot_lines {D} `{DeviceLaws D} c base spi (d d' : option D) w' :
  slot_wf spi d → slot_spi c base = dev_spi <$> d →
  d = d' ∧ w' = world c ∨ is_Some d ∧ log_ext spi (world c) w' →
  ∃ es, w_log w' = w_log (world c) ++ es ∧ Forall (lines_ok c) es.
Proof.
  intros Hd Hb [[_ ->]|[[x ->] Hl]].
  - exists []. by rewrite app_nil_r.
  - eapply log_lines; [|exact Hl]. destruct Hd as [_ <-]. exact Hb.
Qed.

Ltac dev_case base :=
  inv_bind;
  match goal with
  | W : slot_wf ?spi ?d, R : wf_ram _, E : slot _ ?d _ _ _ _ _ = Ok _ |- _ =>
      let S1 := fresh in let S2 := fresh in let S3 := fresh in let S4 := fresh in
      destruct (slot_step _ _ _ _ _ _ _ _ _ _ _ W R E) as (S1 & S2 & S3 & S4);
      split; [split; try done; by apply S2 | exact S2 | intros ?; unfold slot_spi; cbn; by rewrite S3
             | exact (slot_lines _ base spi d _ _ W eq_refl S4)]
  end.

Lemma mmio_keeps fuel (v v' : V) c c' ex :
  vm_wf c → mmio_access fuel v c ex = Ok (v', c') → vm_keeps c c'.
Proof.
  intros Hc H. pose proof Hc as [Hx Hw H1 H2 H3 H4 H5 H6]. unfold mmio_access in H. cbv zeta in H.
  destruct (within _ kGpaUart0 _).
  { destruct (esr_wnr _); [|injection H as <- <-; by apply vm_keeps_same].
    destruct (pl011_write _ _ _ _) as [p w] eqn:E. injection H as <- <-.
    destruct (pl011_write_world _ _ _ _ _ _ E) as (Er & es & El & Hes).
    split; [split; cbn; rewrite ?Er; done | cbn; by rewrite Er | done | by exists es]. }
  destruct (within _ kGpaRtcBase _); [injection H as <- <-; by apply vm_keeps_same|].
  destruct (within _ kGpaVirtioConsole _); [dev_case kGpaVirtioConsole|].
  destruct (within _ kGpaVirtioBlock _); [dev_case kGpaVirtioBlock|].
  destruct (within _ kGpaVirtioNet _); [dev_case kGpaVirtioNet|].
  destruct (within _ kGpaVirtioGpu _); [dev_case kGpaVirtioGpu|].
  destruct (within _ kGpaVirtioKeyboard _); [dev_case kGpaVirtioKeyboard|].
  destruct (within _ kGpaVirtioTablet _); [dev_case kGpaVirtioTablet|].
  destruct (within _ kGpaGicDist _ || _); injection H as <- <-; by apply vm_keeps_same.
Qed.

Lemma handle_keeps fuel (v v' : V) c c' ex go :
  vm_wf c → handle fuel v c ex = Ok (go, v', c') → vm_keeps c c'.
Proof.
  intros Hc H. assert (vm_keeps c c) as Hid by (apply vm_keeps_same; [done|apply Hc|done..]).
  unfold handle in H. destruct (reason ex); [by simplify_eq| |by simplify_eq..].
  cbv zeta in H. destruct (_ =? kEcWfiWfe); [by simplify_eq|].
  destruct (_ =? kEcMsrMrs); [by simplify_eq|].
  destruct (_ || _); [by eapply psci_keeps|]. destruct (_ || _); [|by simplify_eq].
  unfold handle_mmio in H. apply bind_Ok_inv in H as ([v1 c1] & E & H). simplify_eq.
  by eapply mmio_keeps.
Qed.

(** Reading the first register of a slot's window. *)
Lemma slot_magic {D} `{DeviceLaws D} fuel (d : option D) w (v : V) base esr :
  esr_wnr esr = false → esr_len esr = 4 →
  slot fuel d w v base esr base =
    Ok (d, w, put_reg v (esr_srt esr) (match d with Some _ => 0x74726976 | None => 0 end)).
Proof.
  intros Hr Hl. unfold slot. rewrite Z.sub_diag, Hr, Hl. destruct d as [d|]; [|done].
  change (u32 0) with Reg.Magic. by rewrite dev_magic.
Qed.

Lemma mmio_magic fuel (v : V) c ex base :
  physical_address ex = base → esr_wnr (syndrome ex) = false → esr_len (syndrome ex) = 4 →
  base ∈ [kGpaVirtioConsole; kGpaVirtioBlock; kGpaVirtioNet; kGpaVirtioGpu; kGpaVirtioKeyboard;
          kGpaVirtioTablet] →
  handle_mmio fuel v c ex =
    Ok (true, advance_pc (put_reg v (esr_srt (syndrome ex))
                (match slot_spi c base with Some _ => 0x74726976 | None => 0 end)), c).
Proof.
  intros Hp Hr Hl Hb. unfold handle_mmio, mmio_access. cbv zeta. rewrite Hp.
  unfold slot_spi. set_unfold in Hb. clear Hp. destruct_or! Hb; try done; rewrite Hb; clear Hb.
  all: repeat match goal with |- context [within ?x ?y ?z] =>
         let b := eval vm_compute in (within x y z) in change (within x y z) with b end.
  all: repeat match goal with |- context [?x =? ?y] =>
         let b := eval vm_compute in (x =? y) in lazymatch b with true => change (x =? y) with b | false => change (x =? y) with b end end.
  all: cbn match; rewrite slot_magic by done; cbn [mbind res_bind].
  all: destruct c as [? ? ? ? ? con bl ne gp ke ta]; cbn [console block net gpu keyboard tablet].
  - by destruct con.
  - by destruct bl.
  - by destruct ne.
  - by destruct gp.
  - by destruct ke.
  - by destruct ta.
Qed.
End exits.

(** ** The virtio-mmio nodes a guest finds in a device tree

    What the scan has seen of the current node: whether it is compatible with
    "virtio,mmio", the first two cells of "reg", the second of "interrupts". *)
Record NodeScan := mkScan { ns_mmio : bool; ns_base : Z; ns_irq : Z }.
Definition NodeScan0 : NodeScan := mkScan false 0 0.

Definition scan_prop (s : NodeScan) (n d : bytes) : NodeScan :=
  if bool_decide (n = cs "compatible")
  then mkScan (bool_decide (d = cs "virtio,mmio" ++ [0])) (ns_base s) (ns_irq s)
  else if bool_decide (n = cs "reg") then mkScan (ns_mmio s) (be_dec (take 8 d)) (ns_irq s)
  else if bool_decide (n = cs "interrupts")
  then mkScan (ns_mmio s) (ns_base s) (be_dec (take 4 (drop 4 d)))
  else s.

Fixpoint virtio_nodes (s : NodeScan) (ts : list tok) : list (Z * Z) :=
  match ts with
  | [] => []
  | TBegin _ :: ts => virtio_nodes NodeScan0 ts
  | TProp n d :: ts => virtio_nodes (scan_prop s n d) ts
  | TEnd :: ts => (if ns_mmio s then [(ns_base s, ns_irq s)] else []) ++ virtio_nodes NodeScan0 ts
  end.

(** A list of tokens a scan passes without finding a virtio-mmio node. *)
Definition no_virtio (ts : list tok) : Prop :=
  ∀ rest, virtio_nodes NodeScan0 (ts ++ rest) = virtio_nodes NodeScan0 rest.

Lemma no_virtio_app ts ts' : no_virtio ts → no_virtio ts' → no_virtio (ts ++ ts').
Proof. intros H H' rest. rewrite <- app_assoc, H. apply H'. Qed.

Lemma no_virtio_flat_map {A} (f : A → list tok) l :
  (∀ x, no_virtio (f x)) → no_virtio (flat_map f l).
Proof. intros H. induction l; cbn [flat_map]; [done | by apply no_virtio_app]. Qed.

(** A node the scan reports. *)
Definition finds (ts : list tok) (x : Z * Z) : Prop :=
  ∀ rest, virtio_nodes NodeScan0 (ts ++ rest) = x :: virtio_nodes NodeScan0 rest.

Lemma finds_devices :
  finds (virtio_node "virtio_mmio@a000000" kGpaVirtioConsole kSpiConsole) (kGpaVirtioConsole, kSpiConsole) ∧
  finds (virtio_node "virtio_mmio@a000200" kGpaVirtioBlock kSpiBlock) (kGpaVirtioBlock, kSpiBlock) ∧
  finds (virtio_node "virtio_mmio@a000400" kGpaVirtioNet kSpiNet) (kGpaVirtioNet, kSpiNet) ∧
  finds (virtio_node "virtio_mmio@a000600" kGpaVirtioGpu kSpiGpu) (kGpaVirtioGpu, kSpiGpu) ∧
  finds (virtio_node "virtio_mmio@a000800" kGpaVirtioKeyboard kSpiKeyboard)
    (kGpaVirtioKeyboard, kSpiKeyboard) ∧
  finds (virtio_node "virtio_mmio@a000a00" kGpaVirtioTablet kSpiTablet) (kGpaVirtioTablet, kSpiTablet).
Proof. split_and!; intros rest; vm_compute; reflexivity. Qed.

(** A property that does not make its node a virtio-mmio node. *)
Definition quiet (t : tok) : bool :=
  match t with
  | TProp n d => negb (bool_decide (n = cs "compatible") && bool_decide (d = cs "virtio,mmio" ++ [0]))
  | _ => false
  end.

Lemma scan_quiet ps : ∀ s, forallb quiet ps = true → ns_mmio s = false →
  ∃ s', ns_mmio s' = false ∧ ∀ rest, virtio_nodes s (ps ++ rest) = virtio_nodes s' rest.
Proof.
  induction ps as [|t ps IH]; intros s H Hs; [by exists s|]. cbn [forallb] in H.
  apply andb_true_iff in H as [Ht H]. destruct t as [| n d|]; try done.
  destruct (IH (scan_prop s n d) H) as (s' & Hs' & E); [|by exists s'].
  unfold scan_prop. unfold quiet in Ht. destruct (bool_decide (n = cs "compatible")).
  - by apply negb_true_iff in Ht.
  - by repeat destruct (bool_decide _).
Qed.

(** Properties up to the end of the node, or up to a child node. *)
Lemma no_virtio_node n ts :
  forallb quiet (removelast ts) = true → ts = removelast ts ++ [TEnd] → no_virtio (TBegin n :: ts).
Proof.
  intros H E rest. rewrite E. cbn [app virtio_nodes]. rewrite <- app_assoc.
  destruct (scan_quiet _ NodeScan0 H eq_refl) as (s' & Hs & ->). cbn [app virtio_nodes]. by rewrite Hs.
Qed.
Ltac quiet_node := apply no_virtio_node; [lazy|]; reflexivity.

Lemma no_virtio_cpus n : no_virtio (cpus_node n).
Proof.
  intros rest. unfold cpus_node. rewrite <- !app_assoc. cbn [app].
  assert (no_virtio (flat_map (λ i, cpu_node (Z.of_nat i)) (seq 0 (Z.to_nat n)))) as Hc
    by (apply no_virtio_flat_map; intros i; quiet_node).
  cbn [virtio_nodes]. destruct (seq 0 (Z.to_nat n)) as [|i l]; [by cbn [flat_map app virtio_nodes]|].
  specialize (Hc (TEnd :: rest)). cbn [flat_map app] in Hc |- *. rewrite <- !app_assoc in Hc |- *.
  cbn [cpu_node app virtio_nodes] in Hc |- *. exact Hc.
Qed.

Lemma no_virtio_nodes b m n :
  no_virtio (chosen_node b) ∧ no_virtio (memory_node m) ∧
  no_virtio psci_node ∧ no_virtio (cpus_node n) ∧ no_virtio timer_node ∧ no_virtio gic_node ∧
  no_virtio clock_node ∧ no_virtio pl011_node.
Proof.
  split_and!; [|quiet_node|quiet_node|apply no_virtio_cpus|quiet_node..].
  unfold chosen_node. cbv zeta. destruct (0 <? initrd_size b); quiet_node.
Qed.

Definition if_present {A} (d : option A) (x : Z * Z) : list (Z * Z) :=
  match d with Some _ => [x] | None => [] end.

Lemma scan_when {A} (d : option A) ts x rest :
  finds ts x → virtio_nodes NodeScan0 (when_present d ts ++ rest) =
    if_present d x ++ virtio_nodes NodeScan0 rest.
Proof. intros H. destruct d; [apply H | done]. Qed.

Lemma dtb_virtio_nodes (c : Ctx) b :
  virtio_nodes NodeScan0 (dtb_toks c b) =
    [(kGpaVirtioConsole, kSpiConsole); (kGpaVirtioBlock, kSpiBlock)]
    ++ if_present (net c) (kGpaVirtioNet, kSpiNet) ++ if_present (gpu c) (kGpaVirtioGpu, kSpiGpu)
    ++ if_present (keyboard c) (kGpaVirtioKeyboard, kSpiKeyboard)
    ++ if_present (tablet c) (kGpaVirtioTablet, kSpiTablet).
Proof.
  destruct (no_virtio_nodes b (w_ram (world c)) (vcpu_count c)) as (N1 & N2 & N3 & N4 & N5 & N6 & N7 & N8).
  destruct finds_devices as (F1 & F2 & F3 & F4 & F5 & F6).
  unfold dtb_toks. cbn [virtio_nodes]. rewrite <- app_assoc.
  destruct (scan_quiet root_props NodeScan0) as (s' & _ & ->); [lazy; reflexivity | done |].
  unfold dtb_nodes. rewrite <- !app_assoc.
  assert (∀ rest, virtio_nodes s' (chosen_node b ++ rest) = virtio_nodes NodeScan0 rest) as ->
    by (intros rest; rewrite <- N1; done).
  rewrite N2, N3, N4, N5, N6, N7, N8, F1, F2. unfold optional_nodes. rewrite <- !app_assoc.
  rewrite (scan_when _ _ _ _ F3), (scan_when _ _ _ _ F4), (scan_when _ _ _ _ F5), (scan_when _ _ _ _ F6).
  change (virtio_nodes NodeScan0 [TEnd]) with (@nil (Z * Z)). by rewrite app_nil_r.
Qed.

Lemma if_present_elem {A} (d : option A) (x y : Z * Z) : y ∈ if_present d x ↔ y = x ∧ is_Some d.
Proof.
  destruct d; cbn [if_present].
  - rewrite list_elem_of_singleton. split; [intros ->; by eauto | by intros []].
  - split; [by intros ?%not_elem_of_nil | by intros [_ []]].
Qed.

Lemma slot_fmap {D} `{DeviceLaws D} spi (d : option D) :
  slot_wf spi d → dev_spi <$> d = (λ _, spi) <$> d.
Proof. destruct d; [|done]. intros [_ <-]. done. Qed.

(** The entries of the tree, by what sits at their window. *)
Lemma dtb_entry (c : Ctx) b base spi :
  vm_wf c → (base, spi) ∈ virtio_nodes NodeScan0 (dtb_toks c b) ↔
    slot_spi c base = Some spi ∨
    slot_spi c base = None ∧
      ((base, spi) = (kGpaVirtioConsole, kSpiConsole) ∨ (base, spi) = (kGpaVirtioBlock, kSpiBlock)).
Proof.
  intros [_ _ H1 H2 H3 H4 H5 H6]. rewrite dtb_virtio_nodes. cbn [app]. unfold slot_spi.
  rewrite (slot_fmap _ _ H1), (slot_fmap _ _ H2), (slot_fmap _ _ H3), (slot_fmap _ _ H4),
    (slot_fmap _ _ H5), (slot_fmap _ _ H6).
  rewrite !elem_of_cons, !elem_of_app, !if_present_elem. split.
  - intros H. destruct_or! H; destruct_and?; simplify_eq; const_eqb.
    1: destruct (console c); cbn; by auto.
    1: destruct (block c); cbn; by auto.
    all: left; match goal with X : is_Some _ |- _ => destruct X as [? ->] end; done.
  - intros [H|[_ [H|H]]]; [|by auto..].
    repeat (destruct (base =? _) eqn:E; [apply Z.eqb_eq in E as ->; clear - H;
      match type of H with _ <$> ?d = _ => destruct d as [x|]; [injection H as <-|done] end;
      set_solver|clear E]). done.
Qed.
End Machine.

(** ** Properties *)

(** C14. Whatever the guest traps on, the machine stays well typed.  An exit
    that is handled leaves every device well formed on its own interrupt line,
    the vCPU mailboxes in place, RAM the same mapping and full of bytes, no
    device appearing or disappearing; and every interrupt line it drives belongs
    to a device the machine has. *)
Theorem vm_exit_keeps {Con Blk Net Gpu Inp : Type}
    {HCon : MmioDevice Con} {HBlk : MmioDevice Blk} {HNet : MmioDevice Net}
    {HGpu : MmioDevice Gpu} {HInp : MmioDevice Inp}
    {LCon : DeviceLaws Con} {LBlk : DeviceLaws Blk} {LNet : DeviceLaws Net}
    {LGpu : DeviceLaws Gpu} {LInp : DeviceLaws Inp} {V : Type} {HV : Hv V}
    (fuel : nat) (v v' : V) (c c' : Ctx Con Blk Net Gpu Inp) (ex : Exit) (go : bool) :
  vm_wf c → handle fuel v c ex = Ok (go, v', c') → vm_keeps c c'.
Proof.
  apply handle_keeps.
Qed.

