(* ===== verification/Create.v ===== *)
(** * Create: building the machine

    Models the [create_*] functions of [VMContext]
    (src/src/hvf/vm_context.cpp), the part of [Memory::init] that gives the
    context its RAM (memory.cpp), and the constructors they call.  The network
    device keeps its stack behind [NetApi], so its initial stack is an
    argument; opening the disk image is the parameter [image]. *)

From S2P Require Import Prelude Bytes GuestMem Virtq VirtqSpec World Hypervisor VmContext Psci ExitHandler VirtioRegs Devices Machine Boot BootMachine.
From S2P Require VirtioConsole VirtioInput VirtioBlock VirtioBlockThms VirtioNet VirtioGpu VirtioGpuThms.

#[local] Existing Instances VirtioConsole.Console_mmio VirtioBlock.Block_mmio VirtioNet.Net_mmio
  VirtioInput.Input_mmio.

Section Create.
Context {F St : Type} {HF : VirtioBlock.BlockFile F} {HL : VirtioBlock.BlockFileLaws F}
  {HS : VirtioNet.NetApi St}.

Abbreviation Con := VirtioConsole.Console.
Abbreviation Blk := (VirtioBlock.Block F).
Abbreviation Net := (VirtioNet.Net St).
Abbreviation Gpu := VirtioGpu.Gpu.
Abbreviation Inp := VirtioInput.Input.
Definition VM : Type := Ctx Con Blk Net Gpu Inp.

Definition create_console (rx tx : Z) (c : VM) : VM :=
  set_console c (Some (VirtioConsole.Console0 rx tx)).

(** [image] is the descriptor [::open] returned, the file behind it and what
    [fstat] says of its size. *)
Definition create_block (image : Z * F * option Z) (c : VM) : VM :=
  let '(fd, f, sz) := image in set_block c (Some (VirtioBlock.Block0 fd f sz)).

Definition create_net (enabled : bool) (mac : bytes) (st : St) (c : VM) : VM :=
  if enabled then set_net c (Some (VirtioNet.Net0 mac st)) else c.

Definition create_gpu (w h : Z) (cb : bool) (c : VM) : VM :=
  set_gpu c (Some (VirtioGpu.Gpu0 w h cb)).

Definition create_keyboard (c : VM) : VM :=
  set_keyboard c (Some (VirtioInput.Input0 kSpiKeyboard VirtioInput.Keyboard 0 0)).

Definition create_tablet (w h : Z) (c : VM) : VM :=
  set_tablet c (Some (VirtioInput.Input0 kSpiTablet VirtioInput.Tablet w h)).

(** [Memory::init]: each system call may fail.  On success RAM is mapped at
    [kGpaRamBase] before [hv_vm_map] is tried, so a later failure leaves the
    mapping in the context. *)
Record MemSys := mkMemSys {
  ms_shm_open : bool;
  ms_ftruncate : bool;
  ms_mmap : bool;
  ms_hv_map : bool;
  ms_gic : bool;
}.

Definition memory_init (s : MemSys) (ram_bytes : Z) (c : VM) : bool * VM :=
  if negb (ms_shm_open s && ms_ftruncate s && ms_mmap s) then (false, c)
  else (ms_hv_map s && ms_gic s, set_world c (with_ram (world c) (GuestMem.set_ram kGpaRamBase ram_bytes))).


(** ** Reachable machines

    A machine is built from the context [Memory::init] accepts by [create_*]
    calls, and booted.  From then on exits of any vCPU and the host-side
    operations of the devices' threads happen in any order.  Each holds the
    device's mutex, so they do not overlap on one device. *)
Inductive built (ram_bytes : Z) : VM → Prop :=
  | built_init n s c :
      0 ≤ n → memory_init s ram_bytes (Ctx0 n (mkWorld (mkRam false kGpaRamBase ram_bytes ∅) [])) = (true, c) →
      built ram_bytes c
  | built_uart c pl : built ram_bytes c → built ram_bytes (set_pl011 c pl)
  | built_console rx tx c : built ram_bytes c → built ram_bytes (create_console rx tx c)
  | built_block image c : built ram_bytes c → built ram_bytes (create_block image c)
  | built_net e mac st c : built ram_bytes c → built ram_bytes (create_net e mac st c)
  | built_gpu w h cb c : built ram_bytes c → built ram_bytes (create_gpu w h cb c)
  | built_keyboard c : built ram_bytes c → built ram_bytes (create_keyboard c)
  | built_tablet w h c : built ram_bytes c → built ram_bytes (create_tablet w h c).

Inductive reach (ram_bytes : Z) : VM → Prop :=
  | reach_boot kernel initrd c b c' b' :
      built ram_bytes c → from_option wf_file True kernel → from_option wf_file True (mjoin initrd) →
      wf_bytes (cmdline b) → boot kernel initrd c b = Ok (c', b') → reach ram_bytes c'
  | reach_exit alloc (V : Type) (HV : Hv V) fuel (v v' : V) c c' ex go :
      reach ram_bytes c →
      @handle V HV Con Blk Net Gpu Inp _ _ _ (VirtioGpu.Gpu_mmio alloc) _ fuel v c ex = Ok (go, v', c') →
      reach ram_bytes c'
  | reach_feed c d d' w' inp rest :
      reach ram_bytes c → console c = Some d →
      VirtioConsole.feed_rx d (world c) inp = Ok (d', w', rest) →
      reach ram_bytes (set_world (set_console c (Some d')) w')
  | reach_enqueue c d frame :
      reach ram_bytes c → net c = Some d → wf_bytes frame →
      reach ram_bytes (set_net c (Some (VirtioNet.enqueue_rx d frame)))
  | reach_flush c d d' w' fuel :
      reach ram_bytes c → net c = Some d → VirtioNet.rx_flush_one fuel d (world c) = Ok (d', w') →
      reach ram_bytes (set_world (set_net c (Some d')) w')
  | reach_key c d d' w' fuel code pressed :
      reach ram_bytes c → keyboard c = Some d →
      VirtioInput.send_key fuel code pressed d (world c) = Ok (d', w') →
      reach ram_bytes (set_world (set_keyboard c (Some d')) w')
  | reach_pointer c d d' w' fuel x y l r :
      reach ram_bytes c → tablet c = Some d →
      VirtioInput.send_pointer fuel x y l r d (world c) = Ok (d', w') →
      reach ram_bytes (set_world (set_tablet c (Some d')) w').

(** ** What the host-side operations keep *)
Section steps.
Import VirtioRegs.

Lemma feed_rx_step (d d' : Con) w w' inp rest :
  wf_regs VirtioConsole.kQueueSize (VirtioConsole.regs d) →
  VirtioConsole.feed_rx d w inp = Ok (d', w', rest) →
  wf_regs VirtioConsole.kQueueSize (VirtioConsole.regs d') ∧ ram_step (w_ram w) (w_ram w').
Proof.
  intros Hd H. unfold VirtioConsole.feed_rx in H.
  case_match; [by simplify_eq|]. case_match; [|by simplify_eq]. destruct p as [[dd a] u].
  inv_bind. case_match; [by simplify_eq|]. inv_bind.
  case_match; [|by simplify_eq]. case_match; [by simplify_eq|]. case_match; [by simplify_eq|].
  inv_bind. split; [by apply set_irq_wf, bump0_wf|]. cbn [w_ram with_ram raise_spi emit].
  etrans; [by eapply store_enc_wf | by eapply push_used_wf].
Qed.

Lemma rx_copy_step fuel : ∀ m d head cur buf frame wrote m' wrote',
  wf_bytes frame → VirtioNet.rx_copy fuel m d head cur buf frame wrote = Ok (m', wrote') →
  ram_step m m'.
Proof.
  induction fuel as [|fuel IH]; intros m d head cur buf frame wrote m' wrote' Hf H;
    cbn [VirtioNet.rx_copy] in H;
    (destruct frame as [|f0 fr]; [injection H as <- <-; reflexivity|]);
    (destruct buf as [b|]; [|injection H as <- <-; reflexivity]);
    apply bind_Ok_inv in H as (l & _ & H); apply bind_Ok_inv in H as (m1 & E & H);
    assert (ram_step m m1) as S1
      by (match type of E with (if ?b then _ else _) = _ => destruct b end;
          [eapply store_wf_step; [|exact E]; by apply wf_bytes_take|injection E as <-; reflexivity]);
    apply bind_Ok_inv in H as (f & _ & H);
    (match type of H with (if ?b then _ else _) = _ => destruct b end; [|by injection H as <- _]); [done|].
  inv_bind. etrans; [exact S1|]. eapply IH; [|exact H]. by apply wf_bytes_drop.
Qed.

Lemma rx_flush_step fuel (d d' : Net) w w' :
  wf_net d → VirtioNet.rx_flush_one fuel d w = Ok (d', w') → wf_net d' ∧ ram_step (w_ram w) (w_ram w').
Proof.
  intros [Hr Hq] H. unfold VirtioNet.rx_flush_one in H.
  destruct (VirtioNet.rx_queue d) as [|frame q] eqn:Eq.
  { injection H as <- <-. split; [|reflexivity]. split; [done|by rewrite Eq]. }
  apply Forall_cons in Hq as [Hf Hq]. unfold VirtioNet.do_feed_rx in H.
  assert (wf_net (VirtioNet.set_rx_queue d q)) as Hd by by split.
  case_match; [|injection H as <- <-; by split]. destruct p as [[dd a] u]. cbv zeta in H.
  apply bind_Ok_inv in H as (idx & _ & H). case_match; [injection H as <- <-; by split|].
  apply bind_Ok_inv in H as (hd & _ & H). apply bind_Ok_inv in H as (al & _ & H).
  apply bind_Ok_inv in H as (l & _ & H). apply bind_Ok_inv in H as ([m1 w1] & E1 & H).
  apply bind_Ok_inv in H as ([m2 w2] & E2 & H). apply bind_Ok_inv in H as (m3 & E3 & H).
  injection H as <- <-. split; [split; [by apply set_irq_wf, bump0_wf|done]|].
  cbn [w_ram with_ram raise_spi emit]. assert (ram_step (w_ram w) m1) as S1.
  { case_match; [|injection E1 as <- _; reflexivity]. case_match; [|injection E1 as <- _; reflexivity].
    apply bind_Ok_inv in E1 as (m4 & E4 & E1). injection E1 as <- _.
    eapply store_wf_step; [|exact E4]. by apply wf_bytes_replicate. }
  etrans; [exact S1|]. etrans; [by eapply rx_copy_step|]. by eapply push_used_wf.
Qed.

Lemma send_key_step fuel code p (d d' : Inp) w w' :
  VirtioInput.wf_input d → VirtioInput.send_key fuel code p d w = Ok (d', w') →
  VirtioInput.wf_input d' ∧ ram_step (w_ram w) (w_ram w') ∧ VirtioInput.spi_id d' = VirtioInput.spi_id d.
Proof.
  intros Hd H. destruct (VirtioInput.input_invariant fuel d d' w w' 0 0 0 code 0 0 p true true Hd)
    as [? ?]; [done|by auto|]. split_and!; try done. exact (proj1 (input_flush_log _ _ _ _ _ H)).
Qed.

Lemma send_pointer_step fuel x y l r (d d' : Inp) w w' :
  VirtioInput.wf_input d → VirtioInput.send_pointer fuel x y l r d w = Ok (d', w') →
  VirtioInput.wf_input d' ∧ ram_step (w_ram w) (w_ram w') ∧ VirtioInput.spi_id d' = VirtioInput.spi_id d.
Proof.
  intros Hd H. destruct (VirtioInput.input_invariant fuel d d' w w' 0 0 0 0 x y true l r Hd)
    as [? ?]; [done|by auto|]. split_and!; try done. exact (proj1 (input_flush_log _ _ _ _ _ H)).
Qed.
End steps.

(** ** Well-formed devices as constructed *)
Section constructed.
Lemma wf_Block0 fd (f : F) sz : VirtioBlockThms.wf_block (VirtioBlock.Block0 fd f sz).
Proof. by split. Qed.

Lemma wf_Input0 spi ty w h : VirtioInput.wf_input (VirtioInput.Input0 spi ty w h).
Proof.
  apply VirtioInput.update_config_wf. split; cbn; [by apply VirtioRegs.wf_Regs0|done|done].
Qed.

Lemma Input0_spi spi ty w h : VirtioInput.spi_id (VirtioInput.Input0 spi ty w h) = spi.
Proof. apply update_config_spi. Qed.

Lemma wf_Gpu0 w h cb : VirtioGpuThms.gpu_inv (VirtioGpu.Gpu0 w h cb).
Proof. split; [|constructor]. split; [by apply VirtioRegs.wf_Regs0|done|apply map_Forall_empty]. Qed.
End constructed.

(** The invariant: [vm_wf] and the RAM that [Memory::init] mapped.  It does not
    depend on the display's allocator, which only its operations use. *)
Definition vm_inv (alloc : Z → bool) (ram_bytes : Z) (c : VM) : Prop :=
  @vm_wf Con Blk Net Gpu Inp _ _ _ (VirtioGpu.Gpu_mmio alloc) _ _ _ _ (Gpu_laws alloc) _ c ∧
  ram_mapped (w_ram (world c)) = true ∧ ram_gpa (w_ram (world c)) = kGpaRamBase ∧
  ram_size (w_ram (world c)) = ram_bytes.

Lemma gpu_slot_wf alloc spi g :
  @slot_wf Gpu (VirtioGpu.Gpu_mmio alloc) (Gpu_laws alloc) spi g ↔
    match g with Some g => VirtioGpuThms.gpu_inv g ∧ kSpiGpu = spi | None => True end.
Proof. by destruct g. Qed.

Lemma vm_inv_alloc alloc alloc' R c : vm_inv alloc R c → vm_inv alloc' R c.
Proof.
  intros [[H1 H2 H3 H4 H5 H6 H7 H8] H]. split; [|exact H]. apply gpu_slot_wf in H6.
  split; [exact H1|exact H2|exact H3|exact H4|exact H5| |exact H7|exact H8]. by apply gpu_slot_wf.
Qed.

(** A step that keeps the slots well formed and steps memory. *)
Lemma vm_inv_step alloc R (c c' : VM) :
  vm_inv alloc R c → wf_ctx c' → ram_step (w_ram (world c)) (w_ram (world c')) →
  slot_wf kSpiConsole (console c') → slot_wf kSpiBlock (block c') → slot_wf kSpiNet (net c') →
  @slot_wf Gpu (VirtioGpu.Gpu_mmio alloc) (Gpu_laws alloc) kSpiGpu (gpu c') →
  slot_wf kSpiKeyboard (keyboard c') → slot_wf kSpiTablet (tablet c') → vm_inv alloc R c'.
Proof.
  intros [[] (H1 & H2 & H3)] Hc [(S1 & S2 & S3) Sw] ??????.
  split; [|split_and!; congruence]. split; try done. by apply Sw.
Qed.

Lemma memory_init_inv alloc R n s c :
  0 ≤ n → 0 ≤ R → kGpaRamBase + R < 2 ^ 64 →
  memory_init s R (Ctx0 n (mkWorld (mkRam false kGpaRamBase R ∅) [])) = (true, c) →
  vm_inv alloc R (init_vcpus c).
Proof.
  intros Hn HR He H. unfold memory_init in H. case_match; [done|]. injection H as _ <-.
  split; [|done]. split; try done. exact (wf_init_vcpus n _ Hn).
Qed.

(** An exit of a vCPU, whatever the display's allocator. *)
Lemma exit_inv alloc alloc' {V} {HV : Hv V} R fuel (v v' : V) (c c' : VM) ex go :
  vm_inv alloc R c →
  @handle V HV Con Blk Net Gpu Inp _ _ _ (VirtioGpu.Gpu_mmio alloc') _ fuel v c ex = Ok (go, v', c') →
  vm_inv alloc R c'.
Proof.
  intros Hc H. apply (vm_inv_alloc alloc'). apply (vm_inv_alloc alloc alloc') in Hc as [Hw (H1 & H2 & H3)].
  destruct (@handle_keeps Con Blk Net Gpu Inp _ _ _ (VirtioGpu.Gpu_mmio alloc') _ _ _ _
    (Gpu_laws alloc') _ V HV fuel v v' c c' ex go Hw H) as [Hw' [(S1 & S2 & S3) _] _ _].
  split; [exact Hw'|]. split_and!; congruence.
Qed.

(** A slot gets a (new) device, and memory steps to that of [w]. *)
Section set_slots.
Context (alloc : Z → bool) (R : Z) (c : VM) (w : World).
Context (Hc : vm_inv alloc R c) (Hw : ram_step (w_ram (world c)) (w_ram w)).

Lemma inv_set_console (d : Con) :
  dev_wf d → dev_spi d = kSpiConsole → vm_inv alloc R (set_world (set_console c (Some d)) w).
Proof. intros. pose proof Hc as [[] _]. eapply vm_inv_step; try done; by split. Qed.
Lemma inv_set_block (d : Blk) :
  dev_wf d → dev_spi d = kSpiBlock → vm_inv alloc R (set_world (set_block c (Some d)) w).
Proof. intros. pose proof Hc as [[] _]. eapply vm_inv_step; try done; by split. Qed.
Lemma inv_set_net (d : Net) :
  dev_wf d → dev_spi d = kSpiNet → vm_inv alloc R (set_world (set_net c (Some d)) w).
Proof. intros. pose proof Hc as [[] _]. eapply vm_inv_step; try done; by split. Qed.
Lemma inv_set_keyboard (d : Inp) :
  dev_wf d → dev_spi d = kSpiKeyboard → vm_inv alloc R (set_world (set_keyboard c (Some d)) w).
Proof. intros. pose proof Hc as [[] _]. eapply vm_inv_step; try done; by split. Qed.
Lemma inv_set_tablet (d : Inp) :
  dev_wf d → dev_spi d = kSpiTablet → vm_inv alloc R (set_world (set_tablet c (Some d)) w).
Proof. intros. pose proof Hc as [[] _]. eapply vm_inv_step; try done; by split. Qed.
Lemma inv_set_gpu (d : Gpu) :
  VirtioGpuThms.gpu_inv d → vm_inv alloc R (set_world (set_gpu c (Some d)) w).
Proof. intros. pose proof Hc as [[] _]. eapply vm_inv_step; try done; by apply gpu_slot_wf. Qed.
End set_slots.

(** A machine being built is well formed but for its vCPUs, which do not exist yet. *)
Lemma built_inv alloc R c :
  0 ≤ R → kGpaRamBase + R < 2 ^ 64 → built R c → vm_inv alloc R (init_vcpus c).
Proof.
  intros HR He H. induction H as [n s c Hn Hm|c pl _ IH|rx tx c _ IH|[[fd f] sz] c _ IH|e mac st c _ IH
    |w h cb c _ IH|c _ IH|w h c _ IH].
  - by eapply memory_init_inv.
  - destruct IH as [[H1 H2 H3 H4 H5 H6 H7 H8] H0]. split; [|exact H0].
    split; [exact H1|exact H2|exact H3|exact H4|exact H5|exact H6|exact H7|exact H8].
  - by apply (inv_set_console alloc R (init_vcpus c) (world c) IH (reflexivity _)).
  - apply (inv_set_block alloc R (init_vcpus c) (world c) IH (reflexivity _)); [apply wf_Block0|done].
  - unfold create_net. destruct e; [|done].
    apply (inv_set_net alloc R (init_vcpus c) (world c) IH (reflexivity _)); [|done]. split; [|constructor].
    by apply VirtioRegs.wf_Regs0.
  - apply (inv_set_gpu alloc R (init_vcpus c) (world c) IH (reflexivity _)); [apply wf_Gpu0].
  - apply (inv_set_keyboard alloc R (init_vcpus c) (world c) IH (reflexivity _)); [apply wf_Input0|apply Input0_spi].
  - apply (inv_set_tablet alloc R (init_vcpus c) (world c) IH (reflexivity _)); [apply wf_Input0|apply Input0_spi].
Qed.

Lemma boot_inv alloc R kernel initrd c b c' b' :
  vm_inv alloc R (init_vcpus c) → from_option wf_file True kernel → from_option wf_file True (mjoin initrd) →
  wf_bytes (cmdline b) → boot kernel initrd c b = Ok (c', b') → vm_inv alloc R c'.
Proof.
  intros Hc Hk Hi Hb H. destruct (boot_step _ _ _ _ _ _ H) as (m' & -> & Hs).
  specialize (Hs Hk Hi Hb).
  pose proof Hc as [[] _]. by eapply vm_inv_step.
Qed.
End Create.

(** ** Properties *)

