(* ===== verification/MachineWit.v ===== *)
(** * MachineWit: a complete machine for the theorems of Machine and Create *)

From stdpp Require Import strings.
From S2P Require Import Prelude Bytes GuestMem Virtq World Hypervisor VmContext Psci ExitHandler Devices Fdt Boot BootThms BootMachine BootWit Machine Create VirtioRegs VirtioConsole VirtioInput VirtioBlock DiskImage VirtioNet VirtioGpu VirtioGpuThms.

Definition mx_alloc : Z → bool := λ _, true.
#[local] Instance mx_gpu : MmioDevice Gpu := Gpu_mmio mx_alloc.
#[local] Instance mx_gpu_laws : DeviceLaws Gpu := Gpu_laws mx_alloc.

Abbreviation MxVM := (@VM bytes StackOn).

(** Two vCPUs and 256 MiB; console, display and keyboard; no disk, no network,
    no tablet. *)
Definition mx_sys : MemSys := mkMemSys true true true true true.
Definition mx_start : MxVM :=
  (memory_init mx_sys 0x10000000 (Ctx0 2 (mkWorld (mkRam false kGpaRamBase 0x10000000 ∅) []))).2.
Definition mx_built : MxVM :=
  create_keyboard (create_gpu 640 480 true (create_console (-1) 4 mx_start)).
(** Its vCPUs made, nothing booted. *)
Definition mx_vm : MxVM := init_vcpus mx_built.

(** The guest writes DRIVER to the display's status register from X3. *)
Definition mx_cpu : RegFile := mkRegFile {[3 := 2; 31 := 0x1000]} ∅ false.
Definition mx_exit : Exit :=
  mkExit HV_EXIT_REASON_EXCEPTION
    (Z.shiftl kEcDabtLower 26 + Z.shiftl 2 22 + Z.shiftl 3 16 + 64) (kGpaVirtioGpu + Reg.Status) 0.
Definition mx_result : RegFile * MxVM :=
  match handle 1 mx_cpu mx_vm mx_exit with Ok (_, v, c) => (v, c) | Err _ => (mx_cpu, mx_vm) end.

Lemma mx_handle : handle 1 mx_cpu mx_vm mx_exit = Ok (true, mx_result.1, mx_result.2).
Proof. by vm_compute. Qed.

Lemma mx_built_ok : built 0x10000000 mx_built.
Proof. apply built_keyboard, built_gpu, built_console. by apply (built_init _ 2 mx_sys). Qed.

Lemma mx_wf : vm_wf mx_vm.
Proof. exact (proj1 (built_inv mx_alloc 0x10000000 mx_built ltac:(done) ltac:(done) mx_built_ok)). Qed.

Lemma vm_exit_keeps_witness : vm_keeps mx_vm mx_result.2.
Proof. exact (vm_exit_keeps 1 mx_cpu mx_result.1 mx_vm mx_result.2 mx_exit true mx_wf mx_handle). Defined.

(** The machine booted with the kernel and the initrd of BootWit. *)
Lemma mx_layout : layout_ok (w_ram (world mx_built)) bx_kernel bx_initrd.
Proof. exact bx_layout. Qed.


(** A 32-bit read of the display's first register into X2. *)
Definition mx_probe : Exit :=
  mkExit HV_EXIT_REASON_EXCEPTION (Z.shiftl kEcDabtLower 26 + Z.shiftl 2 22 + Z.shiftl 2 16)
    kGpaVirtioGpu 0.

