(* ===== verification/Logger.v ===== *)
(** * Logger: the console logger

    Models src/include/logger.hpp.  The state is the pending partial guest line
    [g_pending]; the effects are the [::write] and [::fsync] calls, in order
    (their results are ignored by the code).  Every operation runs under
    [g_mtx], so a run of the process is a sequence of operations.  Formatting
    is [vsnprintf]'s: a message is the text it produces. *)

From S2P Require Import Prelude Bytes.

Definition STDOUT_FILENO : Z := 1.
Definition STDERR_FILENO : Z := 2.
Definition CR : Z := 13.
Definition LF : Z := 10.
Definition crlf : bytes := [CR; LF].

Inductive Call : Type :=
  | Write (fd : Z) (data : bytes)
  | Sync (fd : Z).

Record Logger := mkLogger {
  g_pending : bytes;
  calls : list Call;
}.
Definition Logger0 : Logger := mkLogger [] [].
Definition do_call (s : Logger) (cs : list Call) : Logger := mkLogger (g_pending s) (calls s ++ cs).

(** [memchr(p, '\n', n)]: the bytes before the first line feed, and those after. *)
Fixpoint memchr_lf (p : bytes) : bytes * option bytes :=
  match p with
  | [] => ([], None)
  | c :: p => if c =? LF then ([], Some p)
              else let '(pre, post) := memchr_lf p in (c :: pre, post)
  end.

(** [raw_emit]; every round consumes a line feed, so one round per byte and
    the final test are enough ([raw_emit_text] below). *)
Fixpoint raw_emit_loop (fuel : nat) (fd : Z) (p : bytes) : res (list Call) :=
  match p with
  | [] => Ok []
  | _ =>
      match fuel with
      | O => Err OutOfFuel
      | S fuel =>
          match memchr_lf p with
          | (pre, None) => Ok [Write fd pre]
          | (pre, Some post) =>
              cs ← raw_emit_loop fuel fd post; Ok (Write fd pre :: Write fd crlf :: cs)
          end
      end
  end.
Definition raw_emit (fd : Z) (data : bytes) (s : Logger) : res Logger :=
  do_call s <$> raw_emit_loop (length data) fd data.

Definition flush_pending (s : Logger) : Logger :=
  match g_pending s with
  | [] => s
  | _ => mkLogger [] (calls s ++ [Write STDOUT_FILENO (g_pending s); Write STDOUT_FILENO crlf])
  end.

(** [vlog] with the text [vsnprintf] makes of the format; nothing happens for
    an empty one. *)
Definition vlog (prefix : option bytes) (text : bytes) (s : Logger) : res Logger :=
  match text with
  | [] => Ok s
  | _ =>
      let s := flush_pending s in
      s ← match prefix with Some p => raw_emit STDERR_FILENO p s | None => Ok s end;
      raw_emit STDERR_FILENO text s
  end.

Definition shutdown (s : Logger) : Logger :=
  do_call (flush_pending s) [Sync STDOUT_FILENO; Sync STDERR_FILENO].

Definition info_prefix : bytes := [91; 105; 110; 102; 111; 93; 32].
Definition warn_prefix : bytes := [91; 119; 97; 114; 110; 93; 32].
Definition error_prefix : bytes := [91; 101; 114; 114; 111; 114; 93; 32].
Definition Info (text : bytes) (s : Logger) : res Logger := vlog (Some info_prefix) text s.
Definition Warn (text : bytes) (s : Logger) : res Logger := vlog (Some warn_prefix) text s.
Definition Error (text : bytes) (s : Logger) : res Logger := vlog (Some error_prefix) text s.

(** [logger::write]: one character of guest output. *)
Definition write_char (s : Logger) (c : Z) : Logger :=
  if c =? CR then s
  else if c =? LF then
    mkLogger [] (calls s ++ [Write STDOUT_FILENO (g_pending s); Write STDOUT_FILENO crlf])
  else mkLogger (g_pending s ++ [c]) (calls s).
Definition write (data : bytes) (s : Logger) : Logger := foldl write_char s data.

(** ** Runs *)
Inductive Op : Type :=
  | OWrite (data : bytes)
  | OInfo (text : bytes)
  | OWarn (text : bytes)
  | OError (text : bytes)
  | OShutdown.

Definition run_op (s : Logger) (o : Op) : res Logger :=
  match o with
  | OWrite d => Ok (write d s)
  | OInfo t => Info t s
  | OWarn t => Warn t s
  | OError t => Error t s
  | OShutdown => Ok (shutdown s)
  end.
Fixpoint run (s : Logger) (os : list Op) : res Logger :=
  match os with [] => Ok s | o :: os => s ← run_op s o; run s os end.

(** ** What reaches the two streams *)

(** The bytes written to [fd]. *)
Definition stream (fd : Z) (cs : list Call) : bytes :=
  mjoin ((λ c, match c with Write f d => if f =? fd then d else [] | Sync _ => [] end) <$> cs).

(** A text with every line feed preceded by a carriage return. *)
Definition to_crlf (t : bytes) : bytes := mjoin ((λ c, if c =? LF then crlf else [c]) <$> t).

(** Guest output, and log messages, of a run. *)
Definition guest_text (os : list Op) : bytes :=
  mjoin ((λ o, match o with OWrite d => d | _ => [] end) <$> os).
Definition log_text (os : list Op) : bytes :=
  mjoin ((λ o, match o with
               | OInfo ((_ :: _) as t) => info_prefix ++ t
               | OWarn ((_ :: _) as t) => warn_prefix ++ t
               | OError ((_ :: _) as t) => error_prefix ++ t
               | _ => [] end) <$> os).
Definition visible (t : bytes) : bytes := filter (λ c, c ≠ CR ∧ c ≠ LF) t.

Section lemmas.
Lemma mjoin_one {A} (x : list A) : mjoin [x] = x.
Proof. apply app_nil_r. Qed.

Lemma stream_app fd cs cs' : stream fd (cs ++ cs') = stream fd cs ++ stream fd cs'.
Proof. unfold stream. by rewrite fmap_app, join_app. Qed.

Lemma stream_write fd f d cs : stream fd (Write f d :: cs) = (if f =? fd then d else []) ++ stream fd cs.
Proof. done. Qed.

Lemma to_crlf_app t t' : to_crlf (t ++ t') = to_crlf t ++ to_crlf t'.
Proof. unfold to_crlf. by rewrite fmap_app, join_app. Qed.

Lemma visible_app t t' : visible (t ++ t') = visible t ++ visible t'.
Proof. apply filter_app. Qed.

(** The search splits at the first line feed. *)
Lemma memchr_lf_spec p :
  match memchr_lf p with
  | (pre, None) => p = pre ∧ to_crlf p = pre
  | (pre, Some post) => p = pre ++ LF :: post ∧ to_crlf p = pre ++ crlf ++ to_crlf post
  end.
Proof.
  induction p as [|c p IH]; [done|]. cbn [memchr_lf].
  change (c :: p) with ([c] ++ p). rewrite to_crlf_app. change (to_crlf [c]) with ((if c =? LF then crlf else [c]) ++ []).
  rewrite app_nil_r. destruct (Z.eqb_spec c LF) as [->|_]; [done|].
  destruct (memchr_lf p) as [pre [post|]]; destruct IH as [E1 E2]; rewrite E2; by rewrite E1 at 1.
Qed.

(** [raw_emit] ends, and what it writes is the text with CRLF line ends. *)
Lemma raw_emit_loop_ok fd fuel : ∀ p, (length p ≤ fuel)%nat →
  ∃ cs, raw_emit_loop fuel fd p = Ok cs ∧ stream fd cs = to_crlf p ∧
    ∀ fd', fd' ≠ fd → stream fd' cs = [].
Proof.
  induction fuel as [|fuel IH]; intros p Hl; (destruct p as [|c p]; [by exists []|]); [cbn in Hl; lia|].
  cbn [raw_emit_loop]. pose proof (memchr_lf_spec (c :: p)) as Hs.
  destruct (memchr_lf (c :: p)) as [pre [post|]]; destruct Hs as [E1 E2]; rewrite E2.
  - destruct (IH post) as (cs & -> & Es & Eo).
    { apply (f_equal length) in E1. rewrite length_app in E1. cbn [length] in *. lia. }
    eexists. split; [done|]. rewrite !stream_write, Z.eqb_refl, Es. split; [done|].
    intros fd' Hn. by rewrite !stream_write, (proj2 (Z.eqb_neq fd fd')), Eo by done.
  - eexists. split; [done|]. rewrite stream_write, Z.eqb_refl, app_nil_r. split; [done|].
    intros fd' Hn. by rewrite stream_write, (proj2 (Z.eqb_neq fd fd')) by done.
Qed.

Lemma raw_emit_ok fd data s :
  ∃ s', raw_emit fd data s = Ok s' ∧ g_pending s' = g_pending s ∧
    stream fd (calls s') = stream fd (calls s) ++ to_crlf data ∧
    ∀ fd', fd' ≠ fd → stream fd' (calls s') = stream fd' (calls s).
Proof.
  destruct (raw_emit_loop_ok fd (length data) data) as (cs & E & Es & Eo); [done|].
  unfold raw_emit. rewrite E. eexists. split; [done|]. cbn [g_pending calls do_call].
  rewrite stream_app, Es. split_and!; [done..|]. intros fd' Hn. by rewrite stream_app, Eo, app_nil_r.
Qed.
End lemmas.

(** ** The abstract logger: finished lines and the line being typed *)
Definition Lines : Type := list bytes * bytes.

Definition lines_char (l : Lines) (c : Z) : Lines :=
  if c =? CR then l else if c =? LF then (l.1 ++ [l.2], []) else (l.1, l.2 ++ [c]).
Definition lines_flush (l : Lines) : Lines :=
  match l.2 with [] => l | _ => (l.1 ++ [l.2], []) end.
Definition lines_op (l : Lines) (o : Op) : Lines :=
  match o with
  | OWrite d => foldl lines_char l d
  | OInfo [] | OWarn [] | OError [] => l
  | _ => lines_flush l
  end.

Section refinement.

(** A concrete state, its abstract lines, and what the log has shown. *)
Record shows (s : Logger) (l : Lines) (logged : bytes) : Prop := {
  sh_pending : g_pending s = l.2;
  sh_out : stream STDOUT_FILENO (calls s) = mjoin ((.++ crlf) <$> l.1);
  sh_err : stream STDERR_FILENO (calls s) = to_crlf logged;
}.

Lemma shows_line s l g d :
  shows s l g → d = l.2 →
  shows (mkLogger [] (calls s ++ [Write STDOUT_FILENO d; Write STDOUT_FILENO crlf])) (l.1 ++ [l.2], []) g.
Proof.
  intros [H1 H2 H3] ->. split; cbn [g_pending calls fst snd]; [done| |].
  - rewrite stream_app, H2, fmap_app, join_app. f_equal.
    cbn [fmap list_fmap]. rewrite mjoin_one. cbn. by rewrite ?app_nil_r.
  - rewrite stream_app, H3. cbn. by rewrite ?app_nil_r.
Qed.

Lemma shows_char s l g c : shows s l g → shows (write_char s c) (lines_char l c) g.
Proof.
  intros H. unfold write_char, lines_char. destruct (c =? CR); [done|].
  destruct (c =? LF); [apply shows_line; [done | by destruct H]|].
  destruct H as [H1 H2 H3]. split; cbn; [by rewrite H1|done|done].
Qed.

Lemma shows_write d : ∀ s l g, shows s l g → shows (write d s) (foldl lines_char l d) g.
Proof. induction d as [|c d IH]; intros s l g H; [done|]. by apply IH, shows_char. Qed.

Lemma shows_flush s l g : shows s l g → shows (flush_pending s) (lines_flush l) g.
Proof.
  intros H. unfold flush_pending, lines_flush. pose proof (sh_pending _ _ _ H) as E. rewrite E.
  destruct l as [ls [|c cur]]; [done|]. by apply shows_line.
Qed.

Lemma shows_emit s l g data :
  shows s l g → ∃ s', raw_emit STDERR_FILENO data s = Ok s' ∧ shows s' l (g ++ data).
Proof.
  intros [H1 H2 H3]. destruct (raw_emit_ok STDERR_FILENO data s) as (s' & E & E1 & E2 & E3).
  exists s'. split; [done|]. split; [congruence|by rewrite E3|]. by rewrite E2, H3, to_crlf_app.
Qed.

Lemma shows_vlog s l g p c t : shows s l g →
  ∃ s', vlog (Some p) (c :: t) s = Ok s' ∧ shows s' (lines_flush l) (g ++ p ++ c :: t).
Proof.
  intros H. destruct (shows_emit _ _ _ p (shows_flush _ _ _ H)) as (s1 & E1 & H1).
  destruct (shows_emit _ _ _ (c :: t) H1) as (s2 & E2 & H2). exists s2. cbn [vlog].
  rewrite E1. cbn [mbind res_bind]. rewrite <- app_assoc in H2. done.
Qed.

Lemma shows_op s l g o : shows s l g →
  ∃ s', run_op s o = Ok s' ∧ shows s' (lines_op l o) (g ++ log_text [o]).
Proof.
  intros H. assert (shows s l (g ++ [])) as Hn by by rewrite app_nil_r.
  destruct o as [d|[|c t]|[|c t]|[|c t]|]; cbn [run_op lines_op]; try (by exists s).
  - exists (write d s). split; [done|]. by apply shows_write.
  - destruct (shows_vlog s l g info_prefix c t H) as (s' & E & H'). exists s'. split; [done|].
    unfold log_text. cbn [fmap list_fmap]. rewrite mjoin_one. exact H'.
  - destruct (shows_vlog s l g warn_prefix c t H) as (s' & E & H'). exists s'. split; [done|].
    unfold log_text. cbn [fmap list_fmap]. rewrite mjoin_one. exact H'.
  - destruct (shows_vlog s l g error_prefix c t H) as (s' & E & H'). exists s'. split; [done|].
    unfold log_text. cbn [fmap list_fmap]. rewrite mjoin_one. exact H'.
  - exists (shutdown s). split; [done|]. apply shows_flush in Hn as [H1 H2 H3].
    change (log_text [OShutdown]) with (@nil Z). cbn [lines_op].
    split; cbn [shutdown do_call g_pending calls]; [done|rewrite stream_app, H2; apply app_nil_r|].
    rewrite stream_app, H3. apply app_nil_r.
Qed.

(** The abstract lines keep every visible byte of the guest, in order. *)
Lemma lines_char_visible l c :
  mjoin (lines_char l c).1 ++ (lines_char l c).2 = mjoin l.1 ++ l.2 ++ visible [c].
Proof.
  unfold lines_char, visible. rewrite filter_cons, filter_nil.
  destruct (Z.eqb_spec c CR) as [->|H1]; [rewrite decide_False by tauto; by rewrite app_nil_r|].
  destruct (Z.eqb_spec c LF) as [->|H2]; [rewrite decide_False by tauto|rewrite decide_True by done].
  - cbn [fst snd]. by rewrite join_app, mjoin_one, !app_nil_r.
  - done.
Qed.

Lemma lines_write_visible d : ∀ l,
  mjoin (foldl lines_char l d).1 ++ (foldl lines_char l d).2 = mjoin l.1 ++ l.2 ++ visible d.
Proof.
  induction d as [|c d IH]; intros l; cbn [foldl]; [by rewrite app_nil_r|].
  rewrite IH. change (c :: d) with ([c] ++ d). rewrite visible_app, app_assoc, lines_char_visible.
  by rewrite <- !app_assoc.
Qed.

Lemma lines_flush_visible l : mjoin (lines_flush l).1 ++ (lines_flush l).2 = mjoin l.1 ++ l.2.
Proof.
  unfold lines_flush. destruct l as [ls [|c cur]]; [done|]. cbn [fst snd].
  by rewrite join_app, mjoin_one, app_nil_r.
Qed.

Lemma lines_op_visible l o :
  mjoin (lines_op l o).1 ++ (lines_op l o).2 = mjoin l.1 ++ l.2 ++ visible (guest_text [o]).
Proof.
  destruct o as [d|[|c t]|[|c t]|[|c t]|]; cbn [lines_op]; try (by rewrite app_nil_r);
    [|by rewrite app_nil_r; apply lines_flush_visible..].
  unfold guest_text. cbn [fmap list_fmap]. rewrite mjoin_one. apply lines_write_visible.
Qed.
End refinement.

(** C34. The logger shows lines.  Whatever sequence of guest output chunks and log
    messages runs, however the output is cut into chunks, it runs to its end and
    implements the abstract logger: standard output is the finished guest lines,
    each ended by CRLF, so a log message never splits one; the unfinished line is
    what is pending; the lines and the pending text are exactly the guest's
    visible bytes in order; standard error is the messages with their prefixes
    and CRLF line ends. *)
Theorem logger_refines (os : list Op) :
  ∃ s, run Logger0 os = Ok s ∧
    let '(ls, cur) := foldl lines_op ([], []) os in
    g_pending s = cur ∧
    stream STDOUT_FILENO (calls s) = mjoin ((.++ crlf) <$> ls) ∧
    stream STDERR_FILENO (calls s) = to_crlf (log_text os) ∧
    mjoin ls ++ cur = visible (guest_text os).
Proof.
  assert (∀ os s l g, shows s l g → ∃ s', run s os = Ok s' ∧
    shows s' (foldl lines_op l os) (g ++ log_text os) ∧
    mjoin (foldl lines_op l os).1 ++ (foldl lines_op l os).2 = mjoin l.1 ++ l.2 ++ visible (guest_text os))
    as Hrun.
  { clear os. induction os as [|o os IH]; intros s l g H; [exists s; by rewrite !app_nil_r|].
    destruct (shows_op s l g o H) as (s1 & E1 & H1). destruct (IH s1 _ _ H1) as (s2 & E2 & H2 & Hv).
    exists s2. cbn [run foldl]. rewrite E1. split; [exact E2|].
    change (log_text (o :: os)) with (log_text ([o] ++ os)).
    change (guest_text (o :: os)) with (guest_text ([o] ++ os)).
    unfold log_text, guest_text in *. rewrite !fmap_app, !join_app. rewrite app_assoc. split; [exact H2|].
    rewrite Hv, app_assoc, lines_op_visible, visible_app. unfold guest_text. by rewrite <- !app_assoc. }
  destruct (Hrun os Logger0 ([], []) []) as (s & E & [H1 H2 H3] & Hv); [done|].
  exists s. split; [done|]. destruct (foldl lines_op ([], []) os) as [ls cur]. done.
Qed.
