(* ===== verification/Cli.v ===== *)
(** * Cli: the command line of vm-cli

    Models src/cli/main.cpp up to the call of [compute::vm::Create]: the
    argument parser [Args], [parse_forward], and the configuration [main]
    builds.  The configuration is a record of what the JSON object holds.
    What [main] does with it is in Session.  Usage and warning texts are not
    modelled. *)

From stdpp Require Import strings.
From S2P Require Import Prelude Bytes Fdt Boot.

(** ** Strings *)
Definition starts_with (a p : bytes) : bool := bool_decide (take (length p) a = p).

(** [s.find(c)], as the pieces before and after the first [c]. *)
Fixpoint find_char (c : Z) (s : bytes) : option (bytes * bytes) :=
  match s with
  | [] => None
  | x :: s => if x =? c then Some ([], s)
              else '(l, r) ← find_char c s; Some (x :: l, r)
  end.

(** ** [std::stoi]: white space, a sign, decimal digits; the rest is ignored.
    It throws when there is no digit or the value does not fit an [int]. *)
Definition is_space (c : Z) : bool := (c =? 32) || ((9 <=? c) && (c <=? 13)).
Definition is_digit (c : Z) : bool := (48 <=? c) && (c <=? 57).

Fixpoint skip_space (s : bytes) : bytes :=
  match s with c :: s' => if is_space c then skip_space s' else s | [] => [] end.

(** The value of the leading digits after [acc], and what follows them. *)
Fixpoint scan_digits (acc : Z) (s : bytes) : Z * bytes :=
  match s with
  | c :: s' => if is_digit c then scan_digits (acc * 10 + (c - 48)) s' else (acc, s)
  | [] => (acc, [])
  end.

Definition scan_sign (s : bytes) : bool * bytes :=
  match s with
  | c :: s' => if c =? 45 then (true, s') else if c =? 43 then (false, s') else (false, s)
  | [] => (false, [])
  end.

Definition stoi (s : bytes) : res Z :=
  let '(neg, s) := scan_sign (skip_space s) in
  match s with
  | c :: _ =>
      if negb (is_digit c) then Err Thrown else
      let v := (scan_digits 0 s).1 in
      let v := if neg : bool then - v else v in
      if (-2 ^ 31 <=? v) && (v <? 2 ^ 31) then Ok v else Err Thrown
  | [] => Err Thrown
  end.

(** ** [Args] *)
Module Args.
Definition dashes (key : string) : bytes := cs "--" ++ cs key.

Fixpoint get (argv : list bytes) (key : string) (fallback : bytes) : bytes :=
  match argv with
  | [] => fallback
  | a :: rest =>
      if starts_with a (dashes key ++ cs "=") then drop (length (dashes key ++ cs "=")) a
      else match rest with
           | v :: _ => if bool_decide (a = dashes key) then v else get rest key fallback
           | [] => fallback
           end
  end.

Definition get_all (argv : list bytes) (key : string) : list bytes :=
  omap (λ a, if starts_with a (dashes key ++ cs "=")
             then Some (drop (length (dashes key ++ cs "=")) a) else None) argv.

Definition flag (argv : list bytes) (key : string) : bool :=
  let v := get argv key [] in
  bool_decide (v = cs "true") || bool_decide (v = cs "1") || bool_decide (v = cs "on")
    || bool_decide (v = []).

Definition present (argv : list bytes) (key : string) : bool :=
  existsb (λ a, bool_decide (a = dashes key) || starts_with a (dashes key ++ cs "=")) argv.
End Args.

(** ** Port forwards *)
Record PortForward := mkForward { host_port : Z; guest_port : Z }.

Definition parse_forward (s : bytes) : option PortForward :=
  match find_char 58 s with
  | None => None
  | Some (h, g) =>
      match stoi h, stoi g with
      | Ok h, Ok g => Some (mkForward (u16 h) (u16 g))
      | _, _ => None
      end
  end.

(** ** The configuration *)
Record DirectBoot := mkDirect { d_kernel : bytes; d_initrd : option bytes; d_cmdline : bytes }.
Record Config := mkConfig {
  engine : bytes;
  name : bytes;
  cpu_count : Z;
  ram_size : bytes;
  disk_size : bytes;
  image : bytes;
  direct : option DirectBoot;
  display : option (Z * Z);
  network : option (option (list PortForward));
  serial : list (Z * bytes);
}.

Definition default_cmdline : bytes :=
  cs "console=ttyAMA0,115200 earlycon=pl011,0x9000000 root=/dev/vda1 ro".

Definition direct_boot (argv : list bytes) : option DirectBoot :=
  match Args.get argv "kernel" [] with
  | [] => None
  | kernel =>
      Some (mkDirect kernel
        (match Args.get argv "initrd" [] with [] => None | i => Some i end)
        (Args.get argv "cmdline" default_cmdline))
  end.

(** [Ok None]: the [WxH] error. *)
Definition display_of (argv : list bytes) : res (option (option (Z * Z))) :=
  match Args.get argv "display" [] with
  | [] => Ok (Some None)
  | s => match find_char 120 s with
         | None => Ok None
         | Some (w, h) => w ← stoi w; h ← stoi h; Ok (Some (Some (w, h)))
         end
  end.

Definition network_of (argv : list bytes) : option (option (list PortForward)) :=
  if Args.present argv "network" then
    Some (match Args.get_all argv "forward" with
          | [] => None
          | fs => Some (omap parse_forward fs)
          end)
  else None.

Definition channel_name (vm : bytes) (i : Z) : bytes := vm ++ cs "-serial-" ++ dec32 i.
Definition serial_of (vm : bytes) (n : Z) : list (Z * bytes) :=
  (λ i, (Z.of_nat i, channel_name vm (Z.of_nat i))) <$> seq 0 (Z.to_nat n).

(** [main] up to [Create]: an exit code, or the configuration.  An exception
    here is outside the [try] block, so it terminates the process:
    [Err Thrown]. *)
Definition main (argv : list bytes) : res (Z + Config) :=
  match argv with
  | _ :: ((cmd :: _) as argv) =>
      if negb (bool_decide (cmd = cs "run")) then Ok (inl 1) else
      match Args.get argv "image" [] with
      | [] => Ok (inl 1)
      | image =>
          let vm_name := Args.get argv "name" (cs "vm") in
          let engine := Args.get argv "engine" (cs "vz") in
          serial_n ← stoi (Args.get argv "serial" (cs "0"));
          cpu ← stoi (Args.get argv "cpu" (cs "1"));
          d ← display_of argv;
          match d with
          | None => Ok (inl 1)
          | Some d =>
              Ok (inr (mkConfig engine vm_name cpu
                (Args.get argv "ram" (cs "2GB")) (Args.get argv "disk" (cs "20GB")) image
                (direct_boot argv) d (network_of argv) (serial_of vm_name serial_n)))
          end
      end
  | _ => Ok (inl 1)
  end.

(** ** Decimal numbers *)
Section decimal.

Lemma digit_is_digit d : 0 ≤ d < 10 → is_digit (digit d) = true ∧ digit d - 48 = d.
Proof. unfold digit, is_digit. intros ?. rewrite (proj2 (Z.ltb_lt d 10)) by lia. lia. Qed.

Lemma digits_digits fuel : ∀ x acc, 0 ≤ x →
  Forall (λ c, is_digit c = true) acc → Forall (λ c, is_digit c = true) (digits fuel 10 x acc).
Proof.
  induction fuel as [|fuel IH]; intros x acc Hx Ha; [done|]. cbn [digits].
  assert (Forall (λ c, is_digit c = true) (digit (x mod 10) :: acc)).
  { constructor; [|done]. apply digit_is_digit, Z.mod_pos_bound. lia. }
  destruct (x <? 10); [done|]. apply IH; [|done]. by apply Z.div_pos.
Qed.

(** Scanning what [digits] prints accumulates the number. *)
Lemma scan_digits_digits fuel : ∀ x acc, 0 ≤ x < 10 ^ Z.of_nat fuel →
  scan_digits 0 (digits fuel 10 x acc) = scan_digits x acc.
Proof.
  induction fuel as [|fuel IH]; intros x acc Hx; [cbn in *; by assert (x = 0) as -> by lia|].
  cbn [digits]. rewrite Nat2Z.inj_succ, Z.pow_succ_r in Hx by lia.
  destruct (digit_is_digit (x mod 10)) as [Hd Hv]; [apply Z.mod_pos_bound; lia|].
  destruct (Z.ltb_spec x 10) as [Hs|Hl].
  - cbn [scan_digits]. rewrite Hd, Hv. f_equal. rewrite Z.mod_small; lia.
  - rewrite IH. 2:{ split; [by apply Z.div_pos; lia|]. apply Z.div_lt_upper_bound; lia. }
    cbn [scan_digits]. rewrite Hd, Hv. f_equal. pose proof (Z.div_mod x 10). lia.
Qed.

Lemma dec32_cons n : 0 ≤ n → ∃ c r, dec32 n = c :: r ∧ is_digit c = true.
Proof.
  intros Hn. assert (length (dec32 n) ≠ 0%nat) as Hl.
  { unfold dec32. generalize (@nil Z). generalize n. cbn [digits].
    enough (∀ fuel x acc, acc ≠ [] → length (digits fuel 10 x acc) ≠ 0%nat) as H.
    { intros m acc. destruct (m <? 10); [done|]. by apply (H 9%nat). }
    induction fuel as [|fuel IH]; intros x acc Ha; cbn [digits]; [by destruct acc|].
    destruct (x <? 10); [done | by apply IH]. }
  pose proof (digits_digits 10 n [] Hn (List.Forall_nil _)) as Hf. fold (dec32 n) in Hf.
  destruct (dec32 n) as [|c r]; [done|]. exists c, r. by inversion Hf.
Qed.

Lemma digit_not_space c : is_digit c = true →
  is_space c = false ∧ (c =? 45) = false ∧ (c =? 43) = false.
Proof. unfold is_digit, is_space. lia. Qed.

(** [std::stoi] reads back what [std::to_string] prints. *)
Lemma stoi_dec32 n : 0 ≤ n < 2 ^ 31 → stoi (dec32 n) = Ok n.
Proof.
  intros Hn. pose proof (scan_digits_digits 10 n [] ltac:(lia)) as Hs. fold (dec32 n) in Hs.
  destruct (dec32_cons n) as (c & r & E & Hc); [lia|]. rewrite E in *. unfold stoi.
  destruct (digit_not_space _ Hc) as (H1 & H2 & H3).
  cbn [skip_space]. rewrite H1. cbn [scan_sign]. rewrite H2, H3.
  rewrite Hc. cbn [negb]. rewrite Hs. cbn [scan_digits fst].
  replace ((-2 ^ 31 <=? n) && (n <? 2 ^ 31)) with true by lia. done.
Qed.

Lemma find_char_app c l r : c ∉ l → find_char c (l ++ c :: r) = Some (l, r).
Proof.
  induction l as [|x l IH]; intros Hn; cbn [find_char app]; [by rewrite Z.eqb_refl|].
  apply not_elem_of_cons in Hn as [H1 H2]. rewrite (proj2 (Z.eqb_neq x c)) by done. by rewrite IH.
Qed.

Lemma dec32_no c n : 0 ≤ n → is_digit c = false → c ∉ dec32 n.
Proof.
  intros Hn Hc Hin. pose proof (digits_digits 10 n [] Hn (List.Forall_nil _)) as Hf.
  rewrite Forall_forall in Hf. specialize (Hf c Hin). congruence.
Qed.
End decimal.

(** ** Command lines of [--key=value] options and bare [--key] flags *)
Inductive Opt : Type :=
  | Val (key : string) (value : bytes)
  | Bare (key : string).

Definition render (o : Opt) : bytes :=
  match o with
  | Val k v => Args.dashes k ++ cs "=" ++ v
  | Bare k => Args.dashes k
  end.
Definition opt_key (o : Opt) : string := match o with Val k _ | Bare k => k end.
Definition no_eq (k : string) : Prop := 61 ∉ cs k.

(** The value of the first option with a key. *)
Fixpoint lookup_opt (os : list Opt) (key : string) : option bytes :=
  match os with
  | [] => None
  | Val k v :: os => if String.eqb k key then Some v else lookup_opt os key
  | Bare _ :: os => lookup_opt os key
  end.
Definition values (os : list Opt) (key : string) : list bytes :=
  omap (λ o, match o with Val k v => if String.eqb k key then Some v else None | Bare _ => None end) os.
Definition bare_key (o : Opt) : list string := match o with Bare k => [k] | Val _ _ => [] end.

Section options.

Lemma cs_inj k k' : cs k = cs k' → k = k'.
Proof.
  intros H. rewrite <- (String.string_of_list_ascii_of_string k),
    <- (String.string_of_list_ascii_of_string k'). f_equal.
  apply (list_fmap_eq_inj (λ c, Z.of_N (Ascii.N_of_ascii c))); [|exact H].
  intros a b E. apply N2Z.inj in E.
  by rewrite <- (Ascii.ascii_N_embedding a), <- (Ascii.ascii_N_embedding b), E.
Qed.

(** A key without an equals sign is a prefix of an option only if it is its key. *)
Lemma prefix_eq (k k' v : bytes) : 61 ∉ k → 61 ∉ k' →
  take (length (k' ++ [61])) (k ++ 61 :: v) = k' ++ [61] ↔ k = k'.
Proof.
  rewrite length_app. cbn [length]. revert k'.
  induction k as [|a k IH]; intros [|a' k'] Hk Hk'; cbn [length Nat.add take app];
    rewrite ?not_elem_of_cons in Hk; rewrite ?not_elem_of_cons in Hk'.
  - by rewrite take_0.
  - split; [|done]. intros H. exfalso. apply (proj1 Hk'). congruence.
  - split; [|done]. intros H. exfalso. apply (proj1 Hk). congruence.
  - specialize (IH k' (proj2 Hk) (proj2 Hk')). split.
    + intros [= -> H]. f_equal. by apply IH.
    + intros [= -> H]. f_equal. by apply IH.
Qed.

Lemma dashes_no_eq k : no_eq k → 61 ∉ Args.dashes k.
Proof.
  unfold Args.dashes. rewrite elem_of_app. intros Hk [H|H]; [|done].
  change (cs "--") with [45; 45] in H. rewrite !elem_of_cons, elem_of_nil in H. by destruct H as [|[|]].
Qed.

Lemma dashes_inj k k' : Args.dashes k = Args.dashes k' → k = k'.
Proof. unfold Args.dashes. intros H. apply app_inv_head in H. by apply cs_inj. Qed.

Lemma starts_with_val k key v : no_eq k → no_eq key →
  starts_with (render (Val k v)) (Args.dashes key ++ cs "=") = String.eqb k key.
Proof.
  intros Hk Hk'. unfold starts_with, render. change (cs "=") with [61]. change ([61] ++ v) with (61 :: v).
  apply eq_bool_prop_intro. rewrite !Is_true_true, bool_decide_eq_true, String.eqb_eq.
  rewrite prefix_eq by by apply dashes_no_eq. split; [apply dashes_inj|by intros ->].
Qed.

Lemma starts_with_bare k key : no_eq k →
  starts_with (render (Bare k)) (Args.dashes key ++ cs "=") = false.
Proof.
  intros Hk. apply bool_decide_eq_false. intros H. apply (dashes_no_eq k Hk). cbn [render] in H.
  rewrite <- (take_drop (length (Args.dashes key ++ cs "=")) (Args.dashes k)), H.
  rewrite !elem_of_app. left. right. by constructor.
Qed.

Lemma drop_val key v :
  drop (length (Args.dashes key ++ cs "=")) (render (Val key v)) = v.
Proof. unfold render. rewrite app_assoc. apply drop_app_length. Qed.

Lemma val_not_bare k v key : no_eq key → render (Val k v) ≠ Args.dashes key.
Proof.
  intros Hk H. apply (dashes_no_eq key Hk). rewrite <- H. unfold render.
  rewrite !elem_of_app. right. left. by constructor.
Qed.

(** [Args::get] is the lookup of the first option with the key, among options
    the key is not used bare in. *)
Lemma get_lookup os key fb : no_eq key →
  Forall (λ o, no_eq (opt_key o)) os → Forall (λ o, key ∉ bare_key o) os →
  Args.get (render <$> os) key fb = default fb (lookup_opt os key).
Proof.
  intros Hk Ho Hb. induction os as [|o os IH]; [done|].
  apply Forall_cons in Ho as [Ho1 Ho], Hb as [Hb1 Hb]. specialize (IH Ho Hb).
  cbn [fmap list_fmap Args.get]. destruct o as [k v|k]; cbn [lookup_opt].
  - rewrite starts_with_val by done. destruct (String.eqb_spec k key) as [->|Hn]; [apply drop_val|].
    rewrite bool_decide_false by by apply val_not_bare.
    fold (@fmap list _ _ _ render os). rewrite IH. by destruct os.
  - rewrite starts_with_bare by done. rewrite bool_decide_false.
    2:{ cbn [render]. intros E%dashes_inj. apply Hb1. cbn. rewrite E. by constructor. }
    fold (@fmap list _ _ _ render os). rewrite IH. by destruct os.
Qed.

Lemma get_all_values os key : no_eq key → Forall (λ o, no_eq (opt_key o)) os →
  Args.get_all (render <$> os) key = values os key.
Proof.
  intros Hk Ho. induction os as [|o os IH]; [done|]. apply Forall_cons in Ho as [Ho1 Ho].
  cbn [fmap list_fmap]. unfold Args.get_all, values in *. cbn [omap list_omap].
  fold (@fmap list _ _ _ render os). rewrite <- (IH Ho). destruct o as [k v|k].
  - rewrite starts_with_val by done. destruct (String.eqb_spec k key) as [->|Hn]; [|done].
    by rewrite drop_val.
  - by rewrite starts_with_bare by done.
Qed.

Lemma present_bare os key : no_eq key → Forall (λ o, no_eq (opt_key o)) os →
  Args.present (render <$> os) key = existsb (λ o, String.eqb (opt_key o) key) os.
Proof.
  intros Hk Ho. induction os as [|o os IH]; [done|]. apply Forall_cons in Ho as [Ho1 Ho].
  unfold Args.present in *. cbn [fmap list_fmap existsb].
  fold (@fmap list _ _ _ render os). rewrite (IH Ho). f_equal. destruct o as [k v|k].
  - rewrite starts_with_val by done. rewrite bool_decide_false; [done|by apply val_not_bare].
  - rewrite starts_with_bare by done. rewrite orb_false_r. cbn [opt_key render].
    apply eq_bool_prop_intro. rewrite !Is_true_true, bool_decide_eq_true, String.eqb_eq.
    split; [apply dashes_inj|by intros ->].
Qed.
End options.

(** ** The command line of a configuration *)
Definition forward_text (f : PortForward) : bytes :=
  dec32 (host_port f) ++ cs ":" ++ dec32 (guest_port f).
Definition opts_direct (d : option DirectBoot) : list Opt :=
  match d with
  | None => []
  | Some d => Val "kernel" (d_kernel d)
      :: match d_initrd d with Some i => [Val "initrd" i] | None => [] end
      ++ [Val "cmdline" (d_cmdline d)]
  end.
Definition display_text (w h : Z) : bytes := dec32 w ++ cs "x" ++ dec32 h.
Definition opts_display (d : option (Z * Z)) : list Opt :=
  match d with None => [] | Some (w, h) => [Val "display" (display_text w h)] end.
Definition opts_network (n : option (option (list PortForward))) : list Opt :=
  match n with
  | None => []
  | Some fs => Bare "network" :: (Val "forward" ∘ forward_text <$> default [] fs)
  end.

(** The options of configuration [c] with [n] serial ports. *)
Definition opts_of (c : Config) (n : Z) : list Opt :=
  [Val "engine" (engine c); Val "name" (name c); Val "cpu" (dec32 (cpu_count c));
   Val "ram" (ram_size c); Val "disk" (disk_size c); Val "image" (image c);
   Val "serial" (dec32 n)]
  ++ opts_direct (direct c) ++ opts_display (display c) ++ opts_network (network c).

(** The configurations a command line can ask for. *)
Record config_ok (c : Config) (n : Z) : Prop := {
  ok_image : image c ≠ [];
  ok_cpu : 0 ≤ cpu_count c < 2 ^ 31;
  ok_n : 0 ≤ n < 2 ^ 31;
  ok_serial : serial c = serial_of (name c) n;
  ok_direct : from_option (λ d, d_kernel d ≠ [] ∧ d_initrd d ≠ Some []) True (direct c);
  ok_display : from_option (λ d, 0 ≤ d.1 < 2 ^ 31 ∧ 0 ≤ d.2 < 2 ^ 31) True (display c);
  ok_network : from_option (λ fs, fs ≠ [] ∧
    Forall (λ f, fits 16 (host_port f) ∧ fits 16 (guest_port f)) fs) True (mjoin (network c));
}.

Section parsing.

Lemma lookup_values os key : lookup_opt os key = head (values os key).
Proof.
  induction os as [|[k v|k] os IH]; [done| |exact IH]. cbn [lookup_opt]. unfold values. cbn [omap list_omap].
  by destruct (String.eqb k key).
Qed.

Lemma values_app os os' key : values (os ++ os') key = values os key ++ values os' key.
Proof. apply omap_app. Qed.

(** The order of the options does not matter for an option given once. *)
Lemma values_perm os os' key : os ≡ₚ os' → (length (values os' key) ≤ 1)%nat →
  values os key = values os' key.
Proof.
  intros Hp Hl. assert (values os key ≡ₚ values os' key) as Hv by by apply omap_Permutation.
  destruct (values os' key) as [|v [|]]; [by apply Permutation_nil_r|by apply Permutation_singleton_r|].
  cbn in Hl. lia.
Qed.

Lemma existsb_perm {A} (f : A → bool) l l' : l ≡ₚ l' → existsb f l = existsb f l'.
Proof.
  induction 1 as [|x l l' _ IH|x y l|l1 l2 l3 _ IH1 _ IH2]; cbn; [done|by rewrite IH| |congruence].
  by destruct (f x), (f y).
Qed.

Lemma get_run l key fb : Args.get (cs "run" :: l) key fb = Args.get l key fb.
Proof.
  cbn [Args.get]. replace (starts_with _ _) with false by (by symmetry; apply bool_decide_eq_false).
  rewrite bool_decide_false by done. by destruct l.
Qed.
Lemma get_all_run l key : Args.get_all (cs "run" :: l) key = Args.get_all l key.
Proof.
  unfold Args.get_all. cbn [omap list_omap].
  by replace (starts_with _ _) with false by (by symmetry; apply bool_decide_eq_false).
Qed.
Lemma present_run l key : Args.present (cs "run" :: l) key = Args.present l key.
Proof.
  unfold Args.present. cbn [existsb]. rewrite bool_decide_false by done.
  by replace (starts_with _ _) with false by (by symmetry; apply bool_decide_eq_false).
Qed.

(** Ports are cut to 16 bits without a range check. *)
Lemma parse_forward_dec h g : 0 ≤ h < 2 ^ 31 → 0 ≤ g < 2 ^ 31 →
  parse_forward (forward_text (mkForward h g)) = Some (mkForward (u16 h) (u16 g)).
Proof.
  intros Hh Hg. unfold parse_forward, forward_text. change (cs ":" ++ ?t) with (58 :: t).
  cbn [host_port guest_port]. rewrite find_char_app by (apply dec32_no; [lia|done]).
  by rewrite !stoi_dec32 by lia.
Qed.

Lemma parse_forward_text f : fits 16 (host_port f) → fits 16 (guest_port f) →
  parse_forward (forward_text f) = Some f.
Proof.
  unfold fits. intros Hh Hg. destruct f as [h g]. cbn [host_port guest_port] in *.
  rewrite parse_forward_dec, !u16_id by lia. done.
Qed.

(** The options without the network ones. *)
Definition plain_opts (c : Config) (n : Z) : list Opt :=
  [Val "engine" (engine c); Val "name" (name c); Val "cpu" (dec32 (cpu_count c));
   Val "ram" (ram_size c); Val "disk" (disk_size c); Val "image" (image c);
   Val "serial" (dec32 n)] ++ opts_direct (direct c) ++ opts_display (display c).

Lemma values_forward fs key :
  values (Val "forward" ∘ forward_text <$> fs) key =
    if String.eqb "forward" key then forward_text <$> fs else [].
Proof.
  induction fs as [|f fs IH]; cbn [fmap list_fmap]; [by case_match|]. unfold values in *.
  cbn [omap list_omap compose]. fold (@fmap list _ _ _ (Val "forward" ∘ forward_text) fs).
  fold (@fmap list _ _ _ forward_text fs). rewrite IH. by destruct (String.eqb "forward" key).
Qed.

Lemma values_network net key :
  values (opts_network net) key =
    if String.eqb "forward" key then forward_text <$> default [] (mjoin net) else [].
Proof.
  destruct net as [fs|]; [|by destruct (String.eqb "forward" key)].
  unfold opts_network, values. cbn [omap list_omap]. apply values_forward.
Qed.

Lemma values_opts_of c n key :
  values (opts_of c n) key = values (plain_opts c n) key ++ values (opts_network (network c)) key.
Proof. unfold opts_of, plain_opts. by rewrite !values_app, !app_assoc. Qed.

Lemma values_plain_once c n key : (length (values (plain_opts c n) key) ≤ 1)%nat.
Proof.
  enough (NoDup (opt_key <$> plain_opts c n)) as Hn.
  { induction (plain_opts c n) as [|o os IH]; [cbn; lia|]. cbn [fmap list_fmap] in Hn.
    apply NoDup_cons in Hn as [Ho Hn]. specialize (IH Hn). destruct o as [k v|k]; [|exact IH].
    unfold values in *. cbn [omap list_omap]. destruct (String.eqb_spec k key) as [->|]; [|exact IH].
    cbn [length]. destruct (omap _ os) as [|w l] eqn:E; [done|]. exfalso. apply Ho.
    assert (w ∈ w :: l) as Hw by constructor. rewrite <- E in Hw.
    apply list_elem_of_omap in Hw as (o & Hin & Hv). apply list_elem_of_fmap.
    exists o. split; [|done]. destruct o as [k' v'|]; [|done].
    destruct (String.eqb_spec k' key); [done|discriminate]. }
  unfold plain_opts. destruct (direct c) as [[k [i|] l]|], (display c) as [[w h]|];
    cbn [app fmap list_fmap opt_key opts_direct opts_display d_initrd];
    apply (bool_decide_unpack _); lazy; exact I.
Qed.

Lemma opts_no_eq c n : Forall (λ o, no_eq (opt_key o)) (opts_of c n).
Proof.
  unfold opts_of. rewrite !Forall_app. unfold no_eq. split_and!.
  - repeat constructor; by apply (bool_decide_unpack _); vm_compute.
  - destruct (direct c) as [[k [i|] l]|]; repeat constructor; by apply (bool_decide_unpack _); vm_compute.
  - destruct (display c) as [[w h]|]; repeat constructor; by apply (bool_decide_unpack _); vm_compute.
  - destruct (network c) as [fs|]; [|constructor]. constructor; [by apply (bool_decide_unpack _); vm_compute|].
    apply Forall_fmap, Forall_true. intros f. by apply (bool_decide_unpack _); vm_compute.
Qed.

Lemma opts_bare c n key : key ≠ "network"%string → Forall (λ o, key ∉ bare_key o) (opts_of c n).
Proof.
  intros Hk. assert (∀ k v, key ∉ bare_key (Val k v)) as Hv by by intros; apply not_elem_of_nil.
  unfold opts_of. rewrite !Forall_app. split_and!.
  - repeat constructor; apply Hv.
  - destruct (direct c) as [[k [i|] l]|]; repeat constructor; apply Hv.
  - destruct (display c) as [[w h]|]; repeat constructor; apply Hv.
  - destruct (network c) as [fs|]; constructor; [by apply not_elem_of_cons; split; [|apply not_elem_of_nil]|].
    apply Forall_fmap, Forall_true. intros f. apply Hv.
Qed.

(** What the parser finds for a key, in any order of the options. *)
Lemma get_opts os c n key fb : os ≡ₚ opts_of c n → no_eq key →
  key ≠ "network"%string → key ≠ "forward"%string →
  Args.get (cs "run" :: (render <$> os)) key fb = default fb (head (values (plain_opts c n) key)).
Proof.
  intros Hp Hk Hn Hf. rewrite get_run, get_lookup, lookup_values; [|done|rewrite Hp..].
  2: apply opts_no_eq. 2: by apply opts_bare.
  assert (values (opts_of c n) key = values (plain_opts c n) key) as E.
  { rewrite values_opts_of, values_network. destruct (String.eqb_spec "forward" key); [done|]. apply app_nil_r. }
  rewrite <- E. f_equal. f_equal. apply values_perm; [done|]. rewrite E. apply values_plain_once.
Qed.

Lemma find_display w h : 0 ≤ w → find_char 120 (display_text w h) = Some (dec32 w, dec32 h).
Proof.
  intros Hw. unfold display_text. change (cs "x" ++ ?t) with (120 :: t).
  by apply find_char_app, dec32_no.
Qed.

Lemma display_opts os c n : os ≡ₚ opts_of c n → config_ok c n →
  display_of (cs "run" :: (render <$> os)) = Ok (Some (display c)).
Proof.
  intros Hp Hc. unfold display_of. rewrite (get_opts os c n) by (done || by apply (bool_decide_unpack _)).
  pose proof (ok_display _ _ Hc) as Hd. unfold plain_opts.
  destruct (direct c) as [[k [i|] l]|], (display c) as [[w h]|];
    cbn -[dec32 cs display_text find_char]; try reflexivity; cbn in Hd.
  all: pose proof (find_display w h ltac:(lia)) as Hf.
  all: destruct (display_text w h) as [|x r]; [discriminate Hf|].
  all: rewrite Hf; by rewrite !stoi_dec32 by lia.
Qed.

Lemma omap_forwards fs :
  Forall (λ f, fits 16 (host_port f) ∧ fits 16 (guest_port f)) fs →
  omap parse_forward (forward_text <$> fs) = fs.
Proof.
  induction 1 as [|f fs [H1 H2] _ IH]; [done|]. cbn [fmap list_fmap omap list_omap].
  rewrite parse_forward_text by done. f_equal. exact IH.
Qed.

Lemma network_opts os c n : os ≡ₚ opts_of c n → config_ok c n →
  values os "forward" = values (opts_of c n) "forward" →
  network_of (cs "run" :: (render <$> os)) = network c.
Proof.
  intros Hp Hc Hf. unfold network_of. rewrite present_run, get_all_run.
  assert (Forall (λ o, no_eq (opt_key o)) os) as Ho by (rewrite Hp; apply opts_no_eq).
  rewrite present_bare, get_all_values by (done || by apply (bool_decide_unpack _)).
  rewrite (existsb_perm _ _ _ Hp), Hf, values_opts_of, values_network.
  pose proof (ok_network _ _ Hc) as Hn. unfold opts_of, plain_opts.
  destruct (direct c) as [[k [i|] l]|], (display c) as [[w h]|], (network c) as [[fs|]|];
    cbn -[dec32 cs display_text forward_text parse_forward omap]; try reflexivity; cbn in Hn.
  all: destruct Hn as [Hne Hok]; destruct fs as [|f fs]; [done|].
  all: cbn [fmap list_fmap]; do 2 f_equal.
  all: fold (@fmap list _ _ _ forward_text fs); change (forward_text f :: ?t) with (forward_text <$> f :: fs).
  all: by apply omap_forwards.
Qed.
End parsing.

(** C35. The command line is a faithful notation for a configuration: written
    as options in any order (the port forwards in theirs), every configuration
    with positive sizes and 16-bit ports is what [main] hands to [Create]. *)
Theorem command_line_roundtrip (prog : bytes) (os : list Opt) (c : Config) (n : Z)
    (Hc : config_ok c n) (Hp : os ≡ₚ opts_of c n)
    (Hf : values os "forward" = values (opts_of c n) "forward") :
  main (prog :: cs "run" :: (render <$> os)) = Ok (inr c).
Proof.
  unfold main. rewrite bool_decide_true by done. cbn [negb].
  rewrite (display_opts os c n), (network_opts os c n) by done. unfold direct_boot.
  rewrite !(get_opts os c n) by (done || by apply (bool_decide_unpack _)).
  destruct Hc as [Hi Hcpu Hn Hser Hdir _ _].
  destruct c as [e nm cpu ram disk img [[k [i|] l]|] [[w h]|] net ser]; cbn -[dec32 cs stoi display_text] in *.
  all: destruct img as [|x img]; [done|]; rewrite !stoi_dec32 by lia; cbn -[cs serial_of]; subst ser.
  all: by first [done | destruct Hdir, k; [|destruct i] | destruct Hdir, k].
Qed.

(** A configuration with a display, an initrd and two port forwards, its
    options in another order than [opts_of]'s. *)
Definition sample_config : Config :=
  mkConfig (cs "hvf") (cs "ubuntu") 4 (cs "8GB") (cs "20GB") (cs "/images/u=1.img")
    (Some (mkDirect (cs "vmlinuz") (Some (cs "initrd")) (cs "root=/dev/vda"))) (Some (1920, 1080))
    (Some (Some [mkForward 2222 22; mkForward 8080 80])) (serial_of (cs "ubuntu") 1).

Theorem command_line_roundtrip_witness :
  main (cs "vm-cli" :: cs "run" :: (render <$> rotate 5 (opts_of sample_config 1))) = Ok (inr sample_config).
Proof.
  apply (command_line_roundtrip _ _ _ 1).
  - by split; cbn; try done; try lia; split; [done|]; repeat constructor; vm_compute.
  - unfold rotate. rewrite Permutation_app_comm. by rewrite take_drop.
  - by vm_compute.
Defined.
