(* ===== verification/HvfBackend.v ===== *)
(** * HvfBackend: creating and destroying a virtual machine

    Models [HvfBackend] (src/src/hvf/hvf_backend.hpp and hvf_backend.cpp): size
    strings, the serial pipes, the order in which [Create] builds the machine,
    the registry of instances, and [Destroy].  [Create] composes
    [Create.memory_init], the device constructors and [Boot.boot].

    The process is the descriptor table as far as pipes go, the single virtual
    machine of Hypervisor.framework, and the registry.  What the system answers
    is the record [Env].  A C++ exception destroys the locals of [Create], which
    joins the threads of the serial ports; joining a thread that cannot end is
    [Err Deadlock].  Logging is not modelled. *)

From stdpp Require Import strings.
From S2P Require Import Prelude Bytes GuestMem World VmContext Fdt Boot Create.
From S2P Require VirtioBlock VirtioNet Cli.

(** ** [parse_size]: [std::stoull] and a unit *)

(** White space, a sign and decimal digits; a negative value wraps, and one
    that does not fit throws, as does the lack of a digit.  Returns what
    follows the digits. *)
Definition stoull (s : bytes) : res (Z * bytes) :=
  let '(neg, s) := Cli.scan_sign (Cli.skip_space s) in
  match s with
  | c :: _ =>
      if negb (Cli.is_digit c) then Err Thrown else
      let '(v, rest) := Cli.scan_digits 0 s in
      if v <? 2 ^ 64 then Ok (if neg : bool then u64 (- v) else v, rest) else Err Thrown
  | [] => Err Thrown
  end.

Definition parse_size (s : bytes) : res Z :=
  '(val, unit) ← stoull s;
  Ok (if bool_decide (unit = cs "GB") then u64 (val * 1024 * 1024 * 1024)
      else if bool_decide (unit = cs "MB") then u64 (val * 1024 * 1024)
      else val).

(** ** The configuration: the members of the JSON object the backends read

    The size of the disk and the display are read by the VZ backend only. *)
Record Serial := mkSerial { port : option Z; channel : option bytes }.
Record Network := mkNetwork {
  enabled : option bool;
  port_forwards : option (list (option Z * option Z));
}.
Record Json := mkJson {
  engine : option bytes;
  cpu_count : option Z;
  ram_size : option bytes;
  image : option bytes;
  name : option bytes;
  cmdline : option bytes;
  kernel : option bytes;
  initrd : option bytes;
  serial : option (list Serial);
  network : option Network;
  disk_size : option bytes;
  display : option (option Z * option Z);
}.

(** The object the command line builds. *)
Definition json_forward (f : Cli.PortForward) : option Z * option Z :=
  (Some (Cli.host_port f), Some (Cli.guest_port f)).
Definition json_serial (s : Z * bytes) : Serial := mkSerial (Some s.1) (Some s.2).
Definition json_of (c : Cli.Config) : Json :=
  mkJson (Some (Cli.engine c)) (Some (Cli.cpu_count c)) (Some (Cli.ram_size c))
    (Some (Cli.image c)) (Some (Cli.name c))
    (option_map Cli.d_cmdline (Cli.direct c)) (option_map Cli.d_kernel (Cli.direct c))
    (match Cli.direct c with Some d => Cli.d_initrd d | None => None end)
    (match Cli.serial c with [] => None | l => Some (map json_serial l) end)
    (option_map (λ fs, mkNetwork (Some true) (option_map (map json_forward) fs)) (Cli.network c))
    (Some (Cli.disk_size c)) (option_map (λ d, (Some d.1, Some d.2)) (Cli.display c)).

(** [std::sort] by port; the order of equal ports is left open by the code. *)
Fixpoint insert_port (x : Z * bytes) (l : list (Z * bytes)) : list (Z * bytes) :=
  match l with
  | [] => [x]
  | y :: l' => if x.1 <=? y.1 then x :: l else y :: insert_port x l'
  end.
Definition sorted_serial (j : Json) : list (Z * bytes) :=
  foldr insert_port [] ((λ s, (default 0 (port s), default [] (channel s))) <$> default [] (serial j)).

Definition net_forwards (n : Network) : list (Z * Z) :=
  (λ f, (u16 (default 0 f.1), u16 (default 0 f.2))) <$> default [] (port_forwards n).
Definition net_enabled (j : Json) : option Network :=
  match network j with
  | Some n => if default false (enabled n) then Some n else None
  | None => None
  end.

(** [NetDeviceConfig::mac]. *)
Definition net_mac : bytes := [0x52; 0x54; 0x00; 0x12; 0x34; 0x56].

Section Backend.
Context {F St : Type} {HF : VirtioBlock.BlockFile F} {HS : VirtioNet.NetApi St}.
Abbreviation VM := (@VM F St).

(** ** The process *)

(** [host_write_fd] is -1 once closed; the pump thread is the pipe it reads. *)
Record SerialChannel := mkChannel {
  host_write_fd : Z;
  host_read_fd : Z;
  server : bytes;
  pump : nat;
}.
Record Instance := mkInstance {
  ctx : VM;
  boot_state : BootInfo;
  channels : list SerialChannel;
}.

(** An open descriptor of a pipe, with whether it is the write end; the pipes
    made so far; whether the process has a virtual machine; the backend. *)
Record Proc := mkProc {
  fds : gmap Z (nat * bool);
  pipes : nat;
  hv_vm : bool;
  vms_ : gmap Z Instance;
  next_id_ : Z;
}.
Definition set_fds (p : Proc) (m : gmap Z (nat * bool)) : Proc :=
  mkProc m (pipes p) (hv_vm p) (vms_ p) (next_id_ p).
Definition set_hv_vm (p : Proc) (b : bool) : Proc := mkProc (fds p) (pipes p) b (vms_ p) (next_id_ p).
Definition set_vms (p : Proc) (m : gmap Z Instance) (n : Z) : Proc := mkProc (fds p) (pipes p) (hv_vm p) m n.

(** What the system answers: descriptors for a new pipe, [hv_vm_create] given
    whether there is a machine, the calls of [Memory::init], the disk image, the
    network stack for some port forwards, files; whether the accept thread of a
    channel ends, whether closing a descriptor ends a read that is blocked on
    it, and whether the run thread ends once the machine is stopped. *)
Record Env := mkEnv {
  e_pipe : gmap Z (nat * bool) → option (Z * Z);
  e_vm_create : bool → bool;
  e_mem : MemSys;
  e_image : bytes → Z * F * option Z;
  e_stack : list (Z * Z) → St;
  e_file : bytes → option File;
  e_accept_ends : bytes → bool;
  e_close_wakes : bool;
  e_run_ends : VM → bool;
}.

(** What the system promises: a new pipe has two descriptors that were free,
    and a process has at most one virtual machine. *)
Record EnvLaws (e : Env) : Prop := {
  pipe_fresh m r w : e_pipe e m = Some (r, w) → 0 ≤ r ∧ 0 ≤ w ∧ m !! r = None ∧ m !! w = None ∧ r ≠ w;
  one_vm : e_vm_create e true = false;
}.

(** ** Computations: the process survives an exception *)
Definition P (A : Type) : Type := Proc → Proc * res A.
#[local] Instance P_ret : MRet P := λ A a p, (p, Ok a).
#[local] Instance P_bind : MBind P := λ A B f m p,
  match m p with (p, Ok a) => f a p | (p, Err e) => (p, Err e) end.
Definition lift {A} (r : res A) : P A := λ p, (p, r).
Definition gets {A} (f : Proc → A) : P A := λ p, (p, Ok (f p)).
Definition modify (f : Proc → Proc) : P unit := λ p, (f p, Ok tt).

(** ** Destroying a [SerialChannel]: the pump thread, then the server, are joined *)
Definition has_writer (m : gmap Z (nat * bool)) (k : nat) : bool :=
  bool_decide (map_Exists (λ _ v, v = (k, true)) m).
Definition has_reader (m : gmap Z (nat * bool)) (k : nat) : bool :=
  bool_decide (map_Exists (λ _ v, v = (k, false)) m).

Definition channel_ends (e : Env) (m : gmap Z (nat * bool)) (ch : SerialChannel) : bool :=
  (negb (has_writer m (pump ch)) || (negb (has_reader m (pump ch)) && e_close_wakes e))
    && e_accept_ends e (server ch).
Definition unwind (e : Env) (chs : list SerialChannel) : P unit := λ p,
  (p, if forallb (channel_ends e (fds p)) chs then Ok tt else Err Deadlock).

(** [attempt]: a step of [Create]; when it throws, the serial channels made so
    far are destroyed first. *)
Definition attempt {A} (e : Env) (chs : list SerialChannel) (r : res A) : P A :=
  match r with
  | Err Thrown => unwind e chs;; lift (Err Thrown)
  | _ => lift r
  end.
Definition require (e : Env) (chs : list SerialChannel) (b : bool) : P unit :=
  attempt e chs (guard_res b Thrown).

(** ** Pipes *)
Definition sys_pipe (e : Env) (chs : list SerialChannel) : P (Z * Z) := λ p,
  match e_pipe e (fds p) with
  | Some (r, w) =>
      (mkProc (<[w := (pipes p, true)]> (<[r := (pipes p, false)]> (fds p))) (S (pipes p)) (hv_vm p)
         (vms_ p) (next_id_ p), Ok (r, w))
  | None => (unwind e chs;; lift (Err Thrown)) p
  end.
Definition sys_close (fd : Z) : P unit := modify (λ p, set_fds p (delete fd (fds p))).

Definition set_pl011_tx_fd (c : VM) (fd : Z) : VM :=
  set_pl011 c (mkPl011 (cr (pl011 c)) (lcr (pl011 c)) (imsc (pl011 c)) fd).

(** One serial port. *)
Definition open_port (e : Env) (c : VM) (chs : list SerialChannel) (port_idx : Z) (channel_name : bytes)
  : P (VM * list SerialChannel) :=
  '(to_vm0, to_vm1) ← sys_pipe e chs;
  '(from_vm0, from_vm1) ← sys_pipe e chs;
  c ← (if port_idx =? 0 then sys_close to_vm0;; mret (set_pl011_tx_fd c from_vm1)
       else sys_close to_vm0;; sys_close from_vm1;; mret c);
  pump_pipe ← gets (λ p, pred (pipes p));
  mret (c, chs ++ [mkChannel to_vm1 from_vm0 channel_name pump_pipe]).

Fixpoint open_ports (e : Env) (l : list (Z * bytes)) (c : VM) (chs : list SerialChannel)
  : P (VM * list SerialChannel) :=
  match l with
  | [] => mret (c, chs)
  | (port_idx, channel_name) :: l =>
      '(c, chs) ← open_port e c chs port_idx channel_name; open_ports e l c chs
  end.

(** ** [Create] *)
Definition devices (e : Env) (j : Json) (c : VM) : VM :=
  let c := create_console (-1) (-1) c in
  let c := match default [] (image j) with [] => c | path => create_block (e_image e path) c end in
  match net_enabled j with
  | Some n => create_net true net_mac (e_stack e (net_forwards n)) c
  | None => c
  end.

Definition boot_kernel (e : Env) (j : Json) (c : VM) (b : BootInfo) : res (VM * BootInfo) :=
  match default [] (kernel j) with
  | [] => Err Thrown
  | path =>
      boot (e_file e path)
        (match default [] (initrd j) with [] => None | path => Some (e_file e path) end) c b
  end.

Definition new_ctx (j : Json) (ram_bytes : Z) : VM :=
  Ctx0 (u32 (default 1 (cpu_count j))) (mkWorld (mkRam false kGpaRamBase ram_bytes ∅) []).

Definition register (inst : Instance) : P Z := λ p,
  (set_vms p (<[next_id_ p := inst]> (vms_ p)) (u64 (next_id_ p + 1)), Ok (next_id_ p)).

(** What follows [hv_vm_create]. *)
Definition create_machine (e : Env) (j : Json) (ram_bytes : Z) : P Z :=
  let '(ok, c) := memory_init (e_mem e) ram_bytes (new_ctx j ram_bytes) in
  let b := mkBoot 0 0 0 0 (default [] (cmdline j)) in
  require e [] ok;;
  '(c, chs) ← open_ports e (sorted_serial j) c [];
  '(c, b) ← attempt e chs (boot_kernel e j (devices e j c) b);
  register (mkInstance c b chs).

Definition create (e : Env) (j : Json) : P Z :=
  ram_bytes ← lift (parse_size (default (cs "2GB") (ram_size j)));
  exists_ ← gets hv_vm;
  require e [] (e_vm_create e exists_);;
  modify (λ p, set_hv_vm p true);;
  create_machine e j ram_bytes.

(** ** [Destroy] *)
Definition close_fd (fd : Z) : P unit := if 0 <=? fd then sys_close fd else mret tt.
Fixpoint close_channels (chs : list SerialChannel) : P unit :=
  match chs with
  | [] => mret tt
  | ch :: chs => close_fd (host_read_fd ch);; close_fd (host_write_fd ch);; close_channels chs
  end.

Definition destroy (e : Env) (handle : Z) : P unit := λ p,
  match vms_ p !! handle with
  | None => (p, Ok tt)
  | Some inst =>
      (close_channels (channels inst);;
       lift (guard_res (e_run_ends e (stop (ctx inst))) Deadlock);;
       modify (λ p, set_hv_vm p false);;
       unwind e (channels inst);;
       modify (λ p, set_vms p (delete handle (vms_ p)) (next_id_ p))) p
  end.
End Backend.
Arguments Env : clear implicits.
Arguments Proc : clear implicits.
Arguments Instance : clear implicits.
