(* ===== verification/HvfBackendThms.v ===== *)
(** * HvfBackendThms: what creating and destroying a virtual machine guarantees

    The descriptors of the serial ports, the machine [Create] registers, and
    what [Destroy] and a failing [Create] leave behind. *)

From stdpp Require Import strings.
From S2P Require Import Prelude Bytes GuestMem World VmContext Fdt Boot BootThms BootMachine Machine Create HvfBackend.
From S2P Require VirtioBlock VirtioNet Cli.

(** ** Size strings *)
Section sizes.

Lemma digits_acc fuel base : ∀ x acc t, digits fuel base x acc ++ t = digits fuel base x (acc ++ t).
Proof.
  induction fuel as [|fuel IH]; intros x acc t; [done|]. cbn [digits].
  destruct (x <? base); [done|]. by rewrite IH.
Qed.

Lemma digits_cons fuel x t : 0 ≤ x → ∃ c r, digits (S fuel) 10 x t = c :: r ∧ Cli.is_digit c = true.
Proof.
  intros Hx. assert (∀ f y acc, 0 ≤ y → (∃ c r, acc = c :: r ∧ Cli.is_digit c = true) →
    ∃ c r, digits f 10 y acc = c :: r ∧ Cli.is_digit c = true) as H.
  { induction f as [|f IH]; intros y acc Hy Ha; [done|]. cbn [digits].
    assert (∃ c r, digit (y mod 10) :: acc = c :: r ∧ Cli.is_digit c = true) as Hd.
    { do 2 eexists. split; [done|]. apply Cli.digit_is_digit, Z.mod_pos_bound. lia. }
    destruct (y <? 10); [done|]. apply IH; [by apply Z.div_pos|done]. }
  change (digits (S fuel) 10 x t) with
    (if x <? 10 then digit (x mod 10) :: t else digits fuel 10 (x / 10) (digit (x mod 10) :: t)).
  assert (∃ c r, digit (x mod 10) :: t = c :: r ∧ Cli.is_digit c = true) as Hd.
  { do 2 eexists. split; [done|]. apply Cli.digit_is_digit, Z.mod_pos_bound. lia. }
  destruct (x <? 10); [done|]. apply H; [by apply Z.div_pos|done].
Qed.

Lemma scan_digits_stop v t : from_option (λ c, Cli.is_digit c = false) True (head t) →
  Cli.scan_digits v t = (v, t).
Proof. destruct t as [|c t]; cbn; [done|]. by intros ->. Qed.

Lemma stoull_digits n t :
  0 ≤ n < 2 ^ 64 → from_option (λ c, Cli.is_digit c = false) True (head t) →
  stoull (digits 20 10 n [] ++ t) = Ok (n, t).
Proof.
  intros Hn Ht. rewrite digits_acc. cbn [app].
  pose proof (Cli.scan_digits_digits 20 n t ltac:(lia)) as Hs.
  rewrite (scan_digits_stop _ _ Ht) in Hs.
  destruct (digits_cons 19 n t) as (c & r & E & Hc); [lia|]. rewrite E in *. unfold stoull.
  destruct (Cli.digit_not_space _ Hc) as (H1 & H2 & H3).
  cbn [Cli.skip_space]. rewrite H1. cbn [Cli.scan_sign]. rewrite H2, H3, Hc. cbn [negb].
  rewrite Hs. rewrite (proj2 (Z.ltb_lt n _)) by lia. done.
Qed.
End sizes.

(** ** The descriptors of the serial ports *)
Section ports.
Context {F St : Type} {HF : VirtioBlock.BlockFile F} {HS : VirtioNet.NetApi St}.
Abbreviation VM := (@VM F St).
Abbreviation Fds := (gmap Z (nat * bool)).
#[local] Existing Instances P_ret P_bind.

Lemma P_bind_Ok {A B} (m : P A) (f : A → P B) (p p' : Proc F St) b :
  (m ≫= f) p = (p', Ok b) → ∃ a p1, m p = (p1, Ok a) ∧ f a p1 = (p', Ok b).
Proof.
  unfold mbind, P_bind. destruct (m p) as [p1 [a|e]] eqn:E; [eauto|]. intros H. discriminate H.
Qed.

(** Every pipe in the table was made. *)
Definition ids_below (m : Fds) (n : nat) : Prop := map_Forall (λ _ v, (v.1 < n)%nat) m.

Lemma no_reader m k : has_reader m k = false ↔ ∀ x, m !! x ≠ Some (k, false).
Proof.
  unfold has_reader. rewrite bool_decide_eq_false. split.
  - intros H x E. apply H. by exists x, (k, false).
  - intros H (x & v & E & ->). by apply (H x).
Qed.

Lemma no_writer m k : has_writer m k = false ↔ ∀ x, m !! x ≠ Some (k, true).
Proof.
  unfold has_writer. rewrite bool_decide_eq_false. split.
  - intros H x E. apply H. by exists x, (k, true).
  - intros H (x & v & E & ->). by apply (H x).
Qed.

Lemma a_writer m k : has_writer m k = true ↔ ∃ x, m !! x = Some (k, true).
Proof.
  unfold has_writer. rewrite bool_decide_eq_true. split; [by intros (x & v & E & ->); eauto|].
  intros [x E]. by exists x, (k, true).
Qed.

Lemma sys_pipe_ok (e : Env F St) (He : EnvLaws e) chs p p' r w :
  sys_pipe e chs p = (p', Ok (r, w)) →
  0 ≤ r ∧ 0 ≤ w ∧ fds p !! r = None ∧ fds p !! w = None ∧ r ≠ w ∧
  p' = mkProc (<[w := (pipes p, true)]> (<[r := (pipes p, false)]> (fds p))) (S (pipes p)) (hv_vm p)
         (vms_ p) (next_id_ p).
Proof.
  unfold sys_pipe. destruct (e_pipe e (fds p)) as [[r' w']|] eqn:E.
  - intros [= <- -> ->]. apply He in E as (? & ? & ? & ? & ?). done.
  - unfold unwind, lift, mbind, P_bind. by case_match.
Qed.

(** One port adds the write end of a pipe without a reader and the read end of
    another, whose writer stays open for port 0 only. *)
Lemma open_port_ok (e : Env F St) (He : EnvLaws e) c chs i name p p' c' chs' :
  open_port e c chs i name p = (p', Ok (c', chs')) →
  ∃ r w x, let n := pipes p in
    0 ≤ r ∧ 0 ≤ w ∧ fds p !! r = None ∧ fds p !! w = None ∧ fds p !! x = None ∧ r ≠ w ∧ x ≠ r ∧ x ≠ w ∧
    chs' = chs ++ [mkChannel w r name (S n)] ∧
    c' = (if i =? 0 then set_pl011_tx_fd c x else c) ∧
    p' = mkProc (<[r := (S n, false)]> (<[w := (n, true)]>
           ((if i =? 0 then <[x := (S n, true)]> else id) (fds p)))) (S (S n)) (hv_vm p) (vms_ p) (next_id_ p).
Proof.
  intros H. unfold open_port in H.
  apply P_bind_Ok in H as ([r1 w1] & p1 & E1 & H). apply (sys_pipe_ok _ He) in E1 as (? & ? & ? & ? & ? & ->).
  apply P_bind_Ok in H as ([r2 w2] & p2 & E2 & H). apply (sys_pipe_ok _ He) in E2 as (? & ? & Hr & Hw & ? & ->).
  cbn [fds pipes hv_vm vms_ next_id_] in *.
  apply lookup_insert_None in Hr as [[Hr ?]%lookup_insert_None ?], Hw as [[Hw ?]%lookup_insert_None ?].
  exists r2, w1, w2. cbv zeta. destruct (i =? 0); cbn in H; injection H as <- <- <-.
  - split_and!; try done. unfold set_fds. cbn [fds pipes hv_vm vms_ next_id_]. f_equal.
    apply map_eq. intros y. rewrite lookup_delete. case_decide; [subst y|].
    + by rewrite !lookup_insert_ne.
    + destruct (decide (y = r2)) as [->|]; [by rewrite lookup_insert_eq, lookup_insert_ne, lookup_insert_eq by done|].
      rewrite (lookup_insert_ne _ r2) by done. destruct (decide (y = w1)) as [->|].
      { by rewrite lookup_insert_eq, !lookup_insert_ne, lookup_insert_eq by done. }
      rewrite (lookup_insert_ne _ w1) by done. destruct (decide (y = w2)) as [->|]; [by rewrite !lookup_insert_eq|].
      by rewrite !lookup_insert_ne by done.
  - split_and!; try done. unfold set_fds. cbn [fds pipes hv_vm vms_ next_id_ id]. f_equal.
    apply map_eq. intros y. rewrite !lookup_delete. case_decide; [subst y|case_decide; [subst y|]].
    + by rewrite !lookup_insert_ne.
    + by rewrite !lookup_insert_ne.
    + destruct (decide (y = r2)) as [->|]; [by rewrite lookup_insert_eq, lookup_insert_ne, lookup_insert_eq by done|].
      rewrite (lookup_insert_ne _ r2) by done. destruct (decide (y = w1)) as [->|].
      { by rewrite lookup_insert_eq, !lookup_insert_ne, lookup_insert_eq by done. }
      by rewrite !lookup_insert_ne by done.
Qed.

(** The wiring of one port, with pipes below [n]: what the channel writes goes
    to a pipe without a reader; it reads a pipe that has a writer for port 0 only. *)
Record wired (n : nat) (m : Fds) (x : Z * bytes) (ch : SerialChannel) : Prop := {
  wi_server : server ch = x.2;
  wi_fds : 0 ≤ host_write_fd ch ∧ 0 ≤ host_read_fd ch;
  wi_in : ∃ k, (k < n)%nat ∧ m !! host_write_fd ch = Some (k, true) ∧ has_reader m k = false;
  wi_out : (pump ch < n)%nat ∧ m !! host_read_fd ch = Some (pump ch, false) ∧
           has_writer m (pump ch) = (x.1 =? 0);
}.

(** A pipe made later does not touch it. *)
Lemma wired_insert n m x ch y k b :
  wired n m x ch → m !! y = None → (n ≤ k)%nat → wired n (<[y := (k, b)]> m) x ch.
Proof.
  intros [H1 H2 (k1 & Hk1 & E1 & R1) (Hk2 & E2 & W2)] Hy Hk.
  assert (∀ z v, m !! z = Some v → <[y := (k, b)]> m !! z = Some v) as Hkeep.
  { intros z v Hz. rewrite lookup_insert_ne; congruence. }
  split; [done|done| |].
  - exists k1. split; [done|]. split; [by apply Hkeep|]. apply no_reader. intros z.
    rewrite no_reader in R1. rewrite lookup_insert. case_decide; [|apply R1]. intros [=]; lia.
  - split; [done|]. split; [by apply Hkeep|]. destruct (x.1 =? 0).
    + apply a_writer in W2 as [z Hz]. apply a_writer. exists z. by apply Hkeep.
    + apply no_writer. rewrite no_writer in W2. intros z. rewrite lookup_insert. case_decide; [|apply W2]. intros [=]; lia.
Qed.

Lemma wired_weaken n n' m x ch : wired n m x ch → (n ≤ n')%nat → wired n' m x ch.
Proof.
  intros [H1 H2 (k1 & Hk1 & E1) (Hk2 & E2)] Hn. split; [done|done| |].
  - exists k1. split; [lia|done].
  - split; [lia|done].
Qed.

Lemma ids_below_insert m n n' y k b :
  ids_below m n → (n ≤ n')%nat → (k < n')%nat → ids_below (<[y := (k, b)]> m) n'.
Proof.
  intros Hm Hn Hk. apply map_Forall_insert_2; [done|]. eapply map_Forall_impl; [exact Hm|].
  cbn. intros _ v Hv. lia.
Qed.

Definition host_fds (chs : list SerialChannel) : list Z :=
  flat_map (λ ch, [host_read_fd ch; host_write_fd ch]) chs.

Lemma host_fds_app chs chs' : host_fds (chs ++ chs') = host_fds chs ++ host_fds chs'.
Proof. apply flat_map_app. Qed.

(** The descriptors after some ports: those of the channels, one kept open per
    port 0, and those there were. *)
Record ports_inv (m0 : Fds) (l : list (Z * bytes)) (c : VM) (chs : list SerialChannel) (p : Proc F St)
    : Prop := {
  pi_fds : ∃ H K, fds p = H ∪ (K ∪ m0) ∧ H ##ₘ K ∪ m0 ∧ K ##ₘ m0 ∧
    dom H = list_to_set (host_fds chs) ∧ size K = length (filter (λ x, x.1 = 0) l);
  pi_ids : ids_below (fds p) (pipes p);
  pi_wired : Forall2 (wired (pipes p) (fds p)) l chs;
  pi_tx : NoDup l.*1 → ∀ i name ch, l !! i = Some (0, name) → chs !! i = Some ch →
    fds p !! pl_tx_fd (pl011 c) = Some (pump ch, true);
}.

Lemma ports_inv_start c p : ids_below (fds p) (pipes p) → ports_inv (fds p) [] c [] p.
Proof.
  intros Hi. split; [|done|done|by intros _ []]. exists ∅, ∅. rewrite !map_empty_union. split_and!; try done.
  - apply map_disjoint_empty_l.
  - apply map_disjoint_empty_l.
Qed.

(** The same with the descriptor of the console inserted or not. *)
Lemma fds_add (H K m0 : Fds) r w x v1 v2 v3 (zero : bool) :
  H ##ₘ K ∪ m0 → K ##ₘ m0 → let m := H ∪ (K ∪ m0) in
  m !! r = None → m !! w = None → m !! x = None → r ≠ w → x ≠ r → x ≠ w →
  ∃ K', <[r := v1]> (<[w := v2]> ((if zero then <[x := v3]> else id) m)) =
      <[r := v1]> (<[w := v2]> H) ∪ (K' ∪ m0) ∧
    <[r := v1]> (<[w := v2]> H) ##ₘ K' ∪ m0 ∧ K' ##ₘ m0 ∧
    size K' = (size K + if zero then 1 else 0)%nat.
Proof.
  intros H1 H2 m Hr Hw Hx ???.
  apply lookup_union_None in Hr as [Hr1 [Hr2 Hr3]%lookup_union_None],
    Hw as [Hw1 [Hw2 Hw3]%lookup_union_None], Hx as [Hx1 [Hx2 Hx3]%lookup_union_None].
  assert (∀ K', <[r := v1]> (<[w := v2]> (H ∪ (K' ∪ m0))) = <[r := v1]> (<[w := v2]> H) ∪ (K' ∪ m0)) as E.
  { intros K'. by rewrite <- !insert_union_l. }
  assert (∀ K', H ##ₘ K' ∪ m0 → K' !! r = None → K' !! w = None →
    <[r := v1]> (<[w := v2]> H) ##ₘ K' ∪ m0) as D.
  { intros K' Hd Hr Hw. apply map_disjoint_insert_l. split; [by apply lookup_union_None|].
    apply map_disjoint_insert_l. split; [by apply lookup_union_None|done]. }
  destruct zero; cbn [id].
  - exists (<[x := v3]> K). split_and!.
    + rewrite <- E. do 2 f_equal. unfold m. by rewrite insert_union_r, insert_union_l by done.
    + apply D; [|by rewrite lookup_insert_ne..]. rewrite <- insert_union_l.
      by apply map_disjoint_insert_r.
    + by apply map_disjoint_insert_l.
    + rewrite map_size_insert_None by done. lia.
  - exists K. split_and!; [apply E|by apply D|done|lia].
Qed.

Lemma ports_inv_step (e : Env F St) (He : EnvLaws e) m0 l c chs i name p p' c' chs' :
  ports_inv m0 l c chs p → open_port e c chs i name p = (p', Ok (c', chs')) →
  ports_inv m0 (l ++ [(i, name)]) c' chs' p' ∧
    (hv_vm p', vms_ p', next_id_ p') = (hv_vm p, vms_ p, next_id_ p) ∧ c' = set_pl011 c (pl011 c').
Proof.
  intros [(H & K & Ef & D1 & D2 & Ed & Es) Hids Hw Htx] Ho.
  apply (open_port_ok _ He) in Ho as (r & w & x & Hr0 & Hw0 & Hr & Hwn & Hx & ? & ? & ? & -> & -> & ->).
  cbn [fds pipes hv_vm vms_ next_id_]. split; [|split; [done|by destruct c, (i =? 0)]].
  set (n := pipes p) in *.
  assert (ids_below ((if i =? 0 then <[x := (S n, true)]> else id) (fds p)) (S (S n))) as Hids'.
  { destruct (i =? 0); [apply (ids_below_insert _ n); [done|lia..]|].
    eapply map_Forall_impl; [exact Hids|]. cbn. intros _ v Hv. unfold n. lia. }
  assert (∀ y, y ≠ x → fds p !! y = None → (if i =? 0 then <[x := (S n, true)]> else id) (fds p) !! y = None) as Hfresh.
  { intros y Hy E. destruct (i =? 0); [by rewrite lookup_insert_ne|done]. }
  set (m1 := (if i =? 0 then <[x := (S n, true)]> else id) (fds p)) in *.
  assert (m1 !! r = None ∧ m1 !! w = None) as [Hr1 Hw1] by by split; apply Hfresh.
  split; cbn [fds pipes].
  - rewrite Ef in Hr, Hwn, Hx.
    destruct (fds_add H K m0 r w x (S n, false) (n, true) (S n, true) (i =? 0)) as (K' & E & E1 & E2 & E3); try done.
    eexists _, K'. split_and!; [by unfold m1; rewrite Ef, E|done|done| |].
    + rewrite host_fds_app, !dom_insert_L, Ed, list_to_set_app_L. cbn.
      by rewrite union_empty_r_L, union_assoc_L, union_comm_L.
    + rewrite E3, filter_app, length_app, Es, filter_cons. destruct (Z.eqb_spec i 0); case_decide; done.
  - apply (ids_below_insert _ (S (S n))); [|lia..]. apply (ids_below_insert _ (S (S n))); [done|lia..].
  - apply Forall2_app.
    + eapply Forall2_impl; [exact Hw|]. intros y ch Hc. apply (wired_weaken n); [|lia].
      apply wired_insert; [|by rewrite lookup_insert_ne|lia]. apply wired_insert; [|done|lia].
      unfold m1. destruct (i =? 0); [|done]. by apply wired_insert; [| |lia].
    + constructor; [|done]. split; cbn [server host_write_fd host_read_fd pump fst snd].
      * done.
      * done.
      * exists n. split; [lia|]. split; [by rewrite lookup_insert_ne, lookup_insert_eq|].
        apply no_reader. intros y. rewrite lookup_insert. case_decide; [intros [= ?]; lia|].
        rewrite lookup_insert. case_decide; [done|]. unfold m1.
        destruct (i =? 0); [rewrite lookup_insert; case_decide; [done|]|]; intros Hy; apply Hids in Hy; cbn in Hy; lia.
      * split; [lia|]. split; [by rewrite lookup_insert_eq|].
        destruct (Z.eqb_spec i 0) as [->|Hi].
        -- apply a_writer. exists x. rewrite !lookup_insert_ne by done. unfold m1. by rewrite lookup_insert_eq.
        -- apply no_writer. intros y. rewrite lookup_insert. case_decide; [done|].
           rewrite lookup_insert. case_decide; [intros [= ?]; lia|]. unfold m1, id. intros Hy; apply Hids in Hy; cbn in Hy; lia.
  - intros Hnd j name' ch' Hl Hch. rewrite fmap_app in Hnd. apply NoDup_app in Hnd as (Hnd & Hdis & _).
    pose proof (Forall2_length _ _ _ Hw) as Hlen.
    apply lookup_snoc_Some in Hl as [[? Hl']|[? Hl']].
    + assert (i ≠ 0) as Hi.
      { intros ->. apply (Hdis 0); [|by left]. apply list_elem_of_fmap. exists (0, name'). split; [done|].
        by eapply list_elem_of_lookup_2. }
      rewrite (proj2 (Z.eqb_neq i 0) Hi) in *. rewrite lookup_app_l in Hch by lia.
      pose proof (Htx Hnd j name' ch' Hl' Hch) as Ht. unfold m1, id.
      rewrite !lookup_insert_ne by congruence. by rewrite (proj2 (Z.eqb_neq i 0) Hi).
    + injection Hl' as -> ->. cbn [Z.eqb] in *. subst j. rewrite lookup_app_r, Hlen, Nat.sub_diag in Hch by lia.
      injection Hch as <-. cbn [pump]. change (pl_tx_fd (pl011 (set_pl011_tx_fd c x))) with x.
      rewrite !lookup_insert_ne by done. unfold m1. by rewrite lookup_insert_eq.
Qed.

Lemma open_ports_inv (e : Env F St) (He : EnvLaws e) m0 l : ∀ done_ c chs p p' c' chs',
  ports_inv m0 done_ c chs p → open_ports e l c chs p = (p', Ok (c', chs')) →
  ports_inv m0 (done_ ++ l) c' chs' p' ∧
    (hv_vm p', vms_ p', next_id_ p') = (hv_vm p, vms_ p, next_id_ p) ∧ c' = set_pl011 c (pl011 c').
Proof.
  induction l as [|[i name] l IH]; intros done_ c chs p p' c' chs' Hi Ho.
  - cbn in Ho. injection Ho as <- <- <-. rewrite app_nil_r. split_and!; [done|done|by destruct c].
  - apply P_bind_Ok in Ho as ([c1 chs1] & p1 & E1 & Ho).
    apply (ports_inv_step _ He m0 done_) in E1 as (I1 & F1 & C1); [|done].
    apply (IH _ _ _ _ _ _ _ I1) in Ho as (I2 & F2 & C2). rewrite <- app_assoc in I2.
    split; [done|]. split; [congruence|]. rewrite C2, C1. by destruct c.
Qed.
End ports.

(** ** The machine [Create] registers *)
Section create.
Context {F St : Type} {HF : VirtioBlock.BlockFile F} {HS : VirtioNet.NetApi St}.
Abbreviation VM := (@VM F St).
#[local] Existing Instances P_ret P_bind.

Lemma attempt_ok {A} (e : Env F St) chs (r : res A) (p p' : Proc F St) a :
  attempt e chs r p = (p', Ok a) → r = Ok a ∧ p' = p.
Proof.
  unfold attempt, unwind, lift, mbind, P_bind. destruct r as [x|[]]; try (by intros [= -> ->]); try by intros [=].
  by destruct (forallb _ _).
Qed.

Lemma require_ok (e : Env F St) chs b (p p' : Proc F St) u :
  require e chs b p = (p', Ok u) → b = true ∧ p' = p.
Proof. intros [H ->]%attempt_ok. by destruct b. Qed.

(** The steps of a [Create] that returns. *)
Lemma create_steps (e : Env F St) j (p p' : Proc F St) h :
  create e j p = (p', Ok h) →
  ∃ R c0 c1 c2 b chs p1,
    parse_size (default (cs "2GB") (ram_size j)) = Ok R ∧ e_vm_create e (hv_vm p) = true ∧
    memory_init (e_mem e) R (new_ctx j R) = (true, c0) ∧
    open_ports e (sorted_serial j) c0 [] (set_hv_vm p true) = (p1, Ok (c1, chs)) ∧
    boot_kernel e j (devices e j c1) (mkBoot 0 0 0 0 (default [] (cmdline j))) = Ok (c2, b) ∧
    h = next_id_ p1 ∧
    p' = set_vms p1 (<[h := mkInstance c2 b chs]> (vms_ p1)) (u64 (h + 1)).
Proof.
  intros H. unfold create in H.
  apply P_bind_Ok in H as (R & p1 & E1 & H). injection E1 as <- E1.
  apply P_bind_Ok in H as (x & p2 & E2 & H). injection E2 as <- <-.
  apply P_bind_Ok in H as ([] & p2 & [E2 ->]%require_ok & H).
  apply P_bind_Ok in H as ([] & p2 & [= <-] & H).
  unfold create_machine in H. destruct (memory_init (e_mem e) R (new_ctx j R)) as [ok c0] eqn:Em.
  apply P_bind_Ok in H as ([] & p2 & [-> ->]%require_ok & H).
  apply P_bind_Ok in H as ([c1 chs] & p3 & E3 & H).
  apply P_bind_Ok in H as ([c2 b] & p4 & [E4 ->]%attempt_ok & H). injection H as <- <-.
  exists R, c0, c1, c2, b, chs, p3. done.
Qed.

(** The devices do not depend on the UART, nor does the boot sequence touch it. *)
Lemma devices_uart (e : Env F St) j c pl : devices e j (set_pl011 c pl) = set_pl011 (devices e j c) pl.
Proof.
  unfold devices. destruct (default [] (image j)) as [|x path]; [by destruct (net_enabled j)|].
  destruct (e_image e (x :: path)) as [[fd f] sz]. by destruct (net_enabled j).
Qed.

Lemma devices_world (e : Env F St) j c : world (devices e j c) = world c.
Proof.
  unfold devices. destruct (default [] (image j)) as [|x path]; [by destruct (net_enabled j)|].
  destruct (e_image e (x :: path)) as [[fd f] sz]. by destruct (net_enabled j).
Qed.

Lemma devices_pl011 (e : Env F St) j c : pl011 (devices e j c) = pl011 c.
Proof.
  unfold devices. destruct (default [] (image j)) as [|x path]; [by destruct (net_enabled j)|].
  destruct (e_image e (x :: path)) as [[fd f] sz]. by destruct (net_enabled j).
Qed.

Lemma boot_kernel_step (e : Env F St) j c b c' b' :
  boot_kernel e j c b = Ok (c', b') → ∃ k i, boot k i c b = Ok (c', b') ∧
    ((∀ path, from_option wf_file True (e_file e path)) →
     from_option wf_file True k ∧ from_option wf_file True (mjoin i)).
Proof.
  unfold boot_kernel. intros H. destruct (default [] (kernel j)) as [|x path]; [done|].
  do 2 eexists. split; [exact H|]. intros Hf. split; [apply Hf|].
  destruct (default [] (initrd j)); [done|apply Hf].
Qed.

Lemma boot_kernel_pl011 (e : Env F St) j c b c' b' :
  boot_kernel e j c b = Ok (c', b') → pl011 c' = pl011 c.
Proof. intros (k & i & H & _)%boot_kernel_step. by apply boot_step in H as (m & -> & _). Qed.

Lemma memory_init_world s R c c' : @memory_init F St s R c = (true, c') →
  c' = set_world c (with_ram (world c) (set_ram kGpaRamBase R)).
Proof. unfold memory_init. case_match; by intros [=]. Qed.
End create.

(** ** Later operations of the process *)
Inductive Op {F St : Type} : Type :=
  | OCreate (e : Env F St) (j : Json)
  | ODestroy (e : Env F St) (h : Z).

Section ops.
Context {F St : Type} {HF : VirtioBlock.BlockFile F} {HS : VirtioNet.NetApi St}.
Abbreviation VM := (@VM F St).
#[local] Existing Instances P_ret P_bind.

Definition run_op (o : Op) (p : Proc F St) : Proc F St * res (option Z) :=
  match o with
  | OCreate e j => match create e j p with (p, Ok h) => (p, Ok (Some h)) | (p, Err x) => (p, Err x) end
  | ODestroy e h => match destroy e h p with (p, Ok _) => (p, Ok None) | (p, Err x) => (p, Err x) end
  end.

(** The handles a run yields; an exception is caught by the caller, and an
    operation that hangs ends the run. *)
Fixpoint run_ops (os : list Op) (p : Proc F St) : list Z :=
  match os with
  | [] => []
  | o :: os =>
      match run_op o p with
      | (p, Ok (Some h)) => h :: run_ops os p
      | (p, Ok None) | (p, Err Thrown) => run_ops os p
      | (_, Err _) => []
      end
  end.
Definition env_of (o : Op) : Env F St := match o with OCreate e _ | ODestroy e _ => e end.

(** Up to [hv_vm_create]. *)
Lemma create_start (e : Env F St) j p :
  create e j p =
    match parse_size (default (cs "2GB") (ram_size j)) with
    | Ok R => if e_vm_create e (hv_vm p) then create_machine e j R (set_hv_vm p true) else (p, Err Thrown)
    | Err x => (p, Err x)
    end.
Proof.
  unfold create. unfold mbind at 1, P_bind at 1, lift. destruct (parse_size _) as [R|x]; [|done].
  unfold mbind at 1, P_bind at 1, gets. unfold mbind at 1, P_bind at 1.
  by destruct (e_vm_create e (hv_vm p)).
Qed.

(** [Create] cannot succeed while the process has a virtual machine. *)
Lemma create_busy (e : Env F St) (He : EnvLaws e) j p :
  hv_vm p = true → ∃ x, create e j p = (p, Err x).
Proof.
  intros Hp. rewrite create_start, Hp, (one_vm _ He). destruct (parse_size _); by eexists.
Qed.

Lemma destroy_unknown (e : Env F St) h p : vms_ p !! h = None → destroy e h p = (p, Ok tt).
Proof. intros H. unfold destroy. by rewrite H. Qed.

(** A machine without a handle is there for good. *)
Lemma run_ops_stuck os : ∀ p, hv_vm p = true → vms_ p = ∅ →
  Forall (λ o, EnvLaws (env_of o)) os → run_ops os p = [].
Proof.
  induction os as [|o os IH]; intros p Hp Hv Ho; [done|]. apply Forall_cons in Ho as [Ho Hos].
  cbn [run_ops]. destruct o as [e j|e h]; cbn [run_op].
  - destruct (create_busy e Ho j p Hp) as [x ->].
    destruct x; [done..|by apply IH].
  - rewrite destroy_unknown by by rewrite Hv. by apply IH.
Qed.

(** What stays of a [Create] that fails: the registry and, once made, the machine. *)
Lemma unwind_state (e : Env F St) chs p p' (x : res unit) : unwind e chs p = (p', x) → p' = p.
Proof. by intros [= <- _]. Qed.

Definition keeps_vms {A} (m : P (F := F) (St := St) A) : Prop :=
  ∀ p p' r, m p = (p', r) → (vms_ p', hv_vm p', next_id_ p') = (vms_ p, hv_vm p, next_id_ p).
Definition fails_clean {A} (m : P (F := F) (St := St) A) : Prop :=
  ∀ p p' x, m p = (p', Err x) → (vms_ p', hv_vm p', next_id_ p') = (vms_ p, hv_vm p, next_id_ p).

Lemma keeps_bind {A B} (m : P A) (f : A → P B) :
  keeps_vms m → (∀ a, keeps_vms (f a)) → keeps_vms (m ≫= f).
Proof.
  intros Hm Hf p p' r H. unfold mbind, P_bind in H. destruct (m p) as [p1 [a|x]] eqn:E.
  - apply Hm in E. apply Hf in H. congruence.
  - injection H as <- _. by eapply Hm.
Qed.
Lemma fails_bind {A B} (m : P A) (f : A → P B) :
  keeps_vms m → (∀ a, fails_clean (f a)) → fails_clean (m ≫= f).
Proof.
  intros Hm Hf p p' r H. unfold mbind, P_bind in H. destruct (m p) as [p1 [a|x]] eqn:E.
  - apply Hm in E. apply Hf in H. congruence.
  - injection H as <- _. by eapply Hm.
Qed.
Lemma keeps_ret {A} (a : A) : keeps_vms (mret a).
Proof. by intros p p' r [= <- _]. Qed.
Lemma keeps_lift {A} (a : res A) : keeps_vms (lift a).
Proof. by intros p p' r [= <- _]. Qed.
Lemma keeps_unwind (e : Env F St) chs : keeps_vms (unwind e chs).
Proof. by intros p p' r [= <- _]. Qed.
Lemma keeps_gets {A} (f : Proc F St → A) : keeps_vms (gets f).
Proof. by intros p p' r [= <- _]. Qed.
Lemma keeps_close fd : keeps_vms (sys_close fd).
Proof. by intros p p' r [= <- _]. Qed.
Lemma keeps_attempt {A} (e : Env F St) chs (a : res A) : keeps_vms (attempt e chs a).
Proof.
  destruct a as [x|[]]; try apply keeps_lift. apply keeps_bind; [apply keeps_unwind|].
  intros []. apply keeps_lift.
Qed.
Lemma keeps_pipe (e : Env F St) chs : keeps_vms (sys_pipe e chs).
Proof.
  intros p p' r H. unfold sys_pipe in H. destruct (e_pipe e (fds p)) as [[x y]|]; [by injection H as <- _|].
  revert H. apply (keeps_bind (unwind e chs)); [apply keeps_unwind|]. intros []. apply keeps_lift.
Qed.

Lemma keeps_open_ports (e : Env F St) l : ∀ c chs, keeps_vms (open_ports e l c chs).
Proof.
  induction l as [|[i name] l IH]; intros c chs; [apply keeps_ret|]. cbn [open_ports].
  apply keeps_bind; [|intros [c' chs']; apply IH]. unfold open_port.
  apply keeps_bind; [apply keeps_pipe|intros [r1 w1]].
  apply keeps_bind; [apply keeps_pipe|intros [r2 w2]].
  apply keeps_bind.
  - destruct (i =? 0); [|apply keeps_bind; [apply keeps_close|intros []]];
      (apply keeps_bind; [apply keeps_close|intros []; apply keeps_ret]).
  - intros c2. apply keeps_bind; [apply keeps_gets|]. intros k. apply keeps_ret.
Qed.

Lemma create_machine_clean (e : Env F St) j R : fails_clean (create_machine e j R).
Proof.
  unfold create_machine. destruct (memory_init _ _ _) as [ok c0].
  apply fails_bind; [apply keeps_attempt|intros []].
  apply fails_bind; [apply keeps_open_ports|intros [c chs]].
  apply fails_bind; [apply keeps_attempt|intros [c' b']]. by intros q q' y [=].
Qed.

Lemma create_failed (e : Env F St) j p p' x R :
  parse_size (default (cs "2GB") (ram_size j)) = Ok R → e_vm_create e (hv_vm p) = true →
  create e j p = (p', Err x) → vms_ p' = vms_ p ∧ hv_vm p' = true.
Proof.
  intros HR Hc H. rewrite create_start, HR, Hc in H.
  by apply create_machine_clean in H as [= -> -> _].
Qed.
End ops.

(** ** Properties *)
Section total.
Context {F St : Type} {HF : VirtioBlock.BlockFile F} {HS : VirtioNet.NetApi St}.
Abbreviation VM := (@VM F St).
#[local] Existing Instances P_ret P_bind.

(** With descriptors to spare every port opens. *)
Lemma open_ports_total (e : Env F St) (Hp : ∀ m, is_Some (e_pipe e m)) l : ∀ c chs p,
  ∃ p' pl chs', open_ports e l c chs p = (p', Ok (set_pl011 c pl, chs')) ∧ next_id_ p' = next_id_ p.
Proof.
  assert (∀ chs p, ∃ p' x, sys_pipe e chs p = (p', Ok x) ∧ next_id_ p' = next_id_ p) as Hs.
  { intros chs p. unfold sys_pipe. destruct (Hp (fds p)) as [[r w] ->]. by do 2 eexists. }
  induction l as [|[i name] l IH]; intros c chs p; [exists p, (pl011 c), chs; by destruct c|]. cbn [open_ports].
  assert (∃ p1 pl chs1, open_port e c chs i name p = (p1, Ok (set_pl011 c pl, chs1)) ∧ next_id_ p1 = next_id_ p)
    as (p1 & pl1 & chs1 & E & En).
  { unfold open_port. destruct (Hs chs p) as (p1 & [r1 w1] & E1 & N1).
    unfold mbind at 1, P_bind at 1. rewrite E1. destruct (Hs chs p1) as (p2 & [r2 w2] & E2 & N2).
    unfold mbind at 1, P_bind at 1. rewrite E2. rewrite <- N1, <- N2.
    destruct (i =? 0); [by do 3 eexists|]. exists (set_fds p2 (delete w2 (delete r1 (fds p2)))), (pl011 c).
    eexists. by destruct c. }
  unfold mbind, P_bind. rewrite E. destruct (IH (set_pl011 c pl1) chs1 p1) as (p2 & pl2 & chs2 & E2 & N2).
  exists p2, pl2, chs2. by split; [|congruence].
Qed.

(** The machine [Create] boots, before it is booted, but for the UART. *)
Definition machine_of (e : Env F St) (j : Json) (R : Z) : VM :=
  devices e j (set_world (new_ctx j R) (mkWorld (set_ram kGpaRamBase R) [])).

Lemma create_frame (e : Env F St) (He : EnvLaws e) j p p' h :
  ids_below (fds p) (pipes p) → create e j p = (p', Ok h) →
  ∃ R pl b0 c2 b chs, let inst := mkInstance c2 b chs in
    parse_size (default (cs "2GB") (ram_size j)) = Ok R ∧
    built R (set_pl011 (machine_of e j R) pl) ∧ Boot.cmdline b0 = default [] (cmdline j) ∧
    boot_kernel e j (set_pl011 (machine_of e j R) pl) b0 = Ok (c2, b) ∧
    h = next_id_ p ∧ vms_ p' = <[h := inst]> (vms_ p) ∧ next_id_ p' = u64 (h + 1) ∧ hv_vm p' = true ∧
    ports_inv (fds p) (sorted_serial j) c2 chs p'.
Proof.
  intros Hi H. apply create_steps in H as (R & c0 & c1 & c2 & b & chs & p1 & HR & _ & Hm & Ho & Hb & -> & ->).
  pose proof (ports_inv_start c0 (set_hv_vm p true) Hi) as Hs.
  destruct (open_ports_inv e He (fds p) _ [] c0 [] _ _ _ _ Hs Ho) as (Hinv & [= Hvm Hv Hn] & Hc).
  pose proof (memory_init_world _ _ _ _ Hm) as E0.
  assert (devices e j c1 = set_pl011 (machine_of e j R) (pl011 c1)) as Ed.
  { rewrite Hc, devices_uart, E0. done. }
  exists R, (pl011 c1), (mkBoot 0 0 0 0 (default [] (cmdline j))), c2, b, chs. cbv zeta.
  rewrite Hn, Hv. rewrite <- Ed. split_and!; [exact HR| |done|exact Hb|done|done|done|exact Hvm|].
  - rewrite Ed. apply built_uart. unfold machine_of, devices.
    assert (@built F St R (create_console (-1) (-1) (set_world (new_ctx j R) (mkWorld (set_ram kGpaRamBase R) [])))) as Hb1.
    { apply built_console. rewrite E0 in Hm.
      eapply (built_init _ _ (e_mem e)); [|exact Hm]. apply u32_range. }
    destruct (default [] (image j)) as [|x path]; destruct (net_enabled j).
    + by apply built_net.
    + exact Hb1.
    + by apply built_net, built_block.
    + by apply built_block.
  - destruct Hinv as [H1 H2 H3 H4]. split; [exact H1|exact H2|exact H3|]. intros Hnd i name ch Hl Hch.
    rewrite (boot_kernel_pl011 _ _ _ _ _ _ Hb), devices_pl011. by eapply H4.
Qed.

(** The machine [Create] boots: reachable, with the devices and vCPUs asked for. *)
Lemma booted_machine (e : Env F St) j R pl b0 c2 b :
  (∀ path, from_option wf_file True (e_file e path)) → wf_bytes (default [] (cmdline j)) →
  built R (set_pl011 (machine_of e j R) pl) → Boot.cmdline b0 = default [] (cmdline j) →
  boot_kernel e j (set_pl011 (machine_of e j R) pl) b0 = Ok (c2, b) →
  reach R c2 ∧ is_Some (console c2) ∧ (is_Some (block c2) ↔ default [] (image j) ≠ []) ∧
  (is_Some (net c2) ↔ is_Some (net_enabled j)) ∧
  length (vcpus c2) = Z.to_nat (u32 (default 1 (cpu_count j))).
Proof.
  intros Hf Hc Hbuilt Hb0 Hb.
  destruct (boot_kernel_step _ _ _ _ _ _ Hb) as (k & i & E & Hwf). destruct (Hwf Hf) as [Hk Hi].
  split.
  { eapply reach_boot; [exact Hbuilt|exact Hk|exact Hi|by rewrite Hb0|exact E]. }
  apply boot_step in E as (m & -> & _); unfold machine_of, devices;
    destruct (default [] (image j)) as [|x path]; [|destruct (e_image e (x :: path)) as [[fd f] sz]];
    destruct (net_enabled j); cbn.
  all: rewrite ?length_replicate; split_and!; try done.
  all: split; intros Hx; by try destruct Hx.
Qed.

Lemma close_fd_fds fd (p : Proc F St) :
  0 ≤ fd → close_fd fd p = (set_fds p (delete fd (fds p)), Ok tt).
Proof. intros H. unfold close_fd. by rewrite (proj2 (Z.leb_le 0 fd) H). Qed.

(** Closing the channels removes exactly their descriptors. *)
Lemma close_channels_fds chs : ∀ p : Proc F St,
  Forall (λ ch, 0 ≤ host_write_fd ch ∧ 0 ≤ host_read_fd ch) chs →
  ∃ m, close_channels chs p = (set_fds p m, Ok tt) ∧
    ∀ x, m !! x = if decide (x ∈ host_fds chs) then None else fds p !! x.
Proof.
  induction chs as [|ch chs IH]; intros p Hc; [by exists (fds p); destruct p|].
  apply Forall_cons in Hc as [[H1 H2] Hc]. cbn [close_channels].
  unfold mbind at 1, P_bind at 1. rewrite close_fd_fds by done.
  unfold mbind at 1, P_bind at 1. rewrite close_fd_fds by done.
  destruct (IH (set_fds (set_fds p (delete (host_read_fd ch) (fds p)))
    (delete (host_write_fd ch) (delete (host_read_fd ch) (fds p)))) Hc) as (m & E & Hm).
  exists m. split; [exact E|]. intros x. rewrite Hm. cbn [set_fds fds].
  change (host_fds (ch :: chs)) with (host_read_fd ch :: host_write_fd ch :: host_fds chs).
  rewrite !lookup_delete. repeat case_decide; try done;
    exfalso; rewrite ?elem_of_cons in *; intuition congruence.
Qed.

(** [Destroy] of a registered machine, when it returns. *)
Lemma destroy_ok (e : Env F St) h p p' inst :
  vms_ p !! h = Some inst → destroy e h p = (p', Ok tt) →
  Forall (λ ch, 0 ≤ host_write_fd ch ∧ 0 ≤ host_read_fd ch) (channels inst) →
  hv_vm p' = false ∧ vms_ p' = delete h (vms_ p) ∧
    ∀ x, fds p' !! x = if decide (x ∈ host_fds (channels inst)) then None else fds p !! x.
Proof.
  intros Hi H Hc. unfold destroy in H. rewrite Hi in H.
  destruct (close_channels_fds _ p Hc) as (m & E & Hm).
  apply P_bind_Ok in H as ([] & p1 & E1 & H). rewrite E in E1. injection E1 as <-.
  apply P_bind_Ok in H as ([] & p2 & [= <- _] & H).
  apply P_bind_Ok in H as ([] & p2 & [= <-] & H).
  apply P_bind_Ok in H as ([] & p2 & [= <- _] & H). injection H as <-. done.
Qed.
End total.

(** [Create] registers a machine.  When it returns, the handle is the next
    free number, the registry gained exactly this instance, the process has its
    virtual machine, and the instance's machine is a reachable one of the
    requested size, so that the machine invariant holds of it and of everything
    that happens to it later; it has a console, a disk iff an image was named, a
    network device iff the network is enabled, and the requested vCPUs. *)
Theorem create_registers {F St : Type} {HF : VirtioBlock.BlockFile F} {HS : VirtioNet.NetApi St}
    (e : Env F St) (j : Json) (p p' : Proc F St) (h : Z)
    (He : EnvLaws e) (Hids : ids_below (fds p) (pipes p))
    (Hf : ∀ path, from_option wf_file True (e_file e path)) (Hc : wf_bytes (default [] (cmdline j)))
    (H : create e j p = (p', Ok h)) :
  ∃ inst R, h = next_id_ p ∧ vms_ p' = <[h := inst]> (vms_ p) ∧ next_id_ p' = u64 (h + 1) ∧
    hv_vm p' = true ∧ parse_size (default (cs "2GB") (ram_size j)) = Ok R ∧ reach R (ctx inst) ∧
    is_Some (console (ctx inst)) ∧ (is_Some (block (ctx inst)) ↔ default [] (image j) ≠ []) ∧
    (is_Some (net (ctx inst)) ↔ is_Some (net_enabled j)) ∧
    length (vcpus (ctx inst)) = Z.to_nat (u32 (default 1 (cpu_count j))).
Proof.
  destruct (create_frame e He j p p' h Hids H)
    as (R & pl & b0 & c2 & b & chs & HR & Hbuilt & Hb0 & Hb & Hh & Hv & Hn & Hvm & _).
  destruct (booted_machine e j R pl b0 c2 b Hf Hc Hbuilt Hb0 Hb) as (H1 & H2 & H3 & H4 & H5).
  exists (mkInstance c2 b chs), R. cbn [ctx]. split_and!; done.
Qed.

(** C11. [Create] boots what it is given.  When the system cooperates and the
    kernel, the initrd and the device tree fit their regions, it returns a
    handle, and the registered machine's RAM holds the kernel and the initrd at
    their load addresses and a device tree that reads back and announces the
    initrd's range (end exclusive); the entry point is the load address plus the
    text offset of the image header. *)
Theorem create_boots {F St : Type} {HF : VirtioBlock.BlockFile F} {HS : VirtioNet.NetApi St}
    (e : Env F St) (j : Json) (p : Proc F St) (R : Z) (kp ip k i : bytes)
    (Hpipe : ∀ m, is_Some (e_pipe e m)) (Hvm : e_vm_create e (hv_vm p) = true)
    (Hmem : e_mem e = mkMemSys true true true true true)
    (HR : parse_size (default (cs "2GB") (ram_size j)) = Ok R)
    (Hkp : kernel j = Some kp) (Hip : initrd j = Some ip) (Hne : kp ≠ [] ∧ ip ≠ [])
    (Hk : e_file e kp = Some (whole k)) (Hi : e_file e ip = Some (whole i))
    (Hlay : layout_ok (set_ram kGpaRamBase R) k i)
    (Hcmd : Z.of_nat (length (default [] (cmdline j))) < 2 ^ 32 - 1)
    (Hdtb : Z.of_nat (length (dtb_blob (boot_ctx (machine_of e j R) (boot_ram (set_ram kGpaRamBase R) k i))
              (boot_info (mkBoot 0 0 0 0 (default [] (cmdline j))) k i))) ≤ dtb_room) :
  ∃ p' inst rs ts, create e j p = (p', Ok (next_id_ p)) ∧ vms_ p' !! next_id_ p = Some inst ∧
    let m := w_ram (world (ctx inst)) in let b := boot_state inst in
    peeks m kernel_off (length k) = k ∧ peeks m initrd_off (length i) = i ∧
    guest_fdt m (dtb_gpa b - kGpaRamBase) = Some (rs, ts) ∧
    TProp (cs "linux,initrd-start") (be_enc 8 kGpaInitrdLoad) ∈ ts ∧
    TProp (cs "linux,initrd-end") (be_enc 8 (kGpaInitrdLoad + Z.of_nat (length i))) ∈ ts ∧
    kernel_entry b = u64 (kGpaKernelLoad + image_offset k).
Proof.
  set (b0 := mkBoot 0 0 0 0 (default [] (cmdline j))) in *.
  rewrite create_start, HR, Hvm. unfold create_machine, memory_init. rewrite Hmem. cbn [ms_shm_open ms_ftruncate ms_mmap ms_hv_map ms_gic andb negb].
  set (c0 := set_world (new_ctx j R) _). set (p0 := set_hv_vm p true).
  destruct (open_ports_total e Hpipe (sorted_serial j) c0 [] p0) as (p1 & pl & chs & Eo & Hn).
  pose proof (boot_places (set_pl011 (machine_of e j R) pl) b0 k i) as Hboot.
  change (world (set_pl011 (machine_of e j R) pl)) with (world (machine_of e j R)) in Hboot.
  assert (world (machine_of e j R) = mkWorld (set_ram kGpaRamBase R) []) as Ew by apply devices_world.
  rewrite Ew in Hboot. cbn [w_ram] in Hboot.
  destruct (Hboot Hlay Hcmd Hdtb) as (c2 & b & rs & ts & Eb & P1 & P2 & P3 & P4 & P5 & P6 & _).
  assert (boot_kernel e j (devices e j (set_pl011 c0 pl)) b0 = Ok (c2, b)) as Ek.
  { rewrite devices_uart. unfold boot_kernel. rewrite Hkp, Hip. cbn [default from_option id].
    destruct Hne. destruct kp, ip; try done. rewrite Hk, Hi. exact Eb. }
  exists (set_vms p1 (<[next_id_ p1 := mkInstance c2 b chs]> (vms_ p1)) (u64 (next_id_ p1 + 1))),
    (mkInstance c2 b chs), rs, ts.
  assert (next_id_ p1 = next_id_ p) as Hn' by exact Hn. rewrite <- Hn'. split_and!; [|apply lookup_insert_eq|done..].
  unfold mbind at 1, P_bind at 1. cbn [require attempt guard_res lift].
  unfold mbind at 1, P_bind at 1. rewrite Eo.
  unfold mbind at 1, P_bind at 1. subst c0 b0. cbn [with_ram] in *. rewrite Ek. reflexivity.
Qed.

(** Serial wiring.  After [Create] every configured port has its channel, in
    port order: what its client sends is written to a pipe nobody reads, and its
    pump thread reads a pipe whose write end is open for port 0 only; with
    distinct ports that write end is the UART's output descriptor, so the guest's
    UART output is what the client of port 0 receives. *)
Theorem serial_wiring {F St : Type} {HF : VirtioBlock.BlockFile F} {HS : VirtioNet.NetApi St}
    (e : Env F St) (j : Json) (p p' : Proc F St) (h : Z)
    (He : EnvLaws e) (Hids : ids_below (fds p) (pipes p)) (H : create e j p = (p', Ok h)) :
  ∃ inst, vms_ p' !! h = Some inst ∧
    Forall2 (wired (pipes p') (fds p')) (sorted_serial j) (channels inst) ∧
    (NoDup (sorted_serial j).*1 → ∀ i name ch,
       sorted_serial j !! i = Some (0, name) → channels inst !! i = Some ch →
       fds p' !! pl_tx_fd (pl011 (ctx inst)) = Some (pump ch, true)).
Proof.
  destruct (create_frame e He j p p' h Hids H)
    as (R & pl & b0 & c2 & b & chs & _ & _ & _ & _ & _ & Hv & _ & _ & [_ _ Hw Ht]).
  exists (mkInstance c2 b chs). rewrite Hv, lookup_insert_eq. done.
Qed.


(** A failed [Create] is final.  [hv_vm_destroy] is called only for a
    registered machine, so when [Create] throws after [hv_vm_create] in a process
    without machines, no later sequence of operations yields a machine. *)
Theorem create_failure_final {F St : Type} {HF : VirtioBlock.BlockFile F} {HS : VirtioNet.NetApi St}
    (e : Env F St) (j : Json) (p p' : Proc F St) (R : Z) (os : list (@Op F St)) :
  parse_size (default (cs "2GB") (ram_size j)) = Ok R → e_vm_create e (hv_vm p) = true →
  vms_ p = ∅ → create e j p = (p', Err Thrown) → Forall (λ o, EnvLaws (env_of o)) os →
  run_ops os p' = [].
Proof.
  intros HR Hc Hv H Ho. destruct (create_failed _ _ _ _ _ _ HR Hc H) as [H1 H2].
  apply run_ops_stuck; [done|congruence|done].
Qed.

(** A failed [Create] may not even return.  A configuration with serial port
    0 and no kernel is refused only after the port was opened; destroying the
    port then waits for its pump thread, whose pipe keeps an open write end, so
    the error is never reported. *)
Theorem create_failure_hangs {F St : Type} {HF : VirtioBlock.BlockFile F} {HS : VirtioNet.NetApi St}
    (e : Env F St) (j : Json) (p : Proc F St) (R : Z) (name : bytes)
    (He : EnvLaws e) (Hids : ids_below (fds p) (pipes p)) (Hpipe : ∀ m, is_Some (e_pipe e m))
    (Hvm : e_vm_create e (hv_vm p) = true) (Hmem : e_mem e = mkMemSys true true true true true)
    (HR : parse_size (default (cs "2GB") (ram_size j)) = Ok R)
    (Hport : (0, name) ∈ sorted_serial j) (Hk : default [] (kernel j) = []) :
  (create e j p).2 = Err Deadlock.
Proof.
  rewrite create_start, HR, Hvm. unfold create_machine, memory_init. rewrite Hmem.
  cbn [ms_shm_open ms_ftruncate ms_mmap ms_hv_map ms_gic andb negb].
  set (c0 := set_world (new_ctx j R) _). set (p0 := set_hv_vm p true).
  destruct (open_ports_total e Hpipe (sorted_serial j) c0 [] p0) as (p1 & pl & chs & Eo & _).
  destruct (open_ports_inv e He (fds p) _ [] c0 [] p0 p1 _ chs (ports_inv_start c0 p0 Hids) Eo)
    as ([_ _ Hw _] & _ & _).
  apply list_elem_of_lookup_1 in Hport as [i Hi].
  destruct (Forall2_lookup_l _ _ _ _ _ Hw Hi) as (ch & Hch & [_ _ _ (_ & Hr & Hwr)]).
  unfold mbind at 1, P_bind at 1. cbn [require attempt guard_res lift].
  unfold mbind at 1, P_bind at 1. rewrite Eo. unfold mbind at 1, P_bind at 1, boot_kernel. rewrite Hk.
  cbn [attempt]. unfold mbind, P_bind, unwind.
  enough (forallb (channel_ends e (fds p1)) chs = false) as -> by done.
  apply not_true_is_false. intros Hall. rewrite forallb_forall in Hall.
  specialize (Hall ch (proj1 (list_elem_of_In _ _) (list_elem_of_lookup_2 _ _ _ Hch))).
  unfold channel_ends in Hall. rewrite Hwr in Hall. cbn in Hall.
  destruct (has_reader (fds p1) (pump ch)) eqn:Er; [done|]. by apply no_reader with (x := host_read_fd ch) in Er.
Qed.
