(* ===== verification/HvfBackendWit.v ===== *)
(** * HvfBackendWit: concrete runs for the theorems of HvfBackendThms *)

From stdpp Require Import strings.
From S2P Require Import Prelude Bytes GuestMem World VmContext Fdt Boot BootThms BootMachine BootWit Create DiskImage HvfBackend HvfBackendThms.
From S2P Require VirtioBlock VirtioNet.

(** A stack that answers nothing. *)
#[local] Instance hx_stack : VirtioNet.NetApi unit := { VirtioNet.guest_tx st _ := Ok (st, []) }.

(** The two lowest descriptors above all open ones. *)
Definition top_fd (m : gmap Z (nat * bool)) : Z := foldr Z.max 2 (map_to_list m).*1.
Definition hx_pipe (m : gmap Z (nat * bool)) : option (Z * Z) := Some (top_fd m + 1, top_fd m + 2).

Lemma top_fd_free m x : top_fd m < x → 0 ≤ x ∧ m !! x = None.
Proof.
  unfold top_fd. intros H. assert (2 < x ∧ x ∉ (map_to_list m).*1) as [H1 H2].
  { induction (map_to_list m).*1 as [|y l IH]; cbn in H; [split; [lia|apply not_elem_of_nil]|].
    destruct IH as [H1 H2]; [lia|]. split; [done|]. rewrite not_elem_of_cons. split; [lia|done]. }
  split; [lia|]. destruct (m !! x) as [v|] eqn:E; [|done]. exfalso. apply H2.
  apply list_elem_of_fmap. exists (x, v). split; [done|]. by apply elem_of_map_to_list.
Qed.

(** A cooperating system, with the images of BootWit; [hx_sys] varies the
    system calls of [Memory::init]. *)
Definition hx_env (s : MemSys) : Env bytes unit :=
  mkEnv hx_pipe negb s (λ _, (3, [], None)) (λ _, tt)
    (λ path, if bool_decide (path = cs "vmlinuz") then Some (whole bx_kernel)
             else if bool_decide (path = cs "initrd") then Some (whole bx_initrd) else None)
    (λ _, true) true (λ _, true).

Lemma hx_laws s : EnvLaws (hx_env s).
Proof.
  split; [|done]. intros m r w [= <- <-].
  destruct (top_fd_free m (top_fd m + 1)), (top_fd_free m (top_fd m + 2)); try lia.
  split_and!; try done. lia.
Qed.

Definition hx_sys : MemSys := mkMemSys true true true true true.
Definition hx_json (k : option bytes) : Json :=
  mkJson None (Some 2) (Some (cs "256MB")) None None (Some (cs "console=ttyAMA0"))
    k (Some (cs "initrd"))
    (Some [mkSerial (Some 1) (Some (cs "b")); mkSerial (Some 0) (Some (cs "a"))]) None None None.
Definition hx_j : Json := hx_json (Some (cs "vmlinuz")).
Definition hx_proc : Proc bytes unit := mkProc ∅ 0 false ∅ 1.

Lemma hx_files s path : from_option wf_file True (e_file (hx_env s) path).
Proof.
  cbn. repeat case_bool_decide; cbn; [| |done]; apply wf_bytesb_ok; by vm_compute.
Qed.

Lemma hx_ids : ids_below (fds hx_proc) (pipes hx_proc).
Proof. apply map_Forall_empty. Qed.

Lemma hx_cmdline : wf_bytes (default [] (cmdline hx_j)).
Proof. apply wf_bytesb_ok. by vm_compute. Qed.

Lemma create_boots_witness :
  ∃ p' inst rs ts, create (hx_env hx_sys) hx_j hx_proc = (p', Ok 1) ∧ vms_ p' !! 1 = Some inst ∧
    guest_fdt (w_ram (world (ctx inst))) (dtb_gpa (boot_state inst) - kGpaRamBase) = Some (rs, ts) ∧
    kernel_entry (boot_state inst) = 0x40480000.
Proof.
  destruct (create_boots (hx_env hx_sys) hx_j hx_proc 0x10000000 (cs "vmlinuz") (cs "initrd") bx_kernel bx_initrd)
    as (p' & inst & rs & ts & E & Ei & _ & _ & Ef & _ & _ & Ek).
  - intros m. by eexists.
  - done.
  - done.
  - by vm_compute.
  - done.
  - done.
  - done.
  - by vm_compute.
  - by vm_compute.
  - exact bx_layout.
  - by vm_compute.
  - by vm_compute.
  - exists p', inst, rs, ts. split_and!; [exact E|exact Ei|exact Ef|exact Ek].
Defined.

(** The run itself, evaluated once. *)
Definition hx_run : Proc bytes unit * res Z := create (hx_env hx_sys) hx_j hx_proc.
Lemma hx_runs : hx_run.2 = Ok 1 ∧ (destroy (hx_env hx_sys) 1 hx_run.1).2 = Ok tt.
Proof. by vm_compute. Qed.

Lemma hx_created : create (hx_env hx_sys) hx_j hx_proc = (hx_run.1, Ok 1).
Proof. rewrite <- (proj1 hx_runs). unfold hx_run. apply surjective_pairing. Qed.
Lemma hx_destroyed :
  destroy (hx_env hx_sys) 1 hx_run.1 = ((destroy (hx_env hx_sys) 1 hx_run.1).1, Ok tt).
Proof.
  pose proof (proj2 hx_runs) as H. destruct (destroy (hx_env hx_sys) 1 hx_run.1) as [q r].
  cbn in H |- *. by rewrite H.
Qed.

Lemma create_registers_witness :
  ∃ inst, vms_ hx_run.1 = {[1 := inst]} ∧ reach 0x10000000 (ctx inst) ∧ is_Some (console (ctx inst)) ∧
    length (vcpus (ctx inst)) = 2%nat.
Proof.
  destruct (create_registers (hx_env hx_sys) hx_j hx_proc hx_run.1 1 (hx_laws _) hx_ids (hx_files _)
    hx_cmdline hx_created) as (inst & R & _ & Hv & _ & _ & HR & Hr & Hc & _ & _ & Hn).
  exists inst. split; [exact Hv|]. assert (R = 0x10000000) as <- by by vm_compute in HR; injection HR as <-.
  split; [exact Hr|]. split; [exact Hc|exact Hn].
Defined.

Lemma Forall2_two {A B} (R : A → B → Prop) x y l :
  Forall2 R [x; y] l → ∃ a b, l = [a; b] ∧ R x a ∧ R y b.
Proof.
  intros (a & l' & Ha & H & ->)%Forall2_cons_inv_l. apply Forall2_cons_inv_l in H as (b & l'' & Hb & H & ->).
  apply Forall2_nil_inv_l in H as ->. by exists a, b.
Qed.

Lemma serial_wiring_witness :
  ∃ inst a b, vms_ hx_run.1 !! 1 = Some inst ∧ channels inst = [a; b] ∧ server a = cs "a" ∧
    fds hx_run.1 !! pl_tx_fd (pl011 (ctx inst)) = Some (pump a, true) ∧
    has_writer (fds hx_run.1) (pump b) = false.
Proof.
  destruct (serial_wiring (hx_env hx_sys) hx_j hx_proc hx_run.1 1 (hx_laws _) hx_ids hx_created)
    as (inst & Hi & Hw & Ht). change (sorted_serial hx_j) with [(0, cs "a"); (1, cs "b")] in *.
  apply Forall2_two in Hw as (a & b & Ec & [Ha _ _ _] & [_ _ _ (_ & _ & Hb)]).
  exists inst, a, b. split; [exact Hi|]. split; [exact Ec|].
  split; [exact Ha|]. split; [|exact Hb].
  rewrite Ec in Ht. refine (Ht _ 0%nat (cs "a") a eq_refl eq_refl).
  apply (bool_decide_unpack _). vm_compute. exact I.
Defined.


(** A second attempt after [hv_vm_map] failed. *)
Lemma create_failure_final_witness :
  run_ops [OCreate (hx_env hx_sys) hx_j; ODestroy (hx_env hx_sys) 1; OCreate (hx_env hx_sys) hx_j]
    (create (hx_env (mkMemSys true true true false true)) hx_j hx_proc).1 = [].
Proof.
  apply (create_failure_final (hx_env (mkMemSys true true true false true)) hx_j hx_proc _ 0x10000000).
  - by vm_compute.
  - done.
  - done.
  - by vm_compute.
  - repeat (apply Forall_cons_2; [exact (hx_laws hx_sys)|]). apply Forall_nil_2.
Defined.

Lemma create_failure_hangs_witness : (create (hx_env hx_sys) (hx_json None) hx_proc).2 = Err Deadlock.
Proof.
  apply (create_failure_hangs (hx_env hx_sys) (hx_json None) hx_proc 0x10000000 (cs "a")).
  - apply hx_laws.
  - exact hx_ids.
  - intros m. by eexists.
  - done.
  - done.
  - by vm_compute.
  - by left.
  - done.
Defined.
