(* ===== verification/Facade.v ===== *)
(** * Facade: the public interface over the two backends

    Models src/src/vm.cpp (with backend.hpp and include/compute/vm.hpp): the
    table [g_backends] from handles to backends and [Create], [UI] and
    [Destroy].  A backend is known through the class [Backend], the virtual
    functions of src/src/backend.hpp, and the contract [BackendLaws].  Both
    satisfy it: the HVF backend by the instance below, the VZ backend by the one
    of VzBackendThms.  The theorems here use only the contract.
    Parsing the JSON text is the JSON library's: an operation gets its result. *)

From stdpp Require Import strings.
From S2P Require Import Prelude Bytes VmContext Fdt Create HvfBackend HvfBackendThms.
From S2P Require VirtioBlock VirtioNet.

(** ** The interface of a backend *)
Class Backend (S : Type) := {
  b_create : S → Json → S * res Z;
  b_ui : S → Z → S;
  b_destroy : S → Z → S * res unit;
}.

(** Its contract: it numbers its machines from its own counter, and destroying
    one that lives, when it returns, removes exactly that one. *)
Class BackendLaws (S : Type) `{Backend S} := {
  live : S → gset Z;
  next : S → Z;
  b_wf : S → Prop;
  wf_live s h : b_wf s → h ∈ live s → 0 < h < next s;
  create_spec s j s' r :
    b_wf s → 0 < next s → next s + 1 < 2 ^ 64 → b_create s j = (s', r) → b_wf s' ∧
    match r with
    | Ok h => h = next s ∧ next s' = next s + 1 ∧ live s' = {[h]} ∪ live s
    | Err _ => next s' = next s ∧ live s' = live s
    end;
  ui_spec s h : b_wf s → b_wf (b_ui s h) ∧ next (b_ui s h) = next s ∧ live (b_ui s h) = live s;
  destroy_spec s h s' r :
    b_wf s → b_destroy s h = (s', r) → b_wf s' ∧ next s' = next s ∧
    match r with
    | Ok _ => live s' = live s ∖ {[h]}
    | Err x => x ≠ Thrown ∧ live s' = live s
    end;
}.

(** ** The HVF backend keeps the contract *)
Section hvf.
Context {F St : Type} {HF : VirtioBlock.BlockFile F} {HS : VirtioNet.NetApi St}.
#[local] Existing Instances P_ret P_bind.

(** [UI] only logs. *)
#[export] Instance Hvf_backend (e : Env F St) : Backend (Proc F St) := {
  b_create p j := create e j p;
  b_ui p _ := p;
  b_destroy p h := destroy e h p;
}.

Lemma keeps_close_channels chs : keeps_vms (F := F) (St := St) (close_channels chs).
Proof.
  assert (∀ fd, keeps_vms (F := F) (St := St) (close_fd fd)) as Hc.
  { intros fd. unfold close_fd. destruct (0 <=? fd); [apply keeps_close|apply keeps_ret]. }
  induction chs as [|ch chs IH]; [apply keeps_ret|]. cbn [close_channels].
  apply keeps_bind; [apply Hc|intros []]. apply keeps_bind; [apply Hc|intros []]. exact IH.
Qed.

Lemma destroy_registry (e : Env F St) h p p' r :
  destroy e h p = (p', r) → next_id_ p' = next_id_ p ∧
    match r with Ok _ => vms_ p' = delete h (vms_ p) | Err x => x ≠ Thrown ∧ vms_ p' = vms_ p end.
Proof.
  unfold destroy. destruct (vms_ p !! h) as [inst|] eqn:E.
  2:{ intros [= <- <-]. split; [done|]. by rewrite delete_id. }
  unfold mbind at 1, P_bind at 1. destruct (close_channels (channels inst) p) as [p1 [[]|x]] eqn:E1.
  2:{ exfalso. revert E1. clear. generalize (channels inst) as chs. intros chs. revert p.
      induction chs as [|ch chs IH]; intros p; [done|]. cbn [close_channels].
      unfold mbind, P_bind, close_fd. destruct (0 <=? host_read_fd ch), (0 <=? host_write_fd ch);
        cbn; apply IH. }
  apply keeps_close_channels in E1 as [= Ev _ En].
  unfold mbind at 1, P_bind at 1, lift. destruct (e_run_ends e (stop (ctx inst))); cbn [guard_res].
  2:{ intros [= <- <-]. done. }
  unfold mbind at 1, P_bind at 1, modify. unfold mbind at 1, P_bind at 1, unwind.
  destruct (forallb _ _); intros [= <- <-]; cbn [set_hv_vm set_vms vms_ next_id_]; [by rewrite Ev|done].
Qed.

Lemma create_registry (e : Env F St) j p p' h :
  create e j p = (p', Ok h) → ∃ inst, h = next_id_ p ∧ vms_ p' = <[h := inst]> (vms_ p) ∧
    next_id_ p' = u64 (h + 1).
Proof.
  intros (R & c0 & c1 & c2 & b & chs & p1 & _ & _ & _ & Ho & _ & -> & ->)%create_steps.
  apply keeps_open_ports in Ho as [= Hv _ Hn]. rewrite Hn. by exists (mkInstance c2 b chs); rewrite Hv.
Qed.

Lemma create_registry_err (e : Env F St) j p p' x :
  create e j p = (p', Err x) → next_id_ p' = next_id_ p ∧ vms_ p' = vms_ p.
Proof.
  rewrite create_start. destruct (parse_size _) as [R|y]; [|by intros [= <- _]].
  destruct (e_vm_create _ _); [|by intros [= <- _]]. by intros [= -> _ ->]%create_machine_clean.
Qed.

#[export] Instance Hvf_laws (e : Env F St) : @BackendLaws (Proc F St) (Hvf_backend e).
Proof.
  unshelve refine {|
    live p := dom (vms_ p);
    next p := next_id_ p;
    b_wf p := ∀ h, h ∈ dom (vms_ p) → 0 < h < next_id_ p;
  |}.
  - auto.
  - cbn. intros p j p' [h|x] Hw H0 Hn H.
    + apply create_registry in H as (inst & -> & Hv & Hn'). rewrite u64_id in Hn' by lia.
      rewrite Hv, Hn', dom_insert_L. split; [|done]. intros h. rewrite elem_of_union, elem_of_singleton.
      intros [->|Hh]; [lia|]. specialize (Hw h Hh). lia.
    + apply create_registry_err in H as [Hn' Hv]. by rewrite Hv, Hn'.
  - done.
  - cbn. intros p h p' [[]|x] Hw H; apply destroy_registry in H as [Hn Hv].
    + rewrite Hv, Hn, dom_delete_L. split; [|done]. intros h' [Hh _]%elem_of_difference. by apply Hw.
    + destruct Hv as [Hx Hv]. by rewrite Hv, Hn.
Defined.
End hvf.

(** ** vm.cpp *)
Inductive Engine : Type := Vz | Hvf.
#[export] Instance Engine_eq_dec : EqDecision Engine.
Proof. solve_decision. Defined.

Section facade.
Context {Sv Sh : Type} {BV : Backend Sv} {BH : Backend Sh}.

Record State := mkState {
  g_backends : gmap Z Engine;
  g_vz_factory : Sv;
  g_hvf_factory : Sh;
}.
Definition set_backends (s : State) (m : gmap Z Engine) : State := mkState m (g_vz_factory s) (g_hvf_factory s).

Definition engine_of (j : Json) : option Engine :=
  let name := default (cs "vz") (engine j) in
  if bool_decide (name = cs "hvf") then Some Hvf
  else if bool_decide (name = cs "vz") then Some Vz else None.

(** A call on one of the factories. *)
Definition factory_create (s : State) (en : Engine) (j : Json) : State * res Z :=
  match en with
  | Hvf => let '(f, r) := b_create (g_hvf_factory s) j in (mkState (g_backends s) (g_vz_factory s) f, r)
  | Vz => let '(f, r) := b_create (g_vz_factory s) j in (mkState (g_backends s) f (g_hvf_factory s), r)
  end.
Definition factory_ui (s : State) (en : Engine) (h : Z) : State :=
  match en with
  | Hvf => mkState (g_backends s) (g_vz_factory s) (b_ui (g_hvf_factory s) h)
  | Vz => mkState (g_backends s) (b_ui (g_vz_factory s) h) (g_hvf_factory s)
  end.
Definition factory_destroy (s : State) (en : Engine) (h : Z) : State * res unit :=
  match en with
  | Hvf => let '(f, r) := b_destroy (g_hvf_factory s) h in (mkState (g_backends s) (g_vz_factory s) f, r)
  | Vz => let '(f, r) := b_destroy (g_vz_factory s) h in (mkState (g_backends s) f (g_hvf_factory s), r)
  end.

Definition Create (s : State) (config : option Json) : State * res Z :=
  match config with
  | None => (s, Err Thrown)
  | Some j =>
      match engine_of j with
      | None => (s, Err Thrown)
      | Some en =>
          match factory_create s en j with
          | (s, Ok handle) => (set_backends s (<[handle := en]> (g_backends s)), Ok handle)
          | (s, Err x) => (s, Err x)
          end
      end
  end.

Definition UI (s : State) (vm : Z) : State :=
  match g_backends s !! vm with Some en => factory_ui s en vm | None => s end.

Definition Destroy (s : State) (vm : Z) : State * res unit :=
  match g_backends s !! vm with
  | Some en => factory_destroy (set_backends s (delete vm (g_backends s))) en vm
  | None => (s, Ok tt)
  end.

(** ** Runs: an exception is the caller's, anything worse ends the run *)
Inductive Op : Type :=
  | OpCreate (config : option Json)
  | OpUI (vm : Z)
  | OpDestroy (vm : Z).

Definition continue {A} (r : State * res A) : res State :=
  match r with
  | (s, Ok _) | (s, Err Thrown) => Ok s
  | (_, Err x) => Err x
  end.
Definition step (s : State) (o : Op) : res State :=
  match o with
  | OpCreate c => continue (Create s c)
  | OpUI h => Ok (UI s h)
  | OpDestroy h => continue (Destroy s h)
  end.
Fixpoint run (os : list Op) (s : State) : res State :=
  match os with [] => Ok s | o :: os => s ← step s o; run os s end.

(** ** What the factories keep *)
Context {LV : BackendLaws Sv} {LH : BackendLaws Sh}.

Definition live_of (en : Engine) (s : State) : gset Z :=
  match en with Vz => live (g_vz_factory s) | Hvf => live (g_hvf_factory s) end.
Definition next_of (en : Engine) (s : State) : Z :=
  match en with Vz => next (g_vz_factory s) | Hvf => next (g_hvf_factory s) end.
Definition wf_state (s : State) : Prop := b_wf (g_vz_factory s) ∧ b_wf (g_hvf_factory s).
Definition other (en : Engine) : Engine := match en with Vz => Hvf | Hvf => Vz end.

(** A call on one factory does nothing to the other. *)
Lemma factory_create_spec s en j s' r :
  wf_state s → 0 < next_of en s → next_of en s + 1 < 2 ^ 64 → factory_create s en j = (s', r) →
  wf_state s' ∧ g_backends s' = g_backends s ∧
  (live_of (other en) s', next_of (other en) s') = (live_of (other en) s, next_of (other en) s) ∧
  match r with
  | Ok h => h = next_of en s ∧ next_of en s' = next_of en s + 1 ∧ live_of en s' = {[h]} ∪ live_of en s
  | Err _ => next_of en s' = next_of en s ∧ live_of en s' = live_of en s
  end.
Proof.
  intros [H1 H2] Hn0 Hn H. destruct en; cbn in *;
    match type of H with (let '(_, _) := ?t in _) = _ => destruct t as [f q] eqn:E end;
    injection H as <- <-; apply create_spec in E as [Hw E]; done.
Qed.

Lemma factory_destroy_spec s en h s' r :
  wf_state s → factory_destroy s en h = (s', r) →
  wf_state s' ∧ g_backends s' = g_backends s ∧
  (live_of (other en) s', next_of (other en) s') = (live_of (other en) s, next_of (other en) s) ∧
  next_of en s' = next_of en s ∧
  match r with Ok _ => live_of en s' = live_of en s ∖ {[h]} | Err x => x ≠ Thrown ∧ live_of en s' = live_of en s end.
Proof.
  intros [H1 H2] H. destruct en; cbn in *;
    match type of H with (let '(_, _) := ?t in _) = _ => destruct t as [f q] eqn:E end;
    injection H as <- <-; apply destroy_spec in E as (Hw & Hn & E); done.
Qed.

Lemma factory_ui_spec s en h : wf_state s →
  wf_state (factory_ui s en h) ∧ g_backends (factory_ui s en h) = g_backends s ∧
  ∀ en', live_of en' (factory_ui s en h) = live_of en' s ∧ next_of en' (factory_ui s en h) = next_of en' s.
Proof.
  intros [H1 H2]. destruct en; cbn.
  - destruct (ui_spec _ h H1) as (? & ? & ?). split; [done|]. split; [done|]. by intros [].
  - destruct (ui_spec _ h H2) as (? & ? & ?). split; [done|]. split; [done|]. by intros [].
Qed.

(** ** One engine: the table is the set of live machines *)
Definition names (en : Engine) (o : Op) : Prop :=
  match o with OpCreate (Some j) => engine_of j = Some en ∨ engine_of j = None | _ => True end.

Record routed (en : Engine) (n : Z) (s : State) : Prop := {
  ro_wf : wf_state s;
  ro_next : 0 < next_of en s ∧ next_of en s + n < 2 ^ 64;
  ro_table : g_backends s = gset_to_gmap en (live_of en s);
  ro_other : live_of (other en) s = ∅;
}.

Lemma routed_destroy en n s h s' r : routed en n s → Destroy s h = (s', r) →
  match r with
  | Ok _ => routed en n s' ∧ live_of en s' = live_of en s ∖ {[h]}
  | Err x => x ≠ Thrown
  end.
Proof.
  intros [Hw Hn Ht Ho] H. unfold Destroy in H. rewrite Ht, lookup_gset_to_gmap in H.
  destruct (decide (h ∈ live_of en s)) as [Hh|Hh].
  - rewrite option_guard_True in H by done.
    change (wf_state s) with (wf_state (set_backends s (delete h (g_backends s)))) in Hw.
    rewrite Ht in Hw. apply factory_destroy_spec in H as (Hw' & Hg & [= Hlo Hno] & Hn' & Hr); [|done].
    assert (∀ en', live_of en' (set_backends s (delete h (gset_to_gmap en (live_of en s)))) = live_of en' s) as El by by intros [].
    assert (∀ en', next_of en' (set_backends s (delete h (gset_to_gmap en (live_of en s)))) = next_of en' s) as En by by intros [].
    rewrite El, En in *. destruct r as [[]|x]; [|by destruct Hr]. split; [|done].
    split; [done|by rewrite Hn'| |by rewrite Hlo].
    rewrite Hg, Hr. cbn. by rewrite gset_to_gmap_difference_singleton.
  - rewrite option_guard_False in H by done. injection H as <- <-. split; [done|].
    symmetry. apply difference_disjoint_L. by apply disjoint_singleton_r.
Qed.

Lemma routed_step en n s o s' :
  routed en (n + 1) s → 0 ≤ n → names en o → step s o = Ok s' → routed en n s'.
Proof.
  intros Hs Hn0 Hna H. assert (routed en n s) as Hs' by (destruct Hs as [? [] ? ?]; split; [done|lia|done|done]).
  destruct o as [[j|]|h|h]; cbn in H.
  - unfold Create in H. destruct Hna as [Ej|Ej]; rewrite Ej in H; [|by injection H as <-].
    destruct Hs as [Hw [H0 H1] Ht Ho]. destruct (factory_create s en j) as [s1 r] eqn:E.
    apply factory_create_spec in E as (Hw' & Hg & [= Hlo _] & Hr); [|done|lia|lia].
    destruct r as [h|x].
    + injection H as <-. destruct Hr as (-> & Hn' & Hl).
      assert (∀ m en', live_of en' (set_backends s1 m) = live_of en' s1 ∧ next_of en' (set_backends s1 m) = next_of en' s1) as El by by intros ? [].
      split; [done| | |].
      * rewrite (proj2 (El _ _)), Hn'. lia.
      * rewrite (proj1 (El _ _)), Hl, Hg, Ht. cbn. by rewrite gset_to_gmap_union_singleton.
      * by rewrite (proj1 (El _ _)), Hlo.
    + destruct Hr as [Hn' Hl]. assert (s1 = s') as <- by (destruct x; cbn in H; congruence).
      split; [done|rewrite Hn'; lia|by rewrite Hg, Hl|by rewrite Hlo].
  - by injection H as <-.
  - injection H as <-. unfold UI. destruct (g_backends s !! h) as [en'|]; [|done].
    destruct Hs' as [Hw Hn Ht Ho]. destruct (factory_ui_spec s en' h Hw) as (Hw' & Hg & Hl).
    split; [done|by rewrite (proj2 (Hl en))| |].
    + by rewrite Hg, (proj1 (Hl en)).
    + by rewrite (proj1 (Hl _)).
  - destruct (Destroy s h) as [s1 r] eqn:E. apply (routed_destroy en n) in E; [|done].
    destruct r as [[]|x]; [destruct E as [E _]; by injection H as <-|]. by destruct x.
Qed.

Lemma routed_run en os : ∀ n s s', routed en (n + Z.of_nat (length os)) s → 0 ≤ n → Forall (names en) os →
  run os s = Ok s' → routed en n s'.
Proof.
  induction os as [|o os IH]; intros n s s' Hs Hn Hna H; cbn [run length] in *.
  - injection H as <-. by rewrite Z.add_0_r in Hs.
  - apply Forall_cons in Hna as [Hna1 Hna]. apply bind_Ok_inv in H as (s1 & E & H).
    eapply IH; [|done|done|exact H]. eapply routed_step; [|lia|exact Hna1|exact E].
    replace (n + Z.of_nat (length os) + 1) with (n + Z.of_nat (S (length os))) by lia. done.
Qed.

(** ** A machine no handle leads to *)
Record stray (en : Engine) (h : Z) (s : State) : Prop := {
  sy_wf : wf_state s;
  sy_live : h ∈ live_of en s;
  sy_table : ∀ k, g_backends s !! k ≠ Some en;
}.

Lemma other_ne en en' : en' ≠ en → other en' = en.
Proof. by destruct en, en'. Qed.

Lemma stray_step en h s o s' :
  stray en h s → match o with OpCreate _ => False | _ => True end → step s o = Ok s' → stray en h s'.
Proof.
  intros [Hw Hl Ht] Ho H. destruct o as [c|k|k]; [done| |]; cbn [step] in H.
  - injection H as <-. unfold UI. destruct (g_backends s !! k) as [en'|]; [|done].
    destruct (factory_ui_spec s en' k Hw) as (Hw' & Hg & Hl').
    split; [done|by rewrite (proj1 (Hl' en))|by rewrite Hg].
  - unfold Destroy in H. destruct (g_backends s !! k) as [en'|] eqn:Ek; [|by injection H as <-].
    assert (en' ≠ en) as Hne by (intros ->; by apply (Ht k)).
    destruct (factory_destroy _ en' k) as [s1 r] eqn:E. apply factory_destroy_spec in E as (Hw' & Hg & [= Hlo _] & _); [|done].
    rewrite (other_ne en en' Hne) in Hlo.
    assert (s1 = s') as <- by (destruct r as [|[]]; cbn in H; congruence). split; [done| |].
    + rewrite Hlo. by destruct en.
    + intros k'. rewrite Hg. cbn. rewrite lookup_delete. case_decide; [done|apply Ht].
Qed.

Lemma stray_run en h os : ∀ s s', stray en h s →
  Forall (λ o, match o with OpCreate _ => False | _ => True end) os → run os s = Ok s' → stray en h s'.
Proof.
  induction os as [|o os IH]; intros s s' Hs Ho H; cbn [run] in H; [by injection H as <-|].
  apply Forall_cons in Ho as [Ho Hos]. apply bind_Ok_inv in H as (s1 & E & H).
  eapply IH; [|exact Hos|exact H]. by eapply stray_step.
Qed.

(** A [Create] that returns. *)
Lemma create_ok s j en s' h :
  wf_state s → 0 < next_of en s → next_of en s + 1 < 2 ^ 64 → engine_of j = Some en →
  Create s (Some j) = (s', Ok h) →
  wf_state s' ∧ h = next_of en s ∧ g_backends s' = <[h := en]> (g_backends s) ∧ h ∈ live_of en s' ∧
  live_of (other en) s' = live_of (other en) s ∧ next_of (other en) s' = next_of (other en) s.
Proof.
  intros Hw H0 Hn Ej H. unfold Create in H. rewrite Ej in H.
  destruct (factory_create s en j) as [s1 [x|]] eqn:E; [|done]. injection H as <- <-.
  apply factory_create_spec in E as (Hw' & Hg & [= Hl Hno] & -> & _ & Hr); [|done..].
  split; [done|]. split; [done|]. split; [by cbn; rewrite Hg|].
  split; [|by destruct en]. replace (live_of en (set_backends s1 _)) with (live_of en s1) by by destruct en.
  rewrite Hr. apply elem_of_union_l. by apply elem_of_singleton.
Qed.
End facade.
Arguments State : clear implicits.

(** ** Properties *)

(** C37. With one engine in use the handles are the machines.  Whatever sequence
    of calls runs, with exceptions caught by the caller, the table holds exactly
    the live machines of that engine, so destroying any handle, when it returns,
    ends the machine with that handle and no other, once. *)
Theorem facade_routes {Sv Sh : Type} {BV : Backend Sv} {BH : Backend Sh}
    {LV : BackendLaws Sv} {LH : BackendLaws Sh} (en : Engine) (s s' : State Sv Sh) (os : list Op)
    (Hw : wf_state s) (Ht : g_backends s = ∅) (Hl : ∀ en, live_of en s = ∅)
    (Hn : 0 < next_of en s ∧ next_of en s + Z.of_nat (length os) < 2 ^ 64)
    (Hos : Forall (names en) os) (H : run os s = Ok s') :
  g_backends s' = gset_to_gmap en (live_of en s') ∧ live_of (other en) s' = ∅ ∧
  ∀ h s'', Destroy s' h = (s'', Ok tt) →
    live_of en s'' = live_of en s' ∖ {[h]} ∧ g_backends s'' = gset_to_gmap en (live_of en s'').
Proof.
  assert (routed en 0 s') as Hr.
  { eapply (routed_run en os 0 s); [|done|done|done]. split; [done|by rewrite Z.add_0_l| |apply Hl].
    by rewrite Ht, Hl, gset_to_gmap_empty. }
  split; [apply Hr|]. split; [apply Hr|]. intros h s'' Hd.
  destruct (routed_destroy en 0 s' h s'' (Ok tt) Hr Hd) as [Hr' E]. split; [exact E|apply Hr'].
Qed.

(** Two engines collide.  Both factories number from 1, so the first machine
    of each gets the same handle and the table keeps the later one only: no
    sequence of destroy and UI calls ends the earlier machine. *)
Theorem facade_collision {Sv Sh : Type} {BV : Backend Sv} {BH : Backend Sh}
    {LV : BackendLaws Sv} {LH : BackendLaws Sh} (en : Engine) (s s1 s2 s' : State Sv Sh)
    (j1 j2 : Json) (h1 h2 : Z) (os : list Op)
    (Hw : wf_state s) (Ht : g_backends s = ∅) (Hn : ∀ en, next_of en s = 1)
    (E1 : engine_of j1 = Some en) (E2 : engine_of j2 = Some (other en))
    (H1 : Create s (Some j1) = (s1, Ok h1)) (H2 : Create s1 (Some j2) = (s2, Ok h2))
    (Hos : Forall (λ o, match o with OpCreate _ => False | _ => True end) os) (H : run os s2 = Ok s') :
  h1 = h2 ∧ h1 ∈ live_of en s'.
Proof.
  assert (0 < 1 ∧ 1 + 1 < 2 ^ 64) as [Hp1 Hp2] by done.
  apply (create_ok _ _ en) in H1 as (W1 & -> & G1 & L1 & _ & N1); [|done|by rewrite Hn..|done].
  apply (create_ok _ _ (other en)) in H2 as (W2 & -> & G2 & _ & L2 & _); [|done|by rewrite N1, Hn..|done].
  rewrite N1, !Hn in *. split; [done|].
  assert (stray en 1 s2) as Hs.
  { split; [done| |].
    - assert (other (other en) = en) as Eo by by destruct en. rewrite Eo in L2. by rewrite L2.
    - intros k. rewrite G2, G1, Ht. rewrite !lookup_insert. repeat case_decide; try done; by destruct en. }
  apply (stray_run _ _ _ _ _ Hs Hos H).
Qed.
