(* ===== verification/VzBackend.v ===== *)
(** * VzBackend: virtual machines of Virtualization.framework

    Models [VzBackend] (src/src/vz/vz_backend.hpp and vz_backend.mm): the
    configuration [Create] builds, the serial pipes with their file handles and
    channels, starting the machine, [UI], [Destroy] and the two tables.  The
    framework and Foundation are known through what they answer, the record
    [VzEnv]; a configuration object is the record [VmConfig] of what was set on
    it.  Threads and pipes are those of HvfBackend: joining a thread that cannot
    end, or waiting for a completion handler that is never called, is
    [Err Deadlock].  The texts of errors and log messages are not modelled. *)

From stdpp Require Import strings.
From S2P Require Import Prelude Bytes Fdt HvfBackend.

(** ** The configuration object *)
Inductive BootLoader : Type :=
  | VZLinuxBootLoader (kernelURL : bytes) (initialRamdiskURL commandLine : option bytes)
  | VZEFIBootLoader (variableStore : bytes).

(** A serial port: the descriptors of its two file handles. *)
Record PortConfig := mkPortConfig { reading : Z; writing : Z; isConsole : bool }.

Record VmConfig := mkVmConfig {
  CPUCount : Z;
  memorySize : Z;
  bootLoader : option BootLoader;
  storageDevices : option bytes;
  graphicsDevices : option (Z * Z);
  networkDevices : bool;
  consoleDevices : option (gmap Z PortConfig);
}.
Definition set_consoles (c : VmConfig) (v : option (gmap Z PortConfig)) : VmConfig :=
  mkVmConfig (CPUCount c) (memorySize c) (bootLoader c) (storageDevices c) (graphicsDevices c) (networkDevices c) v.
Definition ports_of (c : VmConfig) : gmap Z PortConfig := default ∅ (consoleDevices c).

(** ** The process: open descriptors of pipes, pipes made, and the backend; the
    machines a view was attached to *)
Record VzProc := mkVz {
  vfds : gmap Z (nat * bool);
  vpipes : nat;
  vz_vms : gmap Z VmConfig;
  serial_channels : gmap Z (list SerialChannel);
  viewed : gset Z;
  vz_next : Z;
}.
Definition set_vfds (p : VzProc) (m : gmap Z (nat * bool)) : VzProc :=
  mkVz m (vpipes p) (vz_vms p) (serial_channels p) (viewed p) (vz_next p).
Definition set_chans (p : VzProc) (m : gmap Z (list SerialChannel)) : VzProc :=
  mkVz (vfds p) (vpipes p) (vz_vms p) m (viewed p) (vz_next p).
Definition set_vz_vms (p : VzProc) (m : gmap Z VmConfig) : VzProc :=
  mkVz (vfds p) (vpipes p) m (serial_channels p) (viewed p) (vz_next p).
Definition set_viewed (p : VzProc) (v : gset Z) : VzProc :=
  mkVz (vfds p) (vpipes p) (vz_vms p) (serial_channels p) v (vz_next p).

(** What the system and the framework answer: descriptors for a pipe; the path
    without its extension, whether a file exists, whether a variable store can
    be created and a disk image attached; whether a console device takes a port
    at an index; validation; how starting ends ([None]: its handler is not
    called) and whether the handler of stopping is called; whether the accept
    thread of a channel ends, and closing a descriptor ends a blocked read;
    whether an object is deallocated as soon as the program drops it, and
    whether ARC drops the configuration before the end of its scope. *)
Record VzEnv := mkVzEnv {
  v_pipe : gmap Z (nat * bool) → option (Z * Z);
  stringByDeletingPathExtension : bytes → bytes;
  fileExistsAtPath : bytes → bool;
  v_create_store : bytes → bool;
  v_attach : bytes → bool;
  v_port_ok : Z → bool;
  validateWithError : VmConfig → bool;
  v_start : VmConfig → option bool;
  v_stop : VmConfig → bool;
  v_accept_ends : bytes → bool;
  v_close_wakes : bool;
  v_dealloc : bool;
  v_early : bool;
}.

Record VzLaws (e : VzEnv) : Prop := {
  v_pipe_fresh m r w : v_pipe e m = Some (r, w) → 0 ≤ r ∧ 0 ≤ w ∧ m !! r = None ∧ m !! w = None ∧ r ≠ w;
}.

(** ** Computations: the process survives an exception *)
Definition V (A : Type) : Type := VzProc → VzProc * res A.
#[local] Instance V_ret : MRet V := λ A a p, (p, Ok a).
#[local] Instance V_bind : MBind V := λ A B f m p,
  match m p with (p, Ok a) => f a p | (p, Err e) => (p, Err e) end.
Definition vlift {A} (r : res A) : V A := λ p, (p, r).
Definition vgets {A} (f : VzProc → A) : V A := λ p, (p, Ok (f p)).
Definition vmodify (f : VzProc → VzProc) : V unit := λ p, (f p, Ok tt).

(** ** Descriptors, file handles, channels *)
Definition vz_close (fd : Z) : V unit := vmodify (λ p, set_vfds p (delete fd (vfds p))).

(** A file handle closes its descriptor when it is deallocated. *)
Definition port_fds (ports : gmap Z PortConfig) : list Z :=
  flat_map (λ x, [reading x.2; writing x.2]) (map_to_list ports).
Definition drop_ports (e : VzEnv) (ports : gmap Z PortConfig) : V unit :=
  if v_dealloc e
  then vmodify (λ p, set_vfds p (foldr delete (vfds p) (port_fds ports)))
  else mret tt.

(** Destroying channels joins their threads. *)
Definition vz_channel_ends (e : VzEnv) (m : gmap Z (nat * bool)) (ch : SerialChannel) : bool :=
  (negb (has_writer m (pump ch)) || (negb (has_reader m (pump ch)) && v_close_wakes e))
    && v_accept_ends e (server ch).
Definition join_channels (e : VzEnv) (chs : list SerialChannel) : V unit := λ p,
  (p, if forallb (vz_channel_ends e (vfds p)) chs then Ok tt else Err Deadlock).

(** An exception in the loop over the ports drops the console device first; a
    later one destroys the channels while the configuration is in scope. *)
Definition throw_in_loop {A} (e : VzEnv) (ports : gmap Z PortConfig) (chs : list SerialChannel) : V A :=
  drop_ports e ports;; join_channels e chs;; vlift (Err Thrown).
Definition throw_late {A} (e : VzEnv) (c : VmConfig) (chs : list SerialChannel) : V A :=
  (if v_early e then drop_ports e (ports_of c) else mret tt);;
  join_channels e chs;;
  drop_ports e (ports_of c);;
  vlift (Err Thrown).

Definition vz_pipe (e : VzEnv) (ports : gmap Z PortConfig) (chs : list SerialChannel) : V (Z * Z) := λ p,
  match v_pipe e (vfds p) with
  | Some (r, w) =>
      (mkVz (<[w := (vpipes p, true)]> (<[r := (vpipes p, false)]> (vfds p))) (S (vpipes p)) (vz_vms p)
         (serial_channels p) (viewed p) (vz_next p), Ok (r, w))
  | None => throw_in_loop e ports chs p
  end.

(** One serial port; the configuration that was at its index is dropped. *)
Definition add_port (e : VzEnv) (ports : gmap Z PortConfig) (chs : list SerialChannel) (port_idx : Z)
    (channel_name : bytes) : V (gmap Z PortConfig * list SerialChannel) :=
  '(to_vm0, to_vm1) ← vz_pipe e ports chs;
  '(from_vm0, from_vm1) ← vz_pipe e ports chs;
  pump_pipe ← vgets (λ p, pred (vpipes p));
  let portCfg := mkPortConfig to_vm0 from_vm1 (port_idx =? 0) in
  let i := u64 port_idx in
  if negb (v_port_ok e i) then drop_ports e {[ i := portCfg ]};; throw_in_loop e ports chs else
  match ports !! i with Some old => drop_ports e {[ i := old ]} | None => mret tt end;;
  mret (<[i := portCfg]> ports, chs ++ [mkChannel to_vm1 from_vm0 channel_name pump_pipe]).

Fixpoint add_ports (e : VzEnv) (l : list (Z * bytes)) (ports : gmap Z PortConfig) (chs : list SerialChannel)
  : V (gmap Z PortConfig * list SerialChannel) :=
  match l with
  | [] => mret (ports, chs)
  | (port_idx, channel_name) :: l =>
      '(ports, chs) ← add_port e ports chs port_idx channel_name; add_ports e l ports chs
  end.

(** ** [Create] *)
Definition is_ipsw (path : bytes) : bool :=
  (5 <=? length path)%nat && bool_decide (drop (length path - 5) path = cs ".ipsw").

Definition non_empty (s : bytes) : option bytes := match s with [] => None | _ => Some s end.

Definition choose_loader (e : VzEnv) (j : Json) : res (option BootLoader) :=
  let image_path := default [] (image j) in
  match non_empty (default [] (kernel j)) with
  | Some kernel_path =>
      Ok (Some (VZLinuxBootLoader kernel_path (non_empty (default [] (initrd j))) (non_empty (default [] (cmdline j)))))
  | None =>
      if is_ipsw image_path then Ok None else
      let nvramPath := stringByDeletingPathExtension e image_path ++ cs ".nvram" in
      guard_res (fileExistsAtPath e nvramPath || v_create_store e nvramPath) Thrown;;
      Ok (Some (VZEFIBootLoader nvramPath))
  end.

(** Everything but the serial ports. *)
Definition base_config (e : VzEnv) (j : Json) : res VmConfig :=
  ram_bytes ← parse_size (default (cs "2GB") (ram_size j));
  disk_bytes ← parse_size (default (cs "20GB") (disk_size j));
  loader ← choose_loader e j;
  disk ← match non_empty (default [] (image j)) with
         | Some path => guard_res (v_attach e path) Thrown;; Ok (Some path)
         | None => Ok None
         end;
  Ok (mkVmConfig (u64 (default 1 (cpu_count j))) ram_bytes loader disk
        (option_map (λ d, (default 1920 d.1, default 1080 d.2)) (display j)) true None).

(** Validate, start and wait. *)
Definition start_machine (e : VzEnv) (c : VmConfig) (chs : list SerialChannel) : V unit :=
  if negb (validateWithError e c) then throw_late e c chs else
  match v_start e c with
  | None => vlift (Err Deadlock)
  | Some false => throw_late e c chs
  | Some true => mret tt
  end.

Definition vz_register (c : VmConfig) (chs : list SerialChannel) : V Z := λ p,
  let handle := vz_next p in
  (mkVz (vfds p) (vpipes p) (<[handle := c]> (vz_vms p))
     (match chs with [] => serial_channels p | _ => <[handle := chs]> (serial_channels p) end)
     (viewed p) (u64 (handle + 1)), Ok handle).

Definition vz_create (e : VzEnv) (j : Json) : V Z :=
  c ← vlift (base_config e j);
  '(c, chs) ← match sorted_serial j with
              | [] => mret (c, [])
              | l => '(ports, chs) ← add_ports e l ∅ []; mret (set_consoles c (Some ports), chs)
              end;
  start_machine e c chs;;
  vz_register c chs.

(** ** [UI] and [Destroy] *)
Definition vz_ui (native_handle : bool) (handle : Z) (p : VzProc) : VzProc :=
  if negb native_handle then p else
  match vz_vms p !! handle with Some _ => set_viewed p ({[handle]} ∪ viewed p) | None => p end.

Definition vz_close_fd (fd : Z) : V unit := if 0 <=? fd then vz_close fd else mret tt.
Fixpoint vz_close_channels (chs : list SerialChannel) : V unit :=
  match chs with
  | [] => mret tt
  | ch :: chs => vz_close_fd (host_read_fd ch);; vz_close_fd (host_write_fd ch);; vz_close_channels chs
  end.

Definition vz_destroy_channels (e : VzEnv) (handle : Z) : V unit :=
  found ← vgets (λ p, serial_channels p !! handle);
  match found with
  | None => mret tt
  | Some chs =>
      vz_close_channels chs;;
      join_channels e chs;;
      vmodify (λ p, set_chans p (delete handle (serial_channels p)))
  end.

(** The error the stop handler gets is not looked at; a view keeps the machine. *)
Definition vz_destroy (e : VzEnv) (handle : Z) : V unit :=
  vz_destroy_channels e handle;;
  found ← vgets (λ p, vz_vms p !! handle);
  match found with
  | None => mret tt
  | Some machine =>
      vlift (guard_res (v_stop e machine) Deadlock);;
      vmodify (λ p, set_vz_vms p (delete handle (vz_vms p)));;
      kept ← vgets (λ p, bool_decide (handle ∈ viewed p));
      if kept : bool then mret tt else drop_ports e (ports_of machine)
  end.
