(* ===== verification/VzBackendThms.v ===== *)
(** * VzBackendThms: what the Virtualization.framework backend guarantees

    The configuration and the serial wiring of a machine [Create] starts, what
    [Destroy] undoes, the ways [Create] never returns, and the contract of a
    backend, [BackendLaws], under which Facade routes handles. *)

From stdpp Require Import strings.
From S2P Require Import Prelude Bytes Fdt HvfBackend HvfBackendThms Facade VzBackend.

#[local] Existing Instances V_ret V_bind.

(** ** Running computations *)
Lemma V_bind_Ok {A B} (m : V A) (f : A → V B) p p' b :
  (m ≫= f) p = (p', Ok b) → ∃ a p1, m p = (p1, Ok a) ∧ f a p1 = (p', Ok b).
Proof.
  unfold mbind, V_bind. destruct (m p) as [p1 [a|x]]; [|by intros [=]]. intros H. by exists a, p1.
Qed.

(** A computation that leaves the tables alone. *)
Definition vz_tables (p : VzProc) := (vz_vms p, serial_channels p, viewed p, vz_next p).
Definition keeps {A} (m : V A) : Prop := ∀ p p' r, m p = (p', r) → vz_tables p' = vz_tables p.

Lemma vkeeps_bind {A B} (m : V A) (f : A → V B) : keeps m → (∀ a, keeps (f a)) → keeps (m ≫= f).
Proof.
  intros Hm Hf p p' r H. unfold mbind, V_bind in H. destruct (m p) as [p1 [a|x]] eqn:E.
  - by rewrite (Hf _ _ _ _ H), (Hm _ _ _ E).
  - injection H as <- _. by eapply Hm.
Qed.
Lemma vkeeps_ret {A} (a : A) : keeps (mret a).
Proof. by intros p p' r [= <- _]. Qed.
Lemma vkeeps_lift {A} (a : res A) : keeps (vlift a).
Proof. by intros p p' r [= <- _]. Qed.
Lemma vkeeps_gets {A} (f : VzProc → A) : keeps (vgets f).
Proof. by intros p p' r [= <- _]. Qed.
Lemma vkeeps_drop e ports : keeps (drop_ports e ports).
Proof. unfold drop_ports. destruct (v_dealloc e); by intros p p' r [= <- _]. Qed.
Lemma vkeeps_join e chs : keeps (join_channels e chs).
Proof. by intros p p' r [= <- _]. Qed.

Create HintDb vz.
#[local] Hint Resolve vkeeps_ret vkeeps_lift vkeeps_gets vkeeps_drop vkeeps_join : vz.
#[local] Hint Extern 2 (keeps (_ ≫= _)) => (apply vkeeps_bind; [|intros]) : vz.

Lemma vkeeps_throw {A} e ports chs : keeps (@throw_in_loop A e ports chs).
Proof. unfold throw_in_loop. auto with vz. Qed.
Lemma vkeeps_late {A} e c chs : keeps (@throw_late A e c chs).
Proof. unfold throw_late. destruct (v_early e); auto 6 with vz. Qed.
#[local] Hint Resolve vkeeps_throw vkeeps_late : vz.

Lemma vkeeps_pipe e ports chs : keeps (vz_pipe e ports chs).
Proof.
  intros p p' r. unfold vz_pipe. destruct (v_pipe e (vfds p)) as [[x y]|]; [by intros [= <- _]|]. apply vkeeps_throw.
Qed.
#[local] Hint Resolve vkeeps_pipe : vz.

Lemma vkeeps_add_ports e l : ∀ ports chs, keeps (add_ports e l ports chs).
Proof.
  induction l as [|[i name] l IH]; intros ports chs; cbn [add_ports]; [auto with vz|].
  apply vkeeps_bind; [|by intros []]. unfold add_port.
  apply vkeeps_bind; [auto with vz|intros [r1 w1]]. apply vkeeps_bind; [auto with vz|intros [r2 w2]].
  apply vkeeps_bind; [auto with vz|intros k]. destruct (v_port_ok e (u64 i)); cbn [negb]; [|auto with vz].
  destruct (ports !! u64 i); auto with vz.
Qed.
#[local] Hint Resolve vkeeps_add_ports : vz.

Lemma vkeeps_start e c chs : keeps (start_machine e c chs).
Proof.
  unfold start_machine. destruct (validateWithError e c); cbn [negb]; [|auto with vz].
  destruct (v_start e c) as [[]|]; auto with vz.
Qed.

(** Before the machine is registered. *)
Definition vz_serial (e : VzEnv) (j : Json) (c : VmConfig) : V (VmConfig * list SerialChannel) :=
  match sorted_serial j with
  | [] => mret (c, [])
  | l => '(ports, chs) ← add_ports e l ∅ []; mret (set_consoles c (Some ports), chs)
  end.

Lemma vkeeps_serial e j c : keeps (vz_serial e j c).
Proof. unfold vz_serial. destruct (sorted_serial j); [auto with vz|]. apply vkeeps_bind; [auto with vz|intros []; auto with vz]. Qed.
#[local] Hint Resolve vkeeps_start vkeeps_serial : vz.

Lemma vz_create_cases e j p p' r : vz_create e j p = (p', r) →
  (∃ x, r = Err x ∧ vz_tables p' = vz_tables p) ∨
  ∃ c0 c chs p1 p2, base_config e j = Ok c0 ∧ vz_serial e j c0 p = (p1, Ok (c, chs)) ∧
    start_machine e c chs p1 = (p2, Ok tt) ∧ vz_tables p2 = vz_tables p ∧ vz_register c chs p2 = (p', r).
Proof.
  change (vz_create e j) with (c ← vlift (base_config e j); '(c, chs) ← vz_serial e j c; start_machine e c chs;; vz_register c chs).
  unfold mbind at 1, V_bind at 1, vlift. destruct (base_config e j) as [c0|x]; [|intros [= <- <-]; left; by exists x].
  unfold mbind at 1, V_bind at 1. destruct (vz_serial e j c0 p) as [p1 [[c chs]|x]] eqn:E1;
    pose proof (vkeeps_serial _ _ _ _ _ _ E1) as K1; [|intros [= <- <-]; left; by exists x].
  unfold mbind at 1, V_bind at 1. destruct (start_machine e c chs p1) as [p2 [[]|x]] eqn:E2;
    pose proof (vkeeps_start _ _ _ _ _ _ E2) as K2; rewrite K1 in K2; [|intros [= <- <-]; left; by exists x].
  intros H. right. by exists c0, c, chs, p1, p2.
Qed.

(** ** The serial ports *)
Abbreviation Fds := (gmap Z (nat * bool)).

(** The wiring of a port: its channel holds the other end of each of its pipes. *)
Definition joined (ports : gmap Z PortConfig) (m : Fds) (x : Z * bytes) (ch : SerialChannel) : Prop :=
  server ch = x.2 ∧ 0 ≤ host_write_fd ch ∧ 0 ≤ host_read_fd ch ∧
  ∃ pc k, ports !! u64 x.1 = Some pc ∧ isConsole pc = (x.1 =? 0) ∧
    m !! host_write_fd ch = Some (k, true) ∧ m !! reading pc = Some (k, false) ∧
    m !! writing pc = Some (pump ch, true) ∧ m !! host_read_fd ch = Some (pump ch, false).

Definition used (ports : gmap Z PortConfig) (chs : list SerialChannel) (x : Z) : Prop :=
  x ∈ host_fds chs ∨ x ∈ port_fds ports.

Record ports_ok (m0 : Fds) (l : list (Z * bytes)) (ports : gmap Z PortConfig) (chs : list SerialChannel)
    (m : Fds) (n : nat) : Prop := {
  po_used x : used ports chs x → is_Some (m !! x) ∧ m0 !! x = None;
  po_old x : ¬ used ports chs x → m !! x = m0 !! x;
  po_ids : ids_below m n;
  po_dom i : is_Some (ports !! i) → i ∈ u64 <$> l.*1;
  po_joined : Forall2 (joined ports m) l chs;
}.

Lemma elem_of_port_fds ports x :
  x ∈ port_fds ports ↔ ∃ i pc, ports !! i = Some pc ∧ (x = reading pc ∨ x = writing pc).
Proof.
  unfold port_fds. rewrite list_elem_of_In, in_flat_map. split.
  - intros ([i pc] & Hin & Hx). apply list_elem_of_In, elem_of_map_to_list in Hin. exists i, pc. split; [done|].
    cbn in Hx. destruct Hx as [->|[->|[]]]; auto.
  - intros (i & pc & E & Hx). exists (i, pc). split; [by apply list_elem_of_In, elem_of_map_to_list|].
    cbn. destruct Hx as [->| ->]; auto.
Qed.

Lemma port_fds_insert ports i pc x : ports !! i = None →
  x ∈ port_fds (<[i := pc]> ports) ↔ x = reading pc ∨ x = writing pc ∨ x ∈ port_fds ports.
Proof.
  intros Hi. rewrite !elem_of_port_fds. split.
  - intros (k & q & E & Hx). apply lookup_insert_Some in E as [[-> ->]|[Hk E]]; [destruct Hx; auto|].
    right. right. by exists k, q.
  - intros [H|[H|(k & q & E & Hx)]]; [exists i, pc; rewrite lookup_insert_eq; auto..|].
    exists k, q. rewrite lookup_insert_ne by congruence. done.
Qed.

Lemma used_add ports i pc chs ch x : ports !! i = None →
  used (<[i := pc]> ports) (chs ++ [ch]) x ↔
  used ports chs x ∨ x = reading pc ∨ x = writing pc ∨ x = host_read_fd ch ∨ x = host_write_fd ch.
Proof.
  intros Hi. unfold used. rewrite port_fds_insert, host_fds_app, elem_of_app by done. cbn.
  rewrite !elem_of_cons, elem_of_nil. tauto.
Qed.

(** A throw does not return; the threads it joins may not end. *)
Lemma drop_ports_run e ports p :
  drop_ports e ports p = (set_vfds p (if v_dealloc e then foldr delete (vfds p) (port_fds ports) else vfds p), Ok tt).
Proof. unfold drop_ports. destruct (v_dealloc e); [done|]. by destruct p. Qed.

Lemma throw_in_loop_run {A} e ports chs p : ∃ p' x, @throw_in_loop A e ports chs p = (p', Err x).
Proof.
  unfold throw_in_loop, mbind, V_bind. rewrite drop_ports_run. unfold join_channels.
  by destruct (forallb _ chs); do 2 eexists.
Qed.

Lemma vz_pipe_ok e (He : VzLaws e) ports chs p p' r w : vz_pipe e ports chs p = (p', Ok (r, w)) →
  0 ≤ r ∧ 0 ≤ w ∧ vfds p !! r = None ∧ vfds p !! w = None ∧ r ≠ w ∧
  vfds p' = <[w := (vpipes p, true)]> (<[r := (vpipes p, false)]> (vfds p)) ∧ vpipes p' = S (vpipes p).
Proof.
  unfold vz_pipe. destruct (v_pipe e (vfds p)) as [[r' w']|] eqn:E.
  - intros [= <- -> ->]. apply He in E. intuition.
  - by destruct (@throw_in_loop_run (Z * Z) e ports chs p) as (q & x & ->).
Qed.

Lemma joined_more ports m ports' m' x ch :
  joined ports m x ch → (∀ i pc, ports !! i = Some pc → ports' !! i = Some pc) →
  (∀ y v, m !! y = Some v → m' !! y = Some v) → joined ports' m' x ch.
Proof.
  intros (H1 & H2 & H3 & pc & k & E & H4 & H5 & H6 & H7 & H8) Hp Hm.
  split; [done|]. split; [done|]. split; [done|]. exists pc, k. auto 10.
Qed.

Lemma add_port_ok e (He : VzLaws e) m0 l ports chs i name p p' ports' chs' :
  ports_ok m0 l ports chs (vfds p) (vpipes p) → ¬ (u64 i ∈ u64 <$> l.*1) →
  add_port e ports chs i name p = (p', Ok (ports', chs')) →
  v_port_ok e (u64 i) = true ∧ ports_ok m0 (l ++ [(i, name)]) ports' chs' (vfds p') (vpipes p').
Proof.
  intros [Hu Ho Hi Hd Hj] Hni H. unfold add_port in H.
  apply V_bind_Ok in H as ([r1 w1] & p1 & E1 & H). apply (vz_pipe_ok _ He) in E1 as (P1 & P2 & R1 & W1 & N1 & F1 & L1).
  apply V_bind_Ok in H as ([r2 w2] & p2 & E2 & H). apply (vz_pipe_ok _ He) in E2 as (P3 & P4 & R2 & W2 & N2 & F2 & L2).
  apply V_bind_Ok in H as (k & p3 & [= <- <-] & H). rewrite L2, L1 in H. cbn [Nat.pred] in H.
  destruct (v_port_ok e (u64 i)) eqn:Eok; cbn [negb] in H.
  2:{ apply V_bind_Ok in H as ([] & p4 & _ & H).
      by destruct (@throw_in_loop_run (gmap Z PortConfig * list SerialChannel) e ports chs p4) as (q & x & E); rewrite E in H. }
  split; [done|].
  assert (ports !! u64 i = None) as Hnone.
  { destruct (ports !! u64 i) eqn:E; [|done]. exfalso. apply Hni, Hd. by rewrite E. }
  rewrite Hnone in H. cbn in H. injection H as -> <- <-.
  rewrite F1 in R2, W2. rewrite L1, F1 in F2. rewrite F2, L2, L1.
  apply lookup_insert_None in R2 as [[R2 ?]%lookup_insert_None ?], W2 as [[W2 ?]%lookup_insert_None ?].
  set (n := vpipes p) in *. set (m := vfds p) in *.
  set (m' := <[w2 := (S n, true)]> (<[r2 := (S n, false)]> (<[w1 := (n, true)]> (<[r1 := (n, false)]> m)))).
  assert (m' !! r1 = Some (n, false) ∧ m' !! w1 = Some (n, true) ∧ m' !! r2 = Some (S n, false) ∧ m' !! w2 = Some (S n, true))
    as (M1 & M2 & M3 & M4).
  { unfold m'. split_and!; repeat first [by rewrite lookup_insert_eq | rewrite lookup_insert_ne by done]. }
  assert (∀ y, y ≠ r1 → y ≠ w1 → y ≠ r2 → y ≠ w2 → m' !! y = m !! y) as Hsame.
  { intros y ????. unfold m'. by rewrite !lookup_insert_ne by done. }
  assert (∀ y v, m !! y = Some v → m' !! y = Some v) as Hgrow.
  { intros y v E. rewrite Hsame; [done|..]; intros ->; congruence. }
  assert (∀ y, m !! y = None → m0 !! y = None) as Hm0.
  { intros y E. destruct (decide (y ∈ host_fds chs ++ port_fds ports)) as [Hy|Hy].
    - apply Hu. unfold used. by apply elem_of_app.
    - rewrite <- Ho; [done|]. unfold used. by rewrite <- elem_of_app. }
  split.
  - intros x. rewrite used_add by done. cbn [reading writing host_read_fd host_write_fd].
    intros [Hx|[->|[->|[->| ->]]]]; [|by split; [eexists|apply Hm0]..].
    apply Hu in Hx as [[v E] E0]. split; [|done]. exists v. by apply Hgrow.
  - intros x. rewrite used_add by done. cbn [reading writing host_read_fd host_write_fd]. intros Hx.
    rewrite Hsame by (intros ->; tauto). apply Ho. tauto.
  - unfold m'. repeat (apply (ids_below_insert _ (S (S n))); [|lia..]).
    eapply map_Forall_impl; [exact Hi|]. cbn. intros _ v Hv. lia.
  - intros j Hj'. rewrite fmap_app, fmap_app. apply elem_of_app. apply lookup_insert_is_Some in Hj' as [<-|[_ Hj']].
    + right. by apply list_elem_of_singleton.
    + left. by apply Hd.
  - apply Forall2_app.
    + eapply Forall2_impl; [exact Hj|]. intros x ch Hx. eapply joined_more; [exact Hx| |exact Hgrow].
      intros q pc E. rewrite lookup_insert_ne; [done|]. intros <-. congruence.
    + constructor; [|done]. split; [done|]. split; [done|]. split; [done|].
      exists (mkPortConfig r1 w2 (i =? 0)), n. cbn. rewrite lookup_insert_eq. auto 10.
Qed.

Lemma add_ports_ok e (He : VzLaws e) m0 l : ∀ done_ ports chs p p' ports' chs',
  ports_ok m0 done_ ports chs (vfds p) (vpipes p) → NoDup (u64 <$> (done_ ++ l).*1) →
  add_ports e l ports chs p = (p', Ok (ports', chs')) →
  ports_ok m0 (done_ ++ l) ports' chs' (vfds p') (vpipes p').
Proof.
  induction l as [|[i name] l IH]; intros done_ ports chs p p' ports' chs' Hok Hnd H; cbn [add_ports] in H.
  - injection H as <- <- <-. by rewrite app_nil_r.
  - apply V_bind_Ok in H as ([ports1 chs1] & p1 & E & H).
    apply (add_port_ok _ He m0 done_) in E as [_ Hok1]; [|done|].
    + replace (done_ ++ (i, name) :: l) with ((done_ ++ [(i, name)]) ++ l) in * by by rewrite <- app_assoc.
      by eapply IH.
    + rewrite !fmap_app in Hnd. apply NoDup_app in Hnd as (_ & Hnd & _). intros Hin. apply (Hnd _ Hin). by left.
Qed.

Lemma ports_ok_start m0 n : ids_below m0 n → ports_ok m0 [] ∅ [] m0 n.
Proof.
  intros Hi. split; [|done|done| |done].
  - intros x [H|H]; [by apply elem_of_nil in H|]. apply elem_of_port_fds in H as (? & ? & E & _). by rewrite lookup_empty in E.
  - intros i [? E]. by rewrite lookup_empty in E.
Qed.

Lemma vz_serial_ok e (He : VzLaws e) j c0 p p' c chs :
  ids_below (vfds p) (vpipes p) → NoDup (u64 <$> (sorted_serial j).*1) → consoleDevices c0 = None →
  vz_serial e j c0 p = (p', Ok (c, chs)) →
  ports_ok (vfds p) (sorted_serial j) (ports_of c) chs (vfds p') (vpipes p') ∧
  c = set_consoles c0 (consoleDevices c).
Proof.
  intros Hi Hnd Hc H. unfold vz_serial in H. destruct (sorted_serial j) as [|x l].
  - injection H as <- <- <-. unfold ports_of. rewrite Hc. split; [by apply ports_ok_start|]. destruct c0. cbn in *. by subst.
  - apply V_bind_Ok in H as ([ports chs1] & p1 & E & [= <- <- <-]). split; [|done].
    by apply (add_ports_ok e He (vfds p) (x :: l) [] ∅ [] p p1); [apply ports_ok_start| |].
Qed.

(** ** A [Create] that returns *)
Lemma base_config_console e j c : base_config e j = Ok c → consoleDevices c = None.
Proof.
  unfold base_config. intros H. repeat (apply bind_Ok_inv in H as (? & _ & H)). by injection H as <-.
Qed.

Lemma start_machine_ok e c chs p p' : start_machine e c chs p = (p', Ok tt) →
  validateWithError e c = true ∧ v_start e c = Some true ∧ p' = p.
Proof.
  assert (∀ q, (@throw_late unit e c chs q).2 ≠ Ok tt) as Ht.
  { intros q. unfold throw_late, mbind, V_bind. destruct (v_early e); rewrite ?drop_ports_run; unfold join_channels, mret, V_ret.
    all: destruct (forallb _ chs); [|done]; by rewrite drop_ports_run. }
  unfold start_machine. destruct (validateWithError e c); cbn [negb].
  - destruct (v_start e c) as [[]|]; [by intros [= <-]| |done]. intros E. exfalso. by apply (Ht p); rewrite E.
  - intros E. exfalso. by apply (Ht p); rewrite E.
Qed.

Lemma vz_create_frame e (He : VzLaws e) j p p' h :
  ids_below (vfds p) (vpipes p) → NoDup (u64 <$> (sorted_serial j).*1) → vz_create e j p = (p', Ok h) →
  ∃ c0 c chs, base_config e j = Ok c0 ∧ c = set_consoles c0 (consoleDevices c) ∧
    validateWithError e c = true ∧ v_start e c = Some true ∧ h = vz_next p ∧
    vz_tables p' = (<[h := c]> (vz_vms p),
      match chs with [] => serial_channels p | _ => <[h := chs]> (serial_channels p) end, viewed p, u64 (h + 1)) ∧
    ports_ok (vfds p) (sorted_serial j) (ports_of c) chs (vfds p') (vpipes p').
Proof.
  intros Hi Hnd H. apply vz_create_cases in H as [(x & ? & _)|(c0 & c & chs & p1 & p2 & Eb & Es & Em & Et & Er)]; [done|].
  apply (vz_serial_ok e He j c0) in Es as [Hok Hc]; [|done|done|by eapply base_config_console].
  apply start_machine_ok in Em as (Hv & Hs & ->). injection Et as Ev Ech Evw En. unfold vz_register in Er.
  rewrite Ev, Ech, Evw, En in Er. injection Er as <- <-. exists c0, c, chs. by split_and!.
Qed.

(** ** [Destroy] *)
Lemma vz_close_channels_run chs : ∀ p, Forall (λ ch, 0 ≤ host_write_fd ch ∧ 0 ≤ host_read_fd ch) chs →
  ∃ m, vz_close_channels chs p = (set_vfds p m, Ok tt) ∧
    ∀ x, m !! x = if decide (x ∈ host_fds chs) then None else vfds p !! x.
Proof.
  induction chs as [|ch chs IH]; intros p Hf; [by exists (vfds p); destruct p|].
  apply Forall_cons in Hf as [[Hw Hr] Hf]. cbn [vz_close_channels].
  unfold mbind, V_bind, vz_close_fd. rewrite (proj2 (Z.leb_le _ _) Hw), (proj2 (Z.leb_le _ _) Hr). cbn [vz_close vmodify].
  edestruct (IH (set_vfds p (delete (host_write_fd ch) (delete (host_read_fd ch) (vfds p)))) Hf) as (m & E & Hm).
  exists m. split; [exact E|]. intros x. rewrite Hm. cbn [vfds set_vfds].
  change (host_fds (ch :: chs)) with (host_read_fd ch :: host_write_fd ch :: host_fds chs).
  rewrite !lookup_delete. repeat case_decide; try done; set_solver.
Qed.

Lemma foldr_delete_lookup (l : list Z) (m : Fds) x :
  foldr delete m l !! x = if decide (x ∈ l) then None else m !! x.
Proof.
  induction l as [|y l IH]; cbn [foldr]; [by rewrite decide_False by apply not_elem_of_nil|].
  rewrite lookup_delete, IH. repeat case_decide; try done; set_solver.
Qed.

Lemma vz_close_channels_keep chs : keeps (vz_close_channels chs) ∧ ∀ p, ∃ p', vz_close_channels chs p = (p', Ok tt).
Proof.
  assert (∀ fd, keeps (vz_close_fd fd) ∧ ∀ p, ∃ p', vz_close_fd fd p = (p', Ok tt)) as Hc.
  { intros fd. unfold vz_close_fd. destruct (0 <=? fd); [|by split; [auto with vz|intros p; exists p]].
    split; [by intros p p' r [= <- _]|]. intros p. by eexists. }
  induction chs as [|ch chs [IH1 IH2]]; [by split; [apply vkeeps_ret|intros p; exists p]|]. cbn [vz_close_channels]. split.
  - apply vkeeps_bind; [apply Hc|intros []]. apply vkeeps_bind; [apply Hc|intros []]. exact IH1.
  - intros p. unfold mbind, V_bind. destruct (proj2 (Hc (host_read_fd ch)) p) as [p1 ->].
    destruct (proj2 (Hc (host_write_fd ch)) p1) as [p2 ->]. apply IH2.
Qed.

(** The first half: only the table of channels, and the descriptors. *)
Lemma vz_destroy_channels_run e h p p' r : vz_destroy_channels e h p = (p', r) →
  vz_vms p' = vz_vms p ∧ viewed p' = viewed p ∧ vz_next p' = vz_next p ∧
  match r with
  | Ok _ => serial_channels p' = delete h (serial_channels p) ∧
      (Forall (λ ch, 0 ≤ host_write_fd ch ∧ 0 ≤ host_read_fd ch) (default [] (serial_channels p !! h)) →
       ∀ x, vfds p' !! x = if decide (x ∈ host_fds (default [] (serial_channels p !! h))) then None else vfds p !! x)
  | Err x => x = Deadlock
  end.
Proof.
  unfold vz_destroy_channels. unfold mbind at 1, V_bind at 1, vgets.
  destruct (serial_channels p !! h) as [chs|] eqn:E.
  2:{ intros [= <- <-]. rewrite delete_id by done. by split_and!. }
  destruct (vz_close_channels_keep chs) as [K T]. destruct (T p) as [p1 E1]. pose proof (K _ _ _ E1) as [= Ev Ec Ew En].
  unfold mbind at 1, V_bind at 1. rewrite E1. unfold mbind at 1, V_bind at 1, join_channels.
  destruct (forallb _ chs); intros [= <- <-]; cbn; [|by rewrite Ev, Ew, En].
  rewrite Ev, Ew, En, Ec. split_and!; try done. intros Hf x.
  destruct (vz_close_channels_run chs p Hf) as (m & E2 & Hm). rewrite E1 in E2. injection E2 as ->. apply Hm.
Qed.

Lemma vz_destroy_run e h p p' r : vz_destroy e h p = (p', r) →
  vz_next p' = vz_next p ∧
  match r with
  | Ok _ => vz_vms p' = delete h (vz_vms p) ∧ serial_channels p' = delete h (serial_channels p) ∧
      (Forall (λ ch, 0 ≤ host_write_fd ch ∧ 0 ≤ host_read_fd ch) (default [] (serial_channels p !! h)) →
       v_dealloc e = true → ¬ h ∈ viewed p → ∀ c, vz_vms p !! h = Some c →
       ∀ x, vfds p' !! x = if decide (x ∈ port_fds (ports_of c)) then None
              else if decide (x ∈ host_fds (default [] (serial_channels p !! h))) then None else vfds p !! x)
  | Err x => x = Deadlock ∧ vz_vms p' = vz_vms p
  end.
Proof.
  unfold vz_destroy. unfold mbind at 1, V_bind at 1.
  destruct (vz_destroy_channels e h p) as [p1 r1] eqn:E1. apply vz_destroy_channels_run in E1 as (Ev & Ew & En & Hr).
  destruct r1 as [[]|x]; [|by intros [= <- <-]]. destruct Hr as [Ec Hx].
  unfold mbind at 1, V_bind at 1, vgets. rewrite Ev. destruct (vz_vms p !! h) as [c|] eqn:E.
  2:{ intros [= <- <-]. split; [done|]. rewrite Ev, delete_id by done. split; [done|]. split; [done|]. by intros _ _ _ c. }
  unfold mbind at 1, V_bind at 1, vlift. destruct (v_stop e c); cbn [guard_res]; [|by intros [= <- <-]].
  unfold mbind at 1, V_bind at 1, vmodify. unfold mbind at 1, V_bind at 1. cbn [set_vz_vms viewed].
  intros H. assert (vz_tables p' = (delete h (vz_vms p), serial_channels p1, viewed p1, vz_next p1) ∧ r = Ok tt) as [[= Ev' Ec' Ew' En'] ->].
  { rewrite <- Ev. destruct (bool_decide _); [by injection H as <- <-|]. rewrite drop_ports_run in H. by injection H as <- <-. }
  rewrite En', Ev', Ec', En, Ec. split_and!; try done. intros Hf Hd Hw c' [= <-] x.
  rewrite Ew, bool_decide_false in H by done. rewrite drop_ports_run, Hd in H. injection H as <-. cbn [set_vfds vfds set_vz_vms].
  by rewrite foldr_delete_lookup, Hx.
Qed.

(** ** The backend keeps the contract of backends *)
#[export] Instance Vz_backend (e : VzEnv) : Backend VzProc := {
  b_create p j := vz_create e j p;
  b_ui p h := vz_ui true h p;
  b_destroy p h := vz_destroy e h p;
}.

#[export] Instance Vz_laws (e : VzEnv) : @BackendLaws VzProc (Vz_backend e).
Proof.
  unshelve refine {|
    live p := dom (vz_vms p);
    next p := vz_next p;
    b_wf p := ∀ h, h ∈ dom (vz_vms p) → 0 < h < vz_next p;
  |}.
  - auto.
  - cbn. intros p j p' r Hw H0 Hn H.
    apply vz_create_cases in H as [(x & -> & [= Ev _ _ En])|(c0 & c & chs & p1 & p2 & _ & _ & _ & [= Ev _ _ En] & H)].
    + by rewrite Ev, En.
    + injection H as <- <-. cbn [vz_vms vz_next]. rewrite Ev, En, dom_insert_L, u64_id by lia. split; [|done].
      intros h. rewrite elem_of_union, elem_of_singleton. intros [->|Hh]; [lia|]. specialize (Hw h Hh). lia.
  - cbn. intros p h Hw. unfold vz_ui. cbn [negb]. by destruct (vz_vms p !! h).
  - cbn. intros p h p' [[]|x] Hw H; apply vz_destroy_run in H as [Hn Hr].
    + destruct Hr as [Hv _]. rewrite Hv, Hn, dom_delete_L. split; [|done]. intros h' [Hh _]%elem_of_difference. by apply Hw.
    + destruct Hr as [-> Hv]. by rewrite Hv, Hn.
Defined.

(** ** With descriptors to spare every port is added *)
Lemma add_ports_total e (Hp : ∀ m, is_Some (v_pipe e m)) (Hport : ∀ i, v_port_ok e i = true) l : ∀ ports chs p,
  ∃ p' ports' chs', add_ports e l ports chs p = (p', Ok (ports', chs')).
Proof.
  assert (∀ ports chs p, ∃ p' x, vz_pipe e ports chs p = (p', Ok x)) as Hs.
  { intros ports chs p. unfold vz_pipe. destruct (Hp (vfds p)) as [[r w] ->]. by do 2 eexists. }
  induction l as [|[i name] l IH]; intros ports chs p; [by exists p, ports, chs|]. cbn [add_ports].
  assert (∃ p' x, add_port e ports chs i name p = (p', Ok x)) as (p1 & [ports1 chs1] & E).
  { unfold add_port. destruct (Hs ports chs p) as (p1 & [r1 w1] & E1). unfold mbind at 1, V_bind at 1. rewrite E1.
    destruct (Hs ports chs p1) as (p2 & [r2 w2] & E2). unfold mbind at 1, V_bind at 1. rewrite E2.
    unfold mbind at 1, V_bind at 1, vgets. rewrite Hport. cbn [negb]. unfold mbind, V_bind.
    destruct (ports !! u64 i); [rewrite drop_ports_run|]; by do 2 eexists. }
  unfold mbind, V_bind. rewrite E. apply IH.
Qed.

(** A pump thread does not end while the machine's end of its pipe is open. *)
Lemma joined_stays e ports m l chs :
  Forall2 (joined ports m) l chs → l ≠ [] → forallb (vz_channel_ends e m) chs = false.
Proof.
  intros H Hl. destruct H as [|x ch l chs (_ & _ & _ & pc & k & _ & _ & _ & _ & Hw & Hr) _]; [done|]. cbn [forallb].
  apply andb_false_iff. left. unfold vz_channel_ends. apply andb_false_iff. left.
  rewrite (proj2 (a_writer m (pump ch))) by (by exists (writing pc)). cbn [negb orb].
  destruct (has_reader m (pump ch)) eqn:E; [done|]. exfalso. rewrite no_reader in E. by apply (E (host_read_fd ch)).
Qed.

Lemma start_machine_hangs e c chs p :
  v_early e = false → forallb (vz_channel_ends e (vfds p)) chs = false →
  validateWithError e c = false ∨ v_start e c ≠ Some true → ∃ p', start_machine e c chs p = (p', Err Deadlock).
Proof.
  intros He Hj Hc.
  assert (@throw_late unit e c chs p = (p, Err Deadlock)) as Ht.
  { unfold throw_late, mbind, V_bind, join_channels. rewrite He. cbn. by rewrite Hj. }
  unfold start_machine. destruct (validateWithError e c); cbn [negb]; [|by rewrite Ht; eexists].
  destruct Hc as [|Hc]; [done|]. destruct (v_start e c) as [[]|]; [done| |by eexists]. rewrite Ht. by eexists.
Qed.

(** Without an answer to the start there is no machine: the handler runs on the
    queue of the main thread, so this is what a caller on that thread gets. *)
Lemma vz_unanswered e j p p' r : (∀ c, v_start e c = None) → vz_create e j p = (p', r) → ∃ x, r = Err x.
Proof.
  intros Hs H. apply vz_create_cases in H as [(x & -> & _)|(c0 & c & chs & p1 & p2 & _ & _ & Em & _)]; [by exists x|].
  apply start_machine_ok in Em as (_ & E & _). by rewrite Hs in E.
Qed.

(** ** Properties *)

(** C25. [Create] starts the machine it is asked for, wired both ways.  When it
    returns, the framework accepted the configuration and started it; it has the
    requested memory and processors, boots the kernel if one is named and
    otherwise has no boot loader exactly for an .ipsw image, and its disk is the
    image; the handle is the next number and both tables gained its entry; and
    with distinct ports each channel holds the write end of the pipe its port
    reads and the read end of the pipe its port writes, port 0 being the kernel's
    console. *)
Theorem vz_create_runs (e : VzEnv) (j : Json) (p p' : VzProc) (h : Z)
    (He : VzLaws e) (Hids : ids_below (vfds p) (vpipes p)) (Hnd : NoDup (u64 <$> (sorted_serial j).*1))
    (H : vz_create e j p = (p', Ok h)) :
  ∃ c chs, validateWithError e c = true ∧ v_start e c = Some true ∧
    parse_size (default (cs "2GB") (ram_size j)) = Ok (memorySize c) ∧ CPUCount c = u64 (default 1 (cpu_count j)) ∧
    (∀ k, default [] (kernel j) = k → k ≠ [] → ∃ i cl, bootLoader c = Some (VZLinuxBootLoader k i cl)) ∧
    (default [] (kernel j) = [] → bootLoader c = None ↔ is_ipsw (default [] (image j)) = true) ∧
    storageDevices c = non_empty (default [] (image j)) ∧
    h = vz_next p ∧ vz_next p' = u64 (h + 1) ∧ vz_vms p' = <[h := c]> (vz_vms p) ∧
    serial_channels p' = match chs with [] => serial_channels p | _ => <[h := chs]> (serial_channels p) end ∧
    Forall2 (joined (ports_of c) (vfds p')) (sorted_serial j) chs.
Proof.
  destruct (vz_create_frame e He j p p' h Hids Hnd H) as (c0 & c & chs & Eb & -> & Hv & Hs & Hh & [= Ev Ec _ En] & Hok).
  exists (set_consoles c0 (consoleDevices c)), chs. split; [exact Hv|]. split; [exact Hs|].
  unfold base_config in Eb. apply bind_Ok_inv in Eb as (R & ER & Eb). apply bind_Ok_inv in Eb as (D & _ & Eb).
  apply bind_Ok_inv in Eb as (ld & El & Eb). apply bind_Ok_inv in Eb as (dk & Ed & Eb). injection Eb as <-.
  cbn [memorySize CPUCount bootLoader storageDevices set_consoles]. split; [exact ER|]. split; [done|].
  unfold choose_loader in El. split; [|split; [|split; [|by split_and!; try apply Hok]]].
  - intros [|x k] Hk Hne; [done|]. rewrite Hk in El. cbn [non_empty] in El. injection El as <-. by do 2 eexists.
  - intros Hk. rewrite Hk in El. cbn [non_empty] in El. destruct (is_ipsw _); [by injection El as <-|].
    apply bind_Ok_inv in El as (_ & _ & El). injection El as <-. done.
  - destruct (non_empty (default [] (image j))); [|by injection Ed as <-].
    apply bind_Ok_inv in Ed as (_ & _ & Ed). by injection Ed as <-.
Qed.


