(* ===== verification/VzBackendWit.v ===== *)
(** * VzBackendWit: concrete runs for the theorems of VzBackendThms *)

From stdpp Require Import strings.
From S2P Require Import Prelude Bytes Fdt HvfBackend HvfBackendThms HvfBackendWit Facade VzBackend VzBackendThms.

(** A framework that accepts at most eight processors and starts what it
    accepted, when [calls_back]. *)
Definition zx_env (calls_back : bool) : VzEnv :=
  mkVzEnv hx_pipe (λ path, take (length path - 4) path) (λ _, false) (λ _, true) (λ _, true) (λ _, true)
    (λ c, CPUCount c <=? 8) (λ _, if calls_back then Some true else None) (λ _, calls_back)
    (λ _, true) true true false.

Lemma zx_laws b : VzLaws (zx_env b).
Proof.
  split. intros m r w [= <- <-].
  destruct (top_fd_free m (top_fd m + 1)), (top_fd_free m (top_fd m + 2)); try lia.
  split_and!; try done. lia.
Qed.

(** A disk image that boots through EFI, two serial ports, a display. *)
Definition zx_json (cpus : Z) : Json :=
  mkJson None (Some cpus) (Some (cs "256MB")) (Some (cs "disk.img")) None None None None
    (Some [mkSerial (Some 1) (Some (cs "b")); mkSerial (Some 0) (Some (cs "a"))]) None None (Some (Some 800, None)).
Definition zx_proc : VzProc := mkVz ∅ 0 ∅ ∅ ∅ 1.

Definition zx_run : VzProc * res Z := vz_create (zx_env true) (zx_json 2) zx_proc.
Lemma zx_runs : vz_create (zx_env true) (zx_json 2) zx_proc = (zx_run.1, Ok 1).
Proof. assert (zx_run.2 = Ok 1) as <- by by vm_compute. unfold zx_run. by destruct (vz_create _ _ _). Qed.
Definition zx_end : VzProc * res unit := vz_destroy (zx_env true) 1 zx_run.1.
Lemma zx_ends : vz_destroy (zx_env true) 1 zx_run.1 = (zx_end.1, Ok tt).
Proof. assert (zx_end.2 = Ok tt) as <- by by vm_compute. unfold zx_end. by destruct (vz_destroy _ _ _). Qed.

Lemma zx_ids : ids_below (vfds zx_proc) (vpipes zx_proc).
Proof. apply map_Forall_empty. Qed.
Lemma zx_ports cpus : NoDup (u64 <$> (sorted_serial (zx_json cpus)).*1).
Proof. apply (bool_decide_unpack _). by vm_compute. Qed.

(** The console ports it gets. *)
Example zx_consoles :
  (bootLoader <$> vz_vms zx_run.1 !! 1) = Some (Some (VZEFIBootLoader (cs "disk.nvram"))) ∧
  (graphicsDevices <$> vz_vms zx_run.1 !! 1) = Some (Some (800, 1080)).
Proof. by vm_compute. Qed.

Lemma vz_create_runs_witness :
  ∃ c chs, vz_vms zx_run.1 = <[1 := c]> ∅ ∧ memorySize c = 0x10000000 ∧ CPUCount c = 2 ∧
    Forall2 (joined (ports_of c) (vfds zx_run.1)) (sorted_serial (zx_json 2)) chs.
Proof.
  destruct (vz_create_runs (zx_env true) (zx_json 2) zx_proc zx_run.1 1 (zx_laws true) zx_ids (zx_ports 2) zx_runs)
    as (c & chs & _ & _ & ER & EC & _ & _ & _ & _ & _ & Ev & _ & Hj).
  exists c, chs. split; [exact Ev|]. split; [|split; [exact EC|exact Hj]].
  assert (parse_size (default (cs "2GB") (ram_size (zx_json 2))) = Ok 0x10000000) as E by by vm_compute. congruence.
Defined.


(** Nine processors: the framework refuses, and [Create] hangs. *)
Definition zx_config : VmConfig := Eval vm_compute in
  match base_config (zx_env true) (zx_json 9) with Ok c => c | Err _ => mkVmConfig 0 0 None None None true None end.
