(* ===== verification/FacadeWit.v ===== *)
(** * FacadeWit: concrete runs for the theorems of Facade

    The two backends, on the systems of HvfBackendWit and VzBackendWit. *)

From stdpp Require Import strings.
From S2P Require Import Prelude Bytes Fdt Create DiskImage HvfBackend HvfBackendThms HvfBackendWit Facade.
From S2P Require Import VzBackend VzBackendThms VzBackendWit.
From S2P Require VirtioBlock VirtioNet.

#[local] Existing Instance HvfBackendWit.hx_stack.
#[local] Instance fx_hvf : Backend (Proc bytes unit) := Hvf_backend (hx_env hx_sys).
#[local] Instance fx_vz : Backend VzProc := Vz_backend (zx_env true).
#[local] Instance fx_vz_laws : BackendLaws VzProc := Vz_laws (zx_env true).
#[local] Instance fx_laws : BackendLaws (Proc bytes unit) := Hvf_laws (hx_env hx_sys).

Definition fx_start : State VzProc (Proc bytes unit) := mkState ∅ zx_proc hx_proc.
Definition fx_json (en : string) : Json :=
  mkJson (Some (cs en)) (cpu_count hx_j) (ram_size hx_j) None None None (kernel hx_j) None None None None None.

Lemma fx_wf : wf_state fx_start.
Proof. split; cbn; intros h Hh; exfalso; revert Hh; apply not_elem_of_empty. Qed.
Lemma fx_live en : live_of en fx_start = ∅.
Proof. by destruct en. Qed.

Definition fx_run : list Op :=
  [OpCreate (Some (fx_json "hvf")); OpDestroy 5; OpUI 1; OpCreate (Some (fx_json "qemu"))].
Definition fx_end : State VzProc (Proc bytes unit) :=
  match run fx_run fx_start with Ok s => s | Err _ => fx_start end.
Lemma fx_runs : run fx_run fx_start = Ok fx_end.
Proof.
  assert (match run fx_run fx_start with Ok _ => true | Err _ => false end = true) as H by by vm_compute.
  unfold fx_end. by destruct (run fx_run fx_start).
Qed.

Lemma facade_routes_witness :
  g_backends fx_end = gset_to_gmap Hvf (live_of Hvf fx_end) ∧ live_of Vz fx_end = ∅.
Proof.
  destruct (facade_routes Hvf fx_start fx_end fx_run fx_wf eq_refl fx_live) as (H1 & H2 & _).
  - by vm_compute.
  - repeat (apply Forall_cons_2; [|]); try apply Forall_nil_2; try exact I; [by left|by right].
  - exact fx_runs.
  - split; [exact H1|exact H2].
Defined.

(** Both engines: the machine of the first one is out of reach. *)
Definition fx_one : State VzProc (Proc bytes unit) := (Create fx_start (Some (fx_json "vz"))).1.
Definition fx_two : State VzProc (Proc bytes unit) := (Create fx_one (Some (fx_json "hvf"))).1.
Lemma fx_second : Create fx_one (Some (fx_json "hvf")) = (fx_two, Ok 1).
Proof.
  assert ((Create fx_one (Some (fx_json "hvf"))).2 = Ok 1) as H by by vm_compute.
  unfold fx_two. destruct (Create fx_one _). cbn in H |- *. by rewrite H.
Qed.
Definition fx_last : State VzProc (Proc bytes unit) :=
  match run [OpDestroy 1; OpDestroy 1] fx_two with Ok s => s | Err _ => fx_two end.
Lemma fx_last_runs : run [OpDestroy 1; OpDestroy 1] fx_two = Ok fx_last.
Proof.
  assert (match run [OpDestroy 1; OpDestroy 1] fx_two with Ok _ => true | Err _ => false end = true) as H
    by by vm_compute.
  unfold fx_last. by destruct (run _ fx_two).
Qed.

Lemma facade_collision_witness : 1 ∈ live_of Vz fx_last.
Proof.
  destruct (facade_collision Vz fx_start fx_one fx_two fx_last (fx_json "vz") (fx_json "hvf") 1 1
    [OpDestroy 1; OpDestroy 1] fx_wf eq_refl) as [_ H].
  - by intros [].
  - by vm_compute.
  - by vm_compute.
  - by vm_compute.
  - exact fx_second.
  - repeat apply Forall_cons_2; [exact I|exact I|apply Forall_nil_2].
  - exact fx_last_runs.
  - exact H.
Defined.
