(* ===== verification/SerialPath.v ===== *)
(** * SerialPath: from the UART to the terminal

    The path of the guest's serial output, across the parts it runs through: the
    UART of the exit handler writes to the pipe of port 0; the port's pump thread
    (src/src/hvf/hvf_backend.cpp) reads the pipe and sends messages on the port's
    IPC channel; the command's client (src/cli/main.cpp) writes what it receives
    to the terminal.  The transport between the two ends of the channel is known
    by the interface [Link]; the in-process and the socket transport provide it.
    The pipe is what was written to its descriptor and not yet read; a full
    pipe, which makes the UART wait, is not modelled. *)

From stdpp Require Import relations.
From S2P Require Import Prelude Bytes World VmContext ExitHandler Channel.
From S2P Require TransportInprocess TransportUnix.

#[local] Existing Instances TransportInprocess.End_transport TransportInprocess.End_stream.

(** ** Two ends of a connection that lasts *)
Class Link (S T : Type) `{StreamLaws S T} := {
  linked : S → T → T → Prop;
  linked_up s w r : linked s w r → tr_is_connected r = true;
  link_write s w r bs : linked s w r →
    ∃ s', tr_write s w bs = (s', w) ∧ linked s' w r ∧ tr_avail s' r = tr_avail s r ++ bs;
  link_read s w r n bs s' r' : linked s w r → tr_read s r n = (RdBytes bs, s', r') → linked s' w r';
}.

Section link.
Context {S T : Type} {HT : Transport S T} {HL : StreamLaws S T} {HK : Link S T}.

Lemma link_send s w r ty p : linked s w r →
  ∃ s', send_raw s w ty p = (s', w) ∧ linked s' w r ∧ tr_avail s' r = tr_avail s r ++ frame (mkMessage ty p).
Proof.
  intros H. unfold send_raw, frame. cbn [msg_type payload].
  destruct (link_write s w r (header_bytes (frame_header ty p)) H) as (s1 & E1 & H1 & A1). rewrite E1.
  destruct p as [|b p]; [exists s1; by rewrite app_nil_r|].
  destruct (link_write s1 w r (b :: p) H1) as (s2 & E2 & H2 & A2). exists s2.
  by rewrite E2, A2, A1, app_assoc.
Qed.

Lemma link_step s w r m s' r' : linked s w r → read_step s r = (ItNext m, s', r') → linked s' w r'.
Proof.
  intros H. unfold read_step, read_iter. destruct (tr_is_connected r); [|done].
  destruct (tr_read s r kHeaderSize) as [[[bs| |] s1] r1] eqn:E1; [|done..]. cbv zeta.
  apply (link_read _ w _ _ _ _ _ H) in E1.
  destruct (_ || _); [done|]. destruct (_ <? _); [done|]. destruct (_ =? 0); [by intros [= _ <- <-]|].
  destruct (tr_read s1 r1 _) as [[[b2| |] s2] r2] eqn:E2; [|done..]. intros [= _ <- <-].
  by apply (link_read _ w _ _ _ _ _ E1) in E2.
Qed.

(** What the reader makes of whole frames. *)
Lemma link_frames s w r ms : linked s w r → Forall wf_message ms → tr_avail s r = mjoin (frame <$> ms) →
  match ms with
  | [] => ∀ m s' r', read_step s r ≠ (ItNext m, s', r')
  | m :: ms => ∃ s' r', read_step s r = (ItNext m, s', r') ∧ linked s' w r' ∧ tr_avail s' r' = mjoin (frame <$> ms)
  end.
Proof.
  intros H Hms Ha. pose proof (linked_up _ _ _ H) as Hc. destruct ms as [|m ms].
  - intros m s' r'. unfold read_step, read_iter. rewrite Hc.
    destruct (tr_read_short s r kHeaderSize) as (rd & s1 & r1 & E & Hrd & _); [rewrite Ha; cbn; unfold kHeaderSize; lia|].
    rewrite E. by destruct Hrd as [-> | ->].
  - apply Forall_cons in Hms as [Hm Hms].
    destruct (read_step_frame s r m (mjoin (frame <$> ms)) Hm Hc Ha) as (s' & r' & E & _ & Ha' & _).
    exists s', r'. split; [done|]. split; [by eapply link_step|done].
Qed.
End link.

(** ** The path *)
Definition fd_bytes (fd : Z) (l : list Event) : bytes :=
  flat_map (λ e, match e with FdWrite fd' bs => if fd' =? fd then bs else [] | _ => [] end) l.

Section path.
Context {S T : Type} {HT : Transport S T} {HL : StreamLaws S T} {HK : Link S T}.

(** The UART, the host effects so far, the bytes taken from the pipe, the two
    ends of the channel (none before the client has connected), the state they
    share, and the terminal. *)
Record Path := mkPath {
  uart : Pl011State;
  w_host : World;
  taken : nat;
  ends : option (T * T);
  shared : S;
  screen : bytes;
}.

Definition written (x : Path) : bytes := fd_bytes (pl_tx_fd (uart x)) (w_log (w_host x)).
Definition in_pipe (x : Path) : bytes := drop (taken x) (written x).

(** The guest stores to a UART register. *)
Definition uart_store (off v : Z) (x : Path) : Path :=
  let '(p, w) := pl011_write (uart x) (w_host x) off v in
  mkPath p w (taken x) (ends x) (shared x) (screen x).

(** The pump thread has read [n] bytes: [Server::send] drops them while there is
    no channel. *)
Definition pump (n : nat) (x : Path) : Path :=
  let data := take n (in_pipe x) in
  match ends x with
  | None => mkPath (uart x) (w_host x) (taken x + n) None (shared x) (screen x)
  | Some (srv, cli) =>
      let '(s, srv) := send_binary (shared x) srv data in
      mkPath (uart x) (w_host x) (taken x + n) (Some (srv, cli)) s (screen x)
  end.

(** The client's read thread and its [on_message]. *)
Definition on_message (m : Message) (x : Path) : Path :=
  mkPath (uart x) (w_host x) (taken x) (ends x) (shared x) (screen x ++ payload m).
Definition client_read (x : Path) : option Path :=
  match ends x with
  | Some (srv, cli) =>
      match read_step (shared x) cli with
      | (ItNext m, s, cli) =>
          Some (on_message m (mkPath (uart x) (w_host x) (taken x) (Some (srv, cli)) s (screen x)))
      | _ => None
      end
  | None => None
  end.

(** Other host effects of the machine do not write to the UART's descriptor. *)
Definition other_effects (es : list Event) (x : Path) : Path :=
  mkPath (uart x) (emit (w_host x) es) (taken x) (ends x) (shared x) (screen x).

Inductive step : Path → Path → Prop :=
  | ps_store off v x : step x (uart_store off v x)
  | ps_other es x : fd_bytes (pl_tx_fd (uart x)) es = [] → step x (other_effects es x)
  | ps_pump n x : (0 < n ≤ 4096)%nat → (n ≤ length (in_pipe x))%nat → step x (pump n x)
  | ps_connect s srv cli x : ends x = None → linked s srv cli → tr_avail s cli = [] →
      step x (mkPath (uart x) (w_host x) (taken x) (Some (srv, cli)) s (screen x))
  | ps_client x x' : client_read x = Some x' → step x x'.

(** A path whose client has just connected. *)
Definition fresh (x : Path) : Prop :=
  0 ≤ pl_tx_fd (uart x) ∧ (taken x ≤ length (written x))%nat ∧ screen x = [] ∧
  ∃ srv cli, ends x = Some (srv, cli) ∧ linked (shared x) srv cli ∧ tr_avail (shared x) cli = [].

(** What was taken from the pipe since then is on the screen or on the way. *)
Definition path_ok (k : nat) (x : Path) : Prop :=
  0 ≤ pl_tx_fd (uart x) ∧ (k ≤ taken x ≤ length (written x))%nat ∧
  ∃ srv cli ms, ends x = Some (srv, cli) ∧ linked (shared x) srv cli ∧ Forall wf_message ms ∧
    tr_avail (shared x) cli = mjoin (frame <$> ms) ∧
    take (taken x - k) (drop k (written x)) = screen x ++ mjoin (payload <$> ms).
End path.
Arguments Path : clear implicits.

Section path_lemmas.
Context {S T : Type} {HT : Transport S T} {HL : StreamLaws S T} {HK : Link S T}.
Implicit Types x y : Path S T.

Lemma fd_bytes_app fd l l' : fd_bytes fd (l ++ l') = fd_bytes fd l ++ fd_bytes fd l'.
Proof. apply flat_map_app. Qed.

(** What the guest writes only grows. *)
Lemma uart_store_written off v x :
  pl_tx_fd (uart (uart_store off v x)) = pl_tx_fd (uart x) ∧
  ∃ bs, written (uart_store off v x) = written x ++ bs.
Proof.
  unfold uart_store, written, pl011_write.
  destruct (off =? kPl011Dr).
  - destruct x as [p w k e s sc]. cbn -[fd_bytes]. split; [done|]. rewrite fd_bytes_app. by eexists.
  - destruct (off =? kPl011Cr), (off =? kPl011Lcr), (off =? kPl011Imsc);
      destruct x; cbn; (split; [done|]); exists []; by rewrite app_nil_r.
Qed.

(** Growing output keeps the path. *)
Lemma path_ok_grow k x y bs :
  path_ok k x → pl_tx_fd (uart y) = pl_tx_fd (uart x) → written y = written x ++ bs →
  taken y = taken x → ends y = ends x → shared y = shared x → screen y = screen x → path_ok k y.
Proof.
  intros (Hf & Hk & srv & cli & ms & He & Hl & Hms & Ha & Ht) E1 E2 E3 E4 E5 E6. unfold path_ok.
  rewrite E1, E2, E3, E4, E5, E6, length_app. split; [done|]. split; [lia|].
  exists srv, cli, ms. split_and!; try done. rewrite <- Ht.
  rewrite drop_app_le by lia. rewrite take_app_le; [done|]. rewrite length_drop. lia.
Qed.

Lemma pump_ok k n x : path_ok k x → (0 < n ≤ 4096)%nat → (n ≤ length (in_pipe x))%nat → path_ok k (pump n x).
Proof.
  intros (Hf & Hk & srv & cli & ms & He & Hl & Hms & Ha & Ht) Hn Hp. unfold pump. rewrite He.
  set (data := take n (in_pipe x)).
  destruct (link_send (shared x) srv cli Binary data Hl) as (s1 & E & Hl1 & Ha1). unfold send_binary. rewrite E.
  assert (length data = n) as Hd by (unfold data; rewrite length_take; lia).
  unfold in_pipe in Hp. rewrite length_drop in Hp. unfold path_ok, written. cbn [uart w_host taken ends shared screen].
  fold (written x). split; [done|]. split; [lia|].
  exists srv, cli, (ms ++ [mkMessage Binary data]). split; [done|]. split; [done|]. split.
  { apply Forall_app. split; [done|]. constructor; [|done]. split; [done|].
    cbn [payload]. rewrite Hd. unfold kMaxPayloadSize. lia. }
  split; [by rewrite Ha1, Ha, !fmap_app, join_app; cbn; rewrite app_nil_r|].
  rewrite fmap_app, join_app. cbn [fmap list_fmap mjoin list_join payload]. rewrite app_nil_r, app_assoc, <- Ht.
  replace (taken x + n - k)%nat with ((taken x - k) + n)%nat by lia. rewrite <- take_take_drop.
  f_equal. rewrite drop_drop. unfold data, in_pipe. do 2 f_equal. lia.
Qed.

(** The client reads the next message, if there is one. *)
Lemma client_ok k x : path_ok k x →
  match client_read x with
  | Some y => path_ok k y ∧ w_host y = w_host x ∧ uart y = uart x ∧ taken y = taken x
  | None => take (taken x - k) (drop k (written x)) = screen x
  end.
Proof.
  intros (Hf & Hk & srv & cli & ms & He & Hl & Hms & Ha & Ht).
  unfold client_read. rewrite He. pose proof (link_frames _ _ _ _ Hl Hms Ha) as Hs. destruct ms as [|m ms].
  - destruct (read_step (shared x) cli) as [[[m| |cs] s1] r1] eqn:E; [by destruct (Hs m s1 r1)|..];
      rewrite Ht; apply app_nil_r.
  - destruct Hs as (s1 & r1 & E & Hl1 & Ha1). rewrite E. split; [|done].
    unfold path_ok, on_message, written. cbn [uart w_host taken ends shared screen]. fold (written x).
    split; [done|]. split; [done|]. exists srv, r1, ms. apply Forall_cons in Hms as [_ Hms].
    split_and!; try done. by rewrite Ht, <- app_assoc.
Qed.

Lemma step_ok k x y : path_ok k x → step x y → path_ok k y.
Proof.
  intros H Hs. destruct Hs as [off v x|es x Hes|n x Hn Hp|s srv cli x He Hl Ha|x x' E].
  - destruct (uart_store_written off v x) as [Hfd [bs Hw]]. apply (path_ok_grow k x _ bs); try done;
      unfold uart_store; by destruct (pl011_write _ _ _ _).
  - apply (path_ok_grow k x _ []); try done. unfold written, other_effects. cbn [uart w_host emit w_log].
    by rewrite fd_bytes_app, Hes.
  - by apply pump_ok.
  - exfalso. destruct H as (_ & _ & srv' & cli' & ms & He' & _). congruence.
  - apply (client_ok k) in H. rewrite E in H. apply H.
Qed.

Lemma run_ok k x y : rtc step x y → path_ok k x → path_ok k y.
Proof. induction 1 as [|x y z Hxy _ IH]; [done|]. intros H. by eapply IH, step_ok. Qed.

Lemma fresh_ok x : fresh x → path_ok (taken x) x.
Proof.
  intros (Hf & Ht & Hs & srv & cli & He & Hl & Ha). split; [done|]. split; [lia|].
  exists srv, cli, []. split_and!; try done. by rewrite Nat.sub_diag, Hs.
Qed.

(** The client can always catch up with the pump: [ms] is what is on the way. *)
Lemma client_catches_up ms : ∀ x srv cli, ends x = Some (srv, cli) → linked (shared x) srv cli →
  Forall wf_message ms → tr_avail (shared x) cli = mjoin (frame <$> ms) →
  ∃ y, rtc step x y ∧ w_host y = w_host x ∧ uart y = uart x ∧ taken y = taken x ∧
    screen y = screen x ++ mjoin (payload <$> ms).
Proof.
  induction ms as [|m ms IH]; intros x srv cli He Hl Hms Ha.
  - exists x. rewrite app_nil_r. done.
  - pose proof (link_frames _ _ _ _ Hl Hms Ha) as (s1 & r1 & E & Hl1 & Ha1). apply Forall_cons in Hms as [_ Hms].
    set (x1 := on_message m (mkPath (uart x) (w_host x) (taken x) (Some (srv, r1)) s1 (screen x))).
    assert (step x x1) as Hs by (apply ps_client; unfold client_read; by rewrite He, E).
    destruct (IH x1 srv r1) as (y & Hr & Hw & Hu & Ht & Hsc); [done..|].
    exists y. split; [by eapply rtc_l|]. split_and!; try done. rewrite Hsc. cbn. by rewrite <- app_assoc.
Qed.

(** So can the pump with the guest. *)
Lemma pump_catches_up k : ∀ n x, (length (in_pipe x) ≤ n)%nat → path_ok k x →
  ∃ y, rtc step x y ∧ path_ok k y ∧ w_host y = w_host x ∧ uart y = uart x ∧ taken y = length (written x).
Proof.
  induction n as [|n IH]; intros x Hn Hx; unfold in_pipe in Hn; rewrite length_drop in Hn.
  - exists x. split_and!; try done. destruct Hx as (_ & Hk & _). lia.
  - destruct (decide (in_pipe x = [])) as [He|He].
    + exists x. split_and!; try done. apply (f_equal length) in He. unfold in_pipe in He.
      rewrite length_drop in He. cbn in He. destruct Hx as (_ & Hk & _). lia.
    + assert (1 ≤ length (in_pipe x))%nat as H1 by (destruct (in_pipe x); [done|cbn; lia]).
      assert (step x (pump 1 x)) as Hs by (apply ps_pump; lia).
      assert (taken (pump 1 x) = (taken x + 1)%nat ∧ written (pump 1 x) = written x ∧
        w_host (pump 1 x) = w_host x ∧ uart (pump 1 x) = uart x) as (E1 & E2 & E3 & E4).
      { unfold pump. destruct (ends x) as [[srv cli]|]; [by destruct (send_binary _ _ _)|done]. }
      destruct (IH (pump 1 x)) as (y & Hr & Hy & Hw & Hu & Ht).
      { unfold in_pipe. rewrite length_drop, E1, E2. lia. }
      { by eapply step_ok. }
      exists y. split; [by eapply rtc_l|]. rewrite Hw, Hu, Ht, E2, E3, E4. done.
Qed.
End path_lemmas.

(** ** The links *)
#[export] Instance Inprocess_link : Link TransportInprocess.Heap TransportInprocess.End.
Proof.
  refine {| linked h w r := TransportInprocess.connected w = true ∧
              TransportInprocess.closed (TransportInprocess.pipe h (TransportInprocess.tx w)) = false ∧
              TransportInprocess.connected r = true ∧ TransportInprocess.rx r = TransportInprocess.tx w |}.
  - intros h w r H. apply H.
  - intros h w r bs (Hc & Ho & Hr & He). cbn [tr_write TransportInprocess.End_transport].
    rewrite TransportInprocess.write_open by done. eexists. split; [done|].
    rewrite TransportInprocess.pipe_insert. split; [done|].
    cbn. unfold TransportInprocess.avail, TransportInprocess.pipe_avail.
    rewrite He, TransportInprocess.pipe_insert. cbn [TransportInprocess.queue].
    by rewrite TransportInprocess.mjoin_snoc, app_assoc.
  - intros h w r n bs h' r' (Hc & Ho & Hr & He) E.
    destruct (TransportInprocess.read_spec h r n) as (rd & h1 & r1 & E1 & Hcl & Hrx & H).
    cbn [tr_read TransportInprocess.End_transport] in E. rewrite E1 in E. injection E as -> -> ->.
    rewrite He in *. rewrite Hcl, Hrx. split_and!; try done.
    destruct (_ <=? _)%nat in H; [by destruct H as (_ & -> & _)|]. destruct H as [H _]. by rewrite Ho in H.
Defined.

(** Two sockets of the kernel that are connected: what one writes the other
    receives. *)
Class PairLaws (K : Type) `{TransportUnix.KernelLaws K} := {
  paired : K → Z → Z → Prop;
  pair_write k a b data : paired k a b → data ≠ [] →
    ∃ n k', TransportUnix.sys_write k a data = (Some n, k') ∧ paired k' a b ∧
      TransportUnix.incoming k' b = TransportUnix.incoming k b ++ take n data;
  pair_read k a b n : paired k a b → paired (TransportUnix.sys_read k b n).2 a b;
}.

Section unix.
Context {K : Type} {HK : TransportUnix.Kernel K} {HL : TransportUnix.KernelLaws K} {HP : PairLaws K}.
Import TransportUnix.

Lemma pair_write_loop a b fuel : ∀ k t data, fd t = a → paired k a b → (length data ≤ fuel)%nat →
  ∃ k', write_loop fuel k t data = Ok (k', t) ∧ paired k' a b ∧ incoming k' b = incoming k b ++ data.
Proof.
  induction fuel as [|fuel IH]; intros k t data Ht Hp Hf; destruct data as [|x data]; cbn [write_loop].
  - exists k. by rewrite app_nil_r.
  - cbn in Hf. lia.
  - exists k. by rewrite app_nil_r.
  - destruct (pair_write k a b (x :: data) Hp) as (n & k1 & E & Hp1 & Hi); [done|].
    rewrite Ht, E. destruct (sys_write_spec k a (x :: data)) as (rr & k2 & E2 & Hn); [done|].
    rewrite E in E2. injection E2 as <- <-. destruct Hn as [Hn _]. destruct (Nat.eqb_spec n 0); [lia|].
    destruct (IH k1 t (drop n (x :: data)) Ht Hp1) as (k' & E' & Hp' & Hi'); [rewrite length_drop; cbn in *; lia|].
    exists k'. split; [done|]. split; [done|]. by rewrite Hi', Hi, <- app_assoc, take_drop.
Qed.

Lemma pair_read_loop a b n : ∀ fuel k t out r k' t', fd t = b → paired k a b →
  read_loop_ fuel k t n out = Ok (r, k', t') → paired k' a b ∧ fd t' = b ∧
    (∀ bs, r = RdBytes bs → t' = t).
Proof.
  induction fuel as [|fuel IH]; intros k t out r k' t' Ht Hp; cbn [read_loop_];
    (destruct (n <=? length out)%nat; [by intros [= <- <- <-]|]); [done|].
  pose proof (pair_read k a b (n - length out) Hp) as Hp1. rewrite Ht.
  destruct (sys_read k b (n - length out)) as [[bs| |] k1]; cbn [snd] in Hp1.
  - intros H. by eapply IH in H.
  - by intros [= <- <- <-].
  - by intros [= <- <- <-].
Qed.

#[export] Instance Unix_link : Link K UnixTransport.
Proof.
  refine {| linked k w r := paired k (fd w) (fd r) ∧ connected r = true |}.
  - intros k w r H. apply H.
  - intros k w r bs [Hp Hc].
    destruct (pair_write_loop (fd w) (fd r) (length bs) k w bs eq_refl Hp) as (k' & E & Hp' & Hi); [done|].
    exists k'. cbn. unfold write. rewrite E. done.
  - intros k w r n bs k' r' [Hp Hc] E. cbn in E. unfold read in E.
    destruct (read_loop_ n k r n []) as [[[rd k1] r1]|] eqn:El; [|done]. injection E as -> -> ->.
    destruct (pair_read_loop (fd w) (fd r) n n k r [] _ _ _ eq_refl Hp El) as (Hp' & Hfd & He).
    rewrite (He bs eq_refl). done.
Defined.
End unix.

(** ** Properties *)

(** C9. The terminal shows what the guest prints.  From the moment the client of
    port 0 has connected, however the guest's stores, the pump and the client's
    thread interleave, the terminal shows a prefix of the bytes the guest has
    stored to its UART since and before that were still in the pipe, in order,
    with nothing lost, added or repeated; and when the threads go on, all of
    them arrive. *)
Theorem serial_output {S T : Type} {HT : Transport S T} {HL : StreamLaws S T} {HK : Link S T}
    (x y : Path S T) (Hx : fresh x) (Hr : rtc step x y) :
  (∃ rest, drop (taken x) (written y) = screen y ++ rest) ∧
  ∃ z, rtc step y z ∧ w_host z = w_host y ∧ screen z = drop (taken x) (written y).
Proof.
  pose proof (run_ok _ _ _ Hr (fresh_ok x Hx)) as Hy. split.
  - destruct Hy as (_ & Hk & srv & cli & ms & _ & _ & _ & _ & Ht).
    exists (mjoin (payload <$> ms) ++ drop (taken y - taken x) (drop (taken x) (written y))).
    rewrite app_assoc, <- Ht. by rewrite take_drop.
  - destruct (pump_catches_up (taken x) (length (in_pipe y)) y) as (y1 & R1 & Hy1 & W1 & U1 & T1); [done..|].
    destruct Hy1 as (_ & Hk & srv & cli & ms & He & Hl & Hms & Ha & Ht).
    destruct (client_catches_up ms y1 srv cli He Hl Hms Ha) as (z & R2 & W2 & U2 & T2 & Hsc).
    exists z. split; [by etrans|]. split; [by rewrite W2|]. rewrite Hsc, <- Ht.
    assert (written y1 = written y) as Ew by (unfold written; by rewrite U1, W1).
    rewrite Ew in *. rewrite take_ge; [done|]. rewrite length_drop. lia.
Qed.

(** What the pump reads before a client has connected is lost. *)
Lemma early_output_lost {S T : Type} {HT : Transport S T} {HL : StreamLaws S T} {HK : Link S T}
    (x : Path S T) (s : S) (srv cli : T) :
  ends x = None → 0 ≤ pl_tx_fd (uart x) → (taken x ≤ length (written x))%nat → screen x = [] →
  linked s srv cli → tr_avail s cli = [] →
  ∃ y, rtc step x y ∧ w_host y = w_host x ∧ fresh y ∧ taken y = length (written x).
Proof.
  intros He Hfd Ht Hs Hl Ha.
  assert (∃ y, rtc step x y ∧ w_host y = w_host x ∧ uart y = uart x ∧ ends y = None ∧ screen y = [] ∧
    taken y = length (written x)) as (y & Hr & Hw & Hu & He' & Hs' & Ht').
  { remember (length (written x) - taken x)%nat as n eqn:En. revert x He Hfd Ht Hs En.
    induction n as [|n IH]; intros x He Hfd Ht Hs En.
    - exists x. split_and!; try done. lia.
    - assert (step x (pump 1 x)) as Hst.
      { apply ps_pump; [lia|]. unfold in_pipe. rewrite length_drop. lia. }
      unfold pump in Hst. rewrite He in Hst.
      destruct (IH (mkPath (uart x) (w_host x) (taken x + 1) None (shared x) (screen x)))
        as (y & Hr & Hy); cbn [ends uart taken screen]; unfold written in *; cbn [uart w_host taken] in *; try done; [lia..|].
      exists y. split; [by eapply rtc_l|]. exact Hy. }
  exists (mkPath (uart y) (w_host y) (taken y) (Some (srv, cli)) s (screen y)). split.
  { etrans; [exact Hr|]. apply rtc_once, ps_connect; done. }
  split; [done|]. split; [|done]. unfold fresh, written. cbn [uart w_host taken ends shared screen].
  rewrite Hu, Hw, Ht', Hs'. unfold written. split; [done|]. split; [done|]. split; [done|]. by exists srv, cli.
Qed.

(** ** Witness: an in-process channel; the guest prints "hi" *)
Definition spx_heap : TransportInprocess.Heap := {[ 0%nat := TransportInprocess.Pipe0; 1%nat := TransportInprocess.Pipe0 ]}.
Definition spx_start : Path TransportInprocess.Heap TransportInprocess.End :=
  mkPath (mkPl011 0x300 0 0 5) (mkWorld (GuestMem.mkRam false 0 0 ∅) [FdWrite 5 [62]; FdWrite 7 [1]]) 0
    (Some (TransportInprocess.End0 1 0, TransportInprocess.End0 0 1)) spx_heap [].
Definition spx_end : Path TransportInprocess.Heap TransportInprocess.End :=
  pump 2 (uart_store kPl011Dr 105 (uart_store kPl011Dr 0x1068 spx_start)).

Lemma serial_output_witness :
  ∃ z, rtc step spx_end z ∧ screen z = [62; 104; 105].
Proof.
  destruct (serial_output spx_start spx_end) as [_ (z & Hz & _ & E)].
  - split; [done|]. split; [vm_compute; lia|]. split; [done|]. do 2 eexists. split; [done|]. done.
  - eapply rtc_l; [apply ps_store|]. eapply rtc_l; [apply ps_store|]. apply rtc_once.
    apply ps_pump; [lia|]. vm_compute. lia.
  - exists z. split; [exact Hz|]. rewrite E. reflexivity.
Defined.
