(* ===== verification/Session.v ===== *)
(** * Session: the command from its arguments to the end of the machine

    The rest of [main] and [on_signal] of src/cli/main.cpp: [Cli.main] reads the
    arguments, [Facade.Create] makes the machine, one client is connected per
    serial port, and a signal destroys the machine.  Dumping the configuration
    and parsing it again is the JSON library's ([codec]). *)

From stdpp Require Import strings.
From S2P Require Import Prelude Bytes VmContext Fdt Create HvfBackend HvfBackendThms Facade.
From S2P Require VirtioBlock VirtioNet Cli BootMachine.

Section session.
Context {Sv F St : Type} {HF : VirtioBlock.BlockFile F} {HS : VirtioNet.NetApi St} {BV : Backend Sv}.
Context (e : Env F St) (codec : Json → option Json).
#[local] Instance session_hvf : Backend (Proc F St) := Hvf_backend e.
Abbreviation State := (State Sv (Proc F St)).

(** What [main] comes to: an exit code, or the machine's handle, in [g_handle],
    and the channels its clients were told to connect to. *)
Inductive Session : Type :=
  | Exited (code : Z)
  | Running (g_handle : Z) (clients : list bytes).

Definition run_vm (c : Cli.Config) (s : State) : State * res Session :=
  match Create s (codec (json_of c)) with
  | (s, Ok handle) => (s, Ok (Running handle (Cli.serial c).*2))
  | (s, Err Thrown) => (s, Ok (Exited 1))
  | (s, Err x) => (s, Err x)
  end.

Definition main (argv : list bytes) (s : State) : State * res Session :=
  match Cli.main argv with
  | Ok (inl code) => (s, Ok (Exited code))
  | Ok (inr c) => run_vm c s
  | Err x => (s, Err x)
  end.

(** The exit code, when the handler gets to [exit]. *)
Definition on_signal (g_handle : Z) (s : State) : State * res Z :=
  if g_handle =? 0 then (s, Ok 0) else
  match Destroy s g_handle with
  | (s, Ok _) => (s, Ok 0)
  | (s, Err x) => (s, Err x)
  end.

(** The serial ports of a command line are already in order. *)
Lemma insert_port_below x l : Forall (λ y, x.1 ≤ y.1) l → insert_port x l = x :: l.
Proof. destruct 1 as [|y l H _]; [done|]. cbn. by rewrite (proj2 (Z.leb_le _ _) H). Qed.

Lemma sorted_ports vm n : ∀ k,
  foldr insert_port [] ((λ i, (Z.of_nat i, Cli.channel_name vm (Z.of_nat i))) <$> seq k n) =
    (λ i, (Z.of_nat i, Cli.channel_name vm (Z.of_nat i))) <$> seq k n.
Proof.
  induction n as [|n IH]; intros k; [done|]. cbn [seq fmap list_fmap foldr].
  fold (@fmap list _ _ _ (λ i, (Z.of_nat i, Cli.channel_name vm (Z.of_nat i))) (seq (S k) n)).
  rewrite IH. apply insert_port_below. apply Forall_fmap, Forall_forall. intros i Hi.
  apply elem_of_seq in Hi. cbn. lia.
Qed.

Lemma main_serial argv c : Cli.main argv = Ok (inr c) → ∃ n, Cli.serial c = Cli.serial_of (Cli.name c) n.
Proof.
  unfold Cli.main. destruct argv as [|prog [|cmd argv]]; [done..|].
  destruct (negb _); [done|]. destruct (Cli.Args.get _ "image" []) as [|b image]; [done|].
  intros (n & _ & H)%bind_Ok_inv. apply bind_Ok_inv in H as (cpu & _ & H).
  apply bind_Ok_inv in H as ([d|] & _ & H); [|done]. injection H as <-. by exists n.
Qed.

Lemma json_serial_sorted c n : Cli.serial c = Cli.serial_of (Cli.name c) n →
  sorted_serial (json_of c) = Cli.serial c.
Proof.
  intros E. unfold sorted_serial.
  assert ((λ s, (default 0 (port s), default [] (channel s))) <$> default [] (serial (json_of c)) = Cli.serial c) as Hj.
  { unfold json_of. cbn [serial]. destruct (Cli.serial c) as [|x l]; [done|]. cbn [default]. unfold id.
    change (map json_serial (x :: l)) with (json_serial <$> (x :: l)). rewrite <- list_fmap_compose.
    rewrite <- (list_fmap_id (x :: l)) at 2. apply list_fmap_ext. by intros _ [] _. }
  rewrite Hj, E. apply sorted_ports.
Qed.
End session.

