(* ===== verification/SessionWit.v ===== *)
(** * SessionWit: a concrete run of the command

    The HVF backend of HvfBackendWit, started from a command line. *)

From stdpp Require Import strings.
From S2P Require Import Prelude Bytes VmContext Fdt Create DiskImage HvfBackend HvfBackendThms HvfBackendWit Facade VzBackend.
From S2P Require Import FacadeWit Session.
From S2P Require VirtioBlock VirtioNet Cli BootMachine.

#[local] Existing Instances HvfBackendWit.hx_stack FacadeWit.fx_vz.

Definition sx_argv : list bytes :=
  cs <$> ["vm-cli"; "run"; "--image=disk.img"; "--engine"; "hvf"; "--kernel=vmlinuz"; "--initrd=initrd";
          "--ram=256MB"; "--cpu=2"; "--serial=2"]%string.
Definition sx_config : Cli.Config :=
  match Cli.main sx_argv with Ok (inr c) => c | _ => Cli.mkConfig [] [] 0 [] [] [] None None None [] end.
Definition sx_run : State VzProc (Proc bytes unit) * res Session :=
  main (hx_env hx_sys) Some sx_argv fx_start.
Definition sx_clients : list bytes := cs <$> ["vm-serial-0"; "vm-serial-1"]%string.
Definition sx_end : State VzProc (Proc bytes unit) * res Z := on_signal (hx_env hx_sys) 1 sx_run.1.

Lemma sx_ok : sx_run.2 = Ok (Running 1 sx_clients) ∧ sx_end.2 = Ok 0.
Proof. by vm_compute. Qed.

Lemma sx_runs : main (hx_env hx_sys) Some sx_argv fx_start = (sx_run.1, Ok (Running 1 sx_clients)).
Proof. rewrite <- (proj1 sx_ok). unfold sx_run. apply surjective_pairing. Qed.
Lemma sx_ends : on_signal (hx_env hx_sys) 1 sx_run.1 = (sx_end.1, Ok 0).
Proof. rewrite <- (proj2 sx_ok). unfold sx_end. apply surjective_pairing. Qed.

