(* ===== verification/ConsoleRx.v ===== *)
(** * ConsoleRx: the receive thread of the virtio console

    Models [Console::rx_thread_func], the start of the thread in the constructor
    and the destructor of src/src/hvf/virtio_console.cpp: the thread is a
    sequence of rounds, each the value of [stop_rx_] and the outcome of [poll].
    The theorem says what the guest finds in its receive buffers. *)

From S2P Require Import Prelude Bytes GuestMem Virtq VirtqSpec World VirtioRegs Fixtures VirtioConsole.

(** [poll] timed out or reported no input; or it reported input. *)
Inductive RxRound : Type := RxIdle | RxInput.

#[export] Instance RxRound_eq_dec : EqDecision RxRound.
Proof. solve_decision. Defined.

Definition rx_state : Type := Console * World * bytes.

(** Whether the thread has ended; it goes on when no more round is known. *)
Fixpoint rx_thread_func (rounds : list (bool * RxRound)) (s : rx_state) : res (bool * rx_state) :=
  match rounds with
  | [] => Ok (false, s)
  | (true, _) :: _ => Ok (true, s)
  | (false, RxIdle) :: rounds => rx_thread_func rounds s
  | (false, RxInput) :: rounds =>
      let '(c, w, inp) := s in s ← feed_rx c w inp; rx_thread_func rounds s
  end.

(** The constructor starts the thread only for a descriptor; the destructor
    closes both. *)
Definition starts_rx (c : Console) : bool := 0 <=? rx_fd c.
Definition console_closes (c : Console) : list Z := filter (λ fd, 0 ≤ fd) [rx_fd c; tx_fd c].

(** The rounds that reach [feed_rx]. *)
Definition ready_rounds (rounds : list (bool * RxRound)) : nat :=
  length (filter (λ r, r.2 = RxInput) rounds).

Lemma console_queue_divides : (kQueueSize | 0x10000).
Proof. by exists 256. Qed.

Section Rx.
Context (prot : Z → Prop) (d a u idx : Z).

(** A receive buffer: its head descriptor and its first byte. *)
Definition rx_slot (m : Ram) (s : Z * Z) : Prop :=
  let '(head, p) := s in
  0 ≤ head < kQueueSize ∧
  (∃ ad, desc_addr m d head = Ok ad ∧ gpa_to_hva m ad = Some p) ∧
  (∃ l, desc_len m d head = Ok l ∧ l ≠ 0) ∧
  in_ram m p 1 = true ∧ spares (prot_all kQueueSize prot u) p 1.

Lemma rx_slot_stable m m' s :
  stable prot m m' → rings kQueueSize prot d a u m → rx_slot m s → rx_slot m' s.
Proof.
  destruct s as [head p]. intros Hs Hr (Hh & (ad & Ha & Hp) & Hl & Hin & Hsp).
  destruct (desc_stable prot kQueueSize d (rg_table _ _ _ _ _ _ Hr) m m' head Hs Hh) as (E1 & E2 & _).
  split; [done|]. rewrite E1, E2. split_and!; try done.
  - exists ad. rewrite (gpa_to_hva_same m) by apply Hs. done.
  - by rewrite (in_ram_same m) by apply Hs.
Qed.

Lemma rx_slot_spares_ring m s q k :
  rx_slot m s → u ≤ q → q + k ≤ u + used_bytes kQueueSize → disjoint s.2 1 q k.
Proof.
  destruct s as [head p]. intros Hs H1 H2.
  assert (disjoint u (used_bytes kQueueSize) p 1) as Hd by (apply (spares_disjoint _ prot); [done..|apply Hs]).
  unfold disjoint in *. cbn [snd]. lia.
Qed.

(** What a delivered byte does to the device. *)
Definition fed (c : Console) : Console := set_regs c (set_irq (bump0 (regs c))).
Definition irqs : list Event := [SetSpi 48 true; SetSpi 48 false].

(** One byte goes to the next buffer. *)
Lemma feed_one c w ch inp i head p :
  0 ≤ rx_fd c → ring_ptrs (w_ram w) (r_q0 (regs c)) = Some (d, a, u) →
  rings kQueueSize prot d a u (w_ram w) → rx_slot (w_ram w) (head, p) →
  avail_idx (w_ram w) a = Ok idx → last_avail (r_q0 (regs c)) ≠ idx →
  avail_ring (w_ram w) a (last_avail (r_q0 (regs c)) mod kQueueSize) = Ok head →
  used_idx (w_ram w) u = Ok i → 0 ≤ ch < 256 →
  ∃ w', feed_rx c w (ch :: inp) = Ok (fed c, w', inp) ∧ w_log w' = w_log w ++ irqs ∧
    stable prot (w_ram w) (w_ram w') ∧ used_idx (w_ram w') u = Ok (u16 (i + 1)) ∧
    load (w_ram w') p 1 = Ok [ch] ∧ used_elem kQueueSize u (w_ram w') i head 1 ∧
    (∀ q k, disjoint (u + 2) 2 q k → disjoint (used_slot kQueueSize u i) 8 q k → disjoint p 1 q k →
       agree (w_ram w) (w_ram w') q k).
Proof.
  intros Hfd Hp Hr (Hh & (ad & Ha & Hg) & (l & Hl & Hl0) & Hin & Hsp) Hai Hne Hav Hi Hch.
  unfold feed_rx. rewrite (proj2 (Z.ltb_ge _ _) Hfd), Hp, Hai, bind_Ok, (proj2 (Z.eqb_neq _ _) Hne).
  rewrite Hav, bind_Ok, Ha, bind_Ok, Hl, bind_Ok, Hg, (proj2 (Z.eqb_neq _ _) Hl0).
  assert (le_enc 1 ch = [ch]) as Hle by (cbn; f_equal; by apply Z.mod_small).
  unfold store8. rewrite Hle, (store_in _ _ [ch] Hin), bind_Ok. set (m1 := pokes (w_ram w) p [ch]).
  assert (stable (prot_all kQueueSize prot u) (w_ram w) m1) as S1.
  { eapply stable_store; [by apply store_in| |done]. by repeat constructor; lia. }
  destruct (publish_spec kQueueSize prot d a u (w_ram w) m1 i head 1) as (m' & E & S & U & F1 & F2 & A); try done.
  { unfold kQueueSize in *. lia. }
  rewrite E, bind_Ok. eexists. split; [reflexivity|]. cbn [raise_spi emit w_log w_ram with_ram].
  split; [done|]. split; [done|]. split; [done|]. split; [|split; [done|]].
  - rewrite (load_agree m1).
    + unfold m1. rewrite load_in by by rewrite (in_ram_same (w_ram w)) by apply same_map_pokes.
      by rewrite (peeks_pokes _ _ [ch]).
    + etrans; [|apply S]. apply S1.
    + apply A. by apply (spares_disjoint _ prot).
  - intros q k H1 H2 H3. eapply agree_trans; [|by eapply (publish_frame kQueueSize prot u (w_ram w))].
    by apply agree_pokes.
Qed.

(** Nothing happens without a buffer or without a byte. *)
Lemma feed_idle c w inp :
  avail_idx (w_ram w) a = Ok idx → ring_ptrs (w_ram w) (r_q0 (regs c)) = Some (d, a, u) →
  last_avail (r_q0 (regs c)) = idx → feed_rx c w inp = Ok (c, w, inp).
Proof.
  intros Hai Hp Hl. unfold feed_rx. destruct (rx_fd c <? 0); [done|].
  by rewrite Hp, Hai, bind_Ok, Hl, Z.eqb_refl.
Qed.

Lemma feed_empty c w head p :
  avail_idx (w_ram w) a = Ok idx → ring_ptrs (w_ram w) (r_q0 (regs c)) = Some (d, a, u) →
  avail_ring (w_ram w) a (last_avail (r_q0 (regs c)) mod kQueueSize) = Ok head →
  rx_slot (w_ram w) (head, p) → feed_rx c w [] = Ok (c, w, []).
Proof.
  intros Hai Hp Hav (Hh & (ad & Ha & Hg) & (l & Hl & Hl0) & _). unfold feed_rx.
  destruct (rx_fd c <? 0); [done|]. rewrite Hp, Hai, bind_Ok. destruct (_ =? idx); [done|].
  by rewrite Hav, bind_Ok, Ha, bind_Ok, Hl, bind_Ok, Hg.
Qed.

Fixpoint disjoint_bytes (ss : list (Z * Z)) : Prop :=
  match ss with
  | [] => True
  | s :: ss => Forall (λ s', disjoint s'.2 1 s.2 1) ss ∧ disjoint_bytes ss
  end.

Fixpoint advance (n : nat) (c : Console) : Console :=
  match n with O => c | S n => advance n (fed c) end.

(** The rounds of a thread, from its first byte on. *)
Definition rx_done (n : nat) (ss : list (Z * Z)) (inp : bytes) (i : Z) (w w' : World) : Prop :=
  w_log w' = w_log w ++ mjoin (replicate n irqs) ∧
  used_idx (w_ram w') u = Ok (u16 (i + Z.of_nat n)) ∧ stable prot (w_ram w) (w_ram w') ∧
  (∀ k s b, (k < n)%nat → ss !! k = Some s → inp !! k = Some b → load (w_ram w') s.2 1 = Ok [b]) ∧
  (Z.of_nat (length ss) ≤ kQueueSize → returned kQueueSize u (w_ram w') i (receipt 1 <$> take n ss)) ∧
  (∀ q k, clear kQueueSize u i (length ss) q k → Forall (λ s, disjoint s.2 1 q k) ss →
     agree (w_ram w) (w_ram w') q k).

Lemma rx_done_0 ss inp i w : used_idx (w_ram w) u = Ok i → 0 ≤ i < 0x10000 → rx_done 0 ss inp i w w.
Proof.
  intros H Hi. unfold rx_done. cbn [replicate mjoin list_join]. rewrite app_nil_r, Z.add_0_r, u16_id by done.
  split_and!; try done. intros. lia.
Qed.

(** The thread over any rounds. *)
Lemma rx_rounds rounds : ∀ ss c w inp i,
  Forall (λ r, r.1 = false) rounds → 0 ≤ rx_fd c → 0 ≤ idx < 0x10000 →
  ring_ptrs (w_ram w) (r_q0 (regs c)) = Some (d, a, u) → rings kQueueSize prot d a u (w_ram w) →
  0 ≤ last_avail (r_q0 (regs c)) < 0x10000 → 0 ≤ i < 0x10000 →
  avail_idx (w_ram w) a = Ok idx → used_idx (w_ram w) u = Ok i →
  queued kQueueSize a fst rx_slot (w_ram w) (last_avail (r_q0 (regs c))) ss → disjoint_bytes ss →
  Z.of_nat (length ss) = u16 (idx - last_avail (r_q0 (regs c))) → wf_bytes inp →
  let n := (ready_rounds rounds `min` (length ss `min` length inp))%nat in
  ∃ w', rx_thread_func rounds (c, w, inp) = Ok (false, (advance n c, w', drop n inp)) ∧ rx_done n ss inp i w w'.
Proof.
  induction rounds as [|[b r] rounds IH]; intros ss c w inp i Hst Hfd Hidx Hp Hr Hl Hi Hai Hui Hq Hd Hlen Hb n.
  { exists w. split; [done|]. by apply rx_done_0. }
  apply Forall_cons in Hst as [Hb0 Hst]. cbn [fst] in Hb0. subst b.
  destruct r; cbn [rx_thread_func]; [by apply IH|].
  assert (∀ n', n' = 0%nat → feed_rx c w inp = Ok (c, w, inp) →
    (length ss `min` length inp = 0)%nat → n = n' →
    ∃ w', (s ← feed_rx c w inp; rx_thread_func rounds s) = Ok (false, (advance n' c, w', drop n' inp)) ∧
      rx_done n' ss inp i w w') as Hidle.
  { intros n' -> E E0 _. rewrite E, bind_Ok. destruct (IH ss c w inp i) as (w' & E' & H'); try done.
    rewrite E0, Nat.min_0_r in E', H'. by exists w'. }
  destruct ss as [|[head p] ss].
  { apply Hidle; [unfold n; cbn; lia| |done|done]. apply feed_idle; [done..|]. cbn in Hlen. zlia. }
  inversion Hq as [|? ? ? Hav Hg Hq']; subst. destruct Hd as [Hd1 Hd2]. destruct inp as [|ch inp].
  { apply Hidle; [unfold n; cbn; lia| |done|done]. by eapply feed_empty. }
  clear Hidle. apply Forall_cons in Hb as [Hch Hb]. cbn [length] in Hlen.
  destruct (feed_one c w ch inp i head p) as (w1 & E & Hlog & S1 & U1 & L1 & F1 & A1); try done.
  { intros Heq. rewrite Heq in Hlen. zlia. }
  rewrite E, bind_Ok.
  destruct (IH ss (fed c) w1 inp (u16 (i + 1))) as (w' & E' & Hlog' & U' & S' & L' & R' & A');
    try done; try apply u16_range; try (cbn; zlia).
  { unfold fed. rewrite <- Hp. unfold ring_ptrs. cbn. by rewrite !(gpa_to_hva_same (w_ram w) (w_ram w1)) by apply S1. }
  { by eapply rings_stable. }
  { by rewrite (avail_idx_stable kQueueSize prot d a u (w_ram w)). }
  { eapply queued_stable; [| |done|done|done]; [done|]. apply rx_slot_stable. }
  exists w'. assert (n = S (ready_rounds rounds `min` (length ss `min` length inp))) as ->.
  { unfold n, ready_rounds. rewrite filter_cons_True by done. cbn [length]. lia. }
  cbn [advance drop]. split; [exact E'|]. unfold rx_done. cbn [replicate mjoin list_join]. split.
  { rewrite Hlog', Hlog, <- app_assoc. done. }
  split; [rewrite U'; f_equal; zlia|]. split; [by etrans|]. split; [|split].
  - intros [|k] s b Hk Hs Hin; cbn in Hs, Hin; [|apply (L' k); [lia|done..]].
    injection Hs as <-. injection Hin as <-. cbn [snd]. rewrite (load_agree (w_ram w1)); [done|apply S'|].
    apply A'; [|done]. apply clear_ring; [done|]. apply (spares_disjoint _ prot); [done..|apply Hg].
  - intros Hn. cbn [length] in Hn. apply (returned_cons kQueueSize u console_queue_divides (w_ram w1)); [apply S'| |done|apply R'; lia].
    apply A'; [apply clear_slot; [done|apply console_queue_divides|lia]|].
    pose proof (used_slot_range kQueueSize u eq_refl i). eapply Forall_impl; [by eapply queued_good|].
    intros s Hs. eapply rx_slot_spares_ring; [exact Hs|lia..].
  - intros q k Hq1 Hq2. apply Forall_cons in Hq2 as [Hq2 Hq3]. pose proof (proj1 Hq1) as Hq0.
    apply (clear_S kQueueSize u console_queue_divides) in Hq1 as [Hq1 Hq1']. eapply agree_trans; [by apply A1|by apply A'].
Qed.

Lemma advance_last n : ∀ c, 0 ≤ last_avail (r_q0 (regs c)) < 0x10000 →
  last_avail (r_q0 (regs (advance n c))) = u16 (last_avail (r_q0 (regs c)) + Z.of_nat n).
Proof.
  induction n as [|n IH]; intros c Hc; cbn [advance]; [by rewrite Z.add_0_r, u16_id|].
  rewrite IH by apply u16_range. cbn. zlia.
Qed.
End Rx.

(** ** Properties *)

(** C22. The guest receives the host's input.  With the receive buffers [ss]
    published, whatever rounds time out in between, the receive thread takes one
    byte of the host's input per ready round as long as there is a buffer, and
    stores the bytes in order, each in a buffer of its own, returned through the
    used ring with length one and announced by an interrupt; what is not delivered stays in the
    input, and only the used ring and the buffers of guest memory change. *)
Theorem console_rx_stream (prot : Z → Prop) (d a u idx i : Z) (rounds : list (bool * RxRound))
    (ss : list (Z * Z)) (c : Console) (w : World) (inp : bytes)
    (Hst : Forall (λ r, r.1 = false) rounds) (Hfd : 0 ≤ rx_fd c)
    (Hp : ring_ptrs (w_ram w) (r_q0 (regs c)) = Some (d, a, u))
    (Hr : rings kQueueSize prot d a u (w_ram w)) (Hc : wf_regs kQueueSize (regs c))
    (Hai : avail_idx (w_ram w) a = Ok idx) (Hui : used_idx (w_ram w) u = Ok i)
    (Hq : queued kQueueSize a fst (rx_slot prot d u) (w_ram w) (last_avail (r_q0 (regs c))) ss)
    (Hd : disjoint_bytes ss) (Hlen : Z.of_nat (length ss) = u16 (idx - last_avail (r_q0 (regs c))))
    (Hb : wf_bytes inp) :
  let n := (ready_rounds rounds `min` (length ss `min` length inp))%nat in
  ∃ c' w', rx_thread_func rounds (c, w, inp) = Ok (false, (c', w', drop n inp)) ∧
    last_avail (r_q0 (regs c')) = u16 (last_avail (r_q0 (regs c)) + Z.of_nat n) ∧
    used_idx (w_ram w') u = Ok (u16 (i + Z.of_nat n)) ∧
    (∀ k s b, (k < n)%nat → ss !! k = Some s → inp !! k = Some b → load (w_ram w') s.2 1 = Ok [b]) ∧
    (Z.of_nat (length ss) ≤ kQueueSize → returned kQueueSize u (w_ram w') i (receipt 1 <$> take n ss)) ∧
    w_log w' = w_log w ++ mjoin (replicate n [SetSpi 48 true; SetSpi 48 false]) ∧
    stable prot (w_ram w) (w_ram w').
Proof.
  intros n. pose proof (wf_last _ _ (wr_q0 _ _ Hc)) as Hl.
  pose proof (load16_range _ _ _ (rg_wf _ _ _ _ _ _ Hr) Hai) as Hidx.
  pose proof (load16_range _ _ _ (rg_wf _ _ _ _ _ _ Hr) Hui) as Hi.
  destruct (rx_rounds prot d a u idx rounds ss c w inp i) as (w' & E & Hlog & U & S & L & R & _); try done.
  fold n in E, Hlog, U, L, R. exists (advance n c), w'. split; [exact E|]. split; [by apply advance_last|]. done.
Qed.

Lemma console_rx_stream_witness :
  ∃ c' w', rx_thread_func [(false, RxIdle); (false, RxInput); (false, RxInput)] (cx_console, cx_world, [65; 66]) =
      Ok (false, (c', w', [66])) ∧ used_idx (w_ram w') fx_u = Ok 1 ∧ load (w_ram w') fx_buf 1 = Ok [65] ∧
    used_elem kQueueSize fx_u (w_ram w') 0 0 1.
Proof.
  destruct (console_rx_stream fx_ring_prot fx_d fx_a fx_u 1 0 [(false, RxIdle); (false, RxInput); (false, RxInput)]
    [(0, fx_buf)] cx_console cx_world [65; 66]) as (c' & w' & E & _ & U & L & R & _).
  - by repeat constructor.
  - done.
  - by vm_compute.
  - apply cx_rings; [done|apply fx_u_ring_prot].
  - apply wf_cx_regs.
  - by vm_compute.
  - by vm_compute.
  - apply queued_cons; [by vm_compute| |apply queued_nil]. split; [done|].
    split; [by exists (fx_base + fx_buf); split; vm_compute|]. split; [by exists 3; split; [vm_compute|]|].
    split; [by vm_compute|]. intros x Hx [H|H];
      unfold fx_ring_prot, in_used, used_bytes, kQueueSize, fx_buf, fx_d, fx_a, fx_u in *; lia.
  - by split.
  - by vm_compute.
  - by apply wf_bytesb_ok.
  - exists c', w'. split; [exact E|]. split; [exact U|].
    split; [|exact (R ltac:(done) 0%nat (0, 1) eq_refl)]. apply (L 0%nat (0, fx_buf) 65); [apply Nat.ltb_lt; vm_compute; reflexivity|reflexivity|reflexivity].
Defined.
