(* ===== verification/NetRxThread.v ===== *)
(** * NetRxThread: the receive thread of the network device

    Models [Net::rx_flush_func], [Net::enqueue_rx] and [Net::~Net] of
    src/src/hvf/virtio_net.cpp with the mutex and the condition variable they
    share.  A step is one thread's next action.  [wait] with a predicate is the
    loop the standard says it is: the predicate is tested with the mutex held,
    and giving up the mutex and blocking is one action; a blocked thread is woken
    by a notification or spuriously.  [enqueue_rx] and the register accesses run
    with the mutex held, so each is one step taken while it is free. *)

From stdpp Require Import relations.
From S2P Require Import Prelude Bytes GuestMem Virtq World VirtioRegs VirtioNet Devices.
From S2P Require Import Fixtures NetStack NetStackWit VirtioNetWit.

(** The flush thread: at the test of the [while]; about to lock; at the
    predicate; past it, about to block; blocked; woken; past the wait; with a
    frame in hand and the mutex released; returned. *)
Inductive Flush : Type :=
  | FTop
  | FLock
  | FTest
  | FSleep
  | FBlocked
  | FWoken
  | FGot
  | FFeed (frame : bytes)
  | FExited.

(** The destructor: not called; [stop_rx_] stored; notified, joining; joined. *)
Inductive Dtor : Type := DNone | DStop | DJoin | DDone.

Inductive Label : Type :=
  | Arrive (frame : bytes)
  | Fed (frame : bytes)
  | Quiet.

Section Rx.
Context {St : Type} {HS : NetApi St} (fuel : nat).

Record RxSys := mkRx {
  net : Net St;
  host : World;
  locked : bool;
  stop_rx : bool;
  flush : Flush;
  dtor : Dtor;
}.
Definition Rx0 (n : Net St) (w : World) : RxSys := mkRx n w false false FTop DNone.

Definition set_flush (x : RxSys) (b : bool) (f : Flush) : RxSys :=
  mkRx (net x) (host x) b (stop_rx x) f (dtor x).
Definition notify (f : Flush) : Flush := match f with FBlocked => FWoken | f => f end.

(** The flush thread. *)
Inductive flush_step : RxSys → Label → RxSys → Prop :=
  | fs_stop x : flush x = FTop → stop_rx x = true → flush_step x Quiet (set_flush x (locked x) FExited)
  | fs_top x : flush x = FTop → stop_rx x = false → flush_step x Quiet (set_flush x (locked x) FLock)
  | fs_lock x : flush x = FLock ∨ flush x = FWoken → locked x = false → flush_step x Quiet (set_flush x true FTest)
  | fs_yes x : flush x = FTest → stop_rx x = true ∨ rx_queue (net x) ≠ [] →
      flush_step x Quiet (set_flush x true FGot)
  | fs_no x : flush x = FTest → stop_rx x = false → rx_queue (net x) = [] →
      flush_step x Quiet (set_flush x true FSleep)
  | fs_block x : flush x = FSleep → flush_step x Quiet (set_flush x false FBlocked)
  | fs_break x : flush x = FGot → stop_rx x = true → flush_step x Quiet (set_flush x false FExited)
  | fs_pop x f q : flush x = FGot → stop_rx x = false → rx_queue (net x) = f :: q →
      flush_step x Quiet (mkRx (set_rx_queue (net x) q) (host x) false false (FFeed f) (dtor x))
  | fs_feed x f n w : flush x = FFeed f → locked x = false → do_feed_rx fuel (net x) (host x) f = Ok (n, w) →
      flush_step x (Fed f) (mkRx n w false (stop_rx x) FTop (dtor x)).

(** Everything else, but for what can wake the flush thread. *)
Inductive other_step : RxSys → Label → RxSys → Prop :=
  | os_write x off val len n w : locked x = false → write fuel (net x) (host x) off val len = Ok (n, w) →
      other_step x Quiet (mkRx n w false (stop_rx x) (flush x) (dtor x))
  | os_guest x w : other_step x Quiet (mkRx (net x) w (locked x) (stop_rx x) (flush x) (dtor x))
  | os_stop x : dtor x = DNone → other_step x Quiet (mkRx (net x) (host x) (locked x) true (flush x) DStop)
  | os_notify x : dtor x = DStop →
      other_step x Quiet (mkRx (net x) (host x) (locked x) (stop_rx x) (notify (flush x)) DJoin)
  | os_join x : dtor x = DJoin → flush x = FExited →
      other_step x Quiet (mkRx (net x) (host x) (locked x) (stop_rx x) FExited DDone).

(** [enqueue_rx], called by the stack's threads; a spurious wake-up. *)
Inductive wake_step : RxSys → Label → RxSys → Prop :=
  | ws_arrive x f : locked x = false →
      wake_step x (Arrive f) (mkRx (enqueue_rx (net x) f) (host x) false (stop_rx x) (notify (flush x)) (dtor x))
  | ws_spurious x : flush x = FBlocked → wake_step x Quiet (set_flush x (locked x) FWoken).

Definition rx_step (x : RxSys) (l : Label) (y : RxSys) : Prop :=
  flush_step x l y ∨ other_step x l y ∨ wake_step x l y.

Inductive trace (R : RxSys → Label → RxSys → Prop) : RxSys → list Label → RxSys → Prop :=
  | tr_nil x : trace R x [] x
  | tr_step x l y tr z : R x l y → trace R y tr z → trace R x (l :: tr) z.

Definition arrivals (tr : list Label) : list bytes := omap (λ l, match l with Arrive f => Some f | _ => None end) tr.
Definition feeds (tr : list Label) : list bytes := omap (λ l, match l with Fed f => Some f | _ => None end) tr.
Definition in_hand (f : Flush) : list bytes := match f with FFeed f => [f] | _ => [] end.

(** ** The invariant *)
Definition holds (f : Flush) : bool := match f with FTest | FSleep | FGot => true | _ => false end.
Definition asleep (f : Flush) : bool := match f with FSleep | FBlocked => true | _ => false end.
Definition stopping (d : Dtor) : bool := match d with DNone => false | _ => true end.

Record rx_ok (x : RxSys) : Prop := {
  ro_lock : locked x = holds (flush x);
  ro_sleep : asleep (flush x) = true → rx_queue (net x) = [];
  ro_got : flush x = FGot → stop_rx x = true ∨ rx_queue (net x) ≠ [];
  ro_stop : stop_rx x = stopping (dtor x);
  ro_exit : flush x = FExited → stop_rx x = true;
}.

Lemma rx_ok_start n w : rx_ok (Rx0 n w).
Proof. by split. Qed.

Lemma feed_rx_queue (n n' : Net St) w f w' : do_feed_rx fuel n w f = Ok (n', w') → rx_queue n' = rx_queue n.
Proof.
  unfold do_feed_rx. intros H. destruct (ring_ptrs _ _) as [[[d a] u]|]; [|by simplify_eq].
  apply bind_Ok_inv in H as (idx & _ & H). destruct (_ =? idx); [by simplify_eq|]. inv_bind. done.
Qed.

(** Every step keeps the invariant. *)
Lemma flush_step_ok x l y : rx_ok x → flush_step x l y → rx_ok y.
Proof.
  intros [Hl Hs Hg Hd Hx] H.
  destruct H as [x E Ht|x E _|x E Hf|x E H1|x E _ Hq|x E|x E Ht|x f q E Ht Hq|x f n w E Hf Hfeed];
    split; cbn; try (by auto).
  - by rewrite Hl, E.
  - by rewrite Hl, E.
  - intros _. apply Hs. by rewrite E.
  - by rewrite <- Ht.
Qed.

Lemma notify_keeps f : holds (notify f) = holds f ∧ (asleep (notify f) = true → f = FSleep) ∧ (notify f = FGot → f = FGot) ∧
  (notify f = FExited → f = FExited).
Proof. by destruct f. Qed.

Lemma other_step_ok x l y : rx_ok x → other_step x l y → rx_ok y.
Proof.
  intros [Hl Hs Hg Hd Hx] H. destruct H as [x off val len n w Hf Hw|x w|x Hdt|x Hdt|x Hdt E].
  - apply net_write_step in Hw as (_ & Eq & _). split; cbn; rewrite ?Eq; try done. by rewrite <- Hl, Hf.
  - by split.
  - split; cbn; auto.
  - destruct (notify_keeps (flush x)) as (E1 & E2 & E3 & E4). split; cbn; [by rewrite E1| |auto|by rewrite Hd, Hdt|auto].
    intros Ha%E2. apply Hs. by rewrite Ha.
  - split; cbn; [by rewrite Hl, E|done|done|by rewrite Hd, Hdt|auto].
Qed.

Lemma wake_step_ok x l y : rx_ok x → wake_step x l y → rx_ok y.
Proof.
  intros [Hl Hs Hg Hd Hx] H. destruct H as [x f Hf|x E].
  - destruct (notify_keeps (flush x)) as (E1 & E2 & E3 & E4). split; cbn; [by rewrite E1, <- Hl, Hf| | |done|auto].
    + intros Ha%E2. by rewrite Hl, Ha in Hf.
    + intros _. right. by destruct (rx_queue (net x)).
  - split; cbn; [by rewrite Hl, E|done|done|done|done].
Qed.

Lemma rx_step_ok x l y : rx_ok x → rx_step x l y → rx_ok y.
Proof. intros H [Hs|[Hs|Hs]]; [by eapply flush_step_ok|by eapply other_step_ok|by eapply wake_step_ok]. Qed.

Lemma trace_ok (R : RxSys → Label → RxSys → Prop) x tr y :
  (∀ x l y, R x l y → rx_step x l y) → rx_ok x → trace R x tr y → rx_ok y.
Proof. intros HR H. induction 1 as [|x l y tr z Hs _ IH]; [done|]. apply IH. eapply rx_step_ok; [exact H|by apply HR]. Qed.

(** What is on the way to the guest. *)
Definition pending (x : RxSys) : list bytes := in_hand (flush x) ++ rx_queue (net x).

Lemma step_pending x l y : rx_step x l y →
  pending x ++ arrivals [l] = feeds [l] ++ pending y.
Proof.
  unfold pending. intros [H|[H|H]]; destruct H; cbn -[enqueue_rx]; try (match goal with E : flush _ = _ |- _ => rewrite E end);
    cbn -[enqueue_rx]; rewrite ?app_nil_r; try done.
  - match goal with E : flush _ = _ ∨ flush _ = _ |- _ => by destruct E as [-> | ->] end.
  - match goal with E : do_feed_rx _ _ _ _ = _ |- _ => by rewrite (feed_rx_queue _ _ _ _ _ E) end.
  - match goal with E : write _ _ _ _ _ _ = _ |- _ => by apply net_write_step in E as (_ & -> & _) end.
  - by destruct (flush x).
  - rewrite <- app_assoc. by destruct (flush x).
Qed.

Lemma trace_pending x tr y : trace rx_step x tr y →
  pending x ++ arrivals tr = feeds tr ++ pending y.
Proof.
  induction 1 as [x|x l y tr z Hs _ IH]; [by rewrite app_nil_r|].
  assert (arrivals (l :: tr) = arrivals [l] ++ arrivals tr ∧ feeds (l :: tr) = feeds [l] ++ feeds tr) as [-> ->]
    by by destruct l.
  rewrite app_assoc, (step_pending x l y Hs), <- !app_assoc, IH. done.
Qed.
(** ** What the thread does *)

(** The flush thread has at most one next action. *)
Lemma flush_step_det x l1 y1 l2 y2 : flush_step x l1 y1 → flush_step x l2 y2 → l1 = l2 ∧ y1 = y2.
Proof.
  intros H1 H2. destruct H1; inversion H2; try intuition congruence.
Qed.

Lemma trace_app (R : RxSys → Label → RxSys → Prop) x t1 y t2 z :
  trace R x t1 y → trace R y t2 z → trace R x (t1 ++ t2) z.
Proof. induction 1; [done|]. intros. eapply tr_step; eauto. Qed.

Lemma trace_mono (R S : RxSys → Label → RxSys → Prop) x tr y :
  (∀ x l y, R x l y → S x l y) → trace R x tr y → trace S x tr y.
Proof. intros HR. induction 1; [apply tr_nil|eapply tr_step; eauto]. Qed.

(** The device and the memory once the thread has fed what is pending. *)
Fixpoint rx_drain (k : nat) (n : Net St) (w : World) : res (Net St * World) :=
  match k with
  | O => Ok (n, w)
  | S k => '(n, w) ← rx_flush_one fuel n w; rx_drain k n w
  end.
Definition feed_hand (x : RxSys) : res (Net St * World) :=
  match flush x with FFeed f => do_feed_rx fuel (net x) (host x) f | _ => Ok (net x, host x) end.
Definition caught_up (x : RxSys) : res (Net St * World) :=
  '(n, w) ← feed_hand x; rx_drain (length (rx_queue (net x))) n w.

(** With a frame queued the thread gets to feed it on its own: the actions
    left before the pop, and the next one. *)
Definition to_pop (f : Flush) : nat :=
  match f with FTop => 4 | FLock | FWoken => 3 | FTest => 2 | FGot => 1 | _ => 0 end.

Lemma approach x : rx_ok x → stop_rx x = false → rx_queue (net x) ≠ [] → (1 < to_pop (flush x))%nat →
  ∃ b p, flush_step x Quiet (set_flush x b p) ∧ S (to_pop p) = to_pop (flush x).
Proof.
  intros Hok Ht Hq Hr. pose proof (ro_lock _ Hok) as Hl. destruct (flush x) eqn:E; cbn in Hr; try lia; cbn in *.
  - exists (locked x), FLock. split; [by apply fs_top|done].
  - exists true, FTest. split; [apply fs_lock; auto|done].
  - exists true, FGot. split; [apply fs_yes; auto|done].
  - exists true, FTest. split; [apply fs_lock; auto|done].
Qed.

Lemma reach_feed k x f q :
  rx_ok x → stop_rx x = false → rx_queue (net x) = f :: q → to_pop (flush x) = S k →
  trace flush_step x (replicate (S k) Quiet)
    (mkRx (set_rx_queue (net x) q) (host x) false false (FFeed f) (dtor x)).
Proof.
  revert x. induction k as [|k IH]; intros x Hok Ht Hq Hk.
  - eapply tr_step; [apply fs_pop; [|done..]|apply tr_nil]. destruct (flush x); cbn in Hk; try lia; done.
  - destruct (approach x) as (b & p & Hs & Hp); [done|done|by rewrite Hq|lia|].
    rewrite replicate_S. eapply tr_step; [exact Hs|].
    apply (IH (set_flush x b p)); [by eapply flush_step_ok|done|done|cbn; lia].
Qed.

Lemma feeds_quiet k tr : feeds (replicate k Quiet ++ tr) = feeds tr.
Proof. by induction k. Qed.

(** One round, and all of them. *)
Lemma drain_trace k x n w :
  rx_ok x → stop_rx x = false → to_pop (flush x) ≠ O → length (rx_queue (net x)) = k →
  rx_drain k (net x) (host x) = Ok (n, w) →
  ∃ tr y, trace flush_step x tr y ∧ feeds tr = rx_queue (net x) ∧ net y = n ∧ host y = w ∧
    rx_queue n = [] ∧ (length tr ≤ 5 * k)%nat.
Proof.
  revert x. induction k as [|k IH]; intros x Hok Ht Hp Hk H; cbn [rx_drain] in H.
  - simplify_eq. destruct (rx_queue (net x)) eqn:E; [|done]. exists [], x. split_and!; try done. apply tr_nil.
  - apply bind_Ok_inv in H as ([n1 w1] & E & H). unfold rx_flush_one in E.
    destruct (rx_queue (net x)) as [|f q] eqn:Hq; [done|]. injection Hk as Hk.
    destruct (to_pop (flush x)) as [|j] eqn:Hj; [done|].
    pose proof (reach_feed j x f q Hok Ht Hq Hj) as Tr.
    pose proof (fs_feed (mkRx (set_rx_queue (net x) q) (host x) false false (FFeed f) (dtor x)) f n1 w1
      eq_refl eq_refl E) as Hf. cbn in Hf.
    set (z := mkRx n1 w1 false false FTop (dtor x)) in *.
    assert (rx_queue n1 = q) as Eq by by rewrite (feed_rx_queue _ _ _ _ _ E).
    assert (rx_ok z) as Hz.
    { eapply trace_ok; [|exact Hok|eapply trace_app; [exact Tr|eapply tr_step; [exact Hf|apply tr_nil]]]. by left. }
    destruct (IH z) as (tr & y & Ty & Ef & En & Eh & Ee & El); try done; [cbn; by rewrite Eq|].
    exists (replicate (S j) Quiet ++ Fed f :: tr), y. split_and!; try done.
    + eapply trace_app; [exact Tr|]. by eapply tr_step.
    + rewrite feeds_quiet. change (f :: feeds tr = f :: q). by rewrite Ef, <- Eq.
    + rewrite length_app, length_replicate. cbn. assert (S j ≤ 4)%nat; [|lia]. rewrite <- Hj. by destruct (flush x); cbn; lia.
Qed.

(** The receive thread keeps the frames in order.  Whatever the threads do,
    the frames handed to the guest's queue, then the one the thread holds and
    those still queued, are exactly the frames the stack enqueued, in the order
    of their arrival: none is lost between the threads, none is fed twice.  The
    thread never pops an empty queue. *)
Theorem net_rx_fifo n w tr x :
  rx_queue n = [] → trace rx_step (Rx0 n w) tr x →
  arrivals tr = feeds tr ++ in_hand (flush x) ++ rx_queue (net x) ∧
  (flush x = FGot → stop_rx x = false → rx_queue (net x) ≠ []).
Proof.
  intros Hq H. split.
  - pose proof (trace_pending _ _ _ H) as E. unfold pending in E. cbn in E. by rewrite Hq in E.
  - intros Hf Ht. pose proof (trace_ok rx_step _ _ _ (λ _ _ _ H, H) (rx_ok_start n w) H) as Hok.
    destruct (ro_got _ Hok Hf); [congruence|done].
Qed.

(** No wake-up is lost for a frame.  From any state the threads can
    reach, as long as the device is not destroyed, the flush thread has a next
    action of its own whenever a frame is pending, and left alone it feeds every
    pending frame, in order, within five actions for each: it is not waiting for
    a notification that was already given.  The device and the memory it leaves
    are those of the sequential rounds. *)
Theorem net_rx_progress n0 w0 tr0 x n w :
  trace rx_step (Rx0 n0 w0) tr0 x → stop_rx x = false → caught_up x = Ok (n, w) →
  ∃ tr y, trace flush_step x tr y ∧ feeds tr = pending x ∧ net y = n ∧ host y = w ∧ rx_queue n = [] ∧
    (length tr ≤ 5 * length (pending x))%nat.
Proof.
  intros Tr Ht H. pose proof (trace_ok rx_step _ _ _ (λ _ _ _ H, H) (rx_ok_start n0 w0) Tr) as Hok.
  unfold caught_up, feed_hand, pending in *. destruct (flush x) eqn:E; cbn [in_hand app] in *.
  1-3,6-7: by apply (drain_trace _ x); rewrite ?E.
  1-2: assert (rx_queue (net x) = []) as Eq by (apply (ro_sleep _ Hok); by rewrite E).
  1-2: rewrite Eq in *; cbn in H; simplify_eq; exists [], x; split_and!; try done; apply tr_nil.
  - apply bind_Ok_inv in H as ([n1 w1] & E1 & H).
    assert (flush_step x (Fed frame) (mkRx n1 w1 false (stop_rx x) FTop (dtor x))) as Hs.
    { apply fs_feed; [done|by rewrite (ro_lock _ Hok), E|done]. }
    assert (rx_queue n1 = rx_queue (net x)) as Eq by apply (feed_rx_queue _ _ _ _ _ E1).
    destruct (drain_trace (length (rx_queue (net x))) _ n w (flush_step_ok _ _ _ Hok Hs)) as (tr & y & Ty & Ef & R); try done.
    { cbn. by rewrite Eq. }
    exists (Fed frame :: tr), y. destruct R as (-> & -> & -> & Hl). split_and!; try done.
    + by eapply tr_step.
    + change (frame :: feeds tr = frame :: rx_queue (net x)). by rewrite Ef, <- Eq.
    + cbn. lia.
  - pose proof (ro_exit _ Hok E). congruence.
Qed.

(** ** The destructor *)
Definition unnotified (x : RxSys) (l : Label) (y : RxSys) : Prop := flush_step x l y ∨ other_step x l y.

Lemma unnotified_stuck x l y : asleep (flush x) = true → dtor x = DJoin → unnotified x l y →
  asleep (flush y) = true ∧ dtor y = DJoin.
Proof.
  intros Ha Hd [H|H]; destruct H; cbn in *; try congruence; try done;
    match goal with E : flush _ = _ |- _ => by rewrite E in Ha
                  | E : flush _ = _ ∨ _ |- _ => destruct E as [E|E]; by rewrite E in Ha end.
Qed.

Lemma unnotified_never x tr y : asleep (flush x) = true → dtor x = DJoin → trace unnotified x tr y →
  asleep (flush y) = true ∧ dtor y = DJoin.
Proof. intros Ha Hd H. induction H as [|x l y tr z Hs _ IH]; [done|]. destruct (unnotified_stuck _ _ _ Ha Hd Hs); auto. Qed.

(** Awake, the thread sees the flag. *)
Lemma quits x n w : rx_ok x → stop_rx x = true → asleep (flush x) = false → feed_hand x = Ok (n, w) →
  ∃ tr y, trace flush_step x tr y ∧ flush y = FExited ∧ dtor y = dtor x.
Proof.
  intros Hok Ht Ha H. pose proof (ro_lock _ Hok) as Hl. unfold feed_hand in H.
  assert (∀ z, flush z = FGot → stop_rx z = true → trace flush_step z [Quiet] (set_flush z false FExited)) as HG.
  { intros z E1 E2. eapply tr_step; [by apply fs_break|apply tr_nil]. }
  assert (∀ z, flush z = FTest → stop_rx z = true → trace flush_step z [Quiet; Quiet] (set_flush z false FExited)) as HT.
  { intros z E1 E2. eapply tr_step; [apply fs_yes; auto|]. by apply (HG (set_flush z true FGot)). }
  assert (flush x = FLock ∨ flush x = FWoken → trace flush_step x [Quiet; Quiet; Quiet] (set_flush x false FExited)) as HL.
  { intros E. eapply tr_step; [apply fs_lock; [done|]|apply (HT (set_flush x true FTest)); done].
    rewrite Hl. by destruct E as [-> | ->]. }
  destruct (flush x) eqn:E; try done.
  - eexists _, _. split_and!; [eapply tr_step; [by apply fs_stop|apply tr_nil]|done..].
  - eexists _, _. split_and!; [apply HL; by left|done..].
  - eexists _, _. split_and!; [by apply HT|done..].
  - eexists _, _. split_and!; [apply HL; by right|done..].
  - eexists _, _. split_and!; [by apply HG|done..].
  - exists [Fed frame; Quiet], (mkRx n w false (stop_rx x) FExited (dtor x)). split_and!; try done.
    eapply tr_step; [by apply fs_feed; [|rewrite Hl|]|].
    eapply tr_step; [by apply (fs_stop (mkRx n w false (stop_rx x) FTop (dtor x)))|apply tr_nil].
  - eexists [], x. split_and!; [apply tr_nil|done..].
Qed.

(** The destructor's notification comes between the predicate and the wait. *)
Lemma missed_reachable n w : rx_queue n = [] →
  ∃ tr x, trace rx_step (Rx0 n w) tr x ∧ dtor x = DJoin ∧ flush x = FBlocked.
Proof.
  intros Hq. eexists _, _. split; [|].
  - eapply tr_step; [left; by apply fs_top|]. eapply tr_step; [left; apply fs_lock; auto|].
    eapply tr_step; [left; by apply fs_no|]. eapply tr_step; [right; left; by apply os_stop|].
    eapply tr_step; [right; left; by apply os_notify|]. eapply tr_step; [left; by apply fs_block|apply tr_nil].
  - done.
Qed.

(** The destructor can wait for ever.  [~Net] stores [stop_rx_] and notifies
    without the mutex.  If the flush thread has by then tested the predicate
    and not yet blocked, the notification is lost: unless a frame arrives or
    the wait ends spuriously, whatever the threads do, the join never returns;
    an idle device reaches such a state.  In every other state the flush
    thread, left alone, returns and the join with it. *)
Theorem net_destructor n0 w0 tr0 x :
  rx_queue n0 = [] → trace rx_step (Rx0 n0 w0) tr0 x → dtor x = DJoin →
  (asleep (flush x) = true → ∀ tr y, trace unnotified x tr y → dtor y ≠ DDone) ∧
  (asleep (flush x) = false → ∀ n w, feed_hand x = Ok (n, w) →
     ∃ tr y, trace unnotified x tr y ∧ dtor y = DDone) ∧
  (∃ tr y, trace rx_step (Rx0 n0 w0) tr y ∧ dtor y = DJoin ∧ asleep (flush y) = true).
Proof.
  intros Hq Tr Hd. pose proof (trace_ok rx_step _ _ _ (λ _ _ _ H, H) (rx_ok_start n0 w0) Tr) as Hok.
  split_and!.
  - intros Ha tr y H. destruct (unnotified_never _ _ _ Ha Hd H) as [_ ->]. done.
  - intros Ha n w Hf. destruct (quits x n w Hok) as (tr & y & Ty & Ey & Edy); [by rewrite (ro_stop _ Hok), Hd|done..|].
    exists (tr ++ [Quiet]), (mkRx (net y) (host y) (locked y) (stop_rx y) FExited DDone).
    split; [|done]. eapply trace_app.
    + eapply trace_mono; [|exact Ty]. by left.
    + eapply tr_step; [right; apply os_join; [congruence|done]|apply tr_nil].
  - destruct (missed_reachable n0 w0 Hq) as (tr & y & Ty & E1 & E2). exists tr, y. by rewrite E2.
Qed.
End Rx.

(** ** Witnesses: an idle device, and one that a frame reaches *)

Definition rx_idle : Net StackOn := set_rx_queue vx_net [].
Definition rx_run : list Label := replicate 4 Quiet ++ Arrive [1; 2; 3] :: replicate 3 Quiet.
Definition rx_mid : RxSys := mkRx rx_idle vx_rx_world false false (FFeed [1; 2; 3]) DNone.

Lemma rx_run_ok : trace (rx_step 1) (Rx0 rx_idle vx_rx_world) rx_run rx_mid.
Proof.
  eapply tr_step; [left; by apply fs_top|]. eapply tr_step; [left; apply fs_lock; auto|].
  eapply tr_step; [left; by apply fs_no|]. eapply tr_step; [left; by apply fs_block|].
  eapply tr_step; [right; right; by apply ws_arrive|]. eapply tr_step; [left; apply fs_lock; auto|].
  eapply tr_step; [left; apply fs_yes; auto; by right|].
  eapply tr_step; [left; by apply (fs_pop _ _ [1; 2; 3] [])|apply tr_nil].
Qed.

Lemma net_rx_fifo_witness : arrivals rx_run = feeds rx_run ++ in_hand (flush rx_mid) ++ [].
Proof. exact (proj1 (net_rx_fifo 1 rx_idle vx_rx_world rx_run rx_mid eq_refl rx_run_ok)). Defined.

Definition succeeds {A} (r : res A) : bool := match r with Ok _ => true | Err _ => false end.
Lemma succeeds_ok {A} (r : res A) : succeeds r = true → ∃ v, r = Ok v.
Proof. destruct r; [by eauto|done]. Qed.

Lemma net_rx_progress_witness : ∃ tr y, trace (flush_step 1) rx_mid tr y ∧ feeds tr = [[1; 2; 3]].
Proof.
  destruct (succeeds_ok (caught_up 1 rx_mid)) as [[n w] E]; [by vm_compute|].
  destruct (net_rx_progress 1 rx_idle vx_rx_world rx_run rx_mid n w) as (tr & y & T & F & _);
    [exact rx_run_ok|done|exact E|].
  exists tr, y. split; [exact T|exact F].
Defined.

(** Stopped with the frame in hand. *)
Lemma rx_stops_ok :
  trace (rx_step 1) (Rx0 rx_idle vx_rx_world) (rx_run ++ [Quiet; Quiet])
    (mkRx rx_idle vx_rx_world false true (FFeed [1; 2; 3]) DJoin).
Proof.
  eapply trace_app; [exact rx_run_ok|].
  eapply tr_step; [right; left; by apply os_stop|]. eapply tr_step; [right; left; by apply os_notify|apply tr_nil].
Qed.

Lemma net_destructor_witness :
  (∃ tr y, trace (unnotified 1) (mkRx rx_idle vx_rx_world false true (FFeed [1; 2; 3]) DJoin) tr y ∧ dtor y = DDone) ∧
  (∃ tr y, trace (rx_step 1) (Rx0 rx_idle vx_rx_world) tr y ∧ dtor y = DJoin ∧ asleep (flush y) = true).
Proof.
  destruct (net_destructor 1 rx_idle vx_rx_world (rx_run ++ [Quiet; Quiet])
    (mkRx rx_idle vx_rx_world false true (FFeed [1; 2; 3]) DJoin)) as (_ & H & H'); [done|exact rx_stops_ok|done|].
  split; [|exact H'].
  destruct (succeeds_ok (do_feed_rx 1 rx_idle vx_rx_world [1; 2; 3])) as [[n w] E]; [by vm_compute|].
  exact (H eq_refl n w E).
Defined.
