(* ===== verification/NetStackRun.v ===== *)
(** * NetStackRun: the stack with its threads and its descriptors

    The threads [handle_tcp], [launch_io_thread] and [inbound_fwd] of
    src/src/hvf/network.cpp start, as the sequences of their pieces (NetStack),
    interleaved with the guest's frames.  A [TcpConn] is shared between the
    table and the threads that captured it: when its last owner lets go of it,
    its destructor closes its descriptor.  The kernel's descriptors are the set
    [fds]; using or closing one that is not open is noted in [bad]. *)

From S2P Require Import Prelude Bytes NetWire NetStack NetStackInv NetStackSafe.

(** ** State *)

(** What a thread captured.  [more]: the retransmissions still to make. *)
Inductive Thread : Type :=
  | TConnect (id : nat) (key : ConnKey)
  | TIo (id : nat) (key : ConnKey)
  | TFwd (id : nat) (key : ConnKey) (gport eport : Z) (more : nat).

#[export] Instance Thread_eq_dec : EqDecision Thread.
Proof. solve_decision. Defined.

Definition obj_of (t : Thread) : nat :=
  match t with TConnect id _ | TIo id _ | TFwd id _ _ _ _ => id end.

Record Sys := mkSys {
  impl : Impl;
  threads : list Thread;
  fds : gset Z;
  bad : list Z;
}.
Definition Sys0 (c : Config) : Sys := mkSys (Stack0 c) [] ∅ [].

Definition with_impl (s : Sys) (i : Impl) : Sys := mkSys i (threads s) (fds s) (bad s).
Definition with_threads (s : Sys) (ts : list Thread) : Sys := mkSys (impl s) ts (fds s) (bad s).
Definition open_fd (s : Sys) (fd : Z) : Sys := mkSys (impl s) (threads s) ({[fd]} ∪ fds s) (bad s).
Definition use_fd (s : Sys) (fd : Z) : Sys :=
  if decide (fd ∈ fds s) then s else mkSys (impl s) (threads s) (fds s) (bad s ++ [fd]).
Definition close_fd (s : Sys) (fd : Z) : Sys :=
  let s := use_fd s fd in mkSys (impl s) (threads s) (fds s ∖ {[fd]}) (bad s).

(** [~TcpConn], for the objects neither the table nor a thread owns. *)
Definition owned (s : Sys) (id : nat) : Prop :=
  id ∈ obj_of <$> threads s ∨ map_Exists (λ _ i, i = id) (conns (impl s)).
Definition destroy_conn (s : Sys) (c : TcpConn) : Sys := if 0 <=? c_fd c then close_fd s (c_fd c) else s.
Definition collect (s : Sys) : Sys :=
  let h := heap (impl s) in
  foldl destroy_conn
    (with_impl s (with_heap (impl s) (filter (λ p, owned s p.1) h)))
    (map_to_list (filter (λ p, ¬ owned s p.1) h)).*2.

(** ** The pieces of the threads *)
Section Run.
Context (host : Host).

Definition event (s : Sys) (e : NetEvent) : Sys :=
  match e with
  | SpawnConnect id key _ _ => with_threads s (threads s ++ [TConnect id key])
  | SpawnIo id key => with_threads s (threads s ++ [TIo id key])
  | SockWrite fd _ | ShutdownWr fd => use_fd s fd
  | _ => s
  end.

Inductive Action : Type :=
  | Frame (f : bytes)
  | NoSocket (i : nat)
  | Refused (i : nat) (fd : Z)
  | Connected (i : nat) (fd : Z)
  | Reads (i : nat) (data : bytes)
  | Ends (i : nat)
  | Accepted (fd gport : Z)
  | Wakes (i : nat).

(** The thread returns and lets go of what it captured. *)
Definition finish (s : Sys) (i : nat) : Sys := with_threads s (delete i (threads s)).

Definition piece (s : Sys) (a : Action) : res Sys :=
  match a with
  | Frame f =>
      s' ← handle_frame host (impl s) f;
      Ok (foldl event (with_impl s s') (drop (length (out (impl s))) (out s')))
  | NoSocket i =>
      match threads s !! i with
      | Some (TConnect _ key) => Ok (finish (with_impl s (connect_failed (impl s) key)) i)
      | _ => Ok s
      end
  | Refused i fd =>
      match threads s !! i with
      | Some (TConnect _ key) =>
          Ok (finish (with_impl (close_fd (open_fd s fd) fd) (connect_failed (impl s) key)) i)
      | _ => Ok s
      end
  | Connected i fd =>
      match threads s !! i with
      | Some (TConnect id _) =>
          s' ← connect_done (impl s) id fd;
          Ok (finish (with_impl (open_fd s fd) s') i)
      | _ => Ok s
      end
  | Reads i data =>
      match threads s !! i with
      | Some (TIo id _) =>
          c ← deref (heap (impl s) !! id);
          s' ← io_read (impl s) id data;
          Ok (with_impl (use_fd s (c_fd c)) s')
      | _ => Ok s
      end
  | Ends i =>
      match threads s !! i with
      | Some (TIo id key) =>
          s' ← io_exit (impl s) id key;
          Ok (finish (with_impl s s') i)
      | _ => Ok s
      end
  | Accepted fd gport =>
      let '(s1, key, eport) := inbound_start (impl s) fd gport in
      s2 ← inbound_syn s1 gport eport;
      Ok (with_threads (with_impl (open_fd s fd) s2)
            (threads s ++ [TFwd (next_id (impl s)) key gport eport 4]))
  | Wakes i =>
      match threads s !! i with
      | Some (TFwd id key gport eport more) =>
          waiting ← inbound_waiting (impl s) key;
          match (waiting : bool), more with
          | false, _ => Ok (finish s i)
          | true, O => Ok (finish (with_impl s (erase (impl s) key)) i)
          | true, S more =>
              s' ← inbound_syn (impl s) gport eport;
              Ok (with_threads (with_impl s s') (<[i := TFwd id key gport eport more]> (threads s)))
          end
      | _ => Ok s
      end
  end.

(** Then what nobody owns any more is destroyed. *)
Definition step (s : Sys) (a : Action) : res Sys := s' ← piece s a; Ok (collect s').

Fixpoint run (s : Sys) (l : list Action) : res Sys :=
  match l with [] => Ok s | a :: l => s ← step s a; run s l end.

(** [~Stack]: the listening threads are joined, these are not. *)
Definition stack_dtor (s : Sys) : Sys := collect (with_impl s (stack_stop (impl s))).
End Run.

(** ** What the environment may do

    The guest's frame claims no more bytes than it has; the kernel hands out
    descriptors that are not open; a read fits the frame it is sent in. *)
Definition honest (f : bytes) : Prop :=
  ∀ iplen, get16 (drop 14 f) 2 = Ok iplen → 14 + iplen < Z.of_nat (length f) ∧ iplen ≤ 2014.

Definition valid (s : Sys) (a : Action) : Prop :=
  match a with
  | Frame f => wf_bytes f ∧ honest f
  | Refused _ fd | Connected _ fd => 0 ≤ fd ∧ fd ∉ fds s
  | Accepted fd gport => 0 ≤ fd ∧ ¬ (fd ∈ fds s) ∧ fits 16 gport
  | Reads _ data => wf_bytes data ∧ Z.of_nat (length data) ≤ 1994
  | _ => True
  end.

Fixpoint valid_run (host : Host) (s : Sys) (l : list Action) : Prop :=
  match l with
  | [] => True
  | a :: l => valid s a ∧ ∀ s', step host s a = Ok s' → valid_run host s' l
  end.

(** ** What a piece changes

    Of an object the accounts depend only on its descriptor and on whether its
    thread is still connecting. *)
Definition view (c : TcpConn) : Z * bool := (c_fd c, bool_decide (c_state c = CONNECTING)).
Definition views (s : Impl) : gmap nat (Z * bool) := view <$> heap s.

Definition ev_ok (v : gmap nat (Z * bool)) (e : NetEvent) : Prop :=
  match e with
  | SpawnConnect _ _ _ _ => False
  | SpawnIo id _ => ∃ fd, v !! id = Some (fd, false)
  | SockWrite fd _ | ShutdownWr fd => 0 ≤ fd ∧ ∃ id b, v !! id = Some (fd, b)
  | _ => True
  end.

(** No object is made, and every descriptor used is an object's. *)
Definition quiet (s s' : Impl) : Prop :=
  views s' = views s ∧ next_eport s' = next_eport s ∧ ∃ es, out s' = out s ++ es ∧ Forall (ev_ok (views s)) es.

(** One object is made, in the table and with its connecting thread. *)
Definition born (s s' : Impl) : Prop :=
  ∃ c key ip port, heap s' = <[next_id s := c]> (heap s) ∧ view c = (-1, true) ∧
    next_eport s' = next_eport s ∧ out s' = out s ++ [SpawnConnect (next_id s) key ip port].

Section quiet.
Implicit Types s : Impl.

Lemma quiet_refl s : quiet s s.
Proof. split_and!; [done..|]. exists []. by rewrite app_nil_r. Qed.

Lemma quiet_trans s1 s2 s3 : quiet s1 s2 → quiet s2 s3 → quiet s1 s3.
Proof.
  intros (V1 & N1 & e1 & O1 & F1) (V2 & N2 & e2 & O2 & F2). split_and!; [congruence..|].
  exists (e1 ++ e2). split; [by rewrite O2, O1, app_assoc|]. apply Forall_app. split; [done|]. by rewrite <- V1.
Qed.

Lemma quiet_log s e : ev_ok (views s) e → quiet s (log s [e]).
Proof. intros H. split_and!; [done..|]. exists [e]. split; [done|]. by apply Forall_singleton. Qed.

Lemma quiet_erase s k : quiet s (erase s k).
Proof. split_and!; [done..|]. exists []. by rewrite app_nil_r. Qed.

Lemma quiet_reap s : quiet s (reap s).
Proof. split_and!; [done..|]. exists []. by rewrite app_nil_r. Qed.

Lemma quiet_done s v : quiet s (with_done s v).
Proof. split_and!; [done..|]. exists []. by rewrite app_nil_r. Qed.

Lemma quiet_upd s id f :
  (∀ c, heap s !! id = Some c → view (f c) = view c) → quiet s (upd_conn s id f).
Proof.
  intros H. split_and!; [|done|exists []; by rewrite app_nil_r].
  apply map_eq. intros i. unfold views. rewrite !lookup_fmap. cbn. destruct (decide (i = id)) as [->|Hne].
  - rewrite lookup_alter_eq. destruct (heap s !! id) eqn:E; [|done]. cbn. by rewrite H.
  - by rewrite lookup_alter_ne.
Qed.

Lemma quiet_tx s m s' : tx s <$> m = Ok s' → quiet s s'.
Proof. destruct m; [|done]. intros [= <-]. by apply quiet_log. Qed.

Lemma view_of s id c : heap s !! id = Some c → views s !! id = Some (view c).
Proof. intros H. unfold views. by rewrite lookup_fmap, H. Qed.

Context (host : Host).

Lemma quiet_write_all fd fuel : ∀ s p s',
  write_all host fuel s fd p = Ok s' → ev_ok (views s) (SockWrite fd []) → quiet s s'.
Proof.
  induction fuel as [|fuel IH]; intros s [|b p] s' H Hfd; cbn [write_all] in H;
    [simplify_eq; apply quiet_refl|done|simplify_eq; apply quiet_refl|].
  destruct (_ <=? 0); [simplify_eq; apply quiet_refl|].
  eapply quiet_trans; [|by eapply IH]. by apply quiet_log.
Qed.
End quiet.

(** ** What a frame changes *)
Section frame.
Context (host : Host).
Implicit Types s : Impl.

(** Follow the handler in [H] to each of its results. *)
Ltac follow H :=
  repeat first
    [ apply bind_Ok_inv in H as (? & ? & H)
    | match type of H with Ok _ = Ok _ => injection H as <- end
    | match type of H with (if ?b then _ else _) = Ok _ => destruct b eqn:? end ].

Lemma quiet_arp s eth p len s' : handle_arp s eth p len = Ok s' → quiet s s'.
Proof.
  unfold handle_arp. intros H. follow H; try apply quiet_refl. by apply quiet_log.
Qed.

Lemma quiet_icmp s eth src dst p plen s' : handle_icmp s eth src dst p plen = Ok s' → quiet s s'.
Proof. unfold handle_icmp. intros H. follow H; try apply quiet_refl. by apply quiet_log. Qed.

Lemma quiet_dhcp s p len s' : handle_dhcp s p len = Ok s' → quiet s s'.
Proof.
  unfold handle_dhcp, udp_out. intros H. follow H; try apply quiet_refl. by apply quiet_log.
Qed.

Lemma quiet_exchange s ip port data cap s1 r s' m :
  udp_exchange host s ip port data cap = (s1, r) → (r = None → m = Ok s1) →
  (∀ resp, r = Some resp → ∃ f, m = tx s1 <$> f) → m = Ok s' → quiet s s'.
Proof.
  unfold udp_exchange. intros [= <- Hr] Hn Hs Hm.
  eapply quiet_trans; [by apply (quiet_log s (UdpSend ip port data))|]. destruct r.
  - destruct (Hs _ eq_refl) as [f Ef]. rewrite Ef in Hm. by eapply quiet_tx.
  - rewrite Hn in Hm by done. simplify_eq. apply quiet_refl.
Qed.

Lemma quiet_udp s eth src dst p plen s' : handle_udp host s eth src dst p plen = Ok s' → quiet s s'.
Proof.
  unfold handle_udp, handle_dns. intros H. follow H; try apply quiet_refl; [by eapply quiet_dhcp|..].
  all: destruct (udp_exchange _ _ _ _ _ _) as [s1 r] eqn:E; eapply quiet_exchange; [exact E| | |exact H];
    [by intros ->|intros resp ->; by eexists].
Qed.

Lemma quiet_established s key id c seq flags data dlen s' :
  heap s !! id = Some c → tcp_established host s key id c seq flags data dlen = Ok s' → quiet s s'.
Proof.
  intros Hh H. unfold tcp_established in H. cbv zeta in H. apply bind_Ok_inv in H as (tw & _ & H).
  apply bind_Ok_inv in H as (s3 & Hw & H). pose proof (view_of _ _ _ Hh) as Hv.
  assert (quiet s s3) as Hq.
  { assert (∀ t, quiet s t → 0 ≤ c_fd c → ev_ok (views t) (SockWrite (c_fd c) [])) as Hev.
    { intros t (Ht & _) Hfd. cbn. split; [done|]. rewrite Ht. by eauto. }
    set (s1 := if (0 <? dlen) && _ then _ else s) in Hw.
    assert (quiet s s1) as Q1. { unfold s1. destruct ((0 <? dlen) && _); [by apply quiet_upd|apply quiet_refl]. }
    set (s2 := if flag flags TF_FIN then _ else s1) in Hw.
    assert (quiet s s2) as Q2.
    { unfold s2. destruct (flag flags TF_FIN); [|done]. eapply quiet_trans; [|by apply quiet_upd].
      eapply quiet_trans; [|apply quiet_erase]. eapply quiet_trans; [exact Q1|].
      eapply quiet_trans; [by apply (quiet_upd s1 id (λ c, set_stop (set_g_nxt c (u32 (g_nxt c + 1))) true))|].
      destruct (Z.leb_spec 0 (c_fd c)); [|apply quiet_refl]. apply quiet_log.
      apply (Hev (upd_conn s1 id _)); [|done]. eapply quiet_trans; [exact Q1|]. by apply quiet_upd. }
    match type of Hw with (if ?b then _ else _) = _ => destruct b eqn:Hb end; [|by injection Hw as <-].
    apply andb_prop in Hb as [_ Hb%Z.leb_le]. eapply quiet_trans; [exact Q2|].
    eapply quiet_write_all; [exact Hw|by apply Hev]. }
  eapply quiet_trans; [exact Hq|]. unfold conn_out, tcp_out in H.
  repeat case_match; simplify_eq; try apply quiet_refl; by eapply quiet_tx.
Qed.

Lemma born_syn s key eth src dst sp dp seq :
  conns s !! key = None → born s (tcp_syn s key eth src dst sp dp seq).
Proof.
  intros Hk. unfold tcp_syn, emplace, new_conn. rewrite Hk. cbn [conns]. rewrite Hk.
  do 4 eexists. split_and!; [reflexivity| | |reflexivity]; reflexivity.
Qed.

Lemma quiet_or_born_tcp s eth src dst p plen s' :
  handle_tcp host s eth src dst p plen = Ok s' → quiet s s' ∨ born s s'.
Proof.
  intros H. unfold handle_tcp in H. destruct (_ <? _); [simplify_eq; left; apply quiet_refl|].
  do 6 apply bind_Ok_inv in H as (? & _ & H). cbv zeta in H.
  match type of H with context [conns (reap s) !! ?k] => set (key := k) in H end.
  destruct (_ && _).
  { injection H as <-. destruct (conns (reap s) !! key) eqn:Hk; [|right; exact (born_syn (reap s) key _ _ _ _ _ _ Hk)].
    left. unfold tcp_syn. rewrite Hk. apply quiet_reap. }
  left. eapply quiet_trans; [apply quiet_reap|].
  destruct (conns (reap s) !! key) as [id|] eqn:Hk; cycle 1.
  { destruct (flag _ _); [simplify_eq; apply quiet_refl|]. by eapply quiet_tx. }
  apply bind_Ok_inv in H as (c & Hc & H). destruct (heap (reap s) !! id) as [c'|] eqn:Hh; [|done].
  cbn in Hc. injection Hc as ->.
  destruct (flag _ TF_RST).
  { injection H as <-. eapply quiet_trans; [|apply quiet_erase]. by apply quiet_upd. }
  destruct (c_state c) eqn:Hst; [simplify_eq; apply quiet_refl| |by eapply quiet_established].
  destruct (flag _ TF_ACK); injection H as <-; [|apply quiet_refl].
  assert (view c = (c_fd c, false)) as Hv by (unfold view; by rewrite Hst).
  eapply quiet_trans; [|apply quiet_log].
  - apply quiet_upd. intros c' E. rewrite Hh in E. injection E as <-. by rewrite Hv.
  - exists (c_fd c). rewrite <- Hv, <- (view_of _ _ _ Hh). f_equal.
    apply quiet_upd. intros c' E. rewrite Hh in E. injection E as <-. by rewrite Hv.
Qed.

Lemma frame_changes s f s' : handle_frame host s f = Ok s' → quiet s s' ∨ born s s'.
Proof.
  unfold handle_frame. cbv zeta. intros H.
  follow H; try (left; apply quiet_refl);
    [left; by eapply quiet_arp|left; by eapply quiet_icmp|left; by eapply quiet_udp|by eapply quiet_or_born_tcp].
Qed.
End frame.
