(* ===== verification/NetStackAcct.v ===== *)
(** * NetStackAcct: the stack accounts for its connections

    The invariant of the system of NetStackRun, that every piece of a thread
    keeps it, and what follows for the objects and the descriptors. *)

From S2P Require Import Prelude Bytes NetWire NetStack NetStackInv NetStackSafe NetStackRun.

(** ** The accounts *)
Definition connecting (t : Thread) : bool := match t with TConnect _ _ => true | _ => false end.
Definition connects (ts : list Thread) : list nat :=
  omap (λ t, match t with TConnect id _ => Some id | _ => None end) ts.

(** Every thread's object exists and is in the thread's state, one thread
    connects it, and the open descriptors are those of the objects, each of one
    object. *)
Record solvent (s : Sys) : Prop := {
  so_wf : wf_stack (impl s);
  so_eport : fits 16 (next_eport (impl s));
  so_view : ∀ id fd b, views (impl s) !! id = Some (fd, b) → if b : bool then fd = -1 else 0 ≤ fd;
  so_inj : ∀ i j fd b b', views (impl s) !! i = Some (fd, b) → views (impl s) !! j = Some (fd, b') → 0 ≤ fd → i = j;
  so_fds : ∀ fd, fd ∈ fds s ↔ 0 ≤ fd ∧ ∃ id b, views (impl s) !! id = Some (fd, b);
  so_threads : ∀ t, t ∈ threads s → ∃ fd, views (impl s) !! obj_of t = Some (fd, connecting t);
  so_connects : NoDup (connects (threads s));
  so_bad : bad s = [];
}.
Definition no_leak (s : Sys) : Prop := ∀ id, is_Some (heap (impl s) !! id) → owned s id.

Section accounts.
Implicit Types s : Sys.

Lemma views_Some i id v : views i !! id = Some v ↔ ∃ c, heap i !! id = Some c ∧ view c = v.
Proof. unfold views. rewrite lookup_fmap, fmap_Some. split; intros (c & ? & ?); eauto. Qed.

Lemma use_fd_open s fd : fd ∈ fds s → use_fd s fd = s.
Proof. intros H. unfold use_fd. by destruct (decide _). Qed.

(** The destructors of distinct objects close distinct open descriptors. *)
Lemma destroy_all (l : list (nat * TcpConn)) : ∀ s,
  NoDup l.*1 → (∀ i c j c', (i, c) ∈ l → (j, c') ∈ l → c_fd c = c_fd c' → 0 ≤ c_fd c → i = j) →
  (∀ i c, (i, c) ∈ l → 0 ≤ c_fd c → c_fd c ∈ fds s) →
  let s' := foldl destroy_conn s l.*2 in
  impl s' = impl s ∧ threads s' = threads s ∧ bad s' = bad s ∧
  (∀ fd, fd ∈ fds s' ↔ fd ∈ fds s ∧ ¬ ∃ i c, (i, c) ∈ l ∧ c_fd c = fd ∧ 0 ≤ fd).
Proof.
  induction l as [|[i c] l IH]; intros s Hnd Hinj Hop; cbn.
  - split_and!; try done. intros fd. split; [|by intros []]. intros H. split; [done|].
    intros (? & ? & []%not_elem_of_nil & _).
  - apply NoDup_cons in Hnd as [Hi Hnd]. set (s1 := destroy_conn s c).
    assert (impl s1 = impl s ∧ threads s1 = threads s ∧ bad s1 = bad s ∧
      (∀ fd, fd ∈ fds s1 ↔ fd ∈ fds s ∧ ¬ (c_fd c = fd ∧ 0 ≤ fd))) as (E1 & E2 & E3 & E4).
    { unfold s1, destroy_conn. destruct (Z.leb_spec 0 (c_fd c)) as [Hc|Hc].
      - unfold close_fd. rewrite use_fd_open by (eapply Hop; [by left|done]). split_and!; try done.
        intros fd. cbn. rewrite elem_of_difference, elem_of_singleton. intuition lia.
      - split_and!; try done. intros fd. intuition lia. }
    destruct (IH s1) as (I1 & I2 & I3 & I4); [done| | |].
    + intros i1 c1 j1 c2 H1 H2. apply Hinj; by right.
    + intros j c' Hj Hc'. apply E4. split; [eapply Hop; [by right|done]|]. intros [E _]. apply Hi.
      rewrite (Hinj i c j c'); [by apply (list_elem_of_fmap_2 fst l (j, c'))|by left|by right|congruence|lia].
    + split_and!; [congruence..|]. intros fd. rewrite I4, E4. split.
      * intros [[H1 H2] H3]. split; [done|]. intros (j & c' & [[= -> ->]|Hj]%elem_of_cons & E & Hp); [by apply H2|].
        apply H3. eauto.
      * intros [H1 H2]. split; [split; [done|]|].
        -- intros [E Hp]. apply H2. exists i, c. split_and!; [by left|done..].
        -- intros (j & c' & Hj & E & Hp). apply H2. exists j, c'. split_and!; [by right|done..].
Qed.

(** Destroying what nobody owns keeps the accounts. *)
Lemma collect_solvent s : solvent s → solvent (collect s) ∧ no_leak (collect s).
Proof.
  intros [Hwf Hep Hv Hinj Hf Ht Hc Hb]. unfold collect.
  set (l := map_to_list _). set (s1 := with_impl s _).
  assert (∀ i c, (i, c) ∈ l ↔ heap (impl s) !! i = Some c ∧ ¬ owned s i) as Hl.
  { intros i c. unfold l. rewrite elem_of_map_to_list, map_lookup_filter_Some. done. }
  assert (∀ id v, views (impl s1) !! id = Some v ↔ views (impl s) !! id = Some v ∧ owned s id) as Hvs.
  { intros id v. rewrite !views_Some. cbn. split.
    - intros (c & [H1 H2]%map_lookup_filter_Some & E). eauto.
    - intros [(c & H & E) Ho]. exists c. split; [|done]. by apply map_lookup_filter_Some. }
  assert (∀ i c, (i, c) ∈ l → views (impl s) !! i = Some (view c)) as Hlv.
  { intros i c [H _]%Hl. by apply view_of. }
  destruct (destroy_all l s1) as (E1 & E2 & E3 & E4).
  { apply NoDup_fst_map_to_list. }
  { intros i c j c' H1%Hlv H2%Hlv E Hp. unfold view in H1, H2. rewrite E in *. by eapply Hinj. }
  { intros i c H%Hlv Hp. apply Hf. eauto. }
  split.
  - split; rewrite ?E1, ?E2, ?E3; try done.
    + destruct Hwf as [W1 W2 W3]. split; [done|..]; cbn.
      * intros id c [H _]%map_lookup_filter_Some. by apply W2.
      * intros k id Hk. destruct (W3 k id Hk) as (c & Hh & Ek). exists c. split; [|done].
        apply map_lookup_filter_Some. split; [done|]. right. by exists k, id.
    + intros id fd b [H _]%Hvs. by eapply Hv.
    + intros i j fd b b' [H1 _]%Hvs [H2 _]%Hvs. by eapply Hinj.
    + intros fd. rewrite E4. change (fds s1) with (fds s). rewrite Hf. split.
      * intros [[Hp (id & b & H)] Hn]. split; [done|]. exists id, b. apply Hvs. split; [done|].
        apply views_Some in H as (c & Hh & Ec). apply dec_stable. intros Ho. apply Hn. exists id, c.
        rewrite Hl. injection Ec as <- _. done.
      * intros [Hp (id & b & [H Ho]%Hvs)]. split; [eauto|]. intros (j & c & Hj & <- & _).
        assert (id = j) as -> by (eapply Hinj; [exact H|by apply Hlv|done]). by apply Hl in Hj as [_ ?].
    + intros t Hin. destruct (Ht t Hin) as (fd & H). exists fd. apply Hvs. split; [done|]. left.
      by apply list_elem_of_fmap_2.
  - intros id. rewrite E1. cbn. intros [c [_ Ho]%map_lookup_filter_Some]. unfold owned. rewrite E1, E2. exact Ho.
Qed.
End accounts.

(** ** Every piece keeps the accounts *)
Section pieces.
Implicit Types s : Sys.

Lemma solvent_impl s i :
  solvent s → views i = views (impl s) → next_eport i = next_eport (impl s) → wf_stack i → solvent (with_impl s i).
Proof. intros [Hwf Hep Hv Hinj Hf Ht Hc Hb] E Ep Hi. split; cbn; rewrite ?E, ?Ep; done. Qed.

Lemma solvent_spawn s t fd :
  solvent s → views (impl s) !! obj_of t = Some (fd, connecting t) →
  (connecting t = true → obj_of t ∉ connects (threads s)) → solvent (with_threads s (threads s ++ [t])).
Proof.
  intros [Hwf Hep Hv Hinj Hf Ht Hc Hb] Hfd Hn. split; cbn; try done.
  - intros t' [Hin|H%list_elem_of_singleton]%elem_of_app; [by apply Ht|subst; by exists fd].
  - unfold connects. rewrite omap_app. destruct t; cbn in *; [|by rewrite app_nil_r..].
    apply NoDup_app. split_and!; [done| |by apply NoDup_singleton].
    intros x Hx H%list_elem_of_singleton. subst. by apply Hn.
Qed.

Lemma event_solvent s e : solvent s → ev_ok (views (impl s)) e → solvent (event s e) ∧ impl (event s e) = impl s.
Proof.
  intros Hs He. destruct e as [| | |id key|fd d|fd]; cbn in *; try done.
  - destruct He as [fd Hfd]. split; [|done]. by apply (solvent_spawn s (TIo id key) fd).
  - rewrite use_fd_open; [done|]. apply (so_fds _ Hs). done.
  - rewrite use_fd_open; [done|]. apply (so_fds _ Hs). done.
Qed.

Lemma events_solvent es : ∀ s, solvent s → Forall (ev_ok (views (impl s))) es → solvent (foldl event s es).
Proof.
  induction es as [|e es IH]; intros s Hs H; cbn; [done|]. apply Forall_cons in H as [He Hes].
  destruct (event_solvent s e Hs He) as [H1 H2]. apply IH; [done|by rewrite H2].
Qed.

Lemma drop_out {A} (l es : list A) : drop (length l) (l ++ es) = es.
Proof. by rewrite drop_app_length. Qed.

Lemma next_fresh i : wf_stack i → heap i !! next_id i = None.
Proof. intros H. destruct (heap i !! next_id i) as [c|] eqn:E; [|done]. destruct (ws_heap _ H _ _ E). lia. Qed.

Lemma views_fresh s : solvent s → views (impl s) !! next_id (impl s) = None.
Proof. intros H. unfold views. by rewrite lookup_fmap, next_fresh by apply H. Qed.

Lemma connects_view s id : solvent s → id ∈ connects (threads s) → ∃ fd, views (impl s) !! id = Some (fd, true).
Proof.
  intros H (t & Hin & Ht)%list_elem_of_omap. destruct (so_threads _ H t Hin) as [fd E]. exists fd.
  destruct t; cbn in *; by simplify_eq.
Qed.

(** A fresh object with a descriptor of its own, or none. *)
Lemma solvent_born s i c (f : gset Z) :
  solvent s → wf_stack i → fits 16 (next_eport i) → heap i = <[next_id (impl s) := c]> (heap (impl s)) →
  (view c = (-1, true) ∧ f = fds s) ∨ (∃ fd, view c = (fd, false) ∧ 0 ≤ fd ∧ ¬ (fd ∈ fds s) ∧ f = {[fd]} ∪ fds s) →
  solvent (mkSys i (threads s) f (bad s)).
Proof.
  intros Hs Hi Hie Hh Hc. pose proof (views_fresh s Hs) as Hfr. destruct Hs as [Hwf Hep Hv Hinj Hf Ht Hcn Hb].
  assert (views i = <[next_id (impl s) := view c]> (views (impl s))) as E by (unfold views; by rewrite Hh, fmap_insert).
  split; cbn; rewrite ?E; try done.
  - intros id fd b [[_ Hw]|[_ H]]%lookup_insert_Some; [|by eapply Hv].
    destruct Hc as [[E1 _]|(fd' & E1 & Hp & _)]; rewrite E1 in Hw; by injection Hw as <- <-.
  - intros j k fd b b' H1 H2 Hp.
    assert (∀ m b1, views (impl s) !! m = Some (fd, b1) → (fd, b) = view c ∨ (fd, b') = view c → False) as Hno.
    { intros m b1 H Hw. assert (fd ∈ fds s) as Hin by (apply Hf; eauto).
      destruct Hc as [[E1 _]|(fd' & E1 & Hp' & Hnf & _)]; rewrite E1 in Hw; destruct Hw as [[= -> _]|[= -> _]]; done || lia. }
    apply lookup_insert_Some in H1 as [[<- Hw1]|[N1 H1]]; apply lookup_insert_Some in H2 as [[<- Hw2]|[N2 H2]];
      [done| | |by eapply Hinj].
    + exfalso. eapply Hno; [exact H2|by left].
    + exfalso. eapply Hno; [exact H1|by right].
  - intros fd. split.
    + intros Hin. assert (fd ∈ fds s ∨ view c = (fd, false) ∧ 0 ≤ fd) as [H|[Hw Hp]].
      { destruct Hc as [[_ ->]|(fd' & E1 & Hp' & _ & ->)]; [by left|]. apply elem_of_union in Hin as [Hin%elem_of_singleton|?]; subst; auto. }
      * apply Hf in H as [Hp (id & b & H)]. split; [done|]. exists id, b. rewrite lookup_insert_ne; [done|]. intros <-. congruence.
      * split; [done|]. exists (next_id (impl s)), false. by rewrite Hw, lookup_insert_eq.
    + intros [Hp (id & b & [[_ Hw]|[_ H]]%lookup_insert_Some)].
      * destruct Hc as [[E1 _]|(fd' & E1 & _ & _ & ->)]; rewrite E1 in Hw; injection Hw as <- <-; [lia|set_solver].
      * assert (fd ∈ fds s) as Hin by (apply Hf; eauto). destruct Hc as [[_ ->]|(fd' & _ & _ & _ & ->)]; set_solver.
  - intros t Hin. destruct (Ht t Hin) as [fd H]. exists fd. rewrite lookup_insert_ne; [done|]. intros E'. congruence.
Qed.
End pieces.

Section steps.
Context (host : Host).
Implicit Types s : Sys.

Lemma frame_solvent s i : solvent s → wf_stack i → quiet (impl s) i ∨ born (impl s) i →
  solvent (foldl event (with_impl s i) (drop (length (out (impl s))) (out i))).
Proof.
  intros Hs Hi [(Ev & Ep & es & Eo & Hes)|(c & key & ip & port & Eh & Ec & Ep & Eo)]; rewrite Eo, drop_out.
  - apply events_solvent; [by apply solvent_impl|]. cbn. by rewrite Ev.
  - cbn [foldl event]. apply (solvent_spawn (with_impl s i) (TConnect (next_id (impl s)) key) (-1)).
    + eapply (solvent_born s i c); auto. rewrite Ep. apply Hs.
    + cbn. unfold views. by rewrite Eh, lookup_fmap, lookup_insert_eq, <- Ec.
    + intros _ [fd H]%(connects_view s); [|done]. cbn in H. by rewrite views_fresh in H.
Qed.

Lemma split_at {A} (l : list A) i x : l !! i = Some x → l = take i l ++ x :: drop (S i) l ∧ delete i l = take i l ++ drop (S i) l.
Proof. intros H. split; [by rewrite take_drop_middle|by rewrite delete_take_drop]. Qed.

Lemma finish_solvent s i t : solvent s → threads s !! i = Some t → solvent (finish s i).
Proof.
  intros [Hwf Hep Hv Hinj Hf Ht Hc Hb] Hi. destruct (split_at _ _ _ Hi) as [E1 E2].
  split; cbn; try done; rewrite E2.
  - intros t' Hin. apply Ht. rewrite E1. set_solver.
  - rewrite E1 in Hc. unfold connects in *. rewrite omap_app in *. destruct t; cbn in Hc; try done.
    apply NoDup_app in Hc as (H1 & H2 & H3). apply NoDup_cons in H3 as [_ H3]. apply NoDup_app.
    split_and!; [done| |done]. intros x Hx Hx'. apply (H2 x Hx). by right.
Qed.

(** A connecting thread's descriptor. *)
Lemma connected_solvent s i id key fd j c :
  solvent s → threads s !! i = Some (TConnect id key) → 0 ≤ fd → fd ∉ fds s →
  wf_stack j → next_eport j = next_eport (impl s) → views j = <[id := (fd, false)]> (views (impl s)) → heap (impl s) !! id = Some c →
  solvent (finish (with_impl (open_fd s fd) j) i).
Proof.
  intros Hs Hi Hp Hn Hj Ej E Hh. destruct (split_at _ _ _ Hi) as [E1 E2]. pose proof (finish_solvent s i _ Hs Hi) as Hfin.
  destruct (so_threads _ Hs (TConnect id key)) as [fd0 Hv0]; [rewrite E1; set_solver|]. cbn in Hv0.
  pose proof (so_view _ Hs _ _ _ Hv0) as ->. pose proof (so_connects _ Hs) as Hc.
  assert (id ∉ connects (delete i (threads s))) as Hnot.
  { rewrite E2. rewrite E1 in Hc. unfold connects in *. rewrite omap_app in *. cbn in Hc.
    apply NoDup_app in Hc as (H1 & H2 & H3). apply NoDup_cons in H3 as [H3 H4]. rewrite elem_of_app.
    intros [H|H]; [|done]. apply (H2 id H). by left. }
  assert (∀ m b, views (impl s) !! m = Some (fd, b) → False) as Hno.
  { intros m b H. apply Hn, (so_fds _ Hs). eauto. }
  split; cbn; rewrite ?E; [done|rewrite Ej; apply Hs|..|by apply Hfin|by apply Hs].
  - intros m f b [[_ [= <- <-]]|[_ H]]%lookup_insert_Some; [done|by eapply Hs].
  - intros m k f b b' H1 H2 Hf. apply lookup_insert_Some in H1 as [[<- Hw1]|[N1 H1]];
      apply lookup_insert_Some in H2 as [[<- Hw2]|[N2 H2]]; [done|..|by eapply Hs].
    + injection Hw1 as <- <-. exfalso. eauto.
    + injection Hw2 as <- <-. exfalso. eauto.
  - intros f. rewrite elem_of_union, elem_of_singleton, (so_fds _ Hs). split.
    + intros [->|[Hf (m & b & H)]]; [split; [done|]; exists id, false; by rewrite lookup_insert_eq|].
      split; [done|]. exists m, b. rewrite lookup_insert_ne; [done|]. intros <-. rewrite Hv0 in H. injection H as <- _. lia.
    + intros [Hf (m & b & [[_ [= <- <-]]|[_ H]]%lookup_insert_Some)]; [by left|right; eauto].
  - intros t Hin. destruct (so_threads _ Hfin t Hin) as [f H]. cbn in H. exists f.
    rewrite lookup_insert_ne; [done|]. intros Eid. apply Hnot. unfold connects. apply list_elem_of_omap. exists t.
    split; [exact Hin|]. rewrite <- Eid, Hv0 in H. injection H as _ H. destruct t; cbn in *; by simplify_eq.
Qed.

(** Sending succeeds and leaves the stack well formed. *)
Lemma conn_out_tx i c seq ack flags data : Z.of_nat (length data) ≤ 1994 →
  ∃ f, conn_out i c seq ack flags data = Ok (tx i f).
Proof.
  intros H. unfold conn_out, tcp_out.
  destruct (send_tcp_total (cfg i) (c_mac c) (stk_src_ip c) (stk_src_port c) (stk_dst_ip c) (stk_dst_port c) seq ack flags data H)
    as [f ->]. by exists f.
Qed.

Lemma io_read_quiet i id c data : wf_stack i → heap i !! id = Some c → Z.of_nat (length data) ≤ 1994 →
  ∃ i', io_read i id data = Ok i' ∧ wf_stack i' ∧ views i' = views i ∧ next_eport i' = next_eport i.
Proof.
  intros Hi Hc Hl. unfold io_read. rewrite Hc. cbn [deref]. rewrite bind_Ok. cbv zeta.
  set (i1 := upd_conn i id _). destruct (conn_out_tx i1 c (h_nxt c) (g_nxt c) (Z.lor TF_PSH TF_ACK) data Hl) as [f ->].
  eexists. split_and!; [done| | |done].
  - apply wf_log, wf_upd; [|done]. intros. by apply wf_bump_h.
  - by apply (quiet_upd i id (λ c, set_h_nxt c (u32 (h_nxt c + Z.of_nat (length data))))).
Qed.

Lemma io_exit_quiet i id c key : wf_stack i → heap i !! id = Some c →
  ∃ i', io_exit i id key = Ok i' ∧ wf_stack i' ∧ views i' = views i ∧ next_eport i' = next_eport i.
Proof.
  intros Hi Hc. unfold io_exit. rewrite Hc. cbn [deref]. rewrite bind_Ok.
  destruct (c_stop c); [rewrite bind_Ok; eexists; split_and!; [done|by apply wf_with_done|done..]|].
  set (i1 := upd_conn i id _). destruct (conn_out_tx i1 c (h_nxt c) (g_nxt c) (Z.lor TF_FIN TF_ACK) []) as [f ->]; [done|].
  rewrite bind_Ok. eexists. split_and!; [done| | |done].
  - apply wf_with_done, wf_log, wf_upd; [|done]. intros. by apply wf_bump_h.
  - by apply (quiet_upd i id (λ c, set_h_nxt c (u32 (h_nxt c + 1)))).
Qed.

Lemma connect_done_views i id c fd : wf_stack i → heap i !! id = Some c →
  ∃ i', connect_done i id fd = Ok i' ∧ wf_stack i' ∧ next_eport i' = next_eport i ∧
    views i' = <[id := (fd, false)]> (views i).
Proof.
  intros Hi Hc. unfold connect_done. rewrite Hc. cbn [deref]. rewrite bind_Ok. cbv zeta.
  set (i1 := upd_conn i id _). destruct (conn_out_tx i1 c (h_nxt c) (g_nxt c) (Z.lor TF_SYN TF_ACK) []) as [f ->]; [done|].
  eexists. split_and!; [done| |done|].
  - apply wf_log, wf_upd; [|done]. intros c' []. split; [|done]. split; try done. apply u32_range.
  - apply map_eq. intros k. unfold views. cbn. rewrite !lookup_fmap. destruct (decide (k = id)) as [->|Hne].
    + by rewrite lookup_alter_eq, Hc, lookup_insert_eq.
    + by rewrite lookup_alter_ne, lookup_insert_ne, lookup_fmap.
Qed.

Lemma inbound_syn_tx i gport eport : ∃ f, inbound_syn i gport eport = Ok (tx i f).
Proof.
  unfold inbound_syn, tcp_out.
  destruct (send_tcp_total (cfg i) (guest_mac (cfg i)) (gw_ip (cfg i)) eport (guest_ip (cfg i)) gport (fwd_isn eport) 0 TF_SYN [])
    as [f ->]; [done|]. by exists f.
Qed.
End steps.

Section main.
Context (host : Host).
Implicit Types s : Sys.

Lemma thread_heap s i t : solvent s → threads s !! i = Some t →
  ∃ c, heap (impl s) !! obj_of t = Some c ∧ bool_decide (c_state c = CONNECTING) = connecting t.
Proof.
  intros Hs Hi. destruct (so_threads _ Hs t) as [fd H]; [by eapply list_elem_of_lookup_2|].
  apply views_Some in H as (c & Hc & E). exists c. split; [done|]. by injection E.
Qed.

Lemma frame_piece s f : solvent s → wf_bytes f → honest f →
  ∃ s', piece host s (Frame f) = Ok s' ∧ solvent s'.
Proof.
  intros Hs Hf Hh. destruct (handle_frame_safe host (impl s) f (so_wf _ Hs) Hf Hh) as (i & E & Hi).
  cbn [piece]. rewrite E, bind_Ok. eexists. split; [done|]. apply frame_solvent; [done..|].
  by eapply frame_changes.
Qed.

Lemma connected_piece s i fd : solvent s → 0 ≤ fd → fd ∉ fds s →
  ∃ s', piece host s (Connected i fd) = Ok s' ∧ solvent s'.
Proof.
  intros Hs Hp Hn. cbn [piece]. destruct (threads s !! i) as [[id key| |]|] eqn:Hi; try by eexists.
  destruct (thread_heap s i _ Hs Hi) as (c & Hc & _).
  destruct (connect_done_views (impl s) id c fd (so_wf _ Hs) Hc) as (j & -> & Hj & Ej & Ev).
  rewrite bind_Ok. eexists. split; [done|]. by eapply connected_solvent.
Qed.

Lemma reads_piece s i data : solvent s → Z.of_nat (length data) ≤ 1994 →
  ∃ s', piece host s (Reads i data) = Ok s' ∧ solvent s'.
Proof.
  intros Hs Hl. cbn [piece]. destruct (threads s !! i) as [[|id key|]|] eqn:Hi; try by eexists.
  destruct (thread_heap s i _ Hs Hi) as (c & Hc & Hst). cbn in Hc, Hst. rewrite Hc. cbn [deref]. rewrite bind_Ok.
  destruct (io_read_quiet (impl s) id c data (so_wf _ Hs) Hc Hl) as (j & -> & Hj & Ev & Ej).
  rewrite bind_Ok. eexists. split; [done|].
  pose proof (view_of _ _ _ Hc) as Hv. unfold view in Hv. rewrite Hst in Hv.
  pose proof (so_view _ Hs _ _ _ Hv) as Hp. cbn in Hp.
  rewrite use_fd_open; [by apply solvent_impl|]. apply (so_fds _ Hs). eauto.
Qed.

Lemma ends_piece s i : solvent s → ∃ s', piece host s (Ends i) = Ok s' ∧ solvent s'.
Proof.
  intros Hs. cbn [piece]. destruct (threads s !! i) as [[|id key|]|] eqn:Hi; try by eexists.
  destruct (thread_heap s i _ Hs Hi) as (c & Hc & Hst). cbn in Hc.
  destruct (io_exit_quiet (impl s) id c key (so_wf _ Hs) Hc) as (j & -> & Hj & Ev & Ej).
  rewrite bind_Ok. eexists. split; [done|]. eapply finish_solvent; [by apply solvent_impl|done].
Qed.

(** The thread that could not connect. *)
Lemma erased_solvent s i t key : solvent s → threads s !! i = Some t →
  solvent (finish (with_impl s (erase (impl s) key)) i).
Proof.
  intros Hs Hi. eapply finish_solvent; [|done]. apply solvent_impl; [done..|]. by apply wf_erase, Hs.
Qed.

Lemma open_close s fd : fd ∉ fds s → close_fd (open_fd s fd) fd = s.
Proof.
  intros H. unfold close_fd. rewrite use_fd_open by (cbn; set_solver). destruct s as [i ts f b]. cbn in *.
  unfold open_fd. cbn. f_equal. set_solver.
Qed.

Lemma inbound_solvent s fd gport : solvent s → 0 ≤ fd → fd ∉ fds s → fits 16 gport →
  ∃ s', piece host s (Accepted fd gport) = Ok s' ∧ solvent s'.
Proof.
  intros Hs Hp Hn Hg. cbn [piece]. destruct (inbound_start (impl s) fd gport) as [[i key] eport] eqn:E.
  destruct (inbound_syn_tx i gport eport) as [f ->]. rewrite bind_Ok. eexists. split; [done|].
  unfold inbound_start in E. cbn [new_conn] in E. set (c := mkConn _ _ _ _ _ _ _ _ SYNACK_SENT _) in E.
  set (i0 := mkImpl _ _ (heap _) _ _ _ _) in E. pose proof (so_wf _ Hs) as Hwf.
  assert (wf_stack i0) as H0 by by destruct Hwf.
  assert (wf_conn c) as Hc.
  { destruct (ws_cfg _ Hwf). split; try done; try apply u32_range. apply Hs. }
  set (i1 := (new_conn i0 c).2). assert (wf_stack i1) as H1 by by apply wf_new_conn.
  assert (wf_stack (emplace i1 (conn_key c) (next_id (impl s)))) as H2.
  { eapply wf_emplace; [exact H1| |reflexivity]. apply lookup_insert_eq. }
  injection E as <- <- <-.
  set (i2 := emplace i1 (conn_key c) (next_id (impl s))) in *.
  assert (heap i2 = <[next_id (impl s) := c]> (heap (impl s)) ∧ next_eport i2 = u16 (next_eport (impl s) + 1)) as [Eh Ep].
  { unfold i2, emplace. by destruct (conns i1 !! _). }
  change (emplace _ (fwd_key _ _ _) _) with i2.
  apply (solvent_spawn (with_impl (open_fd s fd) (tx i2 f)) (TFwd (next_id (impl s)) _ gport _ 4) fd).
  - eapply (solvent_born s (tx i2 f) c); [done|by apply wf_log|cbn; rewrite Ep; apply u16_range|done|].
    right. exists fd. done.
  - cbn. unfold views. cbn. by rewrite Eh, lookup_fmap, lookup_insert_eq.
  - done.
Qed.

Lemma wakes_piece s i : solvent s → ∃ s', piece host s (Wakes i) = Ok s' ∧ solvent s'.
Proof.
  intros Hs. cbn [piece]. destruct (threads s !! i) as [[| |id key gport eport more]|] eqn:Hi; try by eexists.
  assert (∃ b, inbound_waiting (impl s) key = Ok b) as [b ->].
  { unfold inbound_waiting. destruct (conns _ !! key) as [j|] eqn:Hk; [|by eexists].
    destruct (ws_conns _ (so_wf _ Hs) _ _ Hk) as (c & -> & _). by eexists. }
  rewrite bind_Ok. destruct b; [|eexists; split; [done|by eapply finish_solvent]].
  destruct more as [|more]; [eexists; split; [done|by eapply erased_solvent]|].
  destruct (inbound_syn_tx (impl s) gport eport) as [f ->]. rewrite bind_Ok. eexists. split; [done|].
  destruct (split_at _ _ _ Hi) as [E1 _].
  assert (<[i := TFwd id key gport eport more]> (threads s) =
    take i (threads s) ++ TFwd id key gport eport more :: drop (S i) (threads s)) as E2.
  { apply insert_take_drop. by eapply lookup_lt_Some. }
  destruct Hs as [Hwf Hep Hv Hinj Hf Ht Hc Hb]. split; cbn; try done; [by apply wf_log|..].
  - intros t Hin. rewrite E2 in Hin. apply elem_of_app in Hin as [Hin|[->|Hin]%elem_of_cons].
    + apply Ht. rewrite E1. set_solver.
    + apply (Ht (TFwd id key gport eport (S more))). rewrite E1. set_solver.
    + apply Ht. rewrite E1. set_solver.
  - rewrite E2. rewrite E1 in Hc. unfold connects in *. by rewrite omap_app in *.
Qed.

Lemma step_solvent s a : solvent s → valid s a → ∃ s', step host s a = Ok s' ∧ solvent s' ∧ no_leak s'.
Proof.
  intros Hs Ha. assert (∃ s1, piece host s a = Ok s1 ∧ solvent s1) as (s1 & E & H1).
  { destruct a as [f|i|i fd|i fd|i data|i|fd gport|i]; cbn [valid] in Ha.
    - destruct Ha. by apply frame_piece.
    - cbn [piece]. destruct (threads s !! i) as [[id key| |]|] eqn:Hi; eexists; (split; [done|]); try done.
      by eapply erased_solvent.
    - destruct Ha as [_ Hn]. cbn [piece]. rewrite open_close by done.
      destruct (threads s !! i) as [[id key| |]|] eqn:Hi; eexists; (split; [done|]); try done. by eapply erased_solvent.
    - destruct Ha. by apply connected_piece.
    - destruct Ha. by apply reads_piece.
    - by apply ends_piece.
    - destruct Ha as (? & ? & ?). by apply inbound_solvent.
    - by apply wakes_piece. }
  unfold step. rewrite E, bind_Ok. eexists. split; [done|]. by apply collect_solvent.
Qed.

Lemma solvent0 c : wf_cfg c → solvent (Sys0 c) ∧ no_leak (Sys0 c).
Proof.
  intros Hc. split; [split; cbn; try done|].
  - intros fd. split; [by intros ?%elem_of_empty|]. intros [_ (id & b & H)]. done.
  - intros t []%not_elem_of_nil.
  - apply NoDup_nil_2.
  - intros id [c' H]. done.
Qed.

Lemma run_solvent l : ∀ s, solvent s → no_leak s → valid_run host s l →
  ∃ s', run host s l = Ok s' ∧ solvent s' ∧ no_leak s'.
Proof.
  induction l as [|a l IH]; intros s Hs Hn Hv; cbn [run]; [by exists s|]. destruct Hv as [Ha Hv].
  destruct (step_solvent s a Hs Ha) as (s1 & E & H1 & H2). rewrite E, bind_Ok. by apply IH, Hv.
Qed.
End main.


(** An old I/O thread ends after the guest reused its addresses: it queues the
    key, and the next TCP segment takes the new connection out of the table. *)
Lemma stale_exit_erases (host : Host) (s : Sys) (i : nat) (id id' : nat) (key : ConnKey) :
  solvent s → threads s !! i = Some (TIo id key) → conns (impl s) !! key = Some id' → id ≠ id' →
  ∃ s1, piece host s (Ends i) = Ok s1 ∧ conns (impl s1) !! key = Some id' ∧ conns (reap (impl s1)) !! key = None.
Proof.
  intros Hs Hi Hk _. cbn [piece]. rewrite Hi. destruct (thread_heap s i _ Hs Hi) as (c & Hc & _). cbn in Hc.
  assert (∃ j, io_exit (impl s) id key = Ok j ∧ conns j = conns (impl s) ∧ key ∈ done_queue j) as (j & -> & Ej & Hin).
  { unfold io_exit. rewrite Hc. cbn [deref]. rewrite bind_Ok. destruct (c_stop c).
    - eexists. split_and!; [done..|]. cbn. set_solver.
    - match goal with |- context [conn_out ?a ?b ?d ?e ?g ?h] => destruct (conn_out_tx a b d e g h) as [f ->]; [done|] end.
      eexists. split_and!; [done..|]. cbn. set_solver. }
  rewrite bind_Ok. eexists. split_and!; [done|by cbn; rewrite Ej|]. cbn.
  revert Hin. generalize (conns j) (done_queue j). intros m q. revert m.
  assert (∀ q m, m !! key = None → foldl (λ (m : gmap ConnKey nat) k, delete k m) m q !! key = None) as Hnone.
  { intros q'. induction q' as [|k q' IH]; intros m Hm; cbn; [done|]. apply IH.
    destruct (decide (k = key)) as [->|?]; [apply lookup_delete_eq|by rewrite lookup_delete_ne]. }
  induction q as [|k q IH]; intros m Hin; [by apply not_elem_of_nil in Hin|]. cbn.
  apply elem_of_cons in Hin as [->|Hin]; [apply Hnone, lookup_delete_eq|by apply IH].
Qed.

(** [~Stack] leaves the detached threads, whose pieces all read the stack. *)
Lemma dtor_leaves_threads (s : Sys) : threads (stack_dtor s) = threads s.
Proof.
  unfold stack_dtor, collect. match goal with |- threads (foldl _ ?s1 ?l) = _ =>
    change (threads s) with (threads s1); generalize s1 l end.
  intros s1 l. revert s1. induction l as [|c l IH]; intros s1; cbn; [done|]. rewrite IH.
  unfold destroy_conn, close_fd, use_fd. by repeat case_match.
Qed.

(** ** Witnesses: a connection opened, served and closed, and a forwarded one *)
Definition validb (s : Sys) (a : Action) : bool :=
  match a with
  | Frame f => wf_bytesb f && match get16 (drop 14 f) 2 with
                             | Ok n => (14 + n <? Z.of_nat (length f)) && (n <=? 2014)
                             | Err _ => true
                             end
  | Refused _ fd | Connected _ fd => (0 <=? fd) && bool_decide (fd ∉ fds s)
  | Accepted fd gport => (0 <=? fd) && bool_decide (fd ∉ fds s) && ((0 <=? gport) && (gport <? 0x10000))
  | Reads _ data => wf_bytesb data && (Z.of_nat (length data) <=? 1994)
  | _ => true
  end.

Lemma validb_ok s a : validb s a = true → valid s a.
Proof.
  destruct a; cbn; try done; rewrite ?andb_true_iff, ?bool_decide_eq_true, ?Z.leb_le, ?Z.ltb_lt; try tauto.
  - intros [H1%wf_bytesb_ok H2]. split; [done|]. intros n E. rewrite E in H2.
    apply andb_prop in H2 as [H2%Z.ltb_lt H3%Z.leb_le]. done.
  - intros [H1%wf_bytesb_ok H2]. done.
  - unfold fits. tauto.
Qed.

Fixpoint valid_runb (host : Host) (s : Sys) (l : list Action) : bool :=
  match l with
  | [] => true
  | a :: l => validb s a && match step host s a with Ok s' => valid_runb host s' l | Err _ => true end
  end.

Lemma valid_runb_ok host l : ∀ s, valid_runb host s l = true → valid_run host s l.
Proof.
  induction l as [|a l IH]; intros s; cbn; [done|]. intros [H1%validb_ok H2]%andb_prop. split; [done|].
  intros s' E. rewrite E in H2. by apply IH.
Qed.

(** A TCP segment of the guest, port 40000 to port 80 of 1.2.3.4. *)
Definition sx_frame (seq flags : Z) : bytes :=
  gw_mac Config0 ++ guest_mac Config0 ++ [8; 0] ++ [0x45; 0; 0; 40; 0; 0; 0; 0; 64; 6; 0; 0]
    ++ be_enc 4 (guest_ip Config0) ++ [1; 2; 3; 4] ++ be_enc 2 40000 ++ [0; 80] ++ be_enc 4 seq
    ++ [0; 0; 0; 0; 0x50; flags; 0; 0; 0; 0; 0; 0; 0].
Definition sx_host : Host := mkHost (λ _ _ _, None) (λ _ _ p, Z.of_nat (length p)).
Definition sx_actions : list Action :=
  [Frame (sx_frame 1000 TF_SYN); Accepted 8 22; Connected 0 7; Frame (sx_frame 1001 TF_ACK);
   Reads 1 [1; 2; 3]; Wakes 0; Frame (sx_frame 1001 (Z.lor TF_FIN TF_ACK)); Ends 1;
   Wakes 0; Wakes 0; Wakes 0; Wakes 0].

Lemma sx_valid : valid_runb sx_host (Sys0 Config0) sx_actions = true.
Proof. by vm_compute. Qed.

Definition endsb (l : list Action) (p : Sys → bool) : bool :=
  match run sx_host (Sys0 Config0) l with Ok s => p s | Err _ => false end.
Definition idle (s : Sys) : bool := bool_decide (threads s = [] ∧ conns (impl s) = ∅).

Lemma endsb_idle l s : endsb l idle = true → run sx_host (Sys0 Config0) l = Ok s → threads s = [] ∧ conns (impl s) = ∅.
Proof. unfold endsb. intros H E. rewrite E in H. by apply bool_decide_eq_true in H. Qed.

Lemma sx_idle : endsb sx_actions idle = true.
Proof. by vm_compute. Qed.


(** The guest closes and reopens the connection before the old I/O thread has
    noticed: the next segment erases the new one, whose thread still connects. *)
Definition sx_reuse : list Action :=
  [Frame (sx_frame 1000 TF_SYN); Connected 0 7; Frame (sx_frame 1001 TF_ACK);
   Frame (sx_frame 1001 (Z.lor TF_FIN TF_ACK)); Frame (sx_frame 5000 TF_SYN); Ends 0].
Definition sx_reused (s : Sys) : bool :=
  match threads s with
  | [TConnect id key] =>
      bool_decide (conns (impl s) !! key = Some id) && bool_decide (conns (reap (impl s)) !! key = None)
  | _ => false
  end.

Lemma stale_exit_reached : endsb sx_reuse sx_reused = true.
Proof. by vm_compute. Qed.
