(* ===== verification/Teardown.v ===== *)
(** * Teardown: the host resources of a machine

    Models the system calls of [Memory::init] (src/src/hvf/memory.cpp) on every
    branch, [VMContext::~VMContext] (vm_context.cpp) as the sequence of its
    actions, and the destructors of the block device and the console.  The
    host's state is what the process holds: shared-memory names (which all
    processes share), mappings, the guest-physical mapping, descriptors,
    interrupt-controller configurations, and the threads that use guest RAM. *)

From stdpp Require Import strings.
From S2P Require Import Prelude Bytes GuestMem Fdt Create.

(** The threads that read and write guest memory: the vCPUs, the receive threads
    of the network device and of the console. *)
Inductive RamUser : Type := UVcpus | UNet | UConsole.
#[export] Instance RamUser_eq_dec : EqDecision RamUser.
Proof. solve_decision. Defined.

Record Held := mkHeld {
  shm : gset bytes;
  maps : gmap Z Z;
  hv_maps : gmap Z Z;
  open_fds : gset Z;
  gic_cfgs : nat;
  users : list RamUser;
}.
Definition set_shm (h : Held) (s : gset bytes) : Held :=
  mkHeld s (maps h) (hv_maps h) (open_fds h) (gic_cfgs h) (users h).
Definition set_maps (h : Held) (m : gmap Z Z) : Held :=
  mkHeld (shm h) m (hv_maps h) (open_fds h) (gic_cfgs h) (users h).
Definition set_hv_maps (h : Held) (m : gmap Z Z) : Held :=
  mkHeld (shm h) (maps h) m (open_fds h) (gic_cfgs h) (users h).
Definition set_open_fds (h : Held) (s : gset Z) : Held :=
  mkHeld (shm h) (maps h) (hv_maps h) s (gic_cfgs h) (users h).
Definition set_gic_cfgs (h : Held) (n : nat) : Held :=
  mkHeld (shm h) (maps h) (hv_maps h) (open_fds h) n (users h).
Definition set_users (h : Held) (l : list RamUser) : Held :=
  mkHeld (shm h) (maps h) (hv_maps h) (open_fds h) (gic_cfgs h) l.

(** The members of [VMContext] the destructor releases; [block_fd] and
    [console_fds] are -1 where the device has none. *)
Record Vm := mkVm {
  ram_hva : option Z;
  ram_gpa : Z;
  ram_size : Z;
  ram_shm_path : option bytes;
  block_fd : Z;
  console_fds : Z * Z;
}.
Definition Vm0 (size : Z) : Vm := mkVm None kGpaRamBase size None (-1) (-1, -1).
Definition set_ram (v : Vm) (hva gpa size : Z) (path : bytes) : Vm :=
  mkVm (Some hva) gpa size (Some path) (block_fd v) (console_fds v).

(** ** [Memory::init] *)

(** What each system call answers. *)
Record Answers := mkAnswers {
  a_fd : option Z;
  a_truncate : bool;
  a_hva : option Z;
  a_hv_map : bool;
  a_dist : bool;
  a_redist : bool;
  a_gic : bool;
}.

Definition shm_name : bytes := cs "/virtualization-ram"%string.

Definition memory_init (a : Answers) (v : Vm) (h : Held) : bool * Vm * Held :=
  let h := set_shm h (shm h ∖ {[shm_name]}) in
  match a_fd a with
  | None => (false, v, h)
  | Some fd =>
      let h := set_open_fds (set_shm h ({[shm_name]} ∪ shm h)) ({[fd]} ∪ open_fds h) in
      let closed h := set_open_fds h (open_fds h ∖ {[fd]}) in
      let unlinked h := set_shm h (shm h ∖ {[shm_name]}) in
      if negb (a_truncate a) then (false, v, unlinked (closed h)) else
      match a_hva a with
      | None => (false, v, unlinked (closed h))
      | Some hva =>
          let h := closed (set_maps h (<[hva := ram_size v]> (maps h))) in
          let v := set_ram v hva kGpaRamBase (ram_size v) shm_name in
          if negb (a_hv_map a) then (false, v, h) else
          let h := set_hv_maps h (<[kGpaRamBase := ram_size v]> (hv_maps h)) in
          let h := set_gic_cfgs h (S (gic_cfgs h)) in
          if negb (a_dist a && a_redist a && a_gic a) then (false, v, h)
          else (true, v, set_gic_cfgs h (pred (gic_cfgs h)))
      end
  end.

(** ** [~VMContext] *)
Definition leave (u : RamUser) (h : Held) : Held := set_users h (filter (λ x, x ≠ u) (users h)).
Definition close_fd (fd : Z) (h : Held) : Held :=
  if 0 <=? fd then set_open_fds h (open_fds h ∖ {[fd]}) else h.

(** The vCPUs are joined; the tablet, the keyboard and the display hold nothing;
    the network device joins its thread; then the block device and the console,
    which joins its own; and the memory. *)
Definition dev_actions (v : Vm) : list (Held → Held) :=
  [leave UVcpus; id; id; id; leave UNet; close_fd (block_fd v); leave UConsole;
   close_fd (fst (console_fds v)); close_fd (snd (console_fds v))].
Definition dtor_actions (v : Vm) : list (Held → Held) :=
  dev_actions v
  ++ match ram_hva v with
     | Some hva => [(λ h, set_hv_maps h (delete (ram_gpa v) (hv_maps h))); (λ h, set_maps h (delete hva (maps h)))]
     | None => []
     end
  ++ match ram_shm_path v with Some p => [(λ h, set_shm h (shm h ∖ {[p]}))] | None => [] end.

Definition perform (l : list (Held → Held)) (h : Held) : Held := foldl (λ h f, f h) h l.
Definition vm_dtor (v : Vm) (h : Held) : Held := perform (dtor_actions v) h.

(** Between the two: the devices are created, their threads run. *)
Definition attach (b c0 c1 : Z) (us : list RamUser) (v : Vm) (h : Held) : Vm * Held :=
  (mkVm (ram_hva v) (ram_gpa v) (ram_size v) (ram_shm_path v) b (c0, c1),
   set_users (set_open_fds h (list_to_set (filter (λ x, 0 ≤ x) [b; c0; c1]) ∪ open_fds h)) us).

(** What the system promises of fresh names. *)
Record fresh (a : Answers) (h : Held) : Prop := {
  fr_fd : ∀ fd, a_fd a = Some fd → fd ∉ open_fds h;
  fr_hva : ∀ x, a_hva a = Some x → maps h !! x = None;
  fr_gpa : hv_maps h !! kGpaRamBase = None;
  fr_users : users h = [];
}.

Lemma held_eq h h' : shm h = shm h' → maps h = maps h' → hv_maps h = hv_maps h' → open_fds h = open_fds h' →
  gic_cfgs h = gic_cfgs h' → users h = users h' → h = h'.
Proof. destruct h, h'. cbn. by intros -> -> -> -> -> ->. Qed.

(** What [init] leaves, whether or not it succeeds. *)
Definition gic_leak (a : Answers) (ok : bool) (v : Vm) : nat :=
  if negb ok && bool_decide (is_Some (ram_hva v)) && a_hv_map a then 1 else 0.

Lemma init_leaves a size h ok v h1 : fresh a h → memory_init a (Vm0 size) h = (ok, v, h1) →
  open_fds h1 = open_fds h ∧ users h1 = [] ∧ gic_cfgs h1 = (gic_leak a ok v + gic_cfgs h)%nat ∧
  shm h1 ∖ {[shm_name]} = shm h ∖ {[shm_name]} ∧ ram_gpa v = kGpaRamBase ∧ block_fd v = -1 ∧ console_fds v = (-1, -1) ∧
  match ram_hva v with
  | Some x => a_hva a = Some x ∧ ram_shm_path v = Some shm_name ∧ maps h1 = <[x := size]> (maps h) ∧
      hv_maps h1 = (if a_hv_map a then <[kGpaRamBase := size]> (hv_maps h) else hv_maps h) ∧ (ok = true → a_hv_map a = true)
  | None => ok = false ∧ ram_shm_path v = None ∧ shm h1 = shm h ∖ {[shm_name]} ∧ maps h1 = maps h ∧ hv_maps h1 = hv_maps h
  end.
Proof.
  intros [F1 F2 F3 F4] H. unfold memory_init in H. destruct (a_fd a) as [fd|]; [|simplify_eq; split_and!; try done; set_solver].
  specialize (F1 fd eq_refl).
  assert (∀ X : gset Z, X = open_fds h → ({[fd]} ∪ X) ∖ {[fd]} = open_fds h) as Ho by (intros X ->; set_solver).
  destruct (a_truncate a); cbn in H; [|simplify_eq; split_and!; try done; cbn; [by apply Ho|set_solver..]].
  destruct (a_hva a) as [x|]; [|simplify_eq; split_and!; try done; cbn; [by apply Ho|set_solver..]].
  unfold gic_leak. destruct (a_hv_map a) eqn:Em; cbn in H; [destruct (a_dist a && a_redist a && a_gic a); cbn in H|];
    simplify_eq; cbn; rewrite ?Em; (split_and!; try done; cbn; [by apply Ho|set_solver]).
Qed.

Lemma close_all fds0 X : (∀ x, x ∈ fds0 → 0 ≤ x → x ∉ X) →
  ∀ h, open_fds h = list_to_set (filter (λ x, 0 ≤ x) fds0) ∪ X →
  open_fds (perform (close_fd <$> fds0) h) = X.
Proof.
  intros Hx. assert (∀ l h Y, open_fds h = Y → open_fds (perform (close_fd <$> l) h) = Y ∖ list_to_set (filter (λ x, 0 ≤ x) l)) as H.
  { induction l as [|fd l IH]; intros h Y E; [cbn; set_solver|]. cbn [fmap list_fmap perform foldl].
    fold (perform (close_fd <$> l) (close_fd fd h)). unfold close_fd at 2. rewrite filter_cons.
    destruct (Z.leb_spec 0 fd); [rewrite decide_True by done|rewrite decide_False by lia; by apply IH].
    erewrite IH by reflexivity. cbn. rewrite E. set_solver. }
  intros h E. rewrite (H _ _ _ E). apply set_eq. intros x. rewrite elem_of_difference, elem_of_union, !elem_of_list_to_set, !list_elem_of_filter.
  split; [intros [[?|?] ?]; [done|done]|]. intros Hin. split; [by right|]. intros [H1 H2]. by eapply Hx.
Qed.

(** ** The destructor's actions *)
Lemma perform_app l1 l2 h : perform (l1 ++ l2) h = perform l2 (perform l1 h).
Proof. unfold perform. apply foldl_app. Qed.

Definition keeps_ram (f : Held → Held) : Prop :=
  ∀ h, shm (f h) = shm h ∧ maps (f h) = maps h ∧ hv_maps (f h) = hv_maps h ∧ gic_cfgs (f h) = gic_cfgs h.
Definition no_users (f : Held → Held) : Prop := ∀ h, users h = [] → users (f h) = [].

Lemma close_keeps fd : keeps_ram (close_fd fd).
Proof. intros h. unfold close_fd. by destruct (0 <=? fd). Qed.

Lemma close_users fd h : users (close_fd fd h) = users h.
Proof. unfold close_fd. by destruct (0 <=? fd). Qed.

Lemma leave_close u fd h : leave u (close_fd fd h) = close_fd fd (leave u h).
Proof. unfold close_fd. by destruct (0 <=? fd). Qed.

Lemma dev_actions_keep v : Forall keeps_ram (dev_actions v).
Proof. repeat apply Forall_cons_2; try apply Forall_nil_2; try apply close_keeps; by intros h. Qed.

Lemma perform_keeps l : Forall keeps_ram l → keeps_ram (perform l).
Proof.
  induction 1 as [|f l Hf _ IH]; intros h; [done|]. change (perform (f :: l) h) with (perform l (f h)).
  destruct (Hf h) as (<- & <- & <- & <-). apply IH.
Qed.

Lemma dtor_no_users v : Forall no_users (dtor_actions v).
Proof.
  unfold dtor_actions, dev_actions. destruct (ram_hva v), (ram_shm_path v); repeat apply Forall_cons_2; try apply Forall_nil_2;
    intros h E; rewrite ?close_users; try done; unfold leave; cbn; by rewrite E.
Qed.

Lemma perform_no_users l : Forall no_users l → no_users (perform l).
Proof.
  induction 1 as [|f l Hf _ IH]; intros h E; [done|]. change (perform (f :: l) h) with (perform l (f h)). by apply IH, Hf.
Qed.

(** Once the three are joined no thread uses the memory. *)
Lemma joined v h k : (7 ≤ k)%nat → users (perform (take k (dtor_actions v)) h) = [].
Proof.
  intros Hk. replace k with (7 + (k - 7))%nat by lia. set (n := (k - 7)%nat). clearbody n.
  unfold dtor_actions, dev_actions. cbn [app take Nat.add]. set (rest := _ :: _ :: _ ++ _).
  assert (Forall no_users (take n rest)) as Hr.
  { apply Forall_take. pose proof (dtor_no_users v) as H. unfold dtor_actions, dev_actions in H. cbn [app] in H.
    do 7 apply Forall_cons in H as [_ H]. exact H. }
  apply (perform_no_users _ Hr). cbn. rewrite close_users. cbn.
  induction (users h) as [|u l IH]; [done|]. destruct u; cbn; exact IH.
Qed.

Lemma take_dev k v h : (k ≤ 9)%nat →
  maps (perform (take k (dtor_actions v)) h) = maps h ∧ hv_maps (perform (take k (dtor_actions v)) h) = hv_maps h.
Proof.
  intros Hk. change (dtor_actions v) with (dev_actions v ++ drop 9 (dtor_actions v)).
  rewrite take_app_le by exact Hk.
  destruct (perform_keeps (take k (dev_actions v)) (Forall_take _ _ _ (dev_actions_keep v)) h) as (_ & E1 & E2 & _).
  done.
Qed.

(** What the destructor leaves, when the context's fields are those of [init]. *)
Lemma dtor_leaves v h X :
  ram_gpa v = kGpaRamBase → (ram_hva v = None → ram_shm_path v = None) → (is_Some (ram_hva v) → ram_shm_path v = Some shm_name) →
  (∀ x, x ∈ [block_fd v; fst (console_fds v); snd (console_fds v)] → 0 ≤ x → x ∉ X) →
  open_fds h = list_to_set (filter (λ x, 0 ≤ x) [block_fd v; fst (console_fds v); snd (console_fds v)]) ∪ X →
  vm_dtor v h =
  mkHeld (match ram_hva v with Some _ => shm h ∖ {[shm_name]} | None => shm h end)
    (match ram_hva v with Some x => delete x (maps h) | None => maps h end)
    (match ram_hva v with Some _ => delete kGpaRamBase (hv_maps h) | None => hv_maps h end)
    X (gic_cfgs h) [].
Proof.
  intros Hg Hn Hs Hfr Ho.
  pose proof (perform_keeps _ (dev_actions_keep v) h) as (E1 & E2 & E3 & E4).
  pose proof (joined v h 9 ltac:(lia)) as E5. change (take 9 (dtor_actions v)) with (dev_actions v) in E5.
  assert (open_fds (perform (dev_actions v) h) = X) as E6.
  { rewrite <- (close_all _ X Hfr (leave UConsole (leave UNet (leave UVcpus h))) Ho). cbn. by rewrite leave_close. }
  unfold vm_dtor. change (dtor_actions v) with (dev_actions v ++ drop 9 (dtor_actions v)). rewrite perform_app.
  set (h1 := perform (dev_actions v) h) in *. clearbody h1. unfold dtor_actions, dev_actions. cbn [app drop].
  destruct (ram_hva v) as [x|]; [rewrite (Hs ltac:(by eexists))|rewrite (Hn eq_refl)];
    apply held_eq; cbn; congruence.
Qed.


(** The outcome is that of the summary the machine's model uses. *)
Definition mem_sys (a : Answers) : MemSys :=
  mkMemSys (bool_decide (is_Some (a_fd a))) (a_truncate a) (bool_decide (is_Some (a_hva a))) (a_hv_map a)
    (a_dist a && a_redist a && a_gic a).

Lemma init_outcome {F St : Type} (a : Answers) (size R : Z) (h : Held) (c : @VM F St) :
  (memory_init a (Vm0 size) h).1.1 = (Create.memory_init (mem_sys a) R c).1.
Proof.
  unfold memory_init, Create.memory_init, mem_sys. cbn.
  destruct (a_fd a), (a_truncate a), (a_hva a), (a_hv_map a); cbn; try done. by destruct (_ && _).
Qed.

(** The name is one for all processes: ending an earlier machine removes the
    name of a later one. *)
Lemma name_is_shared a a' size size' h h' hA hB vA vB :
  memory_init a (Vm0 size) h = (true, vA, hA) →
  memory_init a' (Vm0 size') (set_shm h' (shm hA)) = (true, vB, hB) →
  shm_name ∈ shm hB ∧ shm_name ∉ shm (vm_dtor vA (set_shm hA (shm hB))).
Proof.
  intros HA HB. split.
  - unfold memory_init in HB. repeat case_match; simplify_eq. cbn. set_solver.
  - unfold memory_init in HA. repeat case_match; simplify_eq. cbn. set_solver.
Qed.

(** ** Witness: a machine with a disk and one whose interrupt controller fails *)
Definition tx_held : Held := mkHeld {[cs "/other"%string]} ∅ ∅ {[0; 1; 2]} 0 [].
Definition tx_answers (gic : bool) : Answers := mkAnswers (Some 3) true (Some 0x100000) true true true gic.

Lemma tx_fresh gic : fresh (tx_answers gic) tx_held.
Proof. split; cbn; [intros fd [= <-]; set_solver by lia|by intros x [= <-]|done|done]. Qed.

