(* ===== verification/NetTcpTx.v ===== *)
(** * NetTcpTx: the network device on its own stack

    Composes [Net::write] and [Net::process_tx] (src/src/hvf/virtio_net.cpp) with
    the TCP handler of network.cpp: what becomes of a data segment the guest
    puts in its transmit ring. *)

From S2P Require Import Prelude Bytes GuestMem Virtq VirtqSpec World VirtioRegs.
From S2P Require Import NetWire NetStack NetStackInv NetStackThms VirtioNet VirtioNetThms Fixtures NetStackWit VirtioNetWit.
From S2P Require NetStackAcct.

(** A segment in an IP packet in an Ethernet frame, as a guest sends it. *)
Definition guest_frame (to from : bytes) (src dst ipck : Z) (seg : bytes) : bytes :=
  eth_header to from 0x0800 ++ ip_header src dst IP_TCP (Z.of_nat (20 + length seg)) ipck ++ seg.

Section dispatch.
Context (host : Host) (to from : bytes) (src dst ipck : Z) (seg : bytes).
Context (Hto : length to = 6%nat) (Hfrom : length from = 6%nat) (Hsrc : fits 32 src) (Hdst : fits 32 dst).
Context (Hlen : Z.of_nat (20 + length seg) < 0x10000).

Lemma ip_fields :
  let p := ip_header src dst IP_TCP (Z.of_nat (20 + length seg)) ipck ++ seg in
  get8 p 0 = Ok 0x45 ∧ get16 p 2 = Ok (Z.of_nat (20 + length seg)) ∧ get8 p 9 = Ok IP_TCP ∧
  get32 p 12 = Ok src ∧ get32 p 16 = Ok dst ∧ drop 20 p = seg.
Proof.
  split_and!; try done.
  - apply get_be16; [done|]. split; lia.
  - by apply get_be32.
  - by apply get_be32.
Qed.

(** Such a frame reaches the TCP handler. *)
Lemma frame_reaches_tcp s :
  handle_frame host s (guest_frame to from src dst ipck seg) =
  handle_tcp host s from src dst seg (Z.of_nat (length seg)).
Proof.
  destruct ip_fields as (F1 & F2 & F3 & F4 & F5 & F6).
  set (p := ip_header src dst IP_TCP (Z.of_nat (20 + length seg)) ipck ++ seg) in *.
  assert (length (eth_header to from 0x0800) = 14%nat) as He by (unfold eth_header; rewrite !length_app, Hto, Hfrom; done).
  assert (length p = (20 + length seg)%nat) as Hp by (unfold p; by rewrite length_app).
  assert (length (guest_frame to from src dst ipck seg) = (14 + (20 + length seg))%nat) as Hl.
  { unfold guest_frame. fold p. by rewrite length_app, He, Hp. }
  assert (drop 14 (guest_frame to from src dst ipck seg) = p) as Hd by (unfold guest_frame; fold p; rewrite <- He; apply drop_app_length).
  assert (get (guest_frame to from src dst ipck seg) 6 6 = Ok from) as G1.
  { unfold guest_frame, eth_header. rewrite <- !app_assoc. by apply get_app'. }
  assert (get16 (guest_frame to from src dst ipck seg) 12 = Ok 0x0800) as G2.
  { assert (guest_frame to from src dst ipck seg = (to ++ from) ++ be_enc 2 0x0800 ++ p) as ->.
    { unfold guest_frame, eth_header. fold p. by rewrite <- !app_assoc. }
    apply get_be16; [|by vm_compute]. apply get_app'; [by rewrite length_app, Hto, Hfrom|done]. }
  unfold handle_frame. rewrite Hl, G1, bind_Ok, G2, bind_Ok. cbv zeta.
  rewrite (proj2 (Z.ltb_ge _ (Z.of_nat sizeof_EthHdr))) by (unfold sizeof_EthHdr; lia).
  change sizeof_EthHdr with 14%nat. rewrite Hd. change (0x0800 =? 0x0806) with false. change (negb (0x0800 =? 0x0800)) with false.
  cbn match. change (Z.of_nat sizeof_Ip4Hdr) with 20.
  rewrite (proj2 (Z.ltb_ge _ 20)) by lia.
  rewrite F1, bind_Ok, F2, bind_Ok, F3, bind_Ok, F4, bind_Ok, F5, bind_Ok.
  change (Z.land 0x45 0x0f * 4) with 20. rewrite (proj2 (Z.ltb_ge _ 20)), (proj2 (Z.ltb_ge (Z.of_nat (20 + length seg)) 20)) by lia.
  cbn [orb]. change (Z.to_nat 20) with 20%nat. rewrite F6. cbn [Z.eqb Pos.eqb IP_TCP IP_ICMP IP_UDP].
  f_equal. lia.
Qed.
End dispatch.

(** ** The answer to accepted data *)
Section answer.
Context (host : Host).

Lemma established_answers s key id c flags data :
  data ≠ [] → flag flags TF_FIN = false →
  ∃ s' ws frame, tcp_established host s key id c (g_nxt c) flags (Ok data) (Z.of_nat (length data)) = Ok s' ∧
    out s' = out s ++ (SockWrite (c_fd c) <$> ws) ++ [Tx frame].
Proof.
  intros Hne Hfin. unfold tcp_established. rewrite Hfin, Z.eqb_refl. cbv zeta.
  assert ((0 <? Z.of_nat (length data)) = true) as -> by (apply Z.ltb_lt; destruct data; [done|cbn; lia]).
  cbn [andb]. rewrite bind_Ok, bool_decide_eq_false_2 by done. cbn [negb andb].
  set (s1 := upd_conn s id _).
  assert (∃ ws, (if 0 <=? c_fd c then write_all host (length data) s1 (c_fd c) data else Ok s1) =
    Ok (log s1 (SockWrite (c_fd c) <$> ws))) as [ws ->].
  { destruct (0 <=? c_fd c); [|exists []; cbn; by rewrite log_nil].
    destruct (write_all_ok host (c_fd c) (length data) s1 data) as (ws & E & _); [done|]. by exists ws. }
  rewrite bind_Ok.
  match goal with |- context [conn_out ?i ?c ?sq ?ak ?fl ?d] =>
    destruct (NetStackAcct.conn_out_tx i c sq ak fl d) as [frame ->]; [done|] end.
  do 3 eexists. split; [reflexivity|]. cbn. by rewrite app_assoc.
Qed.

(** The device's view: the stack answers before it returns. *)
Lemma data_answered (s : Impl) to from src dst ipck sp dp ack flags ck data id c :
  length to = 6%nat → length from = 6%nat → fits 32 src → fits 32 dst → fits 16 sp → fits 16 dp →
  fits 32 ack → is_byte flags → wf_conn c → Z.of_nat (length data) < 65496 → data ≠ [] →
  flag flags TF_SYN = false → flag flags TF_RST = false → flag flags TF_FIN = false →
  conns s !! (src, dst, sp, dp) = Some id → (src, dst, sp, dp) ∉ done_queue s →
  heap s !! id = Some c → c_state c = ESTABLISHED →
  ∃ st' frame, guest_tx (mkStackOn host s)
    (guest_frame to from src dst ipck (guest_segment sp dp (g_nxt c) ack flags ck data)) = Ok (st', [frame]).
Proof.
  intros Hto Hfrom Hsrc Hdst Hsp Hdp Hack Hfl Hc Hlen Hne Hsyn Hrst Hfin Hk Hd Hh Hst.
  cbn [guest_tx StackOn_api so_host so_impl]. unfold NetStack.guest_tx.
  assert (length (guest_segment sp dp (g_nxt c) ack flags ck data) = (20 + length data)%nat) as Hl
    by (unfold guest_segment; by rewrite length_app).
  rewrite frame_reaches_tcp by (done || lia). rewrite Hl.
  replace (Z.of_nat (20 + length data)) with (20 + Z.of_nat (length data)) by lia.
  rewrite (handle_tcp_established host src dst sp dp (g_nxt c) ack flags ck data Hsp Hdp (wn_g _ Hc) Hack Hfl)
    with (id := id) (c := c) by (done || lia).
  destruct (established_answers (reap s) (src, dst, sp, dp) id c flags data Hne Hfin) as (s' & ws & frame & E & Eo).
  rewrite E, bind_Ok, Eo. change (out (reap s)) with (out s). rewrite drop_app_length, omap_app.
  pose proof (tx_sock_writes (c_fd c) ws) as T. unfold tx_frames in T. rewrite T. by do 2 eexists.
Qed.
End answer.

(** C40. The first data the guest sends on a TCP connection stops the device.
    When the first pending chain of the transmit ring carries an in-order data
    segment of an established connection, the notification never returns: the
    stack acknowledges the segment before it returns, and the acknowledgement's
    way to the guest, [enqueue_rx], locks the mutex [write] holds. *)
Theorem tcp_data_deadlocks (host : Host) (s : Impl) (prot : Z → Prop) (d a u idx : Z) (j : TxJob) (fuel : nat)
    (n : Net StackOn) (w : World) (to from : bytes) (src dst ipck sp dp ack flags ck : Z) (data : bytes)
    (id : nat) (c : TcpConn) :
  stack n = mkStackOn host s →
  ring_ptrs (w_ram w) (r_q1 (regs n)) = Some (d, a, u) →
  avail_idx (w_ram w) a = Ok idx → last_avail (r_q1 (regs n)) ≠ idx →
  avail_ring (w_ram w) a (last_avail (r_q1 (regs n)) mod VirtioNet.kQueueSize) = Ok (tj_head j) →
  tx_good VirtioNet.kQueueSize prot d fuel (w_ram w) j → (0 < fuel)%nat →
  job_frame (w_ram w) j = [guest_frame to from src dst ipck (guest_segment sp dp (g_nxt c) ack flags ck data)] →
  length to = 6%nat → length from = 6%nat → fits 32 src → fits 32 dst → fits 16 sp → fits 16 dp →
  fits 32 ack → is_byte flags → wf_conn c → Z.of_nat (length data) < 65496 → data ≠ [] →
  flag flags TF_SYN = false → flag flags TF_RST = false → flag flags TF_FIN = false →
  conns s !! (src, dst, sp, dp) = Some id → (src, dst, sp, dp) ∉ done_queue s →
  heap s !! id = Some c → c_state c = ESTABLISHED →
  VirtioNet.write fuel n w Reg.QueueNotify 1 4 = Err Deadlock.
Proof.
  intros Hst Hp Hai Hne Hav Hg Hfu Hj. intros.
  destruct (data_answered host s to from src dst ipck sp dp ack flags ck data id c) as (st' & frame & E); try done.
  eapply (net_tx_deadlock prot d a u idx j fuel n w); try done. by rewrite Hst.
Qed.

(** ** Witness: three bytes on the connection of the fixture *)
Definition dx_frame : bytes :=
  guest_frame (gw_mac Config0) nx_mac 0x0A00020F 0x01020304 0 (guest_segment 40000 80 1001 0 TF_ACK 0 [1; 2; 3]).

Lemma dx_good : tx_good VirtioNet.kQueueSize fx_tx_prot fx_d 4 (vx_ram dx_frame) (vx_job 57).
Proof.
  split_and!; [| |cbn; lia].
  - apply (buffers_next _ _ _ _ 1 _ _ 1); [done | by vm_compute.. |].
    apply (buffers_last _ _ _ _ 0); [done | by vm_compute..].
  - apply Forall_cons_2; [|apply Forall_singleton]; (split; [done|]);
      intros p Hp; cbn [fst snd vx_job] in *; eval_in Hp;
      (split; [by vm_compute|]); intros x Hx; right; lia.
Qed.

Lemma tcp_data_deadlocks_witness :
  VirtioNet.write 4 vx_net (vx_world dx_frame) Reg.QueueNotify 1 4 = Err Deadlock.
Proof.
  refine (tcp_data_deadlocks nx_host nx_stack fx_tx_prot fx_d fx_a fx_u 1 (vx_job 57) 4 vx_net (vx_world dx_frame)
    (gw_mac Config0) nx_mac 0x0A00020F 0x01020304 0 40000 80 0 TF_ACK 0 [1; 2; 3] 0%nat nx_conn
    _ _ _ _ _ _ _ _ _ _ _ _ _ _ _ _ _ _ _ _ _ _ _ _ _ _); try eval_eq; try done.
  - apply dx_good.
  - lia.
  - apply not_elem_of_nil.
Defined.
