(* ===== verification/NetRxPath.v ===== *)
(** * NetRxPath: host frames into the guest's buffers

    What the sequential rounds of [Net::rx_flush_func] (src/src/hvf/virtio_net.cpp)
    do with a queue of frames and a ring of receive buffers.  NetRxThread shows
    that the threads of the device come to the same state. *)

From S2P Require Import Prelude Bytes GuestMem Virtq VirtqSpec World VirtioRegs Fixtures.
From S2P Require Import NetWire NetStack NetStackWit VirtioNet VirtioNetThms VirtioNetWit NetRxThread.

(** A published receive buffer: head descriptor, first byte, capacity. *)
Record RxBuf := mkRxBuf { rb_head : Z; rb_buf : Z; rb_cap : Z }.

Lemma net_queue_divides : (kQueueSize | 0x10000).
Proof. by exists 256. Qed.

Section path.
Context {St : Type}.
Implicit Types n : Net St.

Section ring.
Context (prot : Z → Prop) (d a u idx : Z).

Definition rx_buf (m : Ram) (s : RxBuf) : Prop :=
  0 ≤ rb_head s < kQueueSize ∧ 12 < rb_cap s < 0x100000000 ∧
  (∃ al, desc_addr m d (rb_head s) = Ok al ∧ gpa_to_hva m al = Some (rb_buf s)) ∧
  desc_len m d (rb_head s) = Ok (rb_cap s) ∧ (∃ fl, desc_flags m d (rb_head s) = Ok fl) ∧
  in_ram m (rb_buf s) (Z.to_nat (rb_cap s)) = true ∧
  spares (prot_all kQueueSize prot u) (rb_buf s) (rb_cap s).

Lemma rx_buf_stable m m' s :
  stable prot m m' → rings kQueueSize prot d a u m → rx_buf m s → rx_buf m' s.
Proof.
  intros Hs Hr (Hh & Hc & (al & Ha & Hp) & Hl & (fl & Hf) & Hin & Hsp).
  destruct (desc_stable prot kQueueSize d (rg_table _ _ _ _ _ _ Hr) m m' (rb_head s) Hs Hh) as (E1 & E2 & E3 & _).
  unfold rx_buf. rewrite E1, E2, E3, (in_ram_same m) by apply Hs. rewrite Hf.
  split; [exact Hh|]. split; [exact Hc|]. split; [exists al; by rewrite (gpa_to_hva_same m) by apply Hs|].
  split; [exact Hl|]. split; [by eexists|]. by split.
Qed.

(** The bytes a frame takes, and when it fits. *)
Definition takes (f : bytes) : Z := 12 + Z.of_nat (length f).
Definition fits_buf (s : RxBuf) (f : bytes) : Prop := wf_bytes f ∧ f ≠ [] ∧ takes f ≤ rb_cap s.

Fixpoint apart (ss : list RxBuf) : Prop :=
  match ss with
  | [] => True
  | s :: ss => Forall (λ s', disjoint (rb_buf s') (rb_cap s') (rb_buf s) (rb_cap s)) ss ∧ apart ss
  end.

Definition net_irqs : list Event := [SetSpi 51 true; SetSpi 51 false].
Definition fed n : Net St := set_regs n (set_irq (bump0 (regs n))).
Fixpoint feed_times (k : nat) n : Net St := match k with O => n | S k => feed_times k (fed n) end.

Lemma feed_times_queue k q : ∀ n, set_rx_queue (feed_times k n) q = feed_times k (set_rx_queue n q).
Proof. induction k as [|k IH]; intros n; cbn; [done|]. by rewrite IH. Qed.

Lemma feed_times_last k : ∀ n, 0 ≤ last_avail (r_q0 (regs n)) < 0x10000 →
  last_avail (r_q0 (regs (feed_times k n))) = u16 (last_avail (r_q0 (regs n)) + Z.of_nat k).
Proof.
  induction k as [|k IH]; intros n Hn; cbn [feed_times]; [by rewrite Z.add_0_r, u16_id|].
  rewrite IH by apply u16_range. cbn. zlia.
Qed.

(** The elements the frames leave in the used ring. *)
Definition receipts (ss : list RxBuf) (fs : list bytes) : list (Z * Z) :=
  zip_with (λ s f, (rb_head s, takes f)) ss fs.

(** What [k] delivered frames have done to memory and to the interrupt line. *)
Definition frames_done (k : nat) (ss : list RxBuf) (fs : list bytes) (i : Z) (w w' : World) : Prop :=
  w_log w' = w_log w ++ mjoin (replicate k net_irqs) ∧
  used_idx (w_ram w') u = Ok (u16 (i + Z.of_nat k)) ∧ stable prot (w_ram w) (w_ram w') ∧
  (∀ j s f, (j < k)%nat → ss !! j = Some s → fs !! j = Some f →
     load (w_ram w') (rb_buf s) (Z.to_nat (takes f)) = Ok (replicate 12 0 ++ f)) ∧
  (Z.of_nat (length ss) ≤ kQueueSize → returned kQueueSize u (w_ram w') i (take k (receipts ss fs))) ∧
  (∀ q l, clear kQueueSize u i (length ss) q l → Forall (λ s, disjoint (rb_buf s) (rb_cap s) q l) ss →
     agree (w_ram w) (w_ram w') q l).

Lemma frames_done_0 ss fs i w : used_idx (w_ram w) u = Ok i → 0 ≤ i < 0x10000 → frames_done 0 ss fs i w w.
Proof.
  intros H Hi. unfold frames_done. cbn [replicate mjoin list_join]. rewrite app_nil_r, Z.add_0_r, u16_id by done.
  split_and!; try done. intros. lia.
Qed.

Lemma disjoint_sub x l l' y k : disjoint x l y k → l' ≤ l → disjoint x l' y k.
Proof. unfold disjoint. lia. Qed.

Lemma rx_buf_spares_ring m s q k :
  rx_buf m s → u ≤ q → q + k ≤ u + used_bytes kQueueSize → disjoint (rb_buf s) (rb_cap s) q k.
Proof.
  intros (_ & Hc & _ & _ & _ & _ & Hsp) H1 H2.
  assert (disjoint u (used_bytes kQueueSize) (rb_buf s) (rb_cap s)) as Hd.
  { apply (spares_disjoint _ prot); [done|lia|done]. }
  unfold disjoint in *. lia.
Qed.

(** With no buffer left the rest of the queue is dropped. *)
Lemma drain_drops fuel fs : ∀ n w, rx_queue n = fs →
  ring_ptrs (w_ram w) (r_q0 (regs n)) = Some (d, a, u) → avail_idx (w_ram w) a = Ok idx →
  last_avail (r_q0 (regs n)) = idx → rx_drain fuel (length fs) n w = Ok (set_rx_queue n [], w).
Proof.
  induction fs as [|f fs IH]; intros n w Hq Hp Hai Hl; cbn [length rx_drain].
  - f_equal. f_equal. destruct n. cbn in *. by subst.
  - unfold rx_flush_one, do_feed_rx. rewrite Hq. cbn [regs set_rx_queue]. rewrite Hp, Hai, bind_Ok, Hl, Z.eqb_refl, bind_Ok.
    by rewrite (IH (set_rx_queue n fs)).
Qed.

(** One frame into the first buffer. *)
Lemma feed_buf fuel n w f i s :
  ring_ptrs (w_ram w) (r_q0 (regs n)) = Some (d, a, u) → rings kQueueSize prot d a u (w_ram w) →
  avail_idx (w_ram w) a = Ok idx → used_idx (w_ram w) u = Ok i → last_avail (r_q0 (regs n)) ≠ idx →
  avail_ring (w_ram w) a (last_avail (r_q0 (regs n)) mod kQueueSize) = Ok (rb_head s) →
  rx_buf (w_ram w) s → fits_buf s f →
  ∃ w', do_feed_rx fuel n w f = Ok (fed n, w') ∧
    load (w_ram w') (rb_buf s) (Z.to_nat (takes f)) = Ok (replicate 12 0 ++ f) ∧
    used_elem kQueueSize u (w_ram w') i (rb_head s) (takes f) ∧
    used_idx (w_ram w') u = Ok (u16 (i + 1)) ∧ stable prot (w_ram w) (w_ram w') ∧ w_log w' = w_log w ++ net_irqs ∧
    (∀ q k, disjoint (u + 2) 2 q k → disjoint (used_slot kQueueSize u i) 8 q k → disjoint (rb_buf s) (rb_cap s) q k →
       agree (w_ram w) (w_ram w') q k).
Proof.
  intros Hp Hr Hai Hui Hne Hav (Hh & Hc & (al & Ha & Hg) & Hl & (fl & Hf) & Hin & Hsp) (Hwf & Hnil & Hcap).
  destruct (feed_frame prot d a u idx i fuel n w f (rb_head s) al (rb_buf s) (rb_cap s) fl)
    as (w' & E & L & F1 & F2 & U & S & G & A); try done.
  - unfold takes in Hcap. lia.
  - apply in_ram_spec in Hin. apply in_ram_spec. unfold takes in Hcap. lia.
  - intros x Hx. apply Hsp. unfold takes in Hcap. lia.
  - exists w'. split_and!; try done. intros q k H1 H2 H3. apply A; [done..|]. eapply disjoint_sub; [exact H3|exact Hcap].
Qed.

Lemma drain_fills fuel fs : ∀ ss n w i,
  rx_queue n = fs → ring_ptrs (w_ram w) (r_q0 (regs n)) = Some (d, a, u) → rings kQueueSize prot d a u (w_ram w) →
  0 ≤ idx < 0x10000 → 0 ≤ last_avail (r_q0 (regs n)) < 0x10000 → 0 ≤ i < 0x10000 →
  avail_idx (w_ram w) a = Ok idx → used_idx (w_ram w) u = Ok i →
  queued kQueueSize a rb_head rx_buf (w_ram w) (last_avail (r_q0 (regs n))) ss → apart ss →
  Z.of_nat (length ss) = u16 (idx - last_avail (r_q0 (regs n))) →
  (∀ j s f, ss !! j = Some s → fs !! j = Some f → fits_buf s f) →
  let k := (length ss `min` length fs)%nat in
  ∃ w', rx_drain fuel (length fs) n w = Ok (feed_times k (set_rx_queue n []), w') ∧ frames_done k ss fs i w w'.
Proof.
  induction fs as [|f fs IH]; intros ss n w i Hq Hp Hr Hidx Hl Hi Hai Hui Hss Hd Hlen Hfit k.
  { exists w. unfold k. rewrite Nat.min_0_r. split; [|by apply frames_done_0]. destruct n. cbn in *. by subst. }
  destruct ss as [|s ss].
  { exists w. split; [|by apply frames_done_0]. apply drain_drops; try done. cbn in Hlen. zlia. }
  inversion Hss as [|? ? ? Hav Hg Hq']; subst. destruct Hd as [Hd1 Hd2]. cbn [length] in Hlen.
  destruct (feed_buf fuel (set_rx_queue n fs) w f i s) as (w1 & E & L1 & F1 & U1 & S1 & G1 & A1); try done.
  { cbn. intros Heq. rewrite Heq in Hlen. zlia. }
  { by apply (Hfit 0%nat). }
  destruct (IH ss (fed (set_rx_queue n fs)) w1 (u16 (i + 1))) as (w' & E' & G' & U' & S' & L' & R' & A');
    try done; try apply u16_range; try (cbn; zlia).
  { rewrite <- Hp. unfold ring_ptrs. cbn. by rewrite !(gpa_to_hva_same (w_ram w) (w_ram w1)) by apply S1. }
  { by eapply rings_stable. }
  { by rewrite (avail_idx_stable kQueueSize prot d a u (w_ram w)). }
  { eapply queued_stable; [| |done|done|done]; [done|]. apply rx_buf_stable. }
  { intros j s' f' H1 H2. by apply (Hfit (S j)). }
  exists w'. split.
  { cbn [length rx_drain]. unfold rx_flush_one. rewrite Hq, E, bind_Ok. exact E'. }
  unfold frames_done, k. cbn [length Nat.min replicate mjoin list_join]. split.
  { rewrite G', G1, <- app_assoc. done. }
  split; [rewrite U'; f_equal; zlia|]. split; [by etrans|]. split; [|split].
  - intros [|j] s' f' Hj Hs' Hf'; cbn in Hs', Hf'; [|apply (L' j); [lia|done..]].
    injection Hs' as <-. injection Hf' as <-. rewrite (load_agree (w_ram w1)); [done|apply S'|].
    destruct Hg as (_ & Hc & _ & _ & _ & _ & Hsp). destruct (Hfit 0%nat s f eq_refl eq_refl) as (_ & _ & Hcap).
    replace (Z.of_nat (Z.to_nat (takes f))) with (takes f) by (unfold takes; lia). apply A'.
    + apply clear_ring; [done|]. apply (spares_disjoint _ prot); [done|unfold takes; lia|]. intros x Hx. apply Hsp. lia.
    + eapply Forall_impl; [exact Hd1|]. intros s' Hs'. cbn in Hs'. unfold disjoint in *. lia.
  - intros Hn. apply (returned_cons kQueueSize u net_queue_divides (w_ram w1)); [apply S'| |done|apply R'; lia].
    apply A'; [apply clear_slot; [done|apply net_queue_divides|lia]|].
    pose proof (used_slot_range kQueueSize u eq_refl i). eapply Forall_impl; [by eapply queued_good|].
    intros s' Hs'. eapply rx_buf_spares_ring; [exact Hs'|lia..].
  - intros q l Hq1 Hq2. apply Forall_cons in Hq2 as [Hq2 Hq3]. pose proof (proj1 Hq1) as Hq0.
    apply (clear_S kQueueSize u net_queue_divides) in Hq1 as [Hq1 Hq1']. eapply agree_trans; [by apply A1|by apply A'].
Qed.
End ring.
End path.

(** C23. Host frames reach the guest in order.  In any reachable state of the
    device's threads in which the flush thread holds no frame, with the receive
    buffers [ss] published and large enough, the flush thread left alone feeds
    the whole queue: the first frames are stored in full, each behind a zero
    virtio header in a buffer of its own, in order, returned through the used
    ring with its length and announced by an interrupt; the frames beyond the last buffer are
    lost; only the used ring and the buffers of guest memory change. *)
Theorem net_rx_stream {St : Type} {HS : NetApi St} (fuel : nat) (prot : Z → Prop) (d a u idx i : Z)
    (n0 : Net St) (w0 : World) (tr0 : list Label) (x : RxSys) (ss : list RxBuf) :
  trace (rx_step fuel) (Rx0 n0 w0) tr0 x → stop_rx x = false → in_hand (flush x) = [] →
  ring_ptrs (w_ram (host x)) (r_q0 (regs (net x))) = Some (d, a, u) →
  rings kQueueSize prot d a u (w_ram (host x)) → wf_regs kQueueSize (regs (net x)) →
  avail_idx (w_ram (host x)) a = Ok idx → used_idx (w_ram (host x)) u = Ok i →
  queued kQueueSize a rb_head (rx_buf prot d u) (w_ram (host x)) (last_avail (r_q0 (regs (net x)))) ss →
  apart ss → Z.of_nat (length ss) = u16 (idx - last_avail (r_q0 (regs (net x)))) →
  (∀ j s f, ss !! j = Some s → rx_queue (net x) !! j = Some f → fits_buf s f) →
  let k := (length ss `min` length (rx_queue (net x)))%nat in
  ∃ tr y, trace (flush_step fuel) x tr y ∧ feeds tr = rx_queue (net x) ∧ rx_queue (net y) = [] ∧
    last_avail (r_q0 (regs (net y))) = u16 (last_avail (r_q0 (regs (net x))) + Z.of_nat k) ∧
    used_idx (w_ram (host y)) u = Ok (u16 (i + Z.of_nat k)) ∧
    (Z.of_nat (length ss) ≤ kQueueSize →
       returned kQueueSize u (w_ram (host y)) i (receipts ss (rx_queue (net x)))) ∧
    (∀ j s f, (j < k)%nat → ss !! j = Some s → rx_queue (net x) !! j = Some f →
       load (w_ram (host y)) (rb_buf s) (Z.to_nat (takes f)) = Ok (replicate 12 0 ++ f)) ∧
    w_log (host y) = w_log (host x) ++ mjoin (replicate k [SetSpi 51 true; SetSpi 51 false]) ∧
    stable prot (w_ram (host x)) (w_ram (host y)).
Proof.
  intros Tr Ht Hh Hp Hr Hw Hai Hui Hss Hd Hlen Hfit k.
  pose proof (trace_ok fuel (rx_step fuel) _ _ _ (λ _ _ _ H, H) (rx_ok_start n0 w0) Tr) as Hok.
  pose proof (wf_last _ _ (wr_q0 _ _ Hw)) as Hl.
  pose proof (load16_range _ _ _ (rg_wf _ _ _ _ _ _ Hr) Hai) as Hidx.
  pose proof (load16_range _ _ _ (rg_wf _ _ _ _ _ _ Hr) Hui) as Hi.
  destruct (drain_fills prot d a u idx fuel (rx_queue (net x)) ss (net x) (host x) i)
    as (w' & E & G & U & S & L & R & _); try done.
  fold k in E, G, U, L, R. rewrite take_ge in R by (unfold receipts, k; rewrite length_zip_with; lia).
  assert (∃ tr y, trace (flush_step fuel) x tr y ∧ feeds tr = rx_queue (net x) ∧
    net y = feed_times k (set_rx_queue (net x) []) ∧ host y = w') as (tr & y & T & F & En & Eh).
  { destruct (decide (to_pop (flush x) = 0%nat)) as [H0|H0].
    - assert (rx_queue (net x) = []) as Eq.
      { apply (ro_sleep _ Hok). destruct (flush x) eqn:Ef; try done. pose proof (ro_exit _ Hok Ef). congruence. }
      unfold k in *. rewrite Eq in *. cbn in E. injection E as E1 E2. exists [], x. split_and!; try done. apply tr_nil.
    - destruct (drain_trace fuel _ x _ _ Hok Ht H0 eq_refl E) as (tr & y & T & F & En & Eh & _). by exists tr, y. }
  exists tr, y. rewrite En, Eh, <- feed_times_queue. split_and!; try done.
  cbn [regs set_rx_queue]. by apply feed_times_last.
Qed.

(** ** Witness: two frames arrive for a blocked thread, one buffer is published *)
Definition px_state : RxSys :=
  mkRx (set_rx_queue vx_net [[1; 2; 3]; [4]]) vx_rx_world false false FWoken DNone.

Lemma px_reached : trace (rx_step 1) (Rx0 rx_idle vx_rx_world)
  (replicate 4 Quiet ++ [Arrive [1; 2; 3]; Arrive [4]]) px_state.
Proof.
  eapply tr_step; [left; by apply fs_top|]. eapply tr_step; [left; apply fs_lock; auto|].
  eapply tr_step; [left; by apply fs_no|]. eapply tr_step; [left; by apply fs_block|].
  eapply tr_step; [right; right; by apply ws_arrive|]. eapply tr_step; [right; right; by apply ws_arrive|apply tr_nil].
Qed.

Lemma px_rings : rings kQueueSize fx_ring_prot fx_d fx_a fx_u (w_ram vx_rx_world).
Proof.
  apply fx_rings; [| |done|done|apply fx_u_ring_prot].
  - unfold vx_rx_world, fx_avail, fx_desc. by repeat (etrans; [|apply same_map_pokes]).
  - apply wf_fx_avail, wf_fx_desc, wf_fx_ram.
Qed.

Lemma px_buf : rx_buf fx_ring_prot fx_d fx_u (w_ram vx_rx_world) (mkRxBuf 0 fx_buf 64).
Proof.
  split; [done|]. split; [done|]. split; [by exists (fx_base + fx_buf); split; vm_compute|].
  split; [by vm_compute|]. split; [by exists 2; vm_compute|]. split; [by vm_compute|].
  intros x Hx [H|H]; unfold fx_ring_prot, in_used, used_bytes, kQueueSize, fx_buf, fx_d, fx_a, fx_u in *;
    cbn [rb_cap rb_buf] in Hx; lia.
Qed.

Lemma net_rx_stream_witness :
  ∃ tr y, trace (flush_step 1) px_state tr y ∧ feeds tr = [[1; 2; 3]; [4]] ∧ used_idx (w_ram (host y)) fx_u = Ok 1 ∧
    used_elem kQueueSize fx_u (w_ram (host y)) 0 0 15 ∧ load (w_ram (host y)) fx_buf 15 = Ok (replicate 12 0 ++ [1; 2; 3]).
Proof.
  destruct (net_rx_stream 1 fx_ring_prot fx_d fx_a fx_u 1 0 rx_idle vx_rx_world
    (replicate 4 Quiet ++ [Arrive [1; 2; 3]; Arrive [4]]) px_state [mkRxBuf 0 fx_buf 64])
    as (tr & y & T & F & _ & _ & U & R & L & _).
  - apply px_reached.
  - done.
  - done.
  - by vm_compute.
  - apply px_rings.
  - apply wf_vx_regs.
  - by vm_compute.
  - by vm_compute.
  - apply queued_cons; [by vm_compute|apply px_buf|apply queued_nil].
  - by split.
  - by vm_compute.
  - intros [|j] s f Hs Hf; [|done]. injection Hs as <-. injection Hf as <-. split; [by apply wf_bytesb_ok|by split].
  - exists tr, y. split; [exact T|]. split; [exact F|]. split; [exact U|].
    split; [exact (R ltac:(done) 0%nat (0, 15) eq_refl)|].
    exact (L 0%nat (mkRxBuf 0 fx_buf 64) [1; 2; 3] Nat.lt_0_1 eq_refl eq_refl).
Defined.
