(* ===== verification/GpuRing.v ===== *)
(** * GpuRing: the display's control queue runs the guest's commands

    The control queue of src/src/hvf/virtio_gpu.cpp against what it promises: the
    published commands run in order, once each, with their answers stored in the
    guest's response buffers, and the frames they stage reach the callback. *)

From S2P Require Import Prelude Bytes GuestMem Virtq VirtqSpec World VirtioRegs Fixtures GpuResource.
From S2P Require Import VirtioGpu VirtioGpuThms VirtioGpuWit.

(** A piece of a chain: its place, its length, whether the device writes it. *)
Record Piece := mkPiece { pc_at : Z; pc_len : Z; pc_out : bool }.

(** The chain from descriptor [c]. *)
Inductive pieces (m : Ram) (d : Z) : Z → list Piece → Prop :=
  | pieces_last c f al p l :
      0 ≤ c < kQueueSize → desc_addr m d c = Ok al → gpa_to_hva m al = Some p → desc_len m d c = Ok l →
      desc_flags m d c = Ok f → has_flag f VRING_DESC_F_NEXT = false →
      pieces m d c [mkPiece p l (has_flag f VRING_DESC_F_WRITE)]
  | pieces_next c f al p l c' ps :
      0 ≤ c < kQueueSize → desc_addr m d c = Ok al → gpa_to_hva m al = Some p → desc_len m d c = Ok l →
      desc_flags m d c = Ok f → has_flag f VRING_DESC_F_NEXT = true → desc_next m d c = Ok c' → pieces m d c' ps →
      pieces m d c (mkPiece p l (has_flag f VRING_DESC_F_WRITE) :: ps).

(** The request of a chain, and its last writable piece. *)
Definition request (m : Ram) (ps : list Piece) : bytes :=
  mjoin ((λ p, if pc_out p then [] else peeks m (pc_at p) (Z.to_nat (pc_len p))) <$> ps).
Definition response (ps : list Piece) (r : option (Z * Z)) : option (Z * Z) :=
  foldl (λ r p, if pc_out p then Some (pc_at p, pc_len p) else r) r ps.

(** A published command: head descriptor, pieces, response buffer. *)
Record CtlJob := mkCtlJob { cj_head : Z; cj_pieces : list Piece; cj_at : Z; cj_cap : Z }.

Lemma queue_size_divides : (kQueueSize | 0x10000).
Proof. by exists 256. Qed.

Section ring.
Context (alloc : Z → bool) (prot : Z → Prop) (d a u : Z).

Definition piece_ok (m : Ram) (p : Piece) : Prop :=
  pc_out p = false → in_ram m (pc_at p) (Z.to_nat (pc_len p)) = true ∧ covers prot (pc_at p) (pc_len p).

Definition ctl_good (m : Ram) (j : CtlJob) : Prop :=
  pieces m d (cj_head j) (cj_pieces j) ∧ Forall (piece_ok m) (cj_pieces j) ∧ (length (cj_pieces j) ≤ 64)%nat ∧
  response (cj_pieces j) None = Some (cj_at j, cj_cap j) ∧ request m (cj_pieces j) ≠ [] ∧
  sizeof_GpuCtrlHdr ≤ cj_cap j < 2 ^ 32 ∧ in_ram m (cj_at j) (Z.to_nat (cj_cap j)) = true ∧
  spares (prot_all kQueueSize prot u) (cj_at j) (cj_cap j).

Lemma request_cons m p ps :
  request m (p :: ps) = (if pc_out p then [] else peeks m (pc_at p) (Z.to_nat (pc_len p))) ++ request m ps.
Proof. done. Qed.

Lemma pieces_head m c ps : pieces m d c ps → 0 ≤ c < kQueueSize.
Proof. by destruct 1. Qed.

Lemma pieces_stable m m' c ps :
  covers prot d (16 * kQueueSize) → stable prot m m' → pieces m d c ps → pieces m' d c ps.
Proof.
  intros Hd Hs. induction 1 as [c f al p l Hc|c f al p l c' ps Hc];
    destruct (desc_stable prot kQueueSize d Hd m m' c Hs Hc) as (E1 & E2 & E3 & E4);
    [eapply pieces_last|eapply pieces_next]; rewrite ?E1, ?E2, ?E3, ?E4; try done;
    by rewrite (gpa_to_hva_same m) by apply Hs.
Qed.

Lemma request_stable m m' ps :
  stable prot m m' → Forall (piece_ok m) ps → request m' ps = request m ps.
Proof.
  intros Hs. induction 1 as [|p ps Hp _ IH]; [done|]. rewrite !request_cons, IH. f_equal.
  destruct (pc_out p) eqn:E; [done|]. destruct (Hp E) as [_ Hc].
  destruct (decide (0 ≤ pc_len p)) as [H0|H0]; [|by replace (Z.to_nat (pc_len p)) with 0%nat by lia].
  apply peeks_agree. rewrite Z2Nat.id by done. by apply (stable_agree prot).
Qed.

Lemma pieces_ok_same m m' ps : same_map m m' → Forall (piece_ok m) ps ↔ Forall (piece_ok m') ps.
Proof. intros Hs. apply Forall_iff. intros p. unfold piece_ok. by rewrite (in_ram_same m m'). Qed.

Lemma ctl_good_stable m m' j :
  stable prot m m' → rings kQueueSize prot d a u m → ctl_good m j → ctl_good m' j.
Proof.
  intros Hs Hr (Hp & Hk & Hl & Hresp & Hreq & Hc & Hin & Hsp).
  split; [by eapply pieces_stable; [apply (rg_table _ _ _ _ _ _ Hr)|..]|].
  split; [apply (pieces_ok_same m); [apply Hs|done]|].
  rewrite (request_stable m m'), (in_ram_same m) by (done || apply Hs). exact (conj Hl (conj Hresp (conj Hreq (conj Hc (conj Hin Hsp))))).
Qed.

(** The walk over a chain. *)
Lemma gather_pieces m c ps : pieces m d c ps → ∀ steps req r,
  (length ps ≤ steps)%nat → Forall (piece_ok m) ps →
  gather steps m d c req r = Ok (req ++ request m ps, response ps r).
Proof.
  assert (∀ p l f req r, piece_ok m (mkPiece p l (has_flag f VRING_DESC_F_WRITE)) →
    (if has_flag f VRING_DESC_F_WRITE then Ok (req, Some (p, l)) else bs ← load m p (Z.to_nat l); Ok (req ++ bs, r)) =
    Ok (req ++ (if has_flag f VRING_DESC_F_WRITE then [] else peeks m p (Z.to_nat l)),
        (if has_flag f VRING_DESC_F_WRITE then Some (p, l) else r))) as Hone.
  { intros p l f req r Hp. unfold piece_ok in Hp. cbn in Hp. destruct (has_flag f VRING_DESC_F_WRITE).
    - by rewrite app_nil_r.
    - destruct (Hp eq_refl) as [Hin _]. by rewrite load_in. }
  induction 1 as [c f al p l Hc E1 E2 E3 E4 E5|c f al p l c' ps Hc E1 E2 E3 E4 E5 E6 _ IH];
    intros steps req r Hs Hk; (destruct steps as [|steps]; [cbn in Hs; lia|]); cbn [gather];
    rewrite E1, bind_Ok, E2, E4, bind_Ok, E3, bind_Ok; apply Forall_cons in Hk as [Hp Hk];
    rewrite (Hone p l f req r Hp), bind_Ok, E5; cbn [negb].
  - rewrite request_cons. cbn. by rewrite app_nil_r.
  - rewrite E6, bind_Ok, IH by (done || (cbn in Hs; lia)). by rewrite request_cons, app_assoc.
Qed.

(** Commands do not look at the registers, and answer within the buffer. *)
Lemma handle_command_regs m g r req cap :
  handle_command alloc m (set_regs g r) req cap =
  ('(g', out) ← handle_command alloc m g req cap; Ok (set_regs g' r, out)).
Proof.
  unfold handle_command, sized, create_2d, unref, set_scanout_cmd, flush, transfer, attach, detach. cbv zeta.
  change (find_resource (set_regs g r)) with (find_resource g).
  repeat match goal with
  | |- (if ?b then _ else _) = _ => destruct b; try done
  | |- context [match find_resource ?g ?i with _ => _ end] => destruct (find_resource g i); try done
  | |- context [guard_res ?b ?e] => destruct (guard_res b e); try done
  | |- context [transfer_to_host ?m ?r ?t ?o] => destruct (transfer_to_host m r t o); try done
  end; cbn; repeat match goal with |- context [if ?b then _ else _] => destruct b end; done.
Qed.

Lemma handle_command_fits m g req cap g' out :
  sizeof_GpuCtrlHdr ≤ cap → handle_command alloc m g req cap = Ok (g', out) → Z.of_nat (length out) ≤ cap.
Proof.
  intros Hc H.
  assert (∀ t, Z.of_nat (length (fenced_hdr t req)) ≤ cap) as Hf by (intros t; unfold fenced_hdr; by case_match).
  unfold handle_command, sized, create_2d, unref, set_scanout_cmd, flush, transfer,
    attach, detach, err, ok_nodata in H. cbv zeta in H. unfold sizeof_GpuCtrlHdr in Hc.
  repeat match type of H with
  | (if ?b then _ else _) = Ok _ => destruct b
  | (match find_resource ?g ?i with _ => _ end) = Ok _ => destruct (find_resource g i)
  | Ok (match find_resource ?g ?i with _ => _ end) = Ok _ => destruct (find_resource g i)
  end; inv_bind; first [apply Hf | cbn; lia | rewrite length_take; lia].
Qed.

(** ** Pixels outside the device's stores

    A transfer reads the same pixels in every memory that agrees on the backing
    store, so protecting it is enough for a transfer to [run]. *)
Definition entry_kept (m : Ram) (e : MemEntry) : Prop :=
  0 ≤ e_gpa e ∧ 0 ≤ e_len e ∧ e_gpa e + e_len e ≤ 2 ^ 64 ∧
  ∀ k p, 0 ≤ k < e_len e → gpa_to_hva m (e_gpa e + k) = Some p → prot p.

Definition backings_kept (m : Ram) (g : Gpu) : Prop :=
  map_Forall (λ _ r, Forall (entry_kept m) (r_backing r)) (resources g).

Lemma load_kept m m' e k n p :
  wf_ram m → stable prot m m' → entry_kept m e → 0 ≤ k → k + n ≤ e_len e →
  gpa_to_hva m (u64 (e_gpa e + k)) = Some p → load m' p (Z.to_nat n) = load m p (Z.to_nat n).
Proof.
  intros Hm Hs (H0 & Hl & H1 & Hp) Hk Hn E. unfold load. rewrite (in_ram_same m m') by apply Hs.
  destruct (in_ram m p _) eqn:Hin; [|done]. f_equal. apply peeks_agree. intros x Hx.
  rewrite u64_id in E by lia. apply gpa_to_hva_Some in E as (E1 & E2 & E3); [|done].
  apply in_ram_spec in Hin. apply Hs, (Hp (k + (x - p))); [lia|]. rewrite gpa_to_hva_in; [f_equal|..]; try done; lia.
Qed.

Lemma read_backing_kept m m' bk s e dst :
  wf_ram m → stable prot m m' → Forall (entry_kept m) bk → ∀ base buf c, 0 ≤ base →
  read_backing_loop m' bk s e base buf dst c = read_backing_loop m bk s e base buf dst c.
Proof.
  intros Hm Hs. induction 1 as [|en bk Hen _ IH]; intros base buf c Hb; cbn [read_backing_loop]; [done|].
  destruct (_ <=? _); [done|]. cbv zeta. rewrite (gpa_to_hva_same m m') by apply Hs.
  assert (0 ≤ u64 (base + e_len en) ≤ base + e_len en) as Hu.
  { destruct Hen as (_ & Hl & _). split; [apply u64_range|apply Z.mod_le; lia]. }
  destruct (Z.ltb_spec (Z.max base s) (Z.min (u64 (base + e_len en)) e)) as [Hlt|_]; [|rewrite !bind_Ok; apply IH, Hu].
  destruct (gpa_to_hva m _) as [p|] eqn:E;
    [rewrite (load_kept m m' en (Z.max base s - base)) by (done || lia); destruct (load _ _ _); [|done]|];
    rewrite ?bind_Ok; (destruct (buf_put _ _ _); [|done]); rewrite !bind_Ok; apply IH, Hu.
Qed.

Lemma transfer_rows_kept m m' r rc o x2 :
  wf_ram m → stable prot m m' → Forall (entry_kept m) (r_backing r) →
  ∀ n row buf, transfer_rows n m' r rc o x2 row buf = transfer_rows n m r rc o x2 row buf.
Proof.
  intros Hm Hs Hb. induction n as [|n IH]; intros row buf; cbn [transfer_rows]; [done|]. cbv zeta.
  unfold read_backing. rewrite (read_backing_kept m) by (done || lia).
  destruct (read_backing_loop _ _ _ _ _ _ _ _) as [[b c]|]; [|done]. rewrite !bind_Ok. apply IH.
Qed.

Lemma handle_command_kept m m' g req cap :
  wf_ram m → stable prot m m' → backings_kept m g →
  handle_command alloc m' g req cap = handle_command alloc m g req cap.
Proof.
  intros Hm Hs Hb. unfold handle_command, transfer, transfer_to_host, find_resource. cbv zeta.
  destruct (resources g !! fld req 48 4) as [r|] eqn:E; [|done]. by rewrite (transfer_rows_kept m) by (done || by eapply Hb).
Qed.
(** ** The specification: the commands one after another

    [runs m0 g js g' outs]: from [g] the commands [js], each on memory [m0], end
    in [g'] with the answers [outs].  The backing stores are kept, so that the
    answers stored in between do not change the pixels. *)
Inductive runs (m0 : Ram) : Gpu → list CtlJob → Gpu → list bytes → Prop :=
  | runs_nil g : runs m0 g [] g []
  | runs_cons g j g' out js g'' outs :
      backings_kept m0 g → handle_command alloc m0 g (request m0 (cj_pieces j)) (cj_cap j) = Ok (g', out) →
      runs m0 g' js g'' outs → runs m0 g (j :: js) g'' (out :: outs).

Fixpoint bumps (k : nat) (r : Regs) : Regs := match k with O => r | S k => bumps k (bump0 r) end.

Lemma bumps_last k : ∀ r, 0 ≤ last_avail (r_q0 r) < 0x10000 →
  last_avail (r_q0 (bumps k r)) = u16 (last_avail (r_q0 r) + Z.of_nat k).
Proof.
  induction k as [|k IH]; intros r Hr; cbn [bumps]; [by rewrite Z.add_0_r, u16_id|].
  rewrite IH by apply u16_range. cbn. zlia.
Qed.

Fixpoint replies_apart (js : list CtlJob) : Prop :=
  match js with
  | [] => True
  | j :: js => Forall (λ j', disjoint (cj_at j') (cj_cap j') (cj_at j) (cj_cap j)) js ∧ replies_apart js
  end.

(** One command: its answer in its buffer, its element in the used ring. *)
Lemma ctl_one_runs m0 g r w i j g' out :
  stable prot m0 (w_ram w) → rings kQueueSize prot d a u (w_ram w) → ctl_good (w_ram w) j →
  avail_ring (w_ram w) a (last_avail (r_q0 r) mod kQueueSize) = Ok (cj_head j) → used_idx (w_ram w) u = Ok i →
  wf_ram m0 → backings_kept m0 g → handle_command alloc m0 g (request m0 (cj_pieces j)) (cj_cap j) = Ok (g', out) →
  ∃ w', ctl_one alloc d a u (set_regs g r, w) = Ok (true, (set_regs g' (bump0 r), w')) ∧
    load (w_ram w') (cj_at j) (length out) = Ok out ∧ Z.of_nat (length out) ≤ cj_cap j ∧
    used_idx (w_ram w') u = Ok (u16 (i + 1)) ∧
    used_elem kQueueSize u (w_ram w') i (cj_head j) (Z.of_nat (length out)) ∧
    stable prot (w_ram w) (w_ram w') ∧ w_log w' = w_log w ∧
    (∀ q k, disjoint (u + 2) 2 q k → disjoint (used_slot kQueueSize u i) 8 q k → disjoint (cj_at j) (cj_cap j) q k →
       agree (w_ram w) (w_ram w') q k).
Proof.
  intros Hm Hr (Hp & Hk & Hl & Hresp & Hreq & Hc & Hin & Hsp) Hav Hui Hw0 Hb Hcmd.
  pose proof (proj2 (pieces_ok_same m0 (w_ram w) _ (st_map _ _ _ Hm)) Hk) as Hk0.
  rewrite (request_stable m0) in Hreq by done. rewrite <- (handle_command_kept m0 (w_ram w)) in Hcmd by done.
  pose proof (handle_command_fits _ _ _ _ _ _ (proj1 Hc) Hcmd) as Hfit.
  pose proof (handle_command_out _ _ _ _ _ _ _ Hcmd) as Hwf.
  assert (store (w_ram w) (cj_at j) out = Ok (pokes (w_ram w) (cj_at j) out)) as Hst.
  { apply store_in, in_ram_spec. apply in_ram_spec in Hin. lia. }
  assert (stable (prot_all kQueueSize prot u) (w_ram w) (pokes (w_ram w) (cj_at j) out)) as S1.
  { eapply stable_store; [exact Hst|done|]. intros x Hx. apply Hsp. lia. }
  destruct (publish_spec kQueueSize prot d a u (w_ram w) (pokes (w_ram w) (cj_at j) out) i (cj_head j)
    (Z.of_nat (length out))) as (m' & Em & S & U & F1 & F2 & A); try done.
  { pose proof (pieces_head _ _ _ Hp). unfold kQueueSize in *. lia. }
  { unfold fits, sizeof_GpuCtrlHdr in *. lia. }
  assert (disjoint u (used_bytes kQueueSize) (cj_at j) (cj_cap j)) as Hdis.
  { apply (spares_disjoint _ prot); [done|unfold sizeof_GpuCtrlHdr in Hc; lia|done]. }
  exists (with_ram w m'). split.
  { unfold ctl_one, ctl_last. cbn [fst snd regs set_regs]. rewrite Hav, bind_Ok.
    rewrite (gather_pieces _ _ _ Hp) by done. rewrite app_nil_l, bind_Ok, (request_stable m0), Hresp by done.
    unfold ctl_run. rewrite bool_decide_false by done. rewrite (proj2 (Z.leb_le _ _)) by apply Hc. cbn [negb andb].
    rewrite handle_command_regs, Hcmd, !bind_Ok.
    replace (if bool_decide (out = []) then Ok (w_ram w) else store (w_ram w) (cj_at j) out)
      with (Ok (pokes (w_ram w) (cj_at j) out)) by (case_bool_decide; [by subst|done]).
    by rewrite !bind_Ok, Em. }
  cbn [w_ram with_ram w_log]. split; [|split; [exact Hfit|split_and!; try done]].
  - rewrite (load_agree (pokes (w_ram w) (cj_at j) out)).
    + apply load_Ok. rewrite peeks_pokes. split; [|done].
      rewrite (in_ram_same (w_ram w)) by apply S1. apply in_ram_spec. apply in_ram_spec in Hin. lia.
    + by eapply push_used_wf.
    + apply (agree_sub _ _ (cj_at j) (cj_cap j)); [by apply A|lia..].
  - intros q k H1 H2 H3. eapply agree_trans; [|by eapply (publish_frame kQueueSize prot u (w_ram w))].
    apply agree_pokes. unfold disjoint in *. lia.
Qed.

Context (idx : Z) (m0 : Ram) (Hm0 : wf_ram m0).

(** The elements the commands leave in the used ring. *)
Definition answers (js : list CtlJob) (outs : list bytes) : list (Z * Z) :=
  zip_with (λ j out, (cj_head j, Z.of_nat (length out))) js outs.

Lemma reply_spares_ring m j q k :
  ctl_good m j → u ≤ q → q + k ≤ u + used_bytes kQueueSize → disjoint (cj_at j) (cj_cap j) q k.
Proof.
  intros (_ & _ & _ & _ & _ & Hc & _ & Hsp) H1 H2.
  assert (disjoint u (used_bytes kQueueSize) (cj_at j) (cj_cap j)) as Hd.
  { apply (spares_disjoint _ prot); [done|unfold sizeof_GpuCtrlHdr in Hc; lia|done]. }
  unfold disjoint in *. lia.
Qed.

Lemma drain_runs js : ∀ fuel g r w i g' outs,
  stable prot m0 (w_ram w) → rings kQueueSize prot d a u (w_ram w) →
  queued kQueueSize a cj_head ctl_good (w_ram w) (last_avail (r_q0 r)) js → replies_apart js →
  avail_idx (w_ram w) a = Ok idx → used_idx (w_ram w) u = Ok i →
  0 ≤ idx < 0x10000 → 0 ≤ last_avail (r_q0 r) < 0x10000 → 0 ≤ i < 0x10000 →
  Z.of_nat (length js) = u16 (idx - last_avail (r_q0 r)) → (length js ≤ fuel)%nat → runs m0 g js g' outs →
  ∃ w', drain ctl_last (λ s, avail_idx (w_ram s.2) a) (ctl_one alloc d a u) fuel (set_regs g r, w) =
      Ok (set_regs g' (bumps (length js) r), w') ∧
    w_log w' = w_log w ∧ used_idx (w_ram w') u = Ok (u16 (i + Z.of_nat (length js))) ∧
    stable prot (w_ram w) (w_ram w') ∧
    (∀ k j out, js !! k = Some j → outs !! k = Some out → load (w_ram w') (cj_at j) (length out) = Ok out) ∧
    (Z.of_nat (length js) ≤ kQueueSize → returned kQueueSize u (w_ram w') i (answers js outs)) ∧
    (∀ q l, clear kQueueSize u i (length js) q l → Forall (λ j, disjoint (cj_at j) (cj_cap j) q l) js →
       agree (w_ram w) (w_ram w') q l).
Proof.
  induction js as [|j js IH]; intros fuel g r w i g' outs Hm Hr Hq Hd Hai Hui Hidx Hl Hi Hlen Hf Hruns.
  { inversion Hruns; subst. exists w. cbn in Hlen. split.
    { apply (drain_done _ _ _ _ _ idx); [exact Hai|]. unfold ctl_last. cbn. zlia. }
    cbn [length]. rewrite Z.add_0_r, u16_id by done. split_and!; done. }
  inversion Hq as [|? ? ? Hav Hg Hq']; subst. inversion Hruns as [|? ? g1 out ? ? outs' Hb Hrun Hruns']; subst.
  destruct Hd as [Hd1 Hd2]. destruct fuel as [|fuel]; [cbn in Hf; lia|]. cbn [length] in Hlen, Hf.
  destruct (ctl_one_runs m0 g r w i j g1 out) as (w1 & E & L1 & Hfit & U1 & F1 & S1 & G1 & A1); try done.
  destruct (IH fuel g1 (bump0 r) w1 (u16 (i + 1)) g' outs') as (w' & E' & G' & U' & S' & L' & R' & A');
    try done; try apply u16_range; try (cbn; zlia).
  { by etrans. }
  { by eapply rings_stable. }
  { eapply queued_stable; [| |done|done|done]; [done|]. apply ctl_good_stable. }
  { by rewrite (avail_idx_stable kQueueSize prot d a u (w_ram w)). }
  exists w'. split.
  { rewrite (drain_step _ _ _ _ _ idx), E; [exact E'|exact Hai|].
    unfold ctl_last. cbn. intros Heq. rewrite Heq in Hlen. zlia. }
  split; [congruence|]. split; [rewrite U'; f_equal; cbn [length]; zlia|]. split; [by etrans|]. split; [|split].
  - intros [|k] j' out' Hj Ho; cbn in Hj, Ho; [|by apply (L' k)].
    injection Hj as <-. injection Ho as <-. rewrite (load_agree (w_ram w1)); [done|apply S'|].
    destruct Hg as (_ & _ & _ & _ & _ & Hc & _ & Hsp). apply (agree_sub _ _ (cj_at j) (cj_cap j)); [|lia..].
    apply A'; [|done]. apply clear_ring; [done|].
    apply (spares_disjoint _ prot); [done|unfold sizeof_GpuCtrlHdr in Hc; lia|done].
  - intros Hn. apply (returned_cons kQueueSize u queue_size_divides (w_ram w1)); [apply S'| |done|apply R'; cbn in Hn; lia].
    apply A'; [apply clear_slot; [done|apply queue_size_divides|cbn in Hn; lia]|].
    pose proof (used_slot_range kQueueSize u eq_refl i). eapply Forall_impl; [by eapply queued_good|].
    intros j' Hj'. eapply reply_spares_ring; [exact Hj'|lia..].
  - intros q l H1 H2. apply Forall_cons in H2 as [H2 H3]. pose proof (proj1 H1) as H0.
    apply (clear_S kQueueSize u queue_size_divides) in H1 as [H1 H1']. eapply agree_trans; [by apply A1|by apply A'].
Qed.

End ring.

(** C24. The display runs the guest's commands in order.  With the control queue
    ready and its rings well placed, let the published commands [js] be chains
    with a response buffer of at least a header each, apart from each other and
    from what the commands read, and let running them one after another on the
    guest's memory end in [g'] with the answers [outs].  Then the notification
    returns: the display is in the state of [g'], each answer is in the response
    buffer of its command, the used index has advanced by one for each and, when
    the commands are no more than the slots, the used ring holds their heads with
    the lengths of the answers, in order; every command has been consumed, one interrupt is raised, and the frames the
    flushes staged go to the callback, in order, after it; only the used ring and
    the response buffers of guest memory change. *)
Theorem gpu_ring_runs (alloc : Z → bool) (prot : Z → Prop) (fuel : nat) (g g' : Gpu) (w : World) (len d a u idx i : Z)
    (js : list CtlJob) (outs : list bytes) :
  ring_ptrs (w_ram w) (r_q0 (regs g)) = Some (d, a, u) → rings kQueueSize prot d a u (w_ram w) →
  wf_regs kQueueSize (regs g) → avail_idx (w_ram w) a = Ok idx → used_idx (w_ram w) u = Ok i →
  queued kQueueSize a cj_head (ctl_good prot d u) (w_ram w) (last_avail (r_q0 (regs g))) js → replies_apart js →
  Z.of_nat (length js) = u16 (idx - last_avail (r_q0 (regs g))) → (length js ≤ fuel)%nat →
  runs alloc prot (w_ram w) g js g' outs →
  ∃ w', write alloc fuel g w Reg.QueueNotify 0 len =
      Ok (set_pending (set_regs g' (set_irq (bumps (length js) (regs g)))) [], w') ∧
    last_avail (r_q0 (bumps (length js) (regs g))) = idx ∧
    used_idx (w_ram w') u = Ok (u16 (i + Z.of_nat (length js))) ∧
    (∀ k j out, js !! k = Some j → outs !! k = Some out → load (w_ram w') (cj_at j) (length out) = Ok out) ∧
    (Z.of_nat (length js) ≤ kQueueSize → returned kQueueSize u (w_ram w') i (answers js outs)) ∧
    w_log w' = w_log w ++ [SetSpi 52 true; SetSpi 52 false] ++
      (if frame_cb g' then frame_event <$> pending g' else []) ∧
    (∀ q l, disjoint u (used_bytes kQueueSize) q l → Forall (λ j, disjoint (cj_at j) (cj_cap j) q l) js →
       agree (w_ram w) (w_ram w') q l).
Proof.
  intros Hp Hr Hw Hai Hui Hq Hd Hlen Hf Hruns.
  pose proof (wf_last _ _ (wr_q0 _ _ Hw)) as Hl. pose proof (rg_wf _ _ _ _ _ _ Hr) as Hm.
  pose proof (load16_range _ _ _ Hm Hai) as Hidx. pose proof (load16_range _ _ _ Hm Hui) as Hi.
  destruct (drain_runs alloc prot d a u idx (w_ram w) Hm js fuel g (regs g) w i g' outs) as (w' & E & G & U & S & L & R & A);
    try done.
  replace (set_regs g (regs g)) with g in E by (by destruct g).
  eexists. split.
  { unfold write, write_locked. const_eqb. cbn [Z.eqb]. unfold process_controlq. rewrite Hp, E, !bind_Ok. done. }
  cbn. rewrite G, <- app_assoc. split_and!; try done.
  - rewrite bumps_last by done. zlia.
  - intros q l H1. apply A. by apply clear_ring.
Qed.

(** ** Witness: a transfer and a flush of the resource, in one notification *)
Definition gr_ram : Ram :=
  fx_avail 2 [0; 2]
    (fx_desc 0 (fx_base + fx_hdr) 56 1 1 (fx_desc 1 (fx_base + fx_st) 24 2 0
    (fx_desc 2 (fx_base + fx_hdr + 64) 48 1 3 (fx_desc 3 (fx_base + fx_st + 24) 24 2 0
       (pokes (pokes (pokes fx_ram fx_buf [1; 2; 3; 4; 5; 6; 7; 8; 9; 10]) fx_hdr gx_transfer) (fx_hdr + 64) gx_flush))))).
Definition gr_world : World := mkWorld gr_ram [].
Definition gr_prot (x : Z) : Prop := fx_ring_prot x ∨ fx_hdr ≤ x < fx_st.
Definition gr_jobs : list CtlJob :=
  [mkCtlJob 0 [mkPiece fx_hdr 56 false; mkPiece fx_st 24 true] fx_st 24;
   mkCtlJob 2 [mkPiece (fx_hdr + 64) 48 false; mkPiece (fx_st + 24) 24 true] (fx_st + 24) 24].
Definition gr_image : bytes := [1; 2; 3; 4; 5; 6; 7; 8; 9; 10; 0; 0; 0; 0; 7; 7].
Definition gr_shown : Gpu := put_resource gx_gpu 5 (set_host_buf gx_resource gr_image).
Definition gr_after : Gpu := set_pending gr_shown [mkFrame gr_image 2 2 8].

Lemma gr_rings : rings kQueueSize gr_prot fx_d fx_a fx_u gr_ram.
Proof.
  apply fx_rings; [| |done|by left|].
  - unfold gr_ram, fx_avail, fx_desc. by repeat (etrans; [|apply same_map_pokes]).
  - unfold gr_ram. apply wf_fx_avail, wf_fx_desc, wf_fx_desc, wf_fx_desc, wf_fx_desc.
    apply wf_pokes; [apply wf_pokes; [apply wf_pokes; [apply wf_fx_ram|]|]|]; by apply wf_bytesb_ok.
  - intros x Hx. unfold gr_prot, fx_ring_prot, fx_hdr, fx_st, fx_u, fx_d, fx_a in *. lia.
Qed.

(** The conditions on a two-piece command, as a check. *)
Definition gr_job_ok (c l at_ r : Z) : bool :=
  match desc_addr gr_ram fx_d c, desc_len gr_ram fx_d c, desc_flags gr_ram fx_d c, desc_next gr_ram fx_d c with
  | Ok al, Ok l', Ok f, Ok c' =>
      match desc_addr gr_ram fx_d c', desc_len gr_ram fx_d c', desc_flags gr_ram fx_d c' with
      | Ok al', Ok l'', Ok f' =>
          bool_decide (gpa_to_hva gr_ram al = Some at_ ∧ l' = l ∧ f = 1 ∧ gpa_to_hva gr_ram al' = Some r ∧ l'' = 24 ∧
            f' = 2 ∧ 0 ≤ c < kQueueSize ∧ 0 ≤ c' < kQueueSize ∧ in_ram gr_ram at_ (Z.to_nat l) = true ∧
            in_ram gr_ram r 24 = true ∧ 1 ≤ l ∧ fx_hdr ≤ at_ ∧ at_ + l ≤ fx_st ∧ fx_st ≤ r)
      | _, _, _ => false end
  | _, _, _, _ => false end.

Lemma gr_job (c l at_ r : Z) : gr_job_ok c l at_ r = true →
  ctl_good gr_prot fx_d fx_u gr_ram (mkCtlJob c [mkPiece at_ l false; mkPiece r 24 true] r 24).
Proof.
  unfold gr_job_ok. intros H. repeat (case_match; [|done]). apply bool_decide_eq_true in H as Hb. clear H.
  destruct Hb as (E1 & -> & -> & E2 & -> & -> & B1 & B2 & B3 & B4 & B5 & B6 & B7 & B8).
  split.
  { change false with (has_flag 1 VRING_DESC_F_WRITE). eapply pieces_next; try done.
    change true with (has_flag 2 VRING_DESC_F_WRITE). by eapply pieces_last. }
  split. { apply Forall_cons. split; [|by apply Forall_singleton]. intros _. split; [done|]. intros x Hx. right. cbn in Hx. lia. }
  split; [cbn; lia|]. split; [done|]. split.
  { intros E. cbn [cj_pieces] in E. rewrite request_cons in E. cbn [pc_out pc_at pc_len] in E. apply (f_equal length) in E.
    rewrite length_app, length_peeks in E. cbn in E. lia. }
  split; [done|]. split; [done|]. cbn [cj_at cj_cap].
  intros x Hx [[Hx'|Hx']|Hx']; unfold fx_ring_prot, in_used, used_bytes, kQueueSize, fx_st, fx_d, fx_a, fx_u in *; lia.
Qed.

Lemma gr_kept g : r_backing <$> resources g !! 5 = Some (r_backing gx_resource) → dom (resources g) = {[5]} →
  backings_kept gr_prot gr_ram g.
Proof.
  intros E Hd id r Hr. assert (id = 5) as ->.
  { assert (id ∈ dom (resources g)) as Hin by by apply elem_of_dom. rewrite Hd in Hin. set_solver. }
  rewrite Hr in E. injection E as ->. assert (gpa_to_hva gr_ram 0x1000 = None ∧ wf_ram gr_ram ∧ ram_gpa gr_ram = fx_base)
    as (_ & Hm & E2) by (split; [by vm_compute|split; [apply gr_rings|by vm_compute]]).
  apply Forall_cons; split; [|apply Forall_singleton]; (split; [done|split; [done|split; [done|]]]); cbn [e_gpa e_len];
    intros k p Hk Hp; (apply gpa_to_hva_Some in Hp; [|done]).
  - right. unfold fx_hdr, fx_buf, fx_st in *. lia.
  - rewrite E2 in Hp. unfold fx_base, kGpaRamBase in *. lia.
Qed.

Lemma gr_runs : runs gx_alloc gr_prot gr_ram gx_gpu gr_jobs gr_after [ok_nodata gx_transfer; ok_nodata gx_flush].
Proof.
  eapply (runs_cons _ _ _ _ _ gr_shown); [by apply gr_kept|by vm_compute|].
  eapply runs_cons; [by apply gr_kept|by vm_compute|apply runs_nil].
Qed.

Lemma gpu_ring_runs_witness :
  ∃ w', write gx_alloc 2 gx_gpu gr_world Reg.QueueNotify 0 4 =
      Ok (set_pending (set_regs gr_after (set_irq (bumps 2 (regs gx_gpu)))) [], w') ∧
    used_idx (w_ram w') fx_u = Ok 2 ∧ load (w_ram w') (fx_st + 24) 24 = Ok (ok_nodata gx_flush) ∧
    used_elem kQueueSize fx_u (w_ram w') 1 2 24 ∧ w_log w' = [SetSpi 52 true; SetSpi 52 false; Frame gr_image 2 2 8].
Proof.
  destruct (gpu_ring_runs gx_alloc gr_prot 2 gx_gpu gr_after gr_world 4 fx_d fx_a fx_u 2 0 gr_jobs
    [ok_nodata gx_transfer; ok_nodata gx_flush]) as (w' & E & _ & U & L & R & G & _).
  - by vm_compute.
  - apply gr_rings.
  - apply gx_inv.
  - by vm_compute.
  - by vm_compute.
  - apply queued_cons; [by vm_compute|apply gr_job; by vm_compute|].
    apply queued_cons; [by vm_compute|apply gr_job; by vm_compute|apply queued_nil].
  - split; [apply Forall_singleton; by right|by split].
  - done.
  - done.
  - apply gr_runs.
  - exists w'. split; [exact E|]. split; [exact U|]. split; [exact (L 1%nat _ _ eq_refl eq_refl)|].
    split; [exact (R ltac:(done) 1%nat (2, 24) eq_refl)|exact G].
Defined.
