(* ===== verification/NetDownload.v ===== *)
(** * NetDownload: from a host socket into the guest's memory

    Composes the I/O thread of a connection ([launch_io_thread],
    src/src/hvf/network.cpp), the frame callback ([Net::enqueue_rx]), the receive
    thread of the device ([Net::rx_flush_func], src/src/hvf/virtio_net.cpp) and
    the guest's receive buffers, with a receiver that reads the stream back from
    guest memory. *)

From stdpp Require Import relations.
From S2P Require Import Prelude Bytes GuestMem Virtq VirtqSpec World VirtioRegs Fixtures NetWire.
From S2P Require Import NetStack NetStackInv NetStackThms NetStackIo NetStackWit VirtioNet VirtioNetThms VirtioNetWit.
From S2P Require Import NetRxThread NetRxPath.

(** ** The two threads *)
Definition sent_since (s s' : Impl) : list bytes := tx_frames (drop (length (out s)) (out s')).

(** Outcomes of system calls to come, whether the I/O thread has ended, and the
    device with its receive thread; the stack is the device's. *)
Record Dl := mkDl { todo : list IoRound; ended : bool; dev : RxSys (St := StackOn) }.

Definition impl (x : Dl) : Impl := so_impl (stack (net (dev x))).

(** The stack's callback enqueues its frames and notifies. *)
Definition call_back (x : RxSys (St := StackOn)) (s : Impl) (fs : list bytes) : RxSys :=
  mkRx (foldl enqueue_rx (set_stack (net x) (mkStackOn (so_host (stack (net x))) s)) fs) (host x) (locked x)
    (stop_rx x) (match fs with [] => flush x | _ => notify (flush x) end) (dtor x).

Section Dl.
Context (fuel : nat) (id : nat) (key : ConnKey).

(** A round of the I/O thread, whose callback takes the device's mutex; an
    action of the receive thread. *)
Inductive dl_step : Dl → Dl → Prop :=
  | dl_io x r rs e s : todo x = r :: rs → ended x = false → io_thread [r] (impl x) id key = Ok (e, s) →
      (sent_since (impl x) s = [] ∨ locked (dev x) = false) →
      dl_step x (mkDl rs e (call_back (dev x) s (sent_since (impl x) s)))
  | dl_flush x l y : flush_step fuel (dev x) l y → dl_step x (mkDl (todo x) (ended x) y).

(** The same, with spurious wake-ups of the condition variable. *)
Inductive dl_any : Dl → Dl → Prop :=
  | da_step x y : dl_step x y → dl_any x y
  | da_spurious x y : flush (dev x) = FBlocked → wake_step (dev x) Quiet y → dl_any x (mkDl (todo x) (ended x) y).
End Dl.

(** ** The guest's receiver

    The frame in a buffer is as long as its IP header says; segments with the
    expected sequence number are appended, FIN ends the stream. *)
Definition guest_frame (m : Ram) (p : Z) : res bytes :=
  h ← load m (p + 12) 34;
  tot ← get16 (drop 14 h) 2;
  load m (p + 12) (Z.to_nat (14 + tot)).

Fixpoint guest_recv (m : Ram) (ss : list RxBuf) (expected : Z) : res (bytes * bool) :=
  match ss with
  | [] => Ok ([], false)
  | s :: ss =>
      f ← guest_frame m (rb_buf s);
      let seg := drop 34 f in
      seq ← get32 seg 4;
      fl ← get8 seg 13;
      if negb (seq =? expected) then guest_recv m ss expected else
      if has_flag fl TF_FIN then Ok (drop 20 seg, true) else
      '(rest, fin) ← guest_recv m ss (u32 (expected + Z.of_nat (length (drop 20 seg))));
      Ok (drop 20 seg ++ rest, fin)
  end.

(** The stored frame of a buffer. *)
Definition holds_frame (m : Ram) (s : RxBuf) (f : bytes) : Prop :=
  load m (rb_buf s) (Z.to_nat (takes f)) = Ok (replicate 12 0 ++ f).

Lemma load_part m p n bs j k :
  load m p n = Ok bs → (j + k ≤ n)%nat → load m (p + Z.of_nat j) k = Ok (take k (drop j bs)).
Proof.
  intros [Hin ->]%load_Ok Hj. apply load_Ok. split; [apply in_ram_spec; apply in_ram_spec in Hin; lia|].
  replace n with (j + (k + (n - j - k)))%nat by lia. rewrite !peeks_app.
  rewrite drop_app_length' by (by rewrite length_peeks). by rewrite take_app_length' by (by rewrite length_peeks).
Qed.

Lemma get_Ok p off n bs : get p off n = Ok bs → (off + n ≤ length p)%nat.
Proof. unfold get. case_bool_decide; done. Qed.

Lemma get_num_Ok {A} (f : bytes → A) p off n x : f <$> get p off n = Ok x → (off + n ≤ length p)%nat.
Proof. destruct (get p off n) eqn:E; [|done]. intros _. by eapply get_Ok. Qed.

(** The receiver finds the frame again. *)
Lemma guest_frame_ok m s f cf dst sip dip proto seg :
  holds_frame m s f → ip_packet cf dst sip dip proto seg f → guest_frame m (rb_buf s) = Ok f.
Proof.
  intros H V. unfold holds_frame, takes in H.
  assert (34 ≤ length f)%nat as Hlen.
  { pose proof (get_num_Ok _ _ _ _ _ (ipk_dip _ _ _ _ _ _ _ V)) as Hl. rewrite length_drop in Hl. lia. }
  unfold guest_frame. change (rb_buf s + 12) with (rb_buf s + Z.of_nat 12).
  rewrite (load_part m (rb_buf s) _ _ 12 34 H) by lia. rewrite bind_Ok, drop_app_length'; [|done].
  replace (get16 (drop 14 (take 34 f)) 2) with (get16 (drop 14 f) 2).
  2: { unfold get16, get. rewrite skipn_firstn_comm, !length_take, !length_drop.
       rewrite !bool_decide_true by lia. do 2 f_equal. rewrite skipn_firstn_comm, firstn_firstn. f_equal. }
  rewrite (ipk_len _ _ _ _ _ _ _ V), bind_Ok, <- (ipk_seg _ _ _ _ _ _ _ V), length_drop.
  rewrite (load_part m (rb_buf s) _ _ 12 _ H) by lia. rewrite drop_app_length'; [|done]. f_equal. apply take_ge. lia.
Qed.

(** ** Frames that carry a stream from sequence number [seq] *)
Fixpoint said (cf : Config) (c : TcpConn) (seq : Z) (chunks : list bytes) (fin : bool) (fs : list bytes) : Prop :=
  match chunks, fs with
  | [], [] => fin = false
  | [], [f] => fin = true ∧ conn_frame cf c seq (Z.lor TF_FIN TF_ACK) [] f
  | d :: chunks, f :: fs =>
      conn_frame cf c seq (Z.lor TF_PSH TF_ACK) d f ∧ said cf c (u32 (seq + Z.of_nat (length d))) chunks fin fs
  | _, _ => False
  end.

Section said.
Context (cf : Config) (c : TcpConn).

Lemma said_length chunks fin : ∀ seq fs, said cf c seq chunks fin fs →
  length fs = (length chunks + (if fin then 1 else 0))%nat.
Proof.
  induction chunks as [|d chunks IH]; intros seq [|f fs] H; cbn [said] in H; try done.
  - by rewrite H.
  - destruct fs; [|done]. by destruct H as [-> _].
  - destruct H as [_ H]. apply IH in H. cbn. lia.
Qed.

Lemma said_take chunks fin : ∀ seq fs k, said cf c seq chunks fin fs → (k ≤ length fs)%nat →
  said cf c seq (take k chunks) (bool_decide (length chunks < k)%nat) (take k fs).
Proof.
  induction chunks as [|d chunks IH]; intros seq [|f fs] [|k] H Hk; cbn [said take length] in *; try done; try lia.
  - destruct fs; [|done]. destruct k; [|cbn in Hk; lia]. by destruct H.
  - destruct H as [Hf H]. split; [done|].
    replace (bool_decide (S (length chunks) < S k)%nat) with (bool_decide (length chunks < k)%nat)
      by (apply bool_decide_ext; lia). apply IH; [done|lia].
Qed.

Lemma said_seq_shift seq (d : bytes) (chunks : list bytes) :
  u32 (u32 (seq + Z.of_nat (length d)) + Z.of_nat (length (mjoin chunks))) =
  u32 (seq + Z.of_nat (length (mjoin (d :: chunks)))).
Proof.
  cbn [mjoin list_join]. rewrite length_app, Nat2Z.inj_add, Z.add_assoc. unfold u32. by rewrite Z.add_mod_idemp_l.
Qed.

(** One more frame. *)
Lemma said_snoc chunks d f : ∀ seq fs, fits 32 seq → said cf c seq chunks false fs →
  conn_frame cf c (u32 (seq + Z.of_nat (length (mjoin chunks)))) (Z.lor TF_PSH TF_ACK) d f →
  said cf c seq (chunks ++ [d]) false (fs ++ [f]).
Proof.
  induction chunks as [|e chunks IH]; intros seq [|g fs] Hs H Hf; cbn [said app] in *; try done.
  - cbn in Hf. rewrite Z.add_0_r, u32_id in Hf by done. done.
  - by destruct fs; destruct H.
  - destruct H as [Hg H]. split; [done|]. apply IH; [apply u32_range|done|]. by rewrite said_seq_shift.
Qed.

Lemma said_fin chunks f : ∀ seq fs, fits 32 seq → said cf c seq chunks false fs →
  conn_frame cf c (u32 (seq + Z.of_nat (length (mjoin chunks)))) (Z.lor TF_FIN TF_ACK) [] f →
  said cf c seq chunks true (fs ++ [f]).
Proof.
  induction chunks as [|e chunks IH]; intros seq [|g fs] Hs H Hf; cbn [said app] in *; try done.
  - cbn in Hf. rewrite Z.add_0_r, u32_id in Hf by done. done.
  - by destruct fs; destruct H.
  - destruct H as [Hg H]. split; [done|]. apply IH; [apply u32_range|done|]. by rewrite said_seq_shift.
Qed.

(** The receiver reads the stream back. *)
Lemma guest_recv_said m ss fs : Forall2 (holds_frame m) ss fs → ∀ seq chunks fin,
  said cf c seq chunks fin fs → guest_recv m ss seq = Ok (mjoin chunks, fin).
Proof.
  induction 1 as [|s f ss fs Hh _ IH]; intros seq chunks fin H.
  - destruct chunks; [|done]. cbn in H. by subst.
  - assert (∀ fl d, conn_frame cf c seq fl d f →
      guest_frame m (rb_buf s) = Ok f ∧ get32 (drop 34 f) 4 = Ok seq ∧ get8 (drop 34 f) 13 = Ok fl ∧
      drop 20 (drop 34 f) = d) as Hp.
    { intros fl d (seg & V & T). rewrite (ipk_seg _ _ _ _ _ _ _ V).
      split; [by eapply guest_frame_ok|]. split; [apply T|]. split; apply T. }
    destruct chunks as [|d chunks]; cbn [said] in H.
    + destruct fs; [|done]. destruct H as [-> Hf]. destruct (Hp _ _ Hf) as (E1 & E2 & E3 & E4).
      cbn [guest_recv]. rewrite E1, bind_Ok. cbv zeta. by rewrite E2, bind_Ok, E3, bind_Ok, Z.eqb_refl, E4.
    + destruct H as [Hf H]. destruct (Hp _ _ Hf) as (E1 & E2 & E3 & E4).
      cbn [guest_recv]. rewrite E1, bind_Ok. cbv zeta. rewrite E2, bind_Ok, E3, bind_Ok, Z.eqb_refl, E4.
      change (has_flag (Z.lor TF_PSH TF_ACK) TF_FIN) with false. cbn [negb]. by rewrite (IH _ _ _ H).
Qed.
End said.

(** ** The sender *)
Lemma send_tcp_wf cf dst sip sp dip dp seq ack flags data frame :
  wf_bytes (gw_mac cf) → wf_bytes dst → wf_bytes data → is_byte flags →
  send_tcp cf dst sip sp dip dp seq ack flags data = Ok frame → wf_bytes frame.
Proof.
  intros Hg Hd Hb Hf H. unfold send_tcp, emit_ip in H. apply bind_Ok_inv in H as (_ & _ & H). cbv zeta in H.
  apply bind_Ok_inv in H as (_ & _ & H). apply (f_equal (λ r, match r with Ok f => f | Err _ => [] end)) in H as <-.
  cbv beta iota.
  apply wf_bytes_take. refine (proj2 (wf_bytes_app _ _) (conj _ (proj2 (wf_bytes_app _ _)
    (conj (wf_ip_header _ _ _ _ _ _) (proj2 (wf_bytes_app _ _) (conj _ Hb)))))); [|done|].
  - unfold eth_header. rewrite !wf_bytes_app. auto with vm.
  - unfold tcp_header. rewrite !wf_bytes_app. split_and!; auto with vm; repeat (constructor; [done|]); constructor.
Qed.

Section sender.
Context (cf : Config) (c : TcpConn) (id : nat) (key : ConnKey).
Context (Hcf : wf_cfg cf) (Hc : wf_conn c) (Hstop : c_stop c = false).
Context (Hgw : wf_bytes (gw_mac cf)) (Hmac : wf_bytes (c_mac c)).

(** The connection after [k] bytes of its stream. *)
Definition conn_at (s : Impl) (k : nat) : Prop :=
  cfg s = cf ∧ heap s !! id = Some (set_h_nxt c (u32 (h_nxt c + Z.of_nat k))).

Lemma tx_since (s s' : Impl) f : out s' = out s ++ [Tx f] → sent_since s s' = [f].
Proof. unfold sent_since. intros ->. by rewrite drop_app_length. Qed.

Lemma sent_since_refl (s : Impl) : sent_since s s = [].
Proof. unfold sent_since. by rewrite drop_all. Qed.

Lemma round_wait s k : conn_at s k → io_thread [PollNone] s id key = Ok (false, s).
Proof. intros [_ Hh]. cbn [io_thread]. rewrite Hh. cbn [deref]. rewrite !bind_Ok. cbn [c_stop set_h_nxt]. by rewrite Hstop. Qed.

Lemma round_read s k d : conn_at s k → wf_bytes d → Z.of_nat (length d) ≤ 1994 →
  ∃ s' f, io_thread [ReadSome d] s id key = Ok (false, s') ∧ sent_since s s' = [f] ∧ wf_bytes f ∧
    conn_at s' (k + length d) ∧ conn_frame cf c (u32 (h_nxt c + Z.of_nat k)) (Z.lor TF_PSH TF_ACK) d f.
Proof.
  intros [Ec Hh] Hb Hl. rewrite <- Ec in Hcf.
  destruct (io_read_ok s id _ d Hcf Hh (wf_conn_h _ _ Hc) Hb Hl) as (s' & f & E & Eo & Ec' & Eh & Hf).
  exists s', f. cbn [io_thread]. rewrite Hh. cbn [deref]. rewrite bind_Ok. cbn [c_stop set_h_nxt]. rewrite Hstop, E, bind_Ok.
  cbn [io_thread]. rewrite Eh. cbn [deref]. rewrite bind_Ok. cbn [c_stop set_h_nxt]. rewrite Hstop.
  split; [done|]. split; [by apply tx_since|]. split; [|split].
  - unfold io_read in E. rewrite Hh in E. cbn [deref] in E. rewrite bind_Ok in E. cbv zeta in E.
    unfold conn_out, tcp_out in E. destruct (send_tcp _ _ _ _ _ _ _ _ _ _) as [g|] eqn:Es; [|done].
    injection E as <-. cbn in Eo. apply app_inv_head in Eo. injection Eo as <-.
    eapply send_tcp_wf; [| | | |exact Es]; cbn; try done. by rewrite Ec.
  - split; [congruence|]. rewrite Eh. unfold set_h_nxt. cbn. do 2 f_equal. rewrite Nat2Z.inj_add, Z.add_assoc.
    unfold u32. by rewrite Z.add_mod_idemp_l.
  - by rewrite Ec in Hf.
Qed.

Lemma round_end s k r : r = PollOther ∨ r = ReadNone → conn_at s k →
  ∃ s' f, io_thread [r] s id key = Ok (true, s') ∧ sent_since s s' = [f] ∧ wf_bytes f ∧
    conn_frame cf c (u32 (h_nxt c + Z.of_nat k)) (Z.lor TF_FIN TF_ACK) [] f.
Proof.
  intros Hr [Ec Hh]. rewrite <- Ec in Hcf.
  destruct (io_exit_ok s id _ key Hcf Hh (wf_conn_h _ _ Hc) Hstop) as (s' & f & E & Eo & _ & Hf).
  exists s', f. split.
  { cbn [io_thread]. rewrite Hh. cbn [deref]. rewrite bind_Ok. cbn [c_stop set_h_nxt]. rewrite Hstop. by destruct Hr as [-> | ->]; rewrite E. }
  split; [by apply tx_since|]. split; [|by rewrite Ec in Hf].
  unfold io_exit in E. rewrite Hh in E. cbn [deref] in E. rewrite bind_Ok in E. cbn [c_stop set_h_nxt] in E. rewrite Hstop in E.
  unfold conn_out, tcp_out in E. destruct (send_tcp _ _ _ _ _ _ _ _ _ _) as [g|] eqn:Es; [|done].
  injection E as <-. cbn in Eo. apply app_inv_head in Eo. injection Eo as <-.
  eapply send_tcp_wf; [| | | |exact Es]; cbn; try done; [by rewrite Ec|by constructor].
Qed.
End sender.

(** ** The buffers *)
Section memory.
Context (prot : Z → Prop) (d a u idx i0 l0 : Z) (fuel : nat) (ss : list RxBuf).
Context (Hidx : 0 ≤ idx < 0x10000) (Hapart : apart ss) (Hss : Z.of_nat (length ss) = u16 (idx - l0)).

(** The first [k] of the frames [fs] are in the first [k] buffers. *)
Record mem_ok (k : nat) (fs : list bytes) (r : Regs) (w : World) : Prop := {
  mo_ptrs : ring_ptrs (w_ram w) (r_q0 r) = Some (d, a, u);
  mo_rings : rings kQueueSize prot d a u (w_ram w);
  mo_avail : avail_idx (w_ram w) a = Ok idx;
  mo_used : used_idx (w_ram w) u = Ok (u16 (i0 + Z.of_nat k));
  mo_last : last_avail (r_q0 r) = u16 (l0 + Z.of_nat k);
  mo_bufs : Forall (rx_buf prot d u (w_ram w)) ss;
  mo_queued : queued kQueueSize a rb_head (rx_buf prot d u) (w_ram w) (u16 (l0 + Z.of_nat k)) (drop k ss);
  mo_held : Forall2 (holds_frame (w_ram w)) (take k ss) (take k fs);
}.

Definition all_fit (fs : list bytes) : Prop := ∀ j s f, ss !! j = Some s → fs !! j = Some f → fits_buf s f.

Lemma apart_lookup bs : apart bs → ∀ j k s s', (j < k)%nat → bs !! j = Some s → bs !! k = Some s' →
  disjoint (rb_buf s') (rb_cap s') (rb_buf s) (rb_cap s).
Proof.
  induction bs as [|b bs IH]; [done|]. intros [Hb Hbs] [|j] [|k] s s' Hj Es Es'; cbn in Es, Es'; try done; try lia.
  - injection Es as ->. by apply (proj1 (Forall_lookup _ _) Hb k).
  - eapply IH; [done| |done..]. lia.
Qed.

Lemma mem_ok_more k fs f r w : (k ≤ length fs)%nat → mem_ok k fs r w → mem_ok k (fs ++ [f]) r w.
Proof. intros Hk []. split; try done. by rewrite take_app_le. Qed.

(** Feeding the next frame. *)
Lemma mem_ok_feed {St} k fs (n : Net St) w f s :
  mem_ok k fs (regs n) w → all_fit fs → fs !! k = Some f → ss !! k = Some s →
  ∃ w', do_feed_rx fuel n w f = Ok (fed n, w') ∧ mem_ok (S k) fs (regs (fed n)) w'.
Proof.
  intros [Hp Hr Ha Hu Hl Hb Hq Hh] Hfit Hf Hs.
  rewrite (drop_S _ _ _ Hs) in Hq. inversion Hq as [|? ? ? Hav Hg Hq']; subst.
  pose proof (lookup_lt_Some _ _ _ Hs) as Hk.
  destruct (feed_buf prot d a u idx fuel n w f (u16 (i0 + Z.of_nat k)) s) as (w' & E & L & _ & U & S & _ & A);
    try done; try (by rewrite Hl).
  { rewrite Hl. intros Heq. zlia. }
  { by eapply Hfit. }
  exists w'. split; [exact E|].
  split; cbn [regs fed set_regs r_q0 set_irq bump0].
  - rewrite <- Hp. unfold ring_ptrs. cbn. by rewrite !(gpa_to_hva_same (w_ram w) (w_ram w')) by apply S.
  - by eapply rings_stable.
  - by rewrite (avail_idx_stable kQueueSize prot d a u (w_ram w)).
  - rewrite U. f_equal. zlia.
  - cbn. rewrite Hl. zlia.
  - eapply Forall_impl; [exact Hb|]. intros s' Hs'. by eapply rx_buf_stable.
  - replace (u16 (l0 + Z.of_nat (Datatypes.S k))) with (u16 (u16 (l0 + Z.of_nat k) + 1)) by zlia.
    eapply queued_stable; [| |done|done|done]; [done|]. apply rx_buf_stable.
  - rewrite (take_S_r _ _ _ Hs), (take_S_r _ _ _ Hf). apply Forall2_app; [|by apply Forall2_cons].
    apply Forall2_same_length_lookup_2. { rewrite !length_take. apply lookup_lt_Some in Hf. lia. }
    intros j s' f' Hs' Hf'. pose proof (Forall2_lookup_lr _ _ _ _ _ _ Hh Hs' Hf') as Hold. unfold holds_frame in *.
    apply lookup_take_Some in Hs' as [Hs' Hj]. apply lookup_take_Some in Hf' as [Hf' _].
    rewrite (load_agree (w_ram w)); [done|apply S|].
    destruct (Hfit j s' f' Hs' Hf') as (_ & _ & Hcap).
    destruct (proj1 (Forall_lookup _ _) Hb j s' Hs') as (_ & Hc & _ & _ & _ & _ & Hsp).
    apply (agree_sub _ _ (rb_buf s') (rb_cap s')); [|unfold takes in *; lia..].
    destruct (clear_ring kQueueSize u eq_refl (u16 (i0 + Z.of_nat k)) 1 (rb_buf s') (rb_cap s')) as [C1 C2].
    { apply (spares_disjoint _ prot); [done|lia|done]. }
    specialize (C2 0%nat ltac:(lia)). rewrite Z.add_0_r in C2. apply A; [done..|]. by eapply (apart_lookup ss Hapart j k).
Qed.
End memory.

(** ** The system *)
Section system.
Context (cf : Config) (c : TcpConn) (id : nat) (key : ConnKey) (chunks : list bytes).
Context (Hcf : wf_cfg cf) (Hc : wf_conn c) (Hstop : c_stop c = false).
Context (Hgw : wf_bytes (gw_mac cf)) (Hmac : wf_bytes (c_mac c)).
Context (Hok : Forall (λ d, wf_bytes d ∧ Z.of_nat (length d) ≤ 1994) chunks).
Context (prot : Z → Prop) (d a u idx i0 l0 : Z) (fuel : nat) (ss : list RxBuf).
Context (Hidx : 0 ≤ idx < 0x10000) (Hapart : apart ss) (Hss : Z.of_nat (length ss) = u16 (idx - l0)).

(** A buffer for every chunk behind its 66 bytes of headers, and one for FIN. *)
Definition room : Prop := (length chunks < length ss)%nat ∧
  ∀ j s, (j ≤ length chunks)%nat → ss !! j = Some s → 66 + Z.of_nat (length (chunks !!! j)) ≤ rb_cap s.
Context (Hroom : room).

Definition sender_ok (x : Dl) (fs : list bytes) : Prop :=
  ∃ sent rest, chunks = sent ++ rest ∧
    if ended x then rest = [] ∧ said cf c (h_nxt c) sent true fs
    else delivers (todo x) rest ∧ conn_at cf c id (impl x) (length (mjoin sent)) ∧ said cf c (h_nxt c) sent false fs.

(** [fs] are the frames sent so far, [k] of them are in the buffers. *)
Record dl_ok (x : Dl) (k : nat) (fs : list bytes) : Prop := {
  do_rx : rx_ok (dev x);
  do_run : stop_rx (dev x) = false;
  do_pending : drop k fs = pending (dev x);
  do_k : (k ≤ length fs)%nat;
  do_mem : mem_ok prot d a u idx i0 l0 ss k fs (regs (net (dev x))) (host (dev x));
  do_fit : all_fit ss fs;
  do_sender : sender_ok x fs;
}.

Lemma conn_frame_size seq fl (p f : bytes) : conn_frame cf c seq fl p f → (length f ≤ 54 + length p)%nat ∧ f ≠ [].
Proof.
  intros (seg & V & T). rewrite <- (tcs_data _ _ _ _ _ _ _ _ _ T), <- (ipk_seg _ _ _ _ _ _ _ V), !length_drop.
  split; [lia|]. intros ->. by pose proof (ipk_src _ _ _ _ _ _ _ V).
Qed.

(** The frame for chunk [p], the next one, fits. *)
Lemma fit_next fs seq fl p f :
  all_fit ss fs → (length fs ≤ length chunks)%nat → p = chunks !!! length fs → wf_bytes f →
  conn_frame cf c seq fl p f → all_fit ss (fs ++ [f]).
Proof.
  intros Hfit Hl -> Hw Hf j s g Hs Hg. apply lookup_app_Some in Hg as [Hg|[Hj Hg]]; [by eapply Hfit|].
  apply list_lookup_singleton_Some in Hg as [H0 <-]. assert (j = length fs) as -> by lia.
  destruct (conn_frame_size _ _ _ _ Hf) as [Hn Hnil]. split; [done|]. split; [done|].
  pose proof (proj2 Hroom _ _ Hl Hs). unfold takes. lia.
Qed.

(** The callback with one frame. *)
Lemma dl_ok_send x k fs s f rs e :
  dl_ok x k fs → locked (dev x) = false → all_fit ss (fs ++ [f]) →
  sender_ok (mkDl rs e (call_back (dev x) s [f])) (fs ++ [f]) →
  dl_ok (mkDl rs e (call_back (dev x) s [f])) k (fs ++ [f]).
Proof.
  intros [Hx Hr Hp Hk Hm Hf _] Hl Hf' Hs. split; cbn [dev]; try done.
  - pose proof (ws_arrive (mkRx (set_stack (net (dev x)) (mkStackOn (so_host (stack (net (dev x)))) s)) (host (dev x))
      (locked (dev x)) (stop_rx (dev x)) (flush (dev x)) (dtor (dev x))) f Hl) as Hstep.
    apply wake_step_ok in Hstep; [|by destruct Hx; split]. unfold call_back. by rewrite Hl.
  - rewrite drop_app_le, Hp by done. unfold pending. cbn. rewrite app_assoc. f_equal. f_equal. by destruct (flush (dev x)).
  - rewrite length_app. lia.
  - by apply mem_ok_more.
Qed.

Lemma sender_length x fs : sender_ok x fs → (length fs ≤ S (length chunks))%nat ∧ (ended x = false → (length fs ≤ length chunks)%nat).
Proof.
  intros (sent & rest & -> & H). rewrite length_app.
  destruct (ended x); [destruct H as [_ H]|destruct H as (_ & _ & H)]; apply said_length in H; split; (lia || done).
Qed.

Lemma io_step_ok x k fs r rs e s :
  dl_ok x k fs → todo x = r :: rs → ended x = false → io_thread [r] (impl x) id key = Ok (e, s) →
  (sent_since (impl x) s = [] ∨ locked (dev x) = false) →
  let y := mkDl rs e (call_back (dev x) s (sent_since (impl x) s)) in
  ∃ fs', dl_ok y k fs' ∧ (length (sent_since (impl x) s) ≤ 1)%nat.
Proof.
  intros H Et Ee E Hl y. destruct (do_sender _ _ _ H) as (sent & rest & Ech & Hsend). rewrite Ee, Et in Hsend.
  destruct Hsend as (Hd & Hat & Hsaid). pose proof (said_length _ _ _ _ _ _ Hsaid) as Hlen. rewrite Nat.add_0_r in Hlen.
  unfold y. inversion Hd as [r' Hr|? ? Hd'|p ? cs Hd']; subst.
  - destruct (round_end cf c id key Hcf Hc Hstop Hgw Hmac _ _ _ Hr Hat) as (s' & f & E' & Ef & Hw & Hf).
    rewrite E' in E. injection E as <- <-. rewrite Ef in *. destruct Hl as [Hl|Hl]; [done|].
    exists (fs ++ [f]). split; [|cbn; lia]. rewrite app_nil_r in Ech. apply dl_ok_send; try done.
    + eapply (fit_next fs _ _ [] f); [apply H| | |done|exact Hf]; rewrite Ech, Hlen; [lia|].
      by rewrite list_lookup_total_alt, (proj2 (lookup_ge_None _ _)).
    + exists sent, []. rewrite app_nil_r. split; [done|]. cbn. split; [done|]. by apply said_fin; [apply Hc|..].
  - rewrite (round_wait cf c id key Hstop (impl x) _ Hat) in E. injection E as <- <-. rewrite sent_since_refl.
    exists fs. split; [|cbn; lia]. destruct H as [[] ? ? ? ? ? _]. split; try done. exists sent, rest. cbn. split; [done|]. by split.
  - pose proof Hok as Hok'. rewrite Ech in Hok'. apply Forall_app in Hok' as [_ [[Hb Hn] _]%Forall_cons].
    destruct (round_read cf c id key Hcf Hc Hstop Hgw Hmac _ _ _ Hat Hb Hn) as (s' & f & E' & Ef & Hw & Hat' & Hf).
    rewrite E' in E. injection E as <- <-. rewrite Ef in *. destruct Hl as [Hl|Hl]; [done|].
    exists (fs ++ [f]). split; [|cbn; lia]. apply dl_ok_send; try done.
    + eapply (fit_next fs _ _ p f); [apply H| | |done|exact Hf]; rewrite Ech, ?length_app, Hlen; [lia|].
      by rewrite list_lookup_total_middle.
    + exists (sent ++ [p]), cs. rewrite <- app_assoc. split; [done|]. cbn. split; [done|]. split.
      * unfold impl. cbn. by rewrite join_app, length_app; cbn; rewrite app_nil_r.
      * apply said_snoc; [apply Hc|done..].
Qed.

(** A frame in hand can be fed. *)
Lemma feed_next x k fs f : dl_ok x k fs → flush (dev x) = FFeed f →
  ∃ w', do_feed_rx fuel (net (dev x)) (host (dev x)) f = Ok (fed (net (dev x)), w') ∧
    mem_ok prot d a u idx i0 l0 ss (S k) fs (regs (fed (net (dev x)))) w' ∧
    drop (S k) fs = rx_queue (net (dev x)) ∧ (S k ≤ length fs)%nat.
Proof.
  intros H Ef. pose proof (do_pending _ _ _ H) as Hp. unfold pending in Hp. rewrite Ef in Hp. cbn in Hp.
  assert (fs !! k = Some f) as Hf by (rewrite <- (Nat.add_0_r k), <- lookup_drop, Hp; done).
  pose proof (lookup_lt_Some _ _ _ Hf) as Hlt. pose proof (proj1 (sender_length _ _ (do_sender _ _ _ H))) as Hlen.
  destruct (lookup_lt_is_Some_2 ss k) as [s Hs]; [destruct Hroom; lia|].
  destruct (mem_ok_feed prot d a u idx i0 l0 fuel ss Hidx Hapart Hss k fs (net (dev x)) (host (dev x)) f s
    (do_mem _ _ _ H) (do_fit _ _ _ H) Hf Hs) as (w' & E & Hm).
  exists w'. split; [exact E|]. split; [exact Hm|]. split; [|lia].
  rewrite (drop_S _ _ _ Hf) in Hp. by injection Hp.
Qed.

Lemma flush_ok x k fs l y : dl_ok x k fs → flush_step fuel (dev x) l y →
  ∃ k', dl_ok (mkDl (todo x) (ended x) y) k' fs.
Proof.
  intros H Hs. pose proof (flush_step_ok fuel _ _ _ (do_rx _ _ _ H) Hs) as Hy.
  assert (∀ b p, y = set_flush (dev x) b p → in_hand p = in_hand (flush (dev x)) →
    ∃ k', dl_ok (mkDl (todo x) (ended x) y) k' fs) as Hquiet.
  { intros b p -> Hp. exists k. destruct H as [? ? Hpend ? ? ? ?]. split; try done.
    rewrite Hpend. unfold pending. cbn. by rewrite Hp. }
  remember (dev x) as x0 eqn:Ex. destruct Hs as [x0 E Ht|x0 E _|x0 E Hf|x0 E H1|x0 E _ Hq|x0 E|x0 E Ht|x0 f q E Ht Hq|x0 f n w E Hf Hfeed];
    try (by eapply Hquiet; [reflexivity|rewrite E]).
  - by eapply Hquiet; [reflexivity|destruct E as [-> | ->]].
  - exists k. subst x0. destruct H as [? ? Hpend ? ? ? ?]. split; try done.
    rewrite Hpend. unfold pending. rewrite E, Hq. done.
  - subst x0. destruct (feed_next x k fs f H E) as (w' & E' & Hm & Hd & Hk). rewrite E' in Hfeed. injection Hfeed as <- <-.
    exists (S k). destruct H. by split.
Qed.

Lemma dl_any_ok x k fs y : dl_ok x k fs → dl_any fuel id key x y → ∃ k' fs', dl_ok y k' fs'.
Proof.
  intros H Hany. destruct Hany as [x y Hstep|x y Ef Hs]; [destruct Hstep as [x r rs e s Et Ee E Hl|x l y Hs]|].
  - destruct (io_step_ok x k fs r rs e s H Et Ee E Hl) as (fs' & Hy & _). by exists k, fs'.
  - destruct (flush_ok x k fs l y H Hs) as (k' & Hy). by exists k', fs.
  - exists k, fs. inversion Hs as [|? E]; subst. destruct H as [Hx ? Hp ? ? ? ?]. split; try done.
    + by eapply wake_step_ok.
    + rewrite Hp. unfold pending. cbn. by rewrite Ef.
Qed.

Lemma dl_run_ok x y : rtc (dl_any fuel id key) x y → ∀ k fs, dl_ok x k fs → ∃ k' fs', dl_ok y k' fs'.
Proof.
  induction 1 as [x|x y z Hs _ IH]; intros k fs H; [by exists k, fs|].
  destruct (dl_any_ok _ _ _ _ H Hs) as (k' & fs' & Hy). by eapply IH.
Qed.

(** What the guest has read in such a state. *)
Lemma dl_ok_recv x k fs : dl_ok x k fs →
  guest_recv (w_ram (host (dev x))) (take k ss) (h_nxt c) =
  Ok (mjoin (take k chunks), bool_decide (length chunks < k)%nat).
Proof.
  intros H. destruct (do_sender _ _ _ H) as (sent & rest & Ech & Hs).
  assert (∃ fin, said cf c (h_nxt c) sent fin fs ∧ (fin = true → rest = [])) as (fin & Hsaid & Hfin).
  { destruct (ended x); [exists true; split; [apply Hs|]; by intros _; apply Hs|by exists false; split; [apply Hs|]]. }
  pose proof (do_k _ _ _ H) as Hk. pose proof (said_length _ _ _ _ _ _ Hsaid) as Hlen.
  assert (take k chunks = take k sent ∧ bool_decide (length chunks < k)%nat = bool_decide (length sent < k)%nat) as [-> ->].
  { rewrite Ech, length_app. destruct fin; [rewrite (Hfin eq_refl), app_nil_r; split; [done|apply bool_decide_ext; cbn; lia]|].
    split; [apply take_app_le; lia|apply bool_decide_ext; lia]. }
  eapply guest_recv_said; [apply (mo_held _ _ _ _ _ _ _ _ _ _ _ _ (do_mem _ _ _ H))|]. by eapply said_take.
Qed.

(** The actions left before both threads have to wait. *)
Definition flush_left (f : Flush) : nat :=
  match f with
  | FFeed _ => 6 | FTop => 5 | FLock | FWoken => 4 | FTest => 3 | FSleep | FGot => 2 | FBlocked => 1 | FExited => 0
  end.
Definition dl_left (x : Dl) : nat :=
  (12 * length (todo x) + 8 * length (rx_queue (net (dev x))) + flush_left (flush (dev x)))%nat.

Lemma enqueue_all_length fs : ∀ n : Net StackOn, length (rx_queue (foldl enqueue_rx n fs)) = (length (rx_queue n) + length fs)%nat.
Proof. induction fs as [|f fs IH]; intros n; cbn [foldl]; [cbn; lia|]. rewrite IH. cbn. rewrite length_app. cbn. lia. Qed.

Lemma left_decreases x k fs y : dl_ok x k fs → dl_step fuel id key x y → (dl_left y < dl_left x)%nat.
Proof.
  intros H Hs. destruct Hs as [x r rs e s Et Ee E Hl|x l y Hs]; unfold dl_left.
  - destruct (io_step_ok x k fs r rs e s H Et Ee E Hl) as (_ & _ & Hone). rewrite Et.
    cbn [todo dev call_back net flush]. rewrite enqueue_all_length. cbn [rx_queue set_stack length].
    assert (∀ f, flush_left (notify f) ≤ flush_left f + 3)%nat as Hn by (intros []; cbn; lia).
    specialize (Hn (flush (dev x))). destruct (sent_since (impl x) s); cbn [length] in *; lia.
  - cbn [todo dev]. pose proof (do_run _ _ _ H) as Hr.
    destruct Hs as [x0 E Ht|x0 E _|x0 E Hf|x0 E H1|x0 E _ Hq|x0 E|x0 E Ht|x0 f q E Ht Hq|x0 f n w E Hf Hfeed];
      try congruence; cbn [set_flush net flush]; try (rewrite E; cbn; lia).
    + destruct E as [-> | ->]; cbn; lia.
    + rewrite E, Hq. cbn. lia.
    + rewrite E, (feed_rx_queue _ _ _ _ _ _ Hfeed). cbn. lia.
Qed.

Lemma steps_bounded n : ∀ x k fs y, dl_ok x k fs → nsteps (dl_step fuel id key) n x y → (n ≤ dl_left x)%nat.
Proof.
  induction n as [|n IH]; intros x k fs y H Hn; [lia|]. inversion Hn as [|? ? z ? Hs Hn']; subst.
  pose proof (left_decreases _ _ _ _ H Hs). destruct (dl_any_ok _ _ _ z H (da_step _ _ _ _ _ Hs)) as (k' & fs' & Hz).
  pose proof (IH _ _ _ _ Hz Hn'). lia.
Qed.

(** As long as the stream is not in the guest's buffers, some thread can move. *)
Lemma flush_moves x k fs : dl_ok x k fs → (∃ l y, flush_step fuel (dev x) l y) ∨ flush (dev x) = FBlocked.
Proof.
  intros H. pose proof (do_rx _ _ _ H) as [Hl _ Hg _ He]. pose proof (do_run _ _ _ H) as Hr.
  destruct (flush (dev x)) eqn:E; try (by right); left.
  - by do 2 eexists; apply fs_top.
  - do 2 eexists; apply fs_lock; [by left|done].
  - destruct (decide (rx_queue (net (dev x)) = [])); do 2 eexists; [by apply fs_no|by apply fs_yes; [|right]].
  - by do 2 eexists; apply fs_block.
  - do 2 eexists; apply fs_lock; [by right|done].
  - destruct (rx_queue (net (dev x))) eqn:Eq; [by destruct (Hg eq_refl); [congruence|]|]. by do 2 eexists; apply fs_pop.
  - destruct (feed_next x k fs frame H E) as (w' & Ef & _). by do 2 eexists; apply fs_feed.
  - rewrite He in Hr by done. done.
Qed.

Lemma io_moves x k fs : dl_ok x k fs → ended x = false → locked (dev x) = false → ∃ y, dl_step fuel id key x y.
Proof.
  intros H Ee Hl. destruct (do_sender _ _ _ H) as (sent & rest & Ech & Hsend). rewrite Ee in Hsend.
  destruct Hsend as (Hd & Hat & _). inversion Hd as [r Hr Et|rs cs Hd' Et|p rs cs Hd' Et]; subst.
  - destruct (round_end cf c id key Hcf Hc Hstop Hgw Hmac _ _ _ Hr Hat) as (s' & f & E & _).
    eexists. eapply dl_io; [by symmetry|done|exact E|by right].
  - eexists. eapply dl_io; [by symmetry|done|by apply (round_wait cf c id key Hstop (impl x) _ Hat)|by right].
  - pose proof Hok as Hok'. rewrite Ech in Hok'. apply Forall_app in Hok' as [_ [[Hb Hn] _]%Forall_cons].
    destruct (round_read cf c id key Hcf Hc Hstop Hgw Hmac _ _ _ Hat Hb Hn) as (s' & f & E & _).
    eexists. eapply dl_io; [by symmetry|done|exact E|by right].
Qed.

Lemma moves_or_rests x k fs : dl_ok x k fs →
  (∃ y, dl_step fuel id key x y) ∨ (flush (dev x) = FBlocked ∧ ended x = true ∧ k = S (length chunks)).
Proof.
  intros H. destruct (flush_moves x k fs H) as [(l & y & Hs)|E]; [left; eexists; by eapply dl_flush|].
  pose proof (do_rx _ _ _ H) as [Hl Hs _ _ _]. rewrite E in Hl, Hs. cbn in Hl, Hs.
  destruct (ended x) eqn:Ee; [right|left; by eapply io_moves]. split; [done|]. split; [done|].
  pose proof (do_pending _ _ _ H) as Hp. unfold pending in Hp. rewrite E, Hs in Hp by done. cbn in Hp.
  apply (f_equal length) in Hp. rewrite length_drop in Hp. cbn in Hp. pose proof (do_k _ _ _ H) as Hk.
  destruct (do_sender _ _ _ H) as (sent & rest & Ech & Hsend). rewrite Ee in Hsend.
  destruct Hsend as [-> Hsaid]. apply said_length in Hsaid. rewrite Ech, length_app. cbn. lia.
Qed.

Lemma settles n : ∀ x k fs, dl_ok x k fs → (dl_left x ≤ n)%nat →
  ∃ y, rtc (dl_any fuel id key) x y ∧ flush (dev y) = FBlocked ∧ ended y = true.
Proof.
  induction n as [|n IH]; intros x k fs H Hn; (destruct (moves_or_rests x k fs H) as [[y Hs]|(E & Ee & _)]; [|by exists x]);
    pose proof (left_decreases _ _ _ _ H Hs); [lia|].
  destruct (dl_any_ok _ _ _ y H (da_step _ _ _ _ _ Hs)) as (k' & fs' & Hy).
  destruct (IH y k' fs' Hy) as (z & Hz & Hrest); [lia|]. exists z. split; [|done]. eapply rtc_l; [by apply da_step|done].
Qed.

Lemma dl_ok_start rounds x0 : let x := mkDl rounds false x0 in
  rx_ok x0 → stop_rx x0 = false → pending x0 = [] → cfg (impl x) = cf → heap (impl x) !! id = Some c →
  delivers rounds chunks → mem_ok prot d a u idx i0 l0 ss 0 [] (regs (net x0)) (host x0) → dl_ok x 0 [].
Proof.
  intros x Hx Hr Hp Ec Eh Hd Hm. split; try done.
  exists [], chunks. split; [done|]. split; [done|]. split; [|done]. split; [done|].
  rewrite Eh. cbn [mjoin list_join length]. rewrite Z.add_0_r, u32_id by apply Hc. by destruct c.
Qed.
End system.


(** ** Witness: a stream of three bytes, two buffers *)
Definition dx_world : World :=
  mkWorld (fx_avail 2 [0; 1] (fx_desc 0 (fx_base + fx_buf) 128 2 0 (fx_desc 1 (fx_base + fx_st) 128 2 0 fx_ram))) [].
Definition dx_net : Net StackOn := set_rx_queue vx_net [].
Definition dx_bufs : list RxBuf := [mkRxBuf 0 fx_buf 128; mkRxBuf 1 fx_st 128].
Definition dx_start : Dl := mkDl [PollNone; ReadSome [1; 2; 3]; ReadNone] false (Rx0 dx_net dx_world).

Lemma dx_buf i p : (i, p) = (0, fx_buf) ∨ (i, p) = (1, fx_st) →
  rx_buf fx_ring_prot fx_d fx_u (w_ram dx_world) (mkRxBuf i p 128).
Proof.
  intros H. assert (∃ al, desc_addr (w_ram dx_world) fx_d i = Ok al ∧ gpa_to_hva (w_ram dx_world) al = Some p) as Ha.
  { destruct H as [H|H]; injection H as -> ->; [exists (fx_base + fx_buf)|exists (fx_base + fx_st)]; by split; vm_compute. }
  assert (0 ≤ i < kQueueSize ∧ desc_len (w_ram dx_world) fx_d i = Ok 128 ∧ desc_flags (w_ram dx_world) fx_d i = Ok 2 ∧
    in_ram (w_ram dx_world) p 128 = true ∧ fx_buf ≤ p) as (H1 & H2 & H3 & H4 & H5).
  { destruct H as [H|H]; injection H as -> ->; (split; [done|]); (split; [by vm_compute|]); (split; [by vm_compute|]);
      (split; [by vm_compute|done]). }
  split; [exact H1|]. split; [done|]. split; [exact Ha|]. split; [exact H2|]. split; [by exists 2|]. split; [exact H4|].
  intros x Hx [H6|H6]; cbn [rb_cap rb_buf] in *; unfold fx_ring_prot, in_used, used_bytes, kQueueSize, fx_buf, fx_d, fx_a, fx_u in *; lia.
Qed.

Lemma dx_mem : mem_ok fx_ring_prot fx_d fx_a fx_u 2 0 0 dx_bufs 0 [] (regs dx_net) dx_world.
Proof.
  split.
  - by vm_compute.
  - apply fx_rings; [| |done|done|apply fx_u_ring_prot].
    + unfold dx_world, fx_avail, fx_desc. by repeat (etrans; [|apply same_map_pokes]).
    + apply wf_fx_avail, wf_fx_desc, wf_fx_desc, wf_fx_ram.
  - by vm_compute.
  - by vm_compute.
  - done.
  - apply Forall_cons; split; [apply dx_buf; by left|]. apply Forall_singleton, dx_buf. by right.
  - apply queued_cons; [by vm_compute|apply dx_buf; by left|].
    apply queued_cons; [by vm_compute|apply dx_buf; by right|apply queued_nil].
  - constructor.
Qed.

Lemma dx_sizes : Forall (λ d, wf_bytes d ∧ Z.of_nat (length d) ≤ 1994) [[1; 2; 3]].
Proof. apply Forall_singleton. split; [by apply wf_bytesb_ok|done]. Qed.

Lemma dx_room : room [[1; 2; 3]] dx_bufs.
Proof. split; [cbn; lia|]. intros [|[|j]] s Hj Hs; cbn in Hj, Hs; [injection Hs as <-; by vm_compute..|lia]. Qed.

Lemma dx_macs : wf_bytes (gw_mac Config0) ∧ wf_bytes (c_mac nx_conn).
Proof. split; by apply wf_bytesb_ok. Qed.

Lemma dx_apart : apart dx_bufs.
Proof. split; [apply Forall_singleton; by right|by split]. Qed.

Lemma dx_delivers : delivers (todo dx_start) [[1; 2; 3]].
Proof. apply dl_wait, dl_read, dl_end. by right. Qed.

Lemma dx_settles : ∃ y, rtc (dl_any 1 0 nx_key) dx_start y ∧ flush (dev y) = FBlocked ∧ ended y = true.
Proof.
  eapply (settles Config0 nx_conn 0 nx_key [[1; 2; 3]] wf_Config0 wf_nx_conn eq_refl (proj1 dx_macs) (proj2 dx_macs)
    dx_sizes fx_ring_prot fx_d fx_a fx_u 2 0 0 1 dx_bufs ltac:(done) dx_apart ltac:(done) dx_room _ dx_start 0 []); [|done].
  apply dl_ok_start; try done; first [apply wf_nx_conn | apply dx_macs | apply rx_ok_start | apply dx_delivers | apply dx_mem].
Qed.

